(* ===== verification/_CoqProject ===== *)
-Q . S2P
Prelude.v
Sync.v
Memory.v
Abi.v
Frames.v
Mmu.v
PageTables.v
AddressSpaces.v
Reclaim.v
VirtualMemory.v
Ownership.v
Isolation.v
Heap.v
Sched.v
Console.v
Elf.v
Loader.v
Devices.v
Process.v
Text.v
Ring.v
User.v
Vectors.v
Uring.v
Libu.v
Main.v
Threads.v
KernelInv.v
KernelRing.v
KernelSpawn.v
KernelSteps.v
KernelIrq.v
Interrupts.v
KernelExit.v
Lifecycle.v
Requests.v
Kernel.v
Preemption.v
Calls.v
Boot.v
Link.v
System.v
