(* ===== verification/Prelude.v ===== *)
(** * jatuli: a verification library

    jatuli is a small AArch64 kernel with a user library and two programs. This
    library is a shallow embedding of its Rust and assembly sources in Rocq, with
    the theorems that say what the parts promise and that the system as a whole
    keeps its processes apart.

    ** The program

    [kmain] (kernel/src/main.rs) runs after the entry stub (kernel/src/boot.s): it brings up the frame
    allocator, the page tables, the heap, traps, the interrupt controller and the
    timer, with a self-check after each, then the scheduler, a poller task and the
    shell. From then on control enters the kernel by an exception only: a system
    call, a fault or an interrupt. Programs talk to the kernel through a ring page
    shared with it (abi/src/lib.rs): they publish submissions, the kernel, in a
    system call or in the poller, executes them and posts completions; reads are
    completed from the UART interrupt. A process is a row of the process table, an
    address space of its own and a task of the scheduler.

    ** The model

    Rust functions are programs of the state and panic monad [M] below: [Ret]
    carries the result and the new state, [Panic] is a panic, a failed assertion, an
    overflow of checked arithmetic or a halt. Machine integers are [Z] with their
    wrap-around written out. Physical memory is a finite map from addresses to
    bytes; page tables, free list links, ring pages and program pages are bytes in
    it. States are nested: memory and allocator ([phys]), with the system registers
    ([mmu]), with tasks and CPU ([ksched]), with process table, console and devices
    ([kernel]), with the heap and the exception registers ([boot]); [zoomM] runs an operation of a part on the
    whole. [wp pan m Q s] is the weakest precondition of [m]; with [pan := False] it
    includes that [m] does not panic.

    Components, by file:
    - [Sync]: sync.rs, irq.rs. Locks and interrupt masking.
    - [Memory]: mem.rs, and byte-addressed memory.
    - [Abi]: abi/src/lib.rs, with the layout rules of [repr(C)].
    - [Frames]: frames.rs, the free list threaded through the free frames.
    - [Mmu]: mmu.rs. [PageTables], [AddressSpaces], [Reclaim], [Ownership] give the
      tables their meaning through a hardware walk and prove the operations;
      [VirtualMemory] has the resulting contracts; [Isolation] is the transition
      system of the memory operations alone, with its invariant [vm_inv].
    - [Heap]: allocator.rs, the bump allocator and its window.
    - [Sched]: sched.rs and switch.s, with the saved contexts in kernel memory.
    - [Console]: uart.rs and input.rs.
    - [Elf], [Loader]: elf.rs and its proofs.
    - [Devices]: gic.rs and timer.rs.
    - [Process]: process.rs, and the kernel state. [Text]: the formatting and UTF-8
      checks of [core] that kernel code uses.
    - [Ring]: ring.rs, programs.rs and the copies of user.rs.
    - [User]: user.rs, syscall.rs and exceptions.rs.
    - [Vectors]: exceptions.s, instruction by instruction.
    - [Uring], [Libu]: user/src/uring.rs, user/src/lib.rs and the programs.
    - [Main]: main.rs. [Threads]: the kernel's own threads, the poller, [kmain] after
      its checks and the threads those start, as trees of the operations between
      which they can be preempted.
    - [KernelInv]: the kernel's invariant [kinv]; [KernelRing], [KernelSpawn],
      [KernelSteps], [KernelIrq], [KernelExit]: that the operations of the ring, the
      creation of processes, the system calls, interrupts and the end of a process
      keep it. [Interrupts]: the interrupt handler with the lock of the process
      table. [Lifecycle]: parents and children, and freed roots. [Requests]: what
      prints and reads do, from the bytes a program sees to the serial line and back.
    - [Kernel]: every entry into the kernel, and every operation of a kernel thread,
      as one step relation [kstep]. [Preemption]: the threads with [kstep] between
      any two of their operations.
    - [Calls]: the user library on the running kernel: it finds its ring through the
      live tables, traps and waits; and the program echo.
    - [Boot]: [kmain] establishes the invariant, and with it the delivery of
      interrupts, from the device through the controller and DAIF to the vector table
      in VBAR_EL1. [Link]: the linker scripts and
      boot.s. [System]: what follows for every state the system comes to from reset,
      and a machine that runs.

    ** What is shown

    - The system (System, Link): from the reset vector boot completes, with the
      interrupts of timer and UART delivered; the invariant holds in every state the
      system comes to; whatever EL0 can reach in a process is that process's own page,
      a store of one is invisible to the others; [exit] and faults end one process and
      give back all it had; without processes the free frames are those of boot. These
      hold of runs in which the poller does not use the root or the ring page of a
      process that has ended, [kstep false]; [stale_root_unmaps_kernel] shows what it
      does when it does. An interrupt is handled to its end, unless it is the UART's
      and finds the lock of the process table held: then it never ends. No submission
      but a spawn can make the kernel panic while the space of its submitter is live.
      Kernel threads may be preempted between any two operations.
    - Requests (Requests, Calls): a print sends what the program sees, in the order
      of the calls; a read and the input meet in either order, and the reads that wait
      are answered in the order of their slots while there is input, for the process
      that has the keyboard; echo, run from its first instruction, prints its line and
      gives back all it had.
    - The ring (Uring, Lifecycle): the completion queue is a bounded FIFO between
      the two sides, submissions arrive as published, waiting loses no completion
      while its stash has room, and a wait meets the exit of a child in either order.
    - Traps (Vectors): a handler sees and decides what the interrupted context has.
    - Memory (VirtualMemory, Isolation, Frames, Memory, Heap, Loader): translation
      before and after each operation on the tables, the free list as a partition,
      blocks of the heap apart, programs loaded byte by byte with their permissions.
      The layout of user.ld (Link) is one the loader accepts.
    - Tasks (Sched): the running task is runnable, waiting is bounded, blocked and
      exited tasks stay so, a switch preserves the context.
    - Devices (Console, Devices): input is a lossless FIFO, output terminates, the
      interrupt controller is brought up.
    - The user library (Libu, Abi): decimal output, line editing, shared layout.

    Theorems named in the findings ([stale_root_unmaps_kernel],
    [kernel_task_keeps_space], [lock_held], [sqe_overrun], [stash_overflow]) describe
    what the code does where it does not do what its comments say.

    ** Bounds and fuel

    Loops that are not structural take fuel, and the amount passed is shown to be
    enough: [drain_sq] gets the distance of its 32-bit indices, [drain_input] one
    round more than the buffer holds, [reap] the sixteen entries of the queue,
    [print_dec] twenty digits, [wait_loop] as many rounds as the task is woken, of
    which the theorems need one, the loops of the allocators the number of frames they
    go through, [wait_tx] and [wait_awake] the delays of the device they poll.
    [irq_self_check] takes the moments at which a device may interrupt, and five of
    them must be the timer's; a lock is tried any number of times. Boot needs 2053 frames above
    the kernel image, four for each page of the heap window.

    ** Assumptions

    Code outside the sources is an argument: the table of embedded programs
    ([PROGRAMS]), of which [image_ok] says that the linker script places segments in
    the user slot, disjoint and away from stack and ring ([Link] shows that the layout
    of user.ld does); the block the heap returns for a task's stack; the addresses of
    entry points and of the vector table. The CPU is in order and there is one of it; TLB maintenance is
    taken to work.

    ** Not modelled

    - Interrupts inside an operation under a lock, and inside the start of a process
      by [kmain]: both are one step, but for the lock of the process table, which the
      interrupt handler of [Interrupts] may find held. Of the windows of the poller,
      the two in which a process must not end are excluded by [fresh] in [kstep false],
      and are premises of [preempted_threads]; the findings tell what happens there.
    - Interrupts during boot other than in [irq_self_check], which waits for them.
    - In [Calls], a program is not interrupted between its instructions; [Uring] and
      [Kernel] cover the interleavings.
    - Kernel stacks beyond the saved contexts and trap frames, and vector registers,
      which the code does not save either.
    - Build scripts, which run on the host; the kernel's panic handler beyond its
      halt; memory ordering.
*)

From Stdlib Require Import ZArith Lia.
From stdpp Require Import base numbers gmap list list_relations.

#[global] Open Scope Z_scope.

Declare Scope jatuli_scope.
Delimit Scope jatuli_scope with jt.
#[global] Open Scope jatuli_scope.

Create HintDb jatuli.

(** ** Machine integers *)

(** [wrap w x] is the value of a [w]-bit unsigned register holding [x]. *)
Definition wrap (w x : Z) : Z := x mod 2 ^ w.

(** [uN::wrapping_add] and [uN::wrapping_sub]. *)
Definition wrapping_add (w a b : Z) : Z := wrap w (a + b).
Definition wrapping_sub (w a b : Z) : Z := wrap w (a - b).

(** [usize::checked_add]: [None] when the sum leaves the 64-bit range. *)
Definition checked_add (a b : Z) : option Z :=
  if a + b <? 2 ^ 64 then Some (a + b) else None.

(** The two's-complement reading of a 64-bit word ([x as i64]). *)
Definition as_i64 (x : Z) : Z := if x <? 2 ^ 63 then x else x - 2 ^ 64.
(** The 64-bit word of a signed value ([x as u64]). *)
Definition as_u64 (x : Z) : Z := wrap 64 x.

(** ** Programs that may panic

    Kernel code is modelled as a function of an explicit state. A Rust panic
    parks the CPU for ever ([panic] in main.rs), so it is an outcome of its own
    and carries no state. *)

Inductive outcome (A : Type) : Type :=
| Ret (a : A)
| Panic.
Arguments Ret {A} a.
Arguments Panic {A}.

Definition M (S A : Type) : Type := S -> outcome (A * S).

Definition retM {S A} (a : A) : M S A := fun s => Ret (a, s).
Definition bindM {S A B} (m : M S A) (k : A -> M S B) : M S B := fun s =>
  match m s with
  | Ret (a, s') => k a s'
  | Panic => Panic
  end.
Definition panicM {S A} : M S A := fun _ => Panic.
Definition getM {S} : M S S := fun s => Ret (s, s).
Definition getsM {S A} (f : S -> A) : M S A := fun s => Ret (f s, s).
Definition putM {S} (s' : S) : M S unit := fun _ => Ret (tt, s').
Definition modifyM {S} (f : S -> S) : M S unit := fun s => Ret (tt, f s).

(** [o.expect(..)] and [assert!(b)]. *)
Definition expectM {S A} (o : option A) : M S A :=
  match o with Some a => retM a | None => panicM end.
Definition assertM {S} (b : bool) : M S unit :=
  if b then retM tt else panicM.

(** [a + b] on [usize] in the dev profile: an overflow panics. *)
Definition addM {S} (a b : Z) : M S Z := expectM (checked_add a b).

(** [a - b] on [usize] in the dev profile: a borrow panics. *)
Definition subM {S} (a b : Z) : M S Z :=
  if a <? b then panicM else retM (a - b).

(** Run an operation of a component on its part of a larger state. *)
Definition zoomM {S T A} (get : S -> T) (set : T -> S -> S) (m : M T A) : M S A :=
  fun s =>
    match m (get s) with
    | Ret (a, t) => Ret (a, set t s)
    | Panic => Panic
    end.

Notation "'let!' x ':=' m 'in' k" := (bindM m (fun x => k))
  (at level 10, x pattern, m at level 100, k at level 200,
   format "'[v' 'let!'  x  ':='  m  'in' '/' k ']'") : jatuli_scope.
Notation "m ;;; k" := (bindM m (fun _ => k))
  (at level 100, right associativity,
   format "'[v' m ;;; '/' k ']'") : jatuli_scope.

(** Iterate a body over a list of loop indices. *)
Fixpoint forM {S A} (l : list A) (body : A -> M S unit) : M S unit :=
  match l with
  | [] => retM tt
  | x :: l' => body x ;;; forM l' body
  end.

(** The indices [lo, lo+1, ..., lo+n-1] of a [for] loop. *)
Definition zseq (lo : Z) (n : nat) : list Z := (fun i : nat => lo + Z.of_nat i) <$> seq 0 n.
#[global] Arguments zseq : simpl never.

(** ** Weakest preconditions

    [wp pan m Q s]: running [m] from [s] ends in a state satisfying [Q], or
    panics and [pan] holds. [wp False] is total correctness without panics;
    [wp True] allows the kernel to halt. *)
Definition wp {S A} (pan : Prop) (m : M S A) (Q : A -> S -> Prop) (s : S) : Prop :=
  match m s with
  | Ret (a, s') => Q a s'
  | Panic => pan
  end.

(** Total correctness names the result. *)
Lemma wp_result {S A} (m : M S A) Q s :
  wp False m Q s -> exists a s', m s = Ret (a, s') /\ Q a s'.
Proof. unfold wp. destruct (m s) as [[a s']|]; [eauto|done]. Qed.

Lemma wp_unit {S} (m : M S unit) (Q : S -> Prop) s :
  wp False m (fun _ => Q) s -> exists s', m s = Ret (tt, s') /\ Q s'.
Proof. intros H. destruct (wp_result _ _ _ H) as ([] & s' & ?). eauto. Qed.

(** The run itself may be recorded in the postcondition. *)
Lemma wp_eq {S A} pan (m : M S A) Q s :
  wp pan m Q s -> wp pan m (fun a s' => m s = Ret (a, s') /\ Q a s') s.
Proof. unfold wp. destruct (m s) as [[a s']|]; auto. Qed.

Lemma wp_and {S A} pan (m : M S A) Q R s : wp pan m Q s -> wp pan m R s -> wp pan m (fun a s' => Q a s' /\ R a s') s.
Proof. unfold wp. destruct (m s) as [[a s']|]; auto. Qed.

(** A specification describes every run. *)
Lemma wp_run {S A} pan (m : M S A) Q s a s' : wp pan m Q s -> m s = Ret (a, s') -> Q a s'.
Proof. unfold wp. intros H Hrun. by rewrite Hrun in H. Qed.

Lemma bind_run {S A B} (m : M S A) (f : A -> M S B) s b s' :
  bindM m f s = Ret (b, s') -> exists a s1, m s = Ret (a, s1) /\ f a s1 = Ret (b, s').
Proof. unfold bindM. destruct (m s) as [[a s1]|]; [|done]. eauto. Qed.

(** The state a run ends in (the initial one if it panics). *)
Definition exec {S A} (m : M S A) (s : S) : S :=
  match m s with Ret (_, s') => s' | Panic => s end.

Lemma wp_exec {S A} (m : M S A) Q s :
  wp False m Q s -> exists a, m s = Ret (a, exec m s) /\ Q a (exec m s).
Proof. unfold wp, exec. destruct (m s) as [[a s']|]; [eauto|done]. Qed.

(** A run can be shown not to panic by evaluation. *)
Definition returns {S A} (m : M S A) (s : S) : bool :=
  match m s with Ret _ => true | Panic => false end.

Lemma exec_returns {S} (m : M S unit) s : returns m s = true -> m s = Ret (tt, exec m s).
Proof. unfold returns, exec. by destruct (m s) as [[[] s']|]. Qed.

Lemma Ret_inj {A B} (a a' : A) (b b' : B) : Ret (a, b) = Ret (a', b') -> a = a' /\ b = b'.
Proof. by intros [= -> ->]. Qed.

Lemma addM_state {S} a b (s s' : S) w : addM a b s = Ret (w, s') -> w = a + b /\ s' = s.
Proof.
  unfold addM, expectM, checked_add. destruct (a + b <? 2 ^ 64); [|done]. by intros [= <- <-].
Qed.

Section wp_rules.
Context {S A B : Type}.
Implicit Types (pan : Prop) (s : S).

Lemma wp_ret pan (a : A) Q s : Q a s -> wp pan (retM a) Q s.
Proof. done. Qed.

Lemma wp_bind pan (m : M S A) (k : A -> M S B) Q s :
  wp pan m (fun a s' => wp pan (k a) Q s') s -> wp pan (bindM m k) Q s.
Proof. unfold wp, bindM. by destruct (m s) as [[a s']|]. Qed.

Lemma wp_mono pan (m : M S A) (Q Q' : A -> S -> Prop) s :
  wp pan m Q s -> (forall a s', Q a s' -> Q' a s') -> wp pan m Q' s.
Proof. unfold wp. destruct (m s) as [[a s']|]; eauto. Qed.

Lemma wp_pan (pan pan' : Prop) (m : M S A) Q s :
  (pan -> pan') -> wp pan m Q s -> wp pan' m Q s.
Proof. unfold wp. destruct (m s) as [[a s']|]; eauto. Qed.

Lemma wp_get pan Q s : Q s s -> wp pan getM Q s.
Proof. done. Qed.

Lemma wp_gets pan (f : S -> A) Q s : Q (f s) s -> wp pan (getsM f) Q s.
Proof. done. Qed.

Lemma wp_put pan (s' : S) Q s : Q tt s' -> wp pan (putM s') Q s.
Proof. done. Qed.

Lemma wp_modify pan (f : S -> S) Q s : Q tt (f s) -> wp pan (modifyM f) Q s.
Proof. done. Qed.

Lemma wp_assert pan (b : bool) Q s :
  (b = true -> Q tt s) -> (b = false -> pan) -> wp pan (assertM b) Q s.
Proof. destruct b; cbn; auto. Qed.

Lemma wp_expect pan (o : option A) Q s :
  (forall a, o = Some a -> Q a s) -> (o = None -> pan) -> wp pan (expectM o) Q s.
Proof. destruct o; cbn; auto. Qed.

Lemma wp_expect_some pan (a : A) Q s : Q a s -> wp pan (expectM (Some a)) Q s.
Proof. done. Qed.

Lemma wp_expect_none pan Q s : pan -> wp pan (expectM (A:=A) None) Q s.
Proof. done. Qed.

Lemma wp_add pan (a b : Z) Q s :
  a + b < 2 ^ 64 -> Q (a + b) s -> wp pan (addM a b) Q s.
Proof.
  intros Hlt HQ. unfold addM, checked_add.
  by destruct (Z.ltb_spec (a + b) (2 ^ 64)); [|lia].
Qed.


Lemma wp_sub pan (a b : Z) Q s :
  b <= a -> Q (a - b) s -> wp pan (subM a b) Q s.
Proof.
  intros Hle HQ. unfold subM. by destruct (Z.ltb_spec a b); [lia|].
Qed.
End wp_rules.

(** A loop rule: an invariant indexed by the elements already visited. *)
Lemma wp_forM {S A} (pan : Prop) (l : list A) (body : A -> M S unit)
    (I : list A -> S -> Prop) s :
  I [] s ->
  (forall done x rest s', l = done ++ x :: rest -> I done s' ->
     wp pan (body x) (fun _ s'' => I (done ++ [x]) s'') s') ->
  wp pan (forM l body) (fun _ s' => I l s') s.
Proof.
  intros H0 Hstep.
  enough (forall rest done s', l = done ++ rest -> I done s' ->
            wp pan (forM rest body) (fun _ s'' => I l s'') s') as Hgen.
  { apply (Hgen l []); done. }
  induction rest as [|x rest IH]; intros done s' Hl HI; cbn [forM].
  - rewrite app_nil_r in Hl. by subst.
  - apply wp_bind. eapply wp_mono; [by eapply Hstep|].
    intros [] s'' HI'. apply (IH (done ++ [x])); [|done].
    by rewrite <-app_assoc.
Qed.

Lemma wp_zoom {S T A} pan (get : S -> T) (set : T -> S -> S) (m : M T A) Q s :
  wp pan m (fun a t => Q a (set t s)) (get s) -> wp pan (zoomM get set m) Q s.
Proof. unfold wp, zoomM. by destruct (m (get s)) as [[a t]|]. Qed.

#[export] Hint Resolve wp_ret wp_get wp_gets wp_put wp_modify : jatuli.

(** Symbolic execution: peel the monadic structure off a [wp] goal. *)
Ltac wp_step :=
  match goal with
  | |- wp _ (bindM _ _) _ _ => apply wp_bind
  | |- wp _ (retM _) _ _ => apply wp_ret
  | |- wp _ getM _ _ => apply wp_get
  | |- wp _ (getsM _) _ _ => apply wp_gets
  | |- wp _ (expectM (Some _)) _ _ => apply wp_expect_some
  | |- wp _ (putM _) _ _ => apply wp_put
  | |- wp _ (modifyM _) _ _ => apply wp_modify
  | |- wp _ (zoomM _ _ _) _ _ => apply wp_zoom
  | |- wp _ (assertM _) _ _ => apply wp_assert; [intros ?|intros ?]
  end.
Ltac wp_steps := repeat (wp_step; cbn beta iota).

(** Linear arithmetic with division and remainder by constants. *)
Ltac zlia := Z.to_euclidean_division_equations; lia.

(** ** Arithmetic of masks and shifts *)

(** [!x] on a 64-bit word. *)
Definition not64 (x : Z) : Z := 2 ^ 64 - 1 - x.

Lemma land_shifted_ones x k n :
  0 <= k -> 0 <= n ->
  Z.land x (Z.shiftl (Z.ones n) k) = 2 ^ k * ((x / 2 ^ k) mod 2 ^ n).
Proof.
  intros Hk Hn.
  rewrite <-Z.land_ones, <-Z.shiftr_div_pow2, Z.mul_comm, <-Z.shiftl_mul_pow2 by done.
  apply Z.bits_inj'. intros i Hi.
  rewrite Z.land_spec, !Z.shiftl_spec, Z.land_spec by done.
  destruct (Z.lt_ge_cases i k).
  - rewrite !(Z.testbit_neg_r _ (i - k)) by lia. by rewrite andb_false_r.
  - rewrite Z.shiftr_spec by lia. by replace (i - k + k) with i by lia.
Qed.

Lemma land_mod_512 x k : 0 <= k -> Z.land (Z.shiftr x k) 0x1FF = (x / 2 ^ k) mod 512.
Proof.
  intros. change 0x1FF with (Z.ones 9).
  by rewrite Z.land_ones, Z.shiftr_div_pow2.
Qed.

Lemma land_not64 x k :
  0 <= k <= 64 -> 0 <= x < 2 ^ 64 ->
  Z.land x (not64 (2 ^ k - 1)) = 2 ^ k * (x / 2 ^ k).
Proof.
  intros Hk Hx. unfold not64.
  replace (2 ^ 64 - 1 - (2 ^ k - 1)) with (Z.shiftl (Z.ones (64 - k)) k).
  2:{ rewrite Z.shiftl_mul_pow2, Z.ones_equiv by lia.
      replace (2 ^ 64) with (2 ^ (64 - k) * 2 ^ k)
        by (rewrite <-Z.pow_add_r by lia; f_equal; lia). nia. }
  rewrite land_shifted_ones by lia. rewrite Z.mod_small; [done|].
  assert (0 < 2 ^ k) by (apply Z.pow_pos_nonneg; lia).
  split; [apply Z.div_pos; lia|]. apply Z.div_lt_upper_bound; [done|].
  rewrite <-Z.pow_add_r by lia. replace (k + (64 - k)) with 64 by lia. lia.
Qed.

(** Rounding up to a power of two, the shape of every [align_up] in the code. *)
Lemma align_up_eq x k :
  0 <= k < 64 -> 0 <= x -> x + (2 ^ k - 1) < 2 ^ 64 ->
  Z.land (x + (2 ^ k - 1)) (not64 (2 ^ k - 1)) = 2 ^ k * ((x + (2 ^ k - 1)) / 2 ^ k).
Proof.
  intros. assert (0 < 2 ^ k) by (apply Z.pow_pos_nonneg; lia).
  apply land_not64; lia.
Qed.

Lemma align_up_bounds x a :
  0 < a -> let r := a * ((x + (a - 1)) / a) in x <= r < x + a /\ r mod a = 0.
Proof.
  intros Ha r. pose proof (Z.div_mod (x + (a - 1)) a). pose proof (Z.mod_pos_bound (x + (a - 1)) a).
  split; [unfold r; lia|]. unfold r. rewrite Z.mul_comm. apply Z.mod_mul. lia.
Qed.

(** ** Lists *)

Lemma zseq_S lo n : zseq lo (S n) = lo :: zseq (lo + 1) n.
Proof.
  unfold zseq. cbn [seq fmap list_fmap]. f_equal; [lia|].
  rewrite <-fmap_S_seq, <-list_fmap_compose.
  apply list_fmap_ext. intros i x _. cbn. lia.
Qed.

Lemma zseq_snoc lo n : zseq lo (S n) = zseq lo n ++ [lo + Z.of_nat n].
Proof. unfold zseq. by rewrite seq_S, fmap_app. Qed.

Lemma elem_of_zseq x lo n : x ∈ zseq lo n <-> lo <= x < lo + Z.of_nat n.
Proof.
  unfold zseq. rewrite list_elem_of_fmap. split.
  - intros (i & -> & Hi%elem_of_seq). lia.
  - intros H. exists (Z.to_nat (x - lo)). rewrite elem_of_seq. lia.
Qed.

Lemma length_zseq lo n : length (zseq lo n) = n.
Proof. unfold zseq. by rewrite length_fmap, length_seq. Qed.

Lemma NoDup_zseq lo n : NoDup (zseq lo n).
Proof. unfold zseq. apply NoDup_fmap_2; [intros ??; lia|apply NoDup_seq]. Qed.

Lemma Forall_elem {A} (P : A -> Prop) (l : list A) x : Forall P l -> x ∈ l -> P x.
Proof. intros H. by apply Forall_forall. Qed.
