(* ===== verification/Sync.v ===== *)
(** * Locks and interrupt masking

    kernel/src/sync.rs and kernel/src/irq.rs: the spinlock around the kernel's
    statics and the critical sections of the scheduler. An operation that takes a
    free lock and drops the guard runs as if the lock were not there, which is how
    the other files model it; a lock that is held is never obtained on the one CPU
    that spins for it, which [Interrupts] takes up for the interrupt handler. *)

From Stdlib Require Import ZArith Lia.
From stdpp Require Import base numbers.
From S2P Require Import Prelude.

(** ** sync.rs *)

Record Locked (A : Type) := mkLocked { locked : bool; inner : A }.
Arguments mkLocked {A}.
Arguments locked {A}.
Arguments inner {A}.

Section lock.
Context {A : Type}.

Definition Locked_new (v : A) : Locked A := mkLocked false v.

(** [compare_exchange(false, true)]: whether it succeeded. *)
Definition try_lock : M (Locked A) bool :=
  let! l := getM in
  if locked l then retM false else modifyM (fun l => mkLocked true (inner l)) ;;; retM true.

(** [lock], given up after [spins] attempts that failed. *)
Fixpoint lock (spins : nat) : M (Locked A) bool :=
  let! ok := try_lock in
  if ok then retM true
  else match spins with O => retM false | S n => lock n end.

(** [Deref], [DerefMut] and [drop] of the guard. *)
Definition deref {B} (m : M A B) : M (Locked A) B := zoomM inner (fun v l => mkLocked (locked l) v) m.
Definition drop_guard : M (Locked A) unit := modifyM (fun l => mkLocked false (inner l)).

(** An operation under the lock. *)
Definition with_lock {B} (m : M A B) : M (Locked A) B :=
  let! ok := lock 0 in
  assertM ok ;;;
  let! b := deref m in
  drop_guard ;;;
  retM b.

Lemma with_lock_free {B} (m : M A B) v :
  with_lock m (Locked_new v) = match m v with Ret (b, v') => Ret (b, Locked_new v') | Panic => Panic end.
Proof. unfold with_lock, deref, zoomM, bindM. cbn. by destruct (m v) as [[b v']|]. Qed.

(** However long it spins. *)
Lemma lock_held spins v : lock spins (mkLocked true v) = Ret (false, mkLocked true v).
Proof. induction spins as [|n IH]; cbn [lock]; unfold bindM; cbn; [done|exact IH]. Qed.
End lock.

(** ** irq.rs *)

(** PSTATE's I bit within DAIF. *)
Definition I_MASK : Z := Z.shiftl 1 7.
Definition masked (daif : Z) : bool := Z.testbit daif 7.

Definition disable : M Z Z :=
  let! daif := getM in
  modifyM (fun d => Z.lor d I_MASK) ;;;
  retM daif.
Definition restore (daif : Z) : M Z unit := modifyM (fun _ => daif).
Definition enable : M Z unit := modifyM (fun d => Z.ldiff d I_MASK).

Lemma disable_masks daif : exists d, disable daif = Ret (daif, d) /\ masked d = true.
Proof. exists (Z.lor daif I_MASK). split; [done|]. unfold masked, I_MASK. by rewrite Z.lor_spec, orb_true_r. Qed.

Lemma enable_unmasks daif : exists d, enable daif = Ret (tt, d) /\ masked d = false.
Proof. exists (Z.ldiff daif I_MASK). split; [done|]. unfold masked, I_MASK. by rewrite Z.ldiff_spec, andb_false_r. Qed.

(** Critical sections nest: whatever mask a section found, it leaves. *)
Lemma section_restores {B} (m : M Z B) daif b d :
  (let! saved := disable in let! b := m in restore saved ;;; retM b) daif = Ret (b, d) -> d = daif.
Proof. unfold bindM. cbn. destruct (m _) as [[? ?]|]; [|done]. cbn. by intros [= _ <-]. Qed.
