(* ===== verification/Memory.v ===== *)
(** * Physical memory and the freestanding memory primitives

    Byte-addressed memory as the kernel sees it through the identity map, its
    little-endian word accesses, and the four routines of kernel/src/mem.rs
    ([memcpy], [memset], [memmove], [memcmp]). *)

From Stdlib Require Import ZArith Lia.
From stdpp Require Import base numbers gmap list list_relations.
From S2P Require Import Prelude.

(** ** Bytes and words *)

(** RAM as a finite map from addresses to bytes; an address that was never
    written reads as 0, and any other initial content is some other map. *)
Abbreviation mem := (gmap Z Z).

Definition read8 (m : mem) (a : Z) : Z := default 0 (m !! a).
Definition write8 (m : mem) (a v : Z) : mem := <[a := wrap 8 v]> m.

(** Little-endian load and store of [n] bytes. *)
Fixpoint load (n : nat) (m : mem) (a : Z) : Z :=
  match n with
  | O => 0
  | S n' => read8 m a + 256 * load n' m (a + 1)
  end.
Fixpoint store (n : nat) (m : mem) (a v : Z) : mem :=
  match n with
  | O => m
  | S n' => store n' (write8 m a v) (a + 1) (v / 256)
  end.

Definition read64 (m : mem) (a : Z) : Z := load 8 m a.
Definition write64 (m : mem) (a v : Z) : mem := store 8 m a v.
Definition read32 (m : mem) (a : Z) : Z := load 4 m a.
Definition write32 (m : mem) (a v : Z) : mem := store 4 m a v.
#[global] Arguments read64 : simpl never.
#[global] Arguments write64 : simpl never.
#[global] Arguments read32 : simpl never.
#[global] Arguments write32 : simpl never.

(** Every cell holds a byte. *)
Definition mem_ok (m : mem) : Prop := forall a v, m !! a = Some v -> 0 <= v < 256.

(** [m] and [m'] agree on [[a, a + n)]. *)
Definition same_on (m m' : mem) (a n : Z) : Prop :=
  forall b, a <= b < a + n -> read8 m' b = read8 m b.

(** ** kernel/src/mem.rs *)

(** The forward copy loop, [k] iterations from index [i]. *)
Fixpoint copy_up (k : nat) (dest src i : Z) (m : mem) : mem :=
  match k with
  | O => m
  | S k' => copy_up k' dest src (i + 1) (write8 m (dest + i) (read8 m (src + i)))
  end.

(** The backward copy loop: [while i > 0 { i -= 1; ... }] from index [i]. *)
Fixpoint copy_down (i : nat) (dest src : Z) (m : mem) : mem :=
  match i with
  | O => m
  | S i' => copy_down i' dest src
              (write8 m (dest + Z.of_nat i') (read8 m (src + Z.of_nat i')))
  end.

Definition memcpy (dest src : Z) (n : nat) (m : mem) : Z * mem :=
  (dest, copy_up n dest src 0 m).

Fixpoint fill_up (k : nat) (dest byte i : Z) (m : mem) : mem :=
  match k with
  | O => m
  | S k' => fill_up k' dest byte (i + 1) (write8 m (dest + i) byte)
  end.

(** [value as u8] truncates the [i32] argument. *)
Definition memset (dest value : Z) (n : nat) (m : mem) : Z * mem :=
  let byte := wrap 8 value in
  (dest, fill_up n dest byte 0 m).

Definition memmove (dest src : Z) (n : nat) (m : mem) : Z * mem :=
  if src <? dest then (dest, copy_down n dest src m)
  else (dest, copy_up n dest src 0 m).

Fixpoint cmp_up (k : nat) (a b i : Z) (m : mem) : Z :=
  match k with
  | O => 0
  | S k' =>
      let x := read8 m (a + i) in
      let y := read8 m (b + i) in
      if negb (x =? y) then x - y else cmp_up k' a b (i + 1) m
  end.

Definition memcmp (a b : Z) (n : nat) (m : mem) : Z := cmp_up n a b 0 m.

(** ** Lemmas on bytes and words *)

Lemma read8_write8_eq m a v : read8 (write8 m a v) a = wrap 8 v.
Proof. unfold read8, write8. by rewrite lookup_insert_eq. Qed.

Lemma read8_write8_ne m a b v : a <> b -> read8 (write8 m a v) b = read8 m b.
Proof. intros. unfold read8, write8. by rewrite lookup_insert_ne. Qed.

Lemma mem_ok_empty : mem_ok ∅.
Proof. intros a v. by rewrite lookup_empty. Qed.

Lemma mem_ok_write8 m a v : mem_ok m -> mem_ok (write8 m a v).
Proof.
  intros Hm b w. unfold write8. rewrite lookup_insert_Some.
  intros [[_ <-]|[_ Hw]]; [|by eauto].
  unfold wrap. apply Z.mod_pos_bound. lia.
Qed.

Lemma mem_ok_store n m a v : mem_ok m -> mem_ok (store n m a v).
Proof. revert m a v. induction n; cbn; auto using mem_ok_write8. Qed.

Lemma read8_range m a : mem_ok m -> 0 <= read8 m a < 256.
Proof.
  intros Hm. unfold read8. destruct (m !! a) eqn:E; cbn; [by eapply Hm|lia].
Qed.

Lemma load_range n m a : mem_ok m -> 0 <= load n m a < 256 ^ Z.of_nat n.
Proof.
  intros Hm. revert a. induction n as [|n IH]; intros a; cbn [load]; [cbn; lia|].
  pose proof (read8_range m a Hm). specialize (IH (a + 1)).
  rewrite Nat2Z.inj_succ, Z.pow_succ_r by lia. lia.
Qed.

Lemma read8_store_ne n m a v b :
  ~ (a <= b < a + Z.of_nat n) -> read8 (store n m a v) b = read8 m b.
Proof.
  revert m a v. induction n as [|n IH]; intros m a v Hb; cbn [store]; [done|].
  rewrite IH, read8_write8_ne by lia. done.
Qed.

Lemma load_ext n m m' a :
  same_on m m' a (Z.of_nat n) -> load n m' a = load n m a.
Proof.
  revert a. induction n as [|n IH]; intros a H; cbn [load]; [done|].
  rewrite H by lia. rewrite IH; [done|]. intros b Hb. apply H. lia.
Qed.

Lemma load_store_eq n m a v : load n (store n m a v) a = v mod 256 ^ Z.of_nat n.
Proof.
  revert m a v. induction n as [|n IH]; intros m a v; cbn [load store].
  { by rewrite Z.mod_1_r. }
  rewrite IH, read8_store_ne, read8_write8_eq by lia. unfold wrap.
  rewrite Nat2Z.inj_succ, Z.pow_succ_r by lia. change (2 ^ 8) with 256.
  rewrite Z.rem_mul_r by lia. lia.
Qed.

Lemma load_store_ne n k m a b v :
  a + Z.of_nat n <= b \/ b + Z.of_nat k <= a ->
  load k (store n m a v) b = load k m b.
Proof. intros. apply load_ext. intros c Hc. apply read8_store_ne. lia. Qed.

Lemma read64_write64_eq m a v : 0 <= v < 2 ^ 64 -> read64 (write64 m a v) a = v.
Proof.
  intros. unfold read64, write64. rewrite load_store_eq. apply Z.mod_small. lia.
Qed.

Lemma read64_write64_ne m a b v :
  a + 8 <= b \/ b + 8 <= a -> read64 (write64 m a v) b = read64 m b.
Proof. intros. apply load_store_ne. lia. Qed.

Lemma read64_range m a : mem_ok m -> 0 <= read64 m a < 2 ^ 64.
Proof. intros Hm. pose proof (load_range 8 m a Hm). by cbn in *. Qed.

#[export] Hint Resolve mem_ok_empty mem_ok_write8 mem_ok_store : jatuli.

Lemma wrap8_id v : 0 <= v < 256 -> wrap 8 v = v.
Proof. intros. apply Z.mod_small. lia. Qed.

(** ** Lemmas on the copy loops *)

Lemma mem_ok_copy_up k dest src i m : mem_ok m -> mem_ok (copy_up k dest src i m).
Proof. revert i m. induction k; cbn; auto with jatuli. Qed.

Lemma mem_ok_copy_down i dest src m : mem_ok m -> mem_ok (copy_down i dest src m).
Proof. revert m. induction i; cbn; auto with jatuli. Qed.

Lemma copy_up_out k dest src i m b :
  ~ (dest + i <= b < dest + i + Z.of_nat k) -> read8 (copy_up k dest src i m) b = read8 m b.
Proof.
  revert i m. induction k as [|k IH]; intros i m Hb; cbn [copy_up]; [done|].
  rewrite IH, read8_write8_ne by lia. done.
Qed.

Lemma copy_down_out i dest src m b :
  ~ (dest <= b < dest + Z.of_nat i) -> read8 (copy_down i dest src m) b = read8 m b.
Proof.
  revert m. induction i as [|i IH]; intros m Hb; cbn [copy_down]; [done|].
  rewrite IH, read8_write8_ne by lia. done.
Qed.

(** Copying upwards is right when the source is not below the destination, or
    the two ranges are disjoint: the loop then never reads a byte it wrote. *)
Lemma copy_up_in k dest src i m j :
  mem_ok m -> 0 <= i -> i <= j < i + Z.of_nat k ->
  dest <= src \/ src + i + Z.of_nat k <= dest + i ->
  read8 (copy_up k dest src i m) (dest + j) = read8 m (src + j).
Proof.
  revert i m. induction k as [|k IH]; intros i m Hm Hi Hj Hov; cbn [copy_up]; [lia|].
  destruct (decide (j = i)) as [->|].
  - rewrite copy_up_out, read8_write8_eq by lia. by apply wrap8_id, read8_range.
  - rewrite IH by (auto with jatuli; lia).
    destruct (decide (dest + i = src + j)) as [E|]; [lia|].
    by apply read8_write8_ne.
Qed.

(** Copying downwards is right when the source is below the destination. *)
Lemma copy_down_in i dest src m j :
  mem_ok m -> src <= dest -> 0 <= j < Z.of_nat i ->
  read8 (copy_down i dest src m) (dest + j) = read8 m (src + j).
Proof.
  revert m. induction i as [|i IH]; intros m Hm Hlt Hj; cbn [copy_down]; [lia|].
  destruct (decide (j = Z.of_nat i)) as [->|].
  - rewrite copy_down_out, read8_write8_eq by lia. by apply wrap8_id, read8_range.
  - rewrite IH by (auto with jatuli; lia). apply read8_write8_ne. lia.
Qed.

Lemma fill_up_out k dest byte i m b :
  ~ (dest + i <= b < dest + i + Z.of_nat k) -> read8 (fill_up k dest byte i m) b = read8 m b.
Proof.
  revert i m. induction k as [|k IH]; intros i m Hb; cbn [fill_up]; [done|].
  rewrite IH, read8_write8_ne by lia. done.
Qed.

Lemma fill_up_in k dest byte i m b :
  dest + i <= b < dest + i + Z.of_nat k -> read8 (fill_up k dest byte i m) b = wrap 8 byte.
Proof.
  revert i m. induction k as [|k IH]; intros i m Hb; cbn [fill_up]; [lia|].
  destruct (decide (b = dest + i)) as [->|]; [|apply IH; lia].
  rewrite fill_up_out by lia. apply read8_write8_eq.
Qed.

Lemma mem_ok_fill_up k dest byte i m : mem_ok m -> mem_ok (fill_up k dest byte i m).
Proof. revert i m. induction k; cbn; auto with jatuli. Qed.

#[export] Hint Resolve mem_ok_copy_up mem_ok_copy_down mem_ok_fill_up : jatuli.

Lemma cmp_up_spec k a b i m :
  match list_find (fun j => read8 m (a + j) <> read8 m (b + j)) (zseq i k) with
  | None => cmp_up k a b i m = 0
  | Some (_, j) => cmp_up k a b i m = read8 m (a + j) - read8 m (b + j)
  end.
Proof.
  revert i. induction k as [|k IH]; intros i; [done|].
  rewrite zseq_S. cbn [list_find cmp_up]. specialize (IH (i + 1)).
  case_decide as E; destruct (Z.eqb_spec (read8 m (a + i)) (read8 m (b + i))); try done.
  cbn [negb]. by destruct (list_find _ (zseq (i + 1) k)) as [[? ?]|]; cbn.
Qed.

(** ** Properties *)

(** C28: [memmove] copies [n] bytes from [src] to [dest] exactly, for every
    overlap of the two ranges, leaves every other byte alone, and returns
    [dest]. *)
Theorem memmove_spec dest src n m :
  mem_ok m ->
  let '(r, m') := memmove dest src n m in
  r = dest /\
  (forall j, 0 <= j < Z.of_nat n -> read8 m' (dest + j) = read8 m (src + j)) /\
  (forall b, ~ (dest <= b < dest + Z.of_nat n) -> read8 m' b = read8 m b).
Proof.
  intros Hm. unfold memmove. destruct (Z.ltb_spec src dest) as [Hlt|Hge].
  - split_and!; [done|intros j Hj; apply copy_down_in; auto; lia|].
    intros b Hb. by apply copy_down_out.
  - split_and!; [done|intros j Hj; apply copy_up_in; auto; lia|].
    intros b Hb. apply copy_up_out. lia.
Qed.

Definition overlap_mem : mem := write8 (write8 (write8 ∅ 100 7) 101 8) 102 9.

Lemma memmove_spec_witness :
  mem_ok overlap_mem /\ read8 (snd (memmove 101 100 3 overlap_mem)) 103 = 9.
Proof.
  assert (Hok : mem_ok overlap_mem) by (unfold overlap_mem; auto with jatuli).
  split; [exact Hok|].
  exact (proj1 (proj2 (memmove_spec 101 100 3 overlap_mem Hok)) 2 ltac:(lia)).
Defined.
