(* ===== verification/Abi.v ===== *)
(** * The kernel/userspace contract (abi/src/lib.rs)

    Syscall numbers, the user address window, the opcodes, and the layout of the
    shared ring page computed by the [repr(C)] rules from the field types. *)

From Stdlib Require Import ZArith Lia String.
From stdpp Require Import base numbers gmap strings list list_relations.
From S2P Require Import Prelude.

(** ** Constants *)

Definition SYS_ADD : Z := 1.
Definition SYS_EXIT : Z := 3.
Definition SYS_RING_SETUP : Z := 5.
Definition SYS_RING_ENTER : Z := 6.

Definition USER_BASE : Z := 0x8000000000.
Definition USER_L0_IDX : Z := Z.shiftr USER_BASE 39.
Definition USER_RING_VA : Z := USER_BASE + 0x300000.

Definition RING_ENTRIES : Z := 16.
Definition RING_MASK : Z := RING_ENTRIES - 1.
Definition NEED_WAKEUP : Z := 1.

Definition OP_NOP : Z := 0.
Definition OP_PRINT : Z := 1.
Definition OP_READ : Z := 2.
Definition OP_SPAWN : Z := 3.
Definition OP_WAIT : Z := 4.

(** ** [repr(C)] layout *)

(** The field types the shared structures use. *)
Inductive ctype : Type :=
| CU32                          (* AtomicU32 *)
| CU64                          (* AtomicU64, AtomicI64 *)
| CBytes (n : Z)                (* [u8; n] *)
| CArray (elt : list ctype) (n : Z).   (* [Struct; n] *)

(** Round [off] up to a multiple of [a]. *)
Definition pad_to (off a : Z) : Z := a * ((off + (a - 1)) / a).

(** Size and alignment of a type; a structure ends on a multiple of its
    alignment. *)
Fixpoint size_align (t : ctype) : Z * Z :=
  match t with
  | CU32 => (4, 4)
  | CU64 => (8, 8)
  | CBytes n => (n, 1)
  | CArray elt n =>
      let '(off, al) :=
        (fix go (fs : list ctype) (off al : Z) : Z * Z :=
           match fs with
           | [] => (off, al)
           | f :: fs' =>
               let '(sz, a) := size_align f in
               go fs' (pad_to off a + sz) (Z.max al a)
           end) elt 0 1 in
      (pad_to off al * n, al)
  end.

Definition struct_size (fs : list ctype) : Z := (size_align (CArray fs 1)).1.

(** Offset of the [i]-th field. *)
Fixpoint offset_from (fs : list ctype) (off : Z) (i : nat) : Z :=
  match fs with
  | [] => off
  | f :: fs' =>
      let '(sz, a) := size_align f in
      match i with
      | O => pad_to off a
      | S i' => offset_from fs' (pad_to off a + sz) i'
      end
  end.

Definition Sqe_fields : list (string * ctype) :=
  [("opcode", CU64); ("arg0", CU64); ("arg1", CU64); ("user_data", CU64)]%string.

Definition Cqe_fields : list (string * ctype) :=
  [("user_data", CU64); ("result", CU64)]%string.

Definition RingPage_fields : list (string * ctype) :=
  [("sq_head", CU32); ("sq_tail", CU32); ("cq_head", CU32); ("cq_tail", CU32);
   ("flags", CU32); ("_pad0", CBytes (0x40 - 0x14));
   ("sq", CArray (snd <$> Sqe_fields) RING_ENTRIES);
   ("_pad1", CBytes (0x280 - 0x240));
   ("cq", CArray (snd <$> Cqe_fields) RING_ENTRIES)]%string.

Fixpoint field_index (name : string) (fs : list (string * ctype)) : nat :=
  match fs with
  | [] => O
  | (n, _) :: fs' => if String.eqb n name then O else S (field_index name fs')
  end.

(** [offset_of!(Struct, name)]. *)
Definition offset_of (fs : list (string * ctype)) (name : string) : Z :=
  offset_from (snd <$> fs) 0 (field_index name fs).
Definition size_of (fs : list (string * ctype)) : Z := struct_size (snd <$> fs).

(** ** The offsets both sides compile to *)

Definition SQ_HEAD : Z := Eval vm_compute in offset_of RingPage_fields "sq_head".
Definition SQ_TAIL : Z := Eval vm_compute in offset_of RingPage_fields "sq_tail".
Definition CQ_HEAD : Z := Eval vm_compute in offset_of RingPage_fields "cq_head".
Definition CQ_TAIL : Z := Eval vm_compute in offset_of RingPage_fields "cq_tail".
Definition FLAGS : Z := Eval vm_compute in offset_of RingPage_fields "flags".
Definition SQ : Z := Eval vm_compute in offset_of RingPage_fields "sq".
Definition CQ : Z := Eval vm_compute in offset_of RingPage_fields "cq".
Definition SQE_SIZE : Z := Eval vm_compute in size_of Sqe_fields.
Definition CQE_SIZE : Z := Eval vm_compute in size_of Cqe_fields.

(** The byte ranges of the page: the five words, the two arrays. *)
Definition field_spans : list (Z * Z) :=
  [(SQ_HEAD, 4); (SQ_TAIL, 4); (CQ_HEAD, 4); (CQ_TAIL, 4); (FLAGS, 4);
   (SQ, SQE_SIZE * RING_ENTRIES); (CQ, CQE_SIZE * RING_ENTRIES)].

(** ** Properties *)

(** The [repr(C)] layout of the shared structures meets every assertion the
    ABI pins at compile time: entry sizes, the offset of each field, and the page
    fitting in 4 KiB. *)
Theorem layout_asserts :
  size_of Sqe_fields = 32 /\ size_of Cqe_fields = 16 /\
  offset_of RingPage_fields "sq_head" = 0x00 /\
  offset_of RingPage_fields "sq_tail" = 0x04 /\
  offset_of RingPage_fields "cq_head" = 0x08 /\
  offset_of RingPage_fields "cq_tail" = 0x0c /\
  offset_of RingPage_fields "flags" = 0x10 /\
  offset_of RingPage_fields "sq" = 0x40 /\
  offset_of RingPage_fields "cq" = 0x280 /\
  size_of RingPage_fields <= 4096.
Proof. repeat split; vm_compute; discriminate. Qed.
