(* ===== verification/Frames.v ===== *)
(** * The physical frame allocator (kernel/src/frames.rs)

    An intrusive free list: each free 4 KiB frame holds, in its first eight
    bytes, the address of the next free frame. The list is refined to an abstract
    stack of frames, and the promises its clients rely on are the class
    [FramePool]. *)

From Stdlib Require Import ZArith Lia.
From stdpp Require Import base numbers gmap list list_relations.
From S2P Require Import Prelude Memory.

(** ** Layout *)

Definition FRAME_SIZE : Z := 4096.
Definition RAM_BASE : Z := 0x40000000.
Definition RAM_SIZE : Z := 128 * 1024 * 1024.
Definition RAM_TOP : Z := RAM_BASE + RAM_SIZE.

(** ** State *)

Record FrameAllocator := mkFA {
  head : Z;         (* first free frame, 0 when the pool is empty *)
  free_count : Z
}.

(** The allocator together with the memory its list is threaded through. *)
Record phys := mkPhys { ram : mem; fa : FrameAllocator }.

Definition FrameAllocator_new : FrameAllocator := {| head := 0; free_count := 0 |}.

Definition set_ram (m : mem) (s : phys) : phys := {| ram := m; fa := fa s |}.

(** ** Operations *)

Definition frame_align_up {S} (addr : Z) : M S Z :=
  let! x := addM addr FRAME_SIZE in
  retM (Z.land (x - 1) (not64 (FRAME_SIZE - 1))).

Definition push (frame : Z) : M phys unit :=
  let! s := getM in
  let! n := addM (free_count (fa s)) 1 in
  putM {| ram := write64 (ram s) frame (head (fa s));
          fa := {| head := frame; free_count := n |} |}.

Definition pop : M phys (option Z) :=
  let! s := getM in
  if head (fa s) =? 0 then retM None
  else
    let frame := head (fa s) in
    let! n := subM (free_count (fa s)) 1 in
    putM {| ram := ram s;
            fa := {| head := read64 (ram s) frame; free_count := n |} |} ;;;
    retM (Some frame).

(** [while frame + FRAME_SIZE <= end { push(frame); frame += FRAME_SIZE }]. *)
Fixpoint add_region_loop (fuel : nat) (frame end_ : Z) : M phys unit :=
  match fuel with
  | O => panicM
  | S fuel' =>
      let! top := addM frame FRAME_SIZE in
      if top <=? end_ then
        push frame ;;;
        let! frame' := addM frame FRAME_SIZE in
        add_region_loop fuel' frame' end_
      else retM tt
  end.

(** The loop advances by a frame each time, so it makes at most
    [(end - frame) / FRAME_SIZE] rounds and one last test. *)
Definition add_region (start end_ : Z) : M phys unit :=
  let! frame := frame_align_up start in
  add_region_loop (S (Z.to_nat ((end_ - frame) / FRAME_SIZE))) frame end_.

(** [kernel_end] is the address of the linker symbol [_kernel_end]. *)
Definition init_frames (kernel_end : Z) : M phys unit :=
  let! start := frame_align_up kernel_end in
  add_region start RAM_TOP.

Definition alloc_frame : M phys (option Z) := pop.
Definition free_frame (frame : Z) : M phys unit := push frame.
Definition free_frame_at (pa : Z) : M phys unit := push pa.
Definition free_frame_count (s : phys) : Z := free_count (fa s).

(** ** The free-list invariant *)

Definition valid_frame (f : Z) : Prop :=
  f mod FRAME_SIZE = 0 /\ RAM_BASE <= f /\ f + FRAME_SIZE <= RAM_TOP.

#[export] Instance valid_frame_dec f : Decision (valid_frame f).
Proof. unfold valid_frame. apply _. Defined.

(** The list threaded through memory from [h]. *)
Fixpoint chain (m : mem) (h : Z) (l : list Z) : Prop :=
  match l with
  | [] => h = 0
  | f :: l' => h = f /\ chain m (read64 m f) l'
  end.

Record free_inv (s : phys) (l : list Z) : Prop := {
  fi_chain : chain (ram s) (head (fa s)) l;
  fi_count : free_count (fa s) = Z.of_nat (length l);
  fi_nodup : NoDup l;
  fi_valid : Forall valid_frame l;
  fi_mem : mem_ok (ram s)
}.

(** The frames of [[lo, hi)] in address order. *)
Definition frames_between (lo hi : Z) : list Z :=
  (fun i => lo + FRAME_SIZE * i) <$> zseq 0 (Z.to_nat ((hi - lo) / FRAME_SIZE)).

(** ** Clients

    [frames_step] is one action of the rest of the kernel on the pool: it takes a
    frame, finds the pool empty, returns a frame it holds, or writes to a byte of a
    frame it holds. The set is the frames handed out and not yet returned. *)
Inductive frames_step : phys * gset Z -> phys * gset Z -> Prop :=
| step_alloc s s' out f :
    alloc_frame s = Ret (Some f, s') ->
    frames_step (s, out) (s', {[f]} ∪ out)
| step_empty s s' out :
    alloc_frame s = Ret (None, s') ->
    frames_step (s, out) (s', out)
| step_free s s' out f :
    f ∈ out -> free_frame f s = Ret (tt, s') ->
    frames_step (s, out) (s', out ∖ {[f]})
| step_write s out f a v :
    f ∈ out -> f <= a < f + FRAME_SIZE ->
    frames_step (s, out) (set_ram (write8 (ram s) a v) s, out).

(** The pool [l] and the outstanding frames [out] partition [all]. *)
Definition partition_inv (all : gset Z) (c : phys * gset Z) : Prop :=
  exists l, free_inv c.1 l /\ (list_to_set l : gset Z) ## c.2 /\
            list_to_set l ∪ c.2 = all /\ set_Forall valid_frame all.

(** ** Lemmas *)

Lemma valid_frame_range f : valid_frame f -> 0 < f < 2 ^ 48.
Proof. unfold valid_frame, RAM_BASE, RAM_TOP, RAM_SIZE, RAM_BASE, FRAME_SIZE. lia. Qed.

(** Distinct frames do not overlap. *)
Lemma frames_disjoint f g :
  valid_frame f -> valid_frame g -> f <> g -> f + FRAME_SIZE <= g \/ g + FRAME_SIZE <= f.
Proof.
  intros (Hf & _) (Hg & _) Hne. unfold FRAME_SIZE in *.
  zlia.
Qed.

Lemma chain_ext m m' h l :
  (forall f, f ∈ l -> read64 m' f = read64 m f) -> chain m h l -> chain m' h l.
Proof.
  revert h. induction l as [|f l IH]; intros h Hext; cbn; [done|].
  intros [-> Hc]. split; [done|]. rewrite Hext by set_solver.
  apply IH; [|done]. intros g Hg. apply Hext. set_solver.
Qed.

Lemma free_inv_in_valid s l f : free_inv s l -> f ∈ l -> valid_frame f.
Proof. intros H Hf. by apply (Forall_elem _ _ _ (fi_valid _ _ H)). Qed.

(** The pool is determined by the state. *)
Lemma chain_inj m h l1 l2 :
  Forall valid_frame l1 -> Forall valid_frame l2 -> chain m h l1 -> chain m h l2 -> l1 = l2.
Proof.
  revert h l2. induction l1 as [|f l1 IH]; intros h [|g l2] H1 H2; cbn [chain].
  - done.
  - intros -> [<- _]. inversion H2 as [|? ? Hv]; subst. destruct Hv as (_ & Hv & _). by destruct Hv.
  - intros [-> _] ->. inversion H1 as [|? ? Hv]; subst. destruct Hv as (_ & Hv & _). by destruct Hv.
  - intros [-> Hc1] [<- Hc2]. inversion H1; inversion H2; subst. f_equal. by eapply IH.
Qed.

Lemma free_inv_inj s l1 l2 : free_inv s l1 -> free_inv s l2 -> l1 = l2.
Proof. intros [? _ _ ? _] [? _ _ ? _]. by eapply chain_inj. Qed.

(** Writes that stay out of the free frames leave the list alone. *)
Lemma free_inv_write s l m' :
  free_inv s l -> mem_ok m' ->
  (forall f, f ∈ l -> same_on (ram s) m' f FRAME_SIZE) ->
  free_inv (set_ram m' s) l.
Proof.
  intros Hinv Hm' Hsame. destruct Hinv as [Hc Hn Hd Hv Hm]. split; cbn; auto.
  eapply chain_ext; [|done]. intros f Hf. apply load_ext. intros b Hb.
  apply (Hsame f Hf). unfold FRAME_SIZE. lia.
Qed.

Lemma pop_spec s l :
  free_inv s l ->
  wp False pop (fun r s' =>
    match l with
    | [] => r = None /\ s' = s
    | f :: l' => r = Some f /\ free_inv s' l' /\ ram s' = ram s
    end) s.
Proof.
  intros [Hc Hn Hd Hv Hm]. unfold pop. wp_steps.
  destruct l as [|f l]; cbn in Hc.
  - rewrite Hc. cbn. by wp_steps.
  - destruct Hc as [Hh Hc]. inversion Hv as [|? ? Hf Hv']; subst.
    inversion Hd as [|? ? Hnin Hd']; subst.
    pose proof (valid_frame_range _ Hf) as Hr.
    destruct (Z.eqb_spec (head (fa s)) 0) as [E|E]; [lia|].
    wp_steps. apply wp_sub; [rewrite Hn; cbn; lia|]. wp_steps.
    split_and!; [done| |done]. split; cbn; auto. rewrite Hn; cbn; lia.
Qed.

Lemma push_spec s l f :
  free_inv s l -> valid_frame f -> f ∉ l -> Z.of_nat (length l) + 1 < 2 ^ 64 ->
  wp False (push f) (fun _ s' =>
    free_inv s' (f :: l) /\
    ram s' = write64 (ram s) f (head (fa s))) s.
Proof.
  intros [Hc Hn Hd Hv Hm] Hf Hnin Hlen. unfold push. wp_steps.
  apply wp_add; [lia|]. wp_steps. split; [|done].
  assert (Hhr : 0 <= head (fa s) < 2 ^ 64).
  { destruct l as [|g l]; cbn in Hc; [lia|]. destruct Hc as [-> _].
    inversion Hv as [|? ? Hg]; subst. pose proof (valid_frame_range _ Hg). lia. }
  split; cbn.
  - split; [done|]. rewrite read64_write64_eq by done.
    eapply chain_ext; [|done]. intros g Hg. apply read64_write64_ne.
    assert (valid_frame g) as Hvg by (by apply (Forall_elem _ _ _ Hv)).
    destruct (frames_disjoint f g Hf Hvg) as [?|?]; [by intros ->| |]; unfold FRAME_SIZE in *; lia.
  - rewrite Hn. lia.
  - by constructor.
  - by constructor.
  - unfold write64; auto with jatuli.
Qed.

(** At most 32768 frames fit in RAM, so counting them never overflows. *)
Lemma free_inv_length s l : free_inv s l -> Z.of_nat (length l) <= RAM_SIZE / FRAME_SIZE.
Proof.
  intros [_ _ Hd Hv _].
  enough (length l <= length (zseq (RAM_BASE / FRAME_SIZE) (Z.to_nat (RAM_SIZE / FRAME_SIZE))))%nat.
  { rewrite length_zseq in *. unfold RAM_SIZE, FRAME_SIZE in *. zlia. }
  rewrite <-(length_fmap (fun f => f / FRAME_SIZE) l).
  apply submseteq_length, NoDup_submseteq.
  - apply NoDup_fmap_2_strong; [|done]. intros f g Hf Hg E.
    destruct (Forall_elem _ _ _ Hv Hf) as [Hf' _]. destruct (Forall_elem _ _ _ Hv Hg) as [Hg' _].
    unfold FRAME_SIZE in *. zlia.
  - intros x. rewrite list_elem_of_fmap. intros (f & -> & Hf). rewrite elem_of_zseq.
    destruct (Forall_elem _ _ _ Hv Hf) as (Ha & Hb & Hc).
    unfold RAM_TOP, RAM_BASE, RAM_SIZE, FRAME_SIZE in *. zlia.
Qed.

Lemma free_frame_spec s l f :
  free_inv s l -> valid_frame f -> f ∉ l ->
  wp False (free_frame f) (fun _ s' =>
    free_inv s' (f :: l) /\ ram s' = write64 (ram s) f (head (fa s))) s.
Proof.
  intros Hinv Hf Hnin. apply push_spec; [done..|].
  pose proof (free_inv_length _ _ Hinv). unfold RAM_SIZE, FRAME_SIZE in *. zlia.
Qed.

(** ** Filling the pool *)

Lemma frames_between_nil lo hi : hi < lo + FRAME_SIZE -> frames_between lo hi = [].
Proof.
  intros H. unfold frames_between, FRAME_SIZE in *.
  by replace (Z.to_nat ((hi - lo) / 4096)) with O by zlia.
Qed.

Lemma frames_between_cons lo hi :
  lo + FRAME_SIZE <= hi ->
  frames_between lo hi = lo :: frames_between (lo + FRAME_SIZE) hi.
Proof.
  intros H. unfold frames_between, FRAME_SIZE in *.
  replace (Z.to_nat ((hi - lo) / 4096)) with (S (Z.to_nat ((hi - (lo + 4096)) / 4096))) by zlia.
  rewrite zseq_S. cbn [fmap list_fmap]. f_equal; [lia|].
  unfold zseq. rewrite <-!list_fmap_compose. apply list_fmap_ext. intros i x _. cbn. lia.
Qed.

Lemma elem_of_frames_between f lo hi :
  f ∈ frames_between lo hi <-> (f - lo) mod FRAME_SIZE = 0 /\ lo <= f /\ f + FRAME_SIZE <= hi.
Proof.
  unfold frames_between. rewrite list_elem_of_fmap. unfold FRAME_SIZE. split.
  - intros (i & -> & Hi). rewrite elem_of_zseq in Hi. zlia.
  - intros (Ha & Hb & Hc). exists ((f - lo) / 4096). rewrite elem_of_zseq. zlia.
Qed.

Lemma add_region_loop_spec fuel s l frame end_ :
  free_inv s l -> frame mod FRAME_SIZE = 0 -> RAM_BASE <= frame -> end_ <= RAM_TOP ->
  frame <= RAM_TOP -> (forall f, f ∈ l -> f < frame) ->
  (Z.to_nat ((end_ - frame) / FRAME_SIZE) < fuel)%nat ->
  wp False (add_region_loop fuel frame end_)
    (fun _ s' => free_inv s' (reverse (frames_between frame end_) ++ l)) s.
Proof.
  revert s l frame. induction fuel as [|fuel IH];
    intros s l frame Hinv Hal Hlo Hend Htop Hbelow Hfuel; [lia|].
  cbn [add_region_loop]. apply wp_bind, wp_add.
  { unfold RAM_TOP, RAM_BASE, RAM_SIZE, FRAME_SIZE in *. lia. }
  destruct (Z.leb_spec (frame + FRAME_SIZE) end_) as [Hle|Hgt].
  - apply wp_bind. eapply wp_mono.
    { apply free_frame_spec; [done| |]; [unfold valid_frame; lia|].
      intros Hin%Hbelow. lia. }
    intros [] s' [Hinv' _]. apply wp_bind, wp_add.
    { unfold RAM_TOP, RAM_BASE, RAM_SIZE, FRAME_SIZE in *. lia. }
    rewrite frames_between_cons by done.
    rewrite reverse_cons, <-app_assoc.
    apply IH; [done| | |done|lia| |].
    + unfold FRAME_SIZE in *. zlia.
    + unfold FRAME_SIZE in *. lia.
    + unfold FRAME_SIZE. intros f [->|Hf%Hbelow]%elem_of_cons; lia.
    + unfold FRAME_SIZE in *. zlia.
  - wp_steps. rewrite frames_between_nil by lia. done.
Qed.

Lemma frame_align_up_spec {S} pan (s : S) addr Q :
  0 <= addr -> addr + FRAME_SIZE < 2 ^ 64 ->
  Q (FRAME_SIZE * ((addr + (FRAME_SIZE - 1)) / FRAME_SIZE)) s ->
  wp pan (frame_align_up addr) Q s.
Proof.
  intros H0 H1 HQ. unfold frame_align_up. apply wp_bind, wp_add; [done|]. wp_steps.
  unfold FRAME_SIZE in *. replace (addr + 4096 - 1) with (addr + (2 ^ 12 - 1)) by lia.
  change (4096 - 1) with (2 ^ 12 - 1). rewrite align_up_eq by lia. done.
Qed.

(** ** What the allocator promises its clients *)

(** [inv s l]: in state [s] the free frames are [l], in the order they will be
    handed out. The laws are those of a stack, plus the licence for the holder of
    an allocated frame to write to it. *)
Class FramePool (inv : phys -> list Z -> Prop) : Prop := {
  fp_alloc s l : inv s l ->
    wp False alloc_frame (fun r s' =>
      match l with
      | [] => r = None /\ s' = s
      | f :: l' => r = Some f /\ inv s' l' /\ ram s' = ram s
      end) s;
  fp_free s l f : inv s l -> valid_frame f -> f ∉ l ->
    wp False (free_frame_at f) (fun _ s' =>
      inv s' (f :: l) /\
      (forall b, ~ (f <= b < f + FRAME_SIZE) -> read8 (ram s') b = read8 (ram s) b)) s;
  fp_write s l m' : inv s l -> mem_ok m' ->
    (forall f, f ∈ l -> same_on (ram s) m' f FRAME_SIZE) -> inv (set_ram m' s) l;
  fp_valid s l f : inv s l -> f ∈ l -> valid_frame f;
  fp_nodup s l : inv s l -> NoDup l;
  fp_mem s l : inv s l -> mem_ok (ram s)
}.

#[export] Instance free_inv_pool : FramePool free_inv.
Proof.
  split.
  - apply pop_spec.
  - intros s l f Hinv Hf Hnin. eapply wp_mono; [by apply free_frame_spec|].
    intros [] s' [Hinv' ->]. split; [done|]. intros b Hb. apply read8_store_ne.
    unfold FRAME_SIZE in Hb. lia.
  - apply free_inv_write.
  - apply free_inv_in_valid.
  - intros s l H. apply (fi_nodup _ _ H).
  - intros s l H. apply (fi_mem _ _ H).
Qed.

(** [pop_spec] read backwards, for a run that is already known. *)
Lemma alloc_frame_inv s s' l r :
  free_inv s l -> alloc_frame s = Ret (r, s') ->
  match l with
  | [] => r = None /\ s' = s
  | f :: l' => r = Some f /\ free_inv s' l' /\ ram s' = ram s
  end.
Proof.
  intros Hinv Hs. pose proof (pop_spec s l Hinv) as Hp. unfold wp in Hp.
  change pop with alloc_frame in Hp. by rewrite Hs in Hp.
Qed.

Lemma frames_step_inv all c c' :
  frames_step c c' -> partition_inv all c -> partition_inv all c'.
Proof.
  intros Hstep (l & Hinv & Hdisj & Hall & Hv).
  destruct Hstep as [s s' out f Hs|s s' out Hs|s s' out f Hf Hs|s out f a v Hf Ha]; cbn [fst snd] in *.
  - pose proof (alloc_frame_inv _ _ _ _ Hinv Hs) as Hp.
    destruct l as [|g l]; [naive_solver|]. destruct Hp as ([= <-] & Hinv' & _).
    pose proof (fi_nodup _ _ Hinv) as [Hg _]%NoDup_cons.
    exists l. cbn in *. split_and!; [done|set_solver|set_solver|done].
  - pose proof (alloc_frame_inv _ _ _ _ Hinv Hs) as Hp.
    destruct l as [|g l]; [|naive_solver]. destruct Hp as [_ ->].
    by exists [].
  - assert (Hfl : f ∉ l) by set_solver.
    assert (Hfv : valid_frame f) by (apply Hv; set_solver).
    pose proof (free_frame_spec s l f Hinv Hfv Hfl) as Hp. unfold wp in Hp. rewrite Hs in Hp.
    exists (f :: l). cbn. split_and!; [naive_solver|set_solver| |done].
    rewrite <-Hall. apply set_eq. intros x. destruct (decide (x = f)); set_solver.
  - exists l. split_and!; [|done..]. apply free_inv_write; [done|apply mem_ok_write8, Hinv|].
    intros g Hg b Hb. apply read8_write8_ne.
    assert (valid_frame f) by (apply Hv; set_solver).
    destruct (frames_disjoint f g) as [?|?]; [done|by eapply free_inv_in_valid|set_solver|lia|lia].
Qed.

Lemma frames_steps_inv all c c' :
  rtc frames_step c c' -> partition_inv all c -> partition_inv all c'.
Proof. induction 1; eauto using frames_step_inv. Qed.

(** ** Properties *)

(** The first frame boundary at or above the end of the kernel image. *)
Definition first_frame (kernel_end : Z) : Z :=
  FRAME_SIZE * ((kernel_end + (FRAME_SIZE - 1)) / FRAME_SIZE).

Lemma init_frames_pool m kernel_end :
  mem_ok m -> RAM_BASE <= kernel_end <= RAM_TOP ->
  wp False (init_frames kernel_end)
    (fun _ s => free_inv s (reverse (frames_between (first_frame kernel_end) RAM_TOP)))
    {| ram := m; fa := FrameAllocator_new |}.
Proof.
  intros Hm Hk. unfold init_frames.
  assert (Hb : 0 <= kernel_end < 2 ^ 32) by (unfold RAM_TOP, RAM_BASE, RAM_SIZE in *; lia).
  apply wp_bind, frame_align_up_spec; [lia|unfold FRAME_SIZE; lia|].
  fold (first_frame kernel_end).
  destruct (align_up_bounds kernel_end FRAME_SIZE ltac:(by unfold FRAME_SIZE)) as [Hr Hm0].
  fold (first_frame kernel_end) in Hr, Hm0.
  unfold add_region. apply wp_bind, frame_align_up_spec;
    [lia|unfold FRAME_SIZE in *; lia|].
  replace (FRAME_SIZE * ((first_frame kernel_end + (FRAME_SIZE - 1)) / FRAME_SIZE))
    with (first_frame kernel_end) by (unfold FRAME_SIZE in *; zlia).
  rewrite <-(app_nil_r (reverse _)). apply add_region_loop_spec; try done; try lia.
  - split; cbn; auto; constructor.
  - unfold RAM_TOP, RAM_BASE, RAM_SIZE, FRAME_SIZE in *. zlia.
  - set_solver.
Qed.

(** From whatever RAM holds at boot, [init_frames] terminates without a panic
    with every whole frame between the end of the kernel image and the top of RAM
    on the free list exactly once, and no other frame. *)
Theorem init_frames_spec m kernel_end :
  mem_ok m -> RAM_BASE <= kernel_end <= RAM_TOP ->
  wp False (init_frames kernel_end)
    (fun _ s => free_inv s (reverse (frames_between (first_frame kernel_end) RAM_TOP)))
    {| ram := m; fa := FrameAllocator_new |}.
Proof. exact (init_frames_pool m kernel_end). Qed.

Lemma init_frames_spec_witness :
  mem_ok ∅ /\ RAM_BASE <= RAM_TOP - 8191 <= RAM_TOP /\
  wp False (init_frames (RAM_TOP - 8191))
    (fun _ s => free_inv s (reverse (frames_between (first_frame (RAM_TOP - 8191)) RAM_TOP)))
    {| ram := ∅; fa := FrameAllocator_new |}.
Proof.
  assert (Hr : RAM_BASE <= RAM_TOP - 8191 <= RAM_TOP) by (vm_compute; split; discriminate).
  split; [apply mem_ok_empty|split; [exact Hr|]].
  exact (init_frames_spec ∅ (RAM_TOP - 8191) mem_ok_empty Hr).
Defined.

(** C27: whatever sequence of allocations, frees of held frames and writes to held
    frames the kernel performs after boot, the free list and the frames handed out
    always partition the initial pool, the count is exact, and an allocation
    returns a frame nobody holds: no frame is lost, duplicated or corrupted. *)
Theorem frames_conservation s0 l0 s out :
  free_inv s0 l0 -> rtc frames_step (s0, ∅) (s, out) ->
  exists l, free_inv s l /\ (list_to_set l : gset Z) ## out /\
    list_to_set l ∪ out = (list_to_set l0 : gset Z) /\
    free_frame_count s + Z.of_nat (size out) = free_frame_count s0 /\
    (forall f s', alloc_frame s = Ret (Some f, s') -> f ∉ out).
Proof.
  intros H0 Hsteps.
  destruct (frames_steps_inv (list_to_set l0) _ _ Hsteps) as (l & Hinv & Hdisj & Hall & _).
  { exists l0. cbn. split_and!; [done|set_solver|set_solver|].
    intros f Hf. eapply free_inv_in_valid; [done|set_solver]. }
  cbn [fst snd] in *. exists l. split_and!; [done..| |].
  - unfold free_frame_count. rewrite (fi_count _ _ Hinv), (fi_count _ _ H0).
    rewrite <-(size_list_to_set (C:=gset Z) l (fi_nodup _ _ Hinv)).
    rewrite <-(size_list_to_set (C:=gset Z) l0 (fi_nodup _ _ H0)), <-Hall.
    rewrite size_union by done. lia.
  - intros f s' Hs. pose proof (alloc_frame_inv _ _ _ _ Hinv Hs) as Hp.
    destruct l as [|g l]; set_solver.
Qed.

(** A pool of two frames, threaded through memory. *)
Definition two_frames : phys :=
  {| ram := write64 ∅ 0x40080000 0x40081000;
     fa := {| head := 0x40080000; free_count := 2 |} |}.

Lemma two_frames_inv : free_inv two_frames [0x40080000; 0x40081000].
Proof.
  split; cbn.
  - split_and!; vm_compute; reflexivity.
  - done.
  - apply (bool_decide_unpack _). vm_compute. done.
  - apply (bool_decide_unpack _). vm_compute. done.
  - unfold write64. auto with jatuli.
Qed.

Lemma frames_conservation_witness :
  exists s, rtc frames_step (two_frames, ∅) (s, {[0x40080000]} ∪ ∅) /\
  exists l, free_inv s l /\ (list_to_set l : gset Z) ## ({[0x40080000]} ∪ ∅) /\
    list_to_set l ∪ ({[0x40080000]} ∪ ∅) = (list_to_set [0x40080000; 0x40081000] : gset Z) /\
    free_frame_count s + Z.of_nat (size ({[0x40080000]} ∪ ∅ : gset Z)) = free_frame_count two_frames /\
    (forall f s', alloc_frame s = Ret (Some f, s') -> f ∉ ({[0x40080000]} ∪ ∅ : gset Z)).
Proof.
  eexists (mkPhys (ram two_frames) (mkFA 0x40081000 1)).
  assert (Hr : rtc frames_step (two_frames, ∅)
    (mkPhys (ram two_frames) (mkFA 0x40081000 1), {[0x40080000]} ∪ ∅)).
  { apply rtc_once, step_alloc. vm_compute. reflexivity. }
  split; [exact Hr|].
  exact (frames_conservation two_frames [0x40080000; 0x40081000] _ _ two_frames_inv Hr).
Defined.
