(* ===== verification/Mmu.v ===== *)
(** * Page tables and address spaces (kernel/src/mmu.rs)

    The three-level walk of the AArch64 4 KiB granule over tables held in
    physical frames: building the identity map, creating and freeing per-process
    address spaces, mapping, unmapping and translating pages. TLB and barrier
    instructions have no counterpart: the model's walker always reads memory,
    which is what the [tlbi]/[dsb] sequences of the source establish. *)

From Stdlib Require Import ZArith Lia.
From stdpp Require Import base numbers gmap list list_relations.
From S2P Require Import Prelude Memory Abi Frames.

(** ** Descriptor bits *)

Definition ENTRIES : Z := 512.

Definition DESC_BLOCK : Z := 1.
Definition DESC_TABLE : Z := 3.
Definition DESC_VALID : Z := 1.
Definition DESC_PAGE : Z := 3.

Definition ATTR_IDX_DEVICE : Z := Z.shiftl 1 2.
Definition SH_INNER : Z := Z.shiftl 3 8.
Definition AF : Z := Z.shiftl 1 10.
Definition PXN : Z := Z.shiftl 1 53.
Definition UXN : Z := Z.shiftl 1 54.

Definition NORMAL_BLOCK : Z := Z.lor (Z.lor (Z.lor DESC_BLOCK SH_INNER) AF) UXN.
Definition DEVICE_BLOCK : Z :=
  Z.lor (Z.lor (Z.lor (Z.lor DESC_BLOCK ATTR_IDX_DEVICE) AF) PXN) UXN.

Definition ADDR_MASK : Z := 0x0000FFFFFFFFF000.

Definition PAGE_KERNEL_RW : Z :=
  Z.lor (Z.lor (Z.lor (Z.lor DESC_PAGE SH_INNER) AF) UXN) PXN.

Definition AP_EL0_RW : Z := Z.shiftl 1 6.
Definition AP_EL0_RO : Z := Z.shiftl 3 6.

Definition PAGE_USER_RW : Z :=
  Z.lor (Z.lor (Z.lor (Z.lor (Z.lor DESC_PAGE AP_EL0_RW) SH_INNER) AF) UXN) PXN.
Definition PAGE_USER_RX : Z :=
  Z.lor (Z.lor (Z.lor (Z.lor DESC_PAGE AP_EL0_RO) SH_INNER) AF) PXN.

Definition BLOCK_2MIB : Z := 2 * 1024 * 1024.
Definition RAM_BLOCKS : Z := RAM_SIZE / BLOCK_2MIB.

Definition MAIR : Z := Z.lor (Z.shiftl 0x04 8) 0xFF.
Definition TCR : Z := 0x180803510.

(** ** State *)

(** Memory and frames, the module's three statics, and the system registers it
    programs. *)
Record mmu := mkMmu {
  ph : phys;
  KERNEL_L1 : Z;
  KERNEL_TTBR0 : Z;
  INSTALLED : Z;
  ttbr0_el1 : Z;
  mair_el1 : Z;
  tcr_el1 : Z;
  sctlr_el1 : Z
}.

Definition set_ph (p : phys) (s : mmu) : mmu :=
  {| ph := p; KERNEL_L1 := KERNEL_L1 s; KERNEL_TTBR0 := KERNEL_TTBR0 s;
     INSTALLED := INSTALLED s; ttbr0_el1 := ttbr0_el1 s; mair_el1 := mair_el1 s;
     tcr_el1 := tcr_el1 s; sctlr_el1 := sctlr_el1 s |}.

Abbreviation mem_of s := (ram (ph s)).

Definition in_phys {A} (m : M phys A) : M mmu A := zoomM ph set_ph m.

(** [table.add(index).read_volatile()] and [.write_volatile(v)]. *)
Definition entry (m : mem) (table index : Z) : Z := read64 m (table + 8 * index).
Definition read_entry (table index : Z) : M mmu Z :=
  getsM (fun s => entry (mem_of s) table index).
Definition write_entry (table index v : Z) : M mmu unit :=
  in_phys (modifyM (fun p => set_ram (write64 (ram p) (table + 8 * index) v) p)).

(** ** Operations *)

Definition is_valid (e : Z) : bool := negb (Z.land e DESC_VALID =? 0).
Definition is_table (e : Z) : bool := Z.land e DESC_TABLE =? DESC_TABLE.
Definition next_table (e : Z) : Z := Z.land e ADDR_MASK.

(** [(va >> shift) & 0x1FF]. *)
Definition index_at (shift va : Z) : Z := Z.land (Z.shiftr va shift) 0x1FF.

Definition kernel_ttbr0 (s : mmu) : Z := KERNEL_TTBR0 s.
Definition current_ttbr0 (s : mmu) : Z := ttbr0_el1 s.
Definition l0_ptr (ttbr0 : Z) : Z := Z.land ttbr0 ADDR_MASK.
Definition live_l0 (s : mmu) : Z := l0_ptr (current_ttbr0 s).

Definition alloc_table : M mmu Z :=
  let! o := in_phys alloc_frame in
  let! table := expectM o in
  forM (zseq 0 (Z.to_nat ENTRIES)) (fun i => write_entry table i 0) ;;;
  retM table.

Definition init_mmu : M mmu unit :=
  let! l0 := alloc_table in
  let! l1 := alloc_table in
  let! l2 := alloc_table in
  forM (zseq 0 (Z.to_nat RAM_BLOCKS)) (fun i =>
    write_entry l2 i (Z.lor (RAM_BASE + i * BLOCK_2MIB) NORMAL_BLOCK)) ;;;
  write_entry l1 0 DEVICE_BLOCK ;;;
  write_entry l1 1 (Z.lor l2 DESC_TABLE) ;;;
  write_entry l0 0 (Z.lor l1 DESC_TABLE) ;;;
  modifyM (fun s =>
    {| ph := ph s; KERNEL_L1 := l1; KERNEL_TTBR0 := l0; INSTALLED := INSTALLED s;
       ttbr0_el1 := l0; mair_el1 := MAIR; tcr_el1 := TCR;
       sctlr_el1 := Z.lor (sctlr_el1 s)
         (Z.lor (Z.lor (Z.shiftl 1 0) (Z.shiftl 1 2)) (Z.shiftl 1 12)) |}).

Definition get_or_create (table index : Z) : M mmu Z :=
  let! e := read_entry table index in
  if is_valid e then
    assertM (is_table e) ;;;
    retM (next_table e)
  else
    let! next := alloc_table in
    write_entry table index (Z.lor next DESC_TABLE) ;;;
    retM next.

Definition map_page_in (l0 va pa flags : Z) : M mmu unit :=
  let i0 := index_at 39 va in
  let i1 := index_at 30 va in
  let i2 := index_at 21 va in
  let i3 := index_at 12 va in
  let! l1 := get_or_create l0 i0 in
  let! l2 := get_or_create l1 i1 in
  let! l3 := get_or_create l2 i2 in
  write_entry l3 i3 (Z.lor (Z.land pa ADDR_MASK) flags).

Definition map_page (va pa flags : Z) : M mmu unit :=
  let! l0 := getsM live_l0 in
  map_page_in l0 va pa flags.

(** The read-only descent shared by [unmap_page_in] and [translate]:
    [for shift in shifts { ... }], giving up at the first entry that is not a
    table. *)
Fixpoint walk (m : mem) (table : Z) (shifts : list Z) (va : Z) : option Z :=
  match shifts with
  | [] => Some table
  | shift :: shifts' =>
      let e := entry m table (index_at shift va) in
      if is_table e then walk m (next_table e) shifts' va else None
  end.

Definition unmap_page_in (l0 va : Z) : M mmu unit :=
  let! s := getM in
  match walk (mem_of s) l0 [39; 30; 21] va with
  | None => retM tt
  | Some table => write_entry table (index_at 12 va) 0
  end.

Definition unmap_page (va : Z) : M mmu unit :=
  let! l0 := getsM live_l0 in
  unmap_page_in l0 va.

(** The page an L3 table holds for [va]. *)
Definition leaf (m : mem) (table va : Z) : option Z :=
  let e := entry m table (index_at 12 va) in
  if is_valid e then Some (Z.lor (Z.land e ADDR_MASK) (Z.land va 0xFFF)) else None.

Definition translate (m : mem) (ttbr0 va : Z) : option Z :=
  match walk m (l0_ptr ttbr0) [39; 30; 21] va with
  | None => None
  | Some table => leaf m table va
  end.

Definition new_address_space : M mmu Z :=
  let! l0 := alloc_table in
  let! kernel_l1 := getsM KERNEL_L1 in
  assertM (negb (kernel_l1 =? 0)) ;;;
  write_entry l0 0 (Z.lor kernel_l1 DESC_TABLE) ;;;
  retM l0.

Definition activate (ttbr0 : Z) : M mmu unit :=
  modifyM (fun s =>
    if negb (INSTALLED s =? ttbr0) then
      {| ph := ph s; KERNEL_L1 := KERNEL_L1 s; KERNEL_TTBR0 := KERNEL_TTBR0 s;
         INSTALLED := ttbr0; ttbr0_el1 := ttbr0; mair_el1 := mair_el1 s;
         tcr_el1 := tcr_el1 s; sctlr_el1 := sctlr_el1 s |}
    else s).

Fixpoint free_subtree (levels_below : nat) (table : Z) : M mmu unit :=
  match levels_below with
  | O => retM tt
  | S below =>
      forM (zseq 0 (Z.to_nat ENTRIES)) (fun i =>
        let! e := read_entry table i in
        if is_table e then free_subtree below (next_table e) else retM tt)
  end ;;;
  in_phys (free_frame_at table).

Definition free_address_space (l0 : Z) : M mmu unit :=
  let l0 := Z.land l0 ADDR_MASK in
  let! e1 := read_entry l0 USER_L0_IDX in
  (if is_table e1 then free_subtree 2 (next_table e1) else retM tt) ;;;
  in_phys (free_frame_at l0).

(** Cache maintenance by virtual address: the operations issued, in order. *)
Inductive cache_op := DcCvau (p : Z) | IcIvau (p : Z) | DsbIsh | Isb.

Definition LINE : Z := 64.

(** [while p < end { op(p); p += LINE }]; [None] is the overflow panic. *)
Fixpoint line_loop (op : Z -> cache_op) (fuel : nat) (p end_ : Z) : option (list cache_op) :=
  match fuel with
  | O => None
  | S fuel' =>
      if p <? end_ then
        p' ← checked_add p LINE;
        ops ← line_loop op fuel' p' end_; Some (op p :: ops)
      else Some []
  end.

(** Each round advances by a line, so [len / LINE + 2] rounds are enough. *)
Definition sync_instruction_cache (pa len : Z) : option (list cache_op) :=
  let start := Z.land pa (not64 (LINE - 1)) in
  let fuel := Z.to_nat (len / LINE + 3) in
  end_ ← checked_add pa len;
  dcs ← line_loop DcCvau fuel start end_;
  ics ← line_loop IcIvau fuel start end_;
  Some (dcs ++ [DsbIsh] ++ ics ++ [DsbIsh; Isb]).
