(* ===== verification/PageTables.v ===== *)
(** * Page-table well-formedness and the correctness of mapping

    The ghost typing [T] of table frames by level, the invariant that every
    [mmu.rs] operation keeps, and what [map_page_in], [unmap_page_in],
    [new_address_space] and [translate] do to every address space at once. *)

From Stdlib Require Import ZArith Lia.
From stdpp Require Import base numbers gmap list list_relations.
From S2P Require Import Prelude Memory Abi Frames Mmu.

(** ** Descriptors *)

Lemma next_table_eq e : next_table e = 4096 * ((e / 4096) mod 2 ^ 36).
Proof.
  unfold next_table. change ADDR_MASK with (Z.shiftl (Z.ones 36) 12).
  by rewrite land_shifted_ones.
Qed.

Lemma next_table_aligned a : a mod 4096 = 0 -> 0 <= a < 2 ^ 48 -> next_table a = a.
Proof. intros. rewrite next_table_eq, Z.mod_small; zlia. Qed.

(** A descriptor made from a frame address and flag bits outside the address
    field gives both back. *)
Lemma next_table_desc pa flags :
  pa mod 4096 = 0 -> 0 <= pa < 2 ^ 48 -> Z.land flags ADDR_MASK = 0 ->
  next_table (Z.lor pa flags) = pa.
Proof.
  intros Ha Hr Hf. unfold next_table. rewrite Z.land_lor_distr_l, Hf, Z.lor_0_r.
  by apply next_table_aligned.
Qed.

Lemma aligned_low_bits a m : a mod 4096 = 0 -> 0 <= m < 4096 -> Z.land a m = 0.
Proof.
  intros Ha Hm. apply Z.bits_inj'. intros i Hi.
  rewrite Z.land_spec, Z.bits_0. destruct (Z.lt_ge_cases i 12) as [Hlt|Hge].
  - replace a with (Z.shiftl (a / 4096) 12) by (rewrite Z.shiftl_mul_pow2; zlia).
    by rewrite Z.shiftl_spec_low.
  - rewrite andb_comm. replace (Z.testbit m i) with false; [done|].
    symmetry. destruct (decide (m = 0)) as [->|]; [apply Z.bits_0|].
    apply Z.bits_above_log2; [lia|]. apply Z.log2_lt_pow2; [lia|].
    apply Z.lt_le_trans with (2 ^ 12); [lia|]. apply Z.pow_le_mono_r; lia.
Qed.

Lemma is_table_valid e : is_table e = true -> is_valid e = true.
Proof.
  unfold is_table, is_valid, DESC_TABLE, DESC_VALID.
  rewrite Z.eqb_eq, negb_true_iff, Z.eqb_neq. intros H3 H1.
  replace 1 with (Z.land 3 1) in H1 by done. rewrite Z.land_assoc, H3 in H1. done.
Qed.

Lemma is_table_desc c : c mod 4096 = 0 -> is_table (Z.lor c DESC_TABLE) = true.
Proof.
  intros. unfold is_table, DESC_TABLE. rewrite Z.land_lor_distr_l, aligned_low_bits by lia.
  done.
Qed.

Lemma lor_lt_pow2 a b n : 0 <= n -> 0 <= a < 2 ^ n -> 0 <= b < 2 ^ n -> 0 <= Z.lor a b < 2 ^ n.
Proof.
  intros Hn Ha Hb. split; [apply Z.lor_nonneg; lia|].
  destruct (decide (Z.lor a b = 0)) as [->|Hne]; [lia|].
  pose proof (proj2 (Z.lor_nonneg a b) ltac:(lia)) as Hnn.
  apply Z.log2_lt_pow2; [lia|]. rewrite Z.log2_lor by lia.
  assert (forall x, 0 <= x < 2 ^ n -> Z.log2 x < n \/ x = 0) as Hl.
  { intros x Hx. destruct (decide (x = 0)); [by right|left]. apply Z.log2_lt_pow2; lia. }
  destruct (Hl a Ha) as [?| ->], (Hl b Hb) as [?| ->]; change (Z.log2 0) with 0; try lia.
  all: try (apply Z.max_lub_lt; lia).
  - pose proof (Z.log2_nonneg a). lia.
  - pose proof (Z.log2_nonneg b). lia.
  - by rewrite Z.lor_0_l in Hne.
Qed.

Lemma table_desc_range c : valid_frame c -> 0 <= Z.lor c DESC_TABLE < 2 ^ 64.
Proof. intros Hc%valid_frame_range. apply lor_lt_pow2; unfold DESC_TABLE; lia. Qed.

Lemma index_at_range shift va : 0 <= shift -> 0 <= index_at shift va < ENTRIES.
Proof. intros. unfold index_at. rewrite land_mod_512 by done. apply Z.mod_pos_bound. done. Qed.

Lemma is_table_0 : is_table 0 = false.
Proof. done. Qed.
Lemma is_valid_0 : is_valid 0 = false.
Proof. done. Qed.

(** ** Walks by level *)

(** The shifts consumed below a table with [k] table levels beneath it. *)
Fixpoint shifts (k : nat) : list Z :=
  match k with
  | O => []
  | S k' => (12 + 9 * Z.of_nat k) :: shifts k'
  end.

(** The walk the MMU hardware makes from such a table: the descriptor it ends at,
    with the number of levels left (0 for a page, 1 or 2 for a block), or [None] for
    a translation fault. *)
Fixpoint hw_walk (m : mem) (k : nat) (t va : Z) : option (nat * Z) :=
  let e := entry m t (index_at (12 + 9 * Z.of_nat k) va) in
  match k with
  | O => if is_valid e then Some (O, e) else None
  | S k' => if is_table e then hw_walk m k' (next_table e) va
            else if is_valid e then Some (k, e) else None
  end.

Lemma walk_hw m k t va :
  match walk m t (shifts k) va with None => None | Some l3 => leaf m l3 va end =
    match hw_walk m k t va with
    | Some (O, e) => Some (Z.lor (Z.land e ADDR_MASK) (Z.land va 0xFFF))
    | _ => None
    end.
Proof.
  revert t. induction k as [|k IH]; intros t; cbn [shifts walk hw_walk]; cbv zeta.
  - unfold leaf. change (12 + 9 * Z.of_nat 0) with 12. by destruct (is_valid _).
  - set (e := entry m t _). destruct (is_table e); [apply IH|]. by destruct (is_valid e).
Qed.

(** [translate] is the hardware walk restricted to pages. *)
Lemma translate_hw m ttbr0 va :
  translate m ttbr0 va =
    match hw_walk m 3 (l0_ptr ttbr0) va with
    | Some (O, e) => Some (Z.lor (Z.land e ADDR_MASK) (Z.land va 0xFFF))
    | _ => None
    end.
Proof. exact (walk_hw m 3 (l0_ptr ttbr0) va). Qed.

(** ** Well-formed tables *)

(** [T] gives the level of every table frame: 0 for roots, 3 for the tables of
    page descriptors. Links go one level down, and a table has one parent entry,
    except that slot 0 of every root aliases the kernel L1 [kl1]. Block descriptors
    occur only in [kl1] and the L2 tables it links. *)
Record pt_wf (kl1 : Z) (m : mem) (T : gmap Z nat) : Prop := {
  pt_frame : forall t l, T !! t = Some l -> valid_frame t /\ (l <= 3)%nat;
  pt_child : forall t l i, T !! t = Some l -> (l < 3)%nat -> 0 <= i < ENTRIES ->
    is_table (entry m t i) = true -> T !! next_table (entry m t i) = Some (S l);
  pt_inj : forall t1 l1 i1 t2 l2 i2,
    T !! t1 = Some l1 -> (l1 < 3)%nat -> 0 <= i1 < ENTRIES ->
    T !! t2 = Some l2 -> (l2 < 3)%nat -> 0 <= i2 < ENTRIES ->
    is_table (entry m t1 i1) = true -> is_table (entry m t2 i2) = true ->
    next_table (entry m t1 i1) = next_table (entry m t2 i2) ->
    (t1 = t2 /\ i1 = i2) \/ (l1 = O /\ l2 = O /\ i1 = 0 /\ i2 = 0);
  pt_root : forall t, T !! t = Some O ->
    is_table (entry m t 0) = true /\ next_table (entry m t 0) = kl1;
  pt_kl1 : T !! kl1 = Some 1%nat;
  pt_blk : forall t l i, T !! t = Some l -> (l < 3)%nat -> 0 <= i < ENTRIES ->
    is_valid (entry m t i) = true -> is_table (entry m t i) = false ->
    t = kl1 \/ exists j, 0 <= j < ENTRIES /\
                 is_table (entry m kl1 j) = true /\ next_table (entry m kl1 j) = t
}.

(** The whole invariant: pool [l], tables [T], and the two apart. *)
Record mm_inv (s : mmu) (T : gmap Z nat) (l : list Z) : Prop := {
  mi_pool : free_inv (ph s) l;
  mi_pt : pt_wf (KERNEL_L1 s) (mem_of s) T;
  mi_sep : forall f, f ∈ l -> T !! f = None
}.

(** ** Entries of distinct tables do not overlap *)

Lemma entry_addr_disjoint t1 i1 t2 i2 :
  valid_frame t1 -> valid_frame t2 -> 0 <= i1 < ENTRIES -> 0 <= i2 < ENTRIES ->
  (t1, i1) <> (t2, i2) -> t1 + 8 * i1 + 8 <= t2 + 8 * i2 \/ t2 + 8 * i2 + 8 <= t1 + 8 * i1.
Proof.
  intros H1 H2 Hi1 Hi2 Hne. unfold ENTRIES in *.
  destruct (decide (t1 = t2)) as [->|Ht].
  - assert (i1 <> i2) by congruence. lia.
  - destruct (frames_disjoint t1 t2 H1 H2 Ht); unfold FRAME_SIZE in *; lia.
Qed.

Lemma entry_write_eq m t i v : 0 <= v < 2 ^ 64 -> entry (write64 m (t + 8 * i) v) t i = v.
Proof. apply read64_write64_eq. Qed.

Lemma entry_write_ne m t1 i1 t2 i2 v :
  valid_frame t1 -> valid_frame t2 -> 0 <= i1 < ENTRIES -> 0 <= i2 < ENTRIES ->
  (t1, i1) <> (t2, i2) -> entry (write64 m (t1 + 8 * i1) v) t2 i2 = entry m t2 i2.
Proof. intros. apply read64_write64_ne. by apply entry_addr_disjoint. Qed.

Lemma entry_same_frame m m' t i :
  same_on m m' t FRAME_SIZE -> 0 <= i < ENTRIES -> entry m' t i = entry m t i.
Proof.
  intros Hs Hi. apply load_ext. intros b Hb. apply Hs. unfold FRAME_SIZE, ENTRIES in *. lia.
Qed.

Lemma write64_out m t i v b :
  0 <= i < ENTRIES -> ~ (t <= b < t + FRAME_SIZE) -> read8 (write64 m (t + 8 * i) v) b = read8 m b.
Proof. intros Hi Hb. apply read8_store_ne. unfold FRAME_SIZE, ENTRIES in *. lia. Qed.

(** ** Fresh tables *)

Lemma set_ph_regs s s' p : s' = set_ph (ph s') s -> set_ph p s' = set_ph p s.
Proof. by intros ->. Qed.

(** Bytes outside frame [t] are as before. *)
Definition only_frame (t : Z) (m m' : mem) : Prop :=
  forall b, ~ (t <= b < t + FRAME_SIZE) -> read8 m' b = read8 m b.

Lemma only_frame_other t m m' f :
  only_frame t m m' -> valid_frame t -> valid_frame f -> t <> f -> same_on m m' f FRAME_SIZE.
Proof.
  intros Ho Ht Hf Hne b Hb. apply Ho. destruct (frames_disjoint t f Ht Hf Hne); lia.
Qed.

Lemma only_frame_trans t m1 m2 m3 :
  only_frame t m1 m2 -> only_frame t m2 m3 -> only_frame t m1 m3.
Proof. intros H1 H2 b Hb. by rewrite H2, H1. Qed.

Lemma only_frame_write m t i v : 0 <= i < ENTRIES -> only_frame t m (write64 m (t + 8 * i) v).
Proof. intros Hi b Hb. by apply write64_out. Qed.

(** Writing into a frame that is not free keeps the pool. *)
Lemma free_inv_only_frame p l t m' :
  free_inv p l -> valid_frame t -> t ∉ l -> mem_ok m' -> only_frame t (ram p) m' ->
  free_inv (set_ram m' p) l.
Proof.
  intros Hp Ht Hnin Hm Ho. apply free_inv_write; [done..|]. intros f Hf.
  apply (only_frame_other t); [done..|by eapply free_inv_in_valid|by intros ->].
Qed.

Lemma mem_ok_write64 m a v : mem_ok m -> mem_ok (write64 m a v).
Proof. apply mem_ok_store. Qed.
#[export] Hint Resolve mem_ok_write64 : jatuli.

Lemma write_entry_spec pan t i v Q s :
  Q tt (set_ph (set_ram (write64 (mem_of s) (t + 8 * i) v) (ph s)) s) ->
  wp pan (write_entry t i v) Q s.
Proof. intros HQ. unfold write_entry, in_phys. by wp_steps. Qed.

(** Zeroing a frame that is not on the free list. *)
Lemma zero_table_spec pan s l t :
  free_inv (ph s) l -> valid_frame t -> t ∉ l ->
  wp pan (forM (zseq 0 (Z.to_nat ENTRIES)) (fun i => write_entry t i 0)) (fun _ s' =>
    free_inv (ph s') l /\ only_frame t (mem_of s) (mem_of s') /\
    (forall i, 0 <= i < ENTRIES -> entry (mem_of s') t i = 0) /\ s' = set_ph (ph s') s) s.
Proof.
  intros Hp Ht Hnin. eapply wp_mono.
  - apply (wp_forM pan _ _ (fun done s' =>
      free_inv (ph s') l /\ only_frame t (mem_of s) (mem_of s') /\
      (forall i, i ∈ done -> entry (mem_of s') t i = 0) /\ s' = set_ph (ph s') s)).
    { split_and!; [done|done|set_solver|by destruct s]. }
    intros done i rest s' Hseq (Hp' & Ho & Hz & Hs').
    assert (Hi : 0 <= i < ENTRIES).
    { assert (Hin : i ∈ zseq 0 (Z.to_nat ENTRIES)) by (rewrite Hseq; set_solver).
      rewrite elem_of_zseq in Hin. unfold ENTRIES in *. lia. }
    apply write_entry_spec. cbn. split_and!.
    + eapply free_inv_only_frame; eauto using only_frame_write.
      apply mem_ok_write64, Hp'.
    + eapply only_frame_trans; [done|by apply only_frame_write].
    + intros j [Hj|Hj]%elem_of_app.
      * destruct (decide (j = i)) as [->|Hne]; [by apply entry_write_eq|].
        rewrite <-(Hz j Hj). apply read64_write64_ne. lia.
      * apply list_elem_of_singleton in Hj as ->. by apply entry_write_eq.
    + by rewrite Hs'.
  - intros [] s' (H1 & H2 & H3 & H4). split_and!; [done|done| |done].
    intros i Hi. apply H3. rewrite elem_of_zseq. unfold ENTRIES in *. lia.
Qed.

Lemma alloc_table_spec (pan : Prop) s l :
  free_inv (ph s) l -> (l = [] -> pan) ->
  wp pan alloc_table (fun t s' => exists l', l = t :: l' /\ valid_frame t /\ t ∉ l' /\
    free_inv (ph s') l' /\ only_frame t (mem_of s) (mem_of s') /\
    (forall i, 0 <= i < ENTRIES -> entry (mem_of s') t i = 0) /\ s' = set_ph (ph s') s) s.
Proof.
  intros Hp Hpan. unfold alloc_table, in_phys. wp_steps.
  eapply wp_mono; [exact (wp_pan False pan _ _ _ (False_ind pan) (pop_spec _ _ Hp))|].
  intros r p Hr. apply wp_bind. destruct l as [|t l].
  { destruct Hr as [-> _]. by apply wp_expect_none, Hpan. }
  destruct Hr as (-> & Hp' & Hram). wp_steps.
  pose proof (fi_nodup _ _ Hp) as [Hnin _]%NoDup_cons.
  pose proof (fi_valid _ _ Hp) as [Ht _]%Forall_cons.
  clear Hpan.
  eapply wp_mono; [by apply (zero_table_spec pan (set_ph p s) l t)|].
  intros [] s' (H1 & H2 & H3 & H4). wp_steps. exists l.
  split_and!; try done. intros b Hb. rewrite H2 by done. cbn. by rewrite Hram.
Qed.

(** ** Growing the tables *)

Lemma hw_walk_zero_table m k t va :
  (forall i, 0 <= i < ENTRIES -> entry m t i = 0) -> hw_walk m k t va = None.
Proof.
  intros Hz. destruct k as [|k]; cbn [hw_walk]; cbv zeta;
    by rewrite Hz by (apply index_at_range; lia).
Qed.

(** Linking a fresh zeroed table [c] into the empty entry [(t, i)]. *)
Section link.
Context (kl1 : Z) (m m' : mem) (T : gmap Z nat) (t i c : Z) (lv : nat).
Hypothesis Hwf : pt_wf kl1 m T.
Hypothesis Ht : T !! t = Some lv.
Hypothesis Hlv : (lv < 3)%nat.
Hypothesis Hi : 0 <= i < ENTRIES.
Hypothesis Hfree : is_valid (entry m t i) = false.
Hypothesis Hc : valid_frame c.
Hypothesis Hfresh : T !! c = None.
Hypothesis Hlink : entry m' t i = Z.lor c DESC_TABLE.
Hypothesis Hzero : forall j, 0 <= j < ENTRIES -> entry m' c j = 0.
Hypothesis Hother : forall t' j, is_Some (T !! t') -> 0 <= j < ENTRIES -> (t', j) <> (t, i) ->
  entry m' t' j = entry m t' j.

Lemma link_desc : is_table (entry m' t i) = true /\ next_table (entry m' t i) = c.
Proof.
  rewrite Hlink. destruct Hc as (Ha & _). pose proof (valid_frame_range _ Hc).
  split; [by apply is_table_desc|apply next_table_desc; [done|lia|done]].
Qed.

Lemma link_old_table t' l' j :
  T !! t' = Some l' -> (l' < 3)%nat -> 0 <= j < ENTRIES -> is_table (entry m' t' j) = true ->
  (t' = t /\ j = i) \/
  (entry m' t' j = entry m t' j /\ T !! next_table (entry m t' j) = Some (S l') /\
   next_table (entry m t' j) <> c).
Proof.
  intros Ht' Hl' Hj Htab. destruct (decide ((t', j) = (t, i))) as [[= -> ->]|Hne]; [by left|].
  right. rewrite Hother in Htab |- * by eauto.
  pose proof (pt_child _ _ _ Hwf _ _ _ Ht' Hl' Hj Htab) as Hch.
  split_and!; [done|done|congruence].
Qed.

Lemma link_pt_wf : pt_wf kl1 m' (<[c := S lv]> T).
Proof.
  destruct link_desc as [Hd1 Hd2].
  assert (Htc : t <> c) by congruence.
  assert (Hin : forall t' l', <[c := S lv]> T !! t' = Some l' -> forall j, 0 <= j < ENTRIES ->
            is_table (entry m' t' j) = true -> t' <> c /\ T !! t' = Some l').
  { intros t' l' [[<- <-]|[Hne HT]]%lookup_insert_Some j Hj; [|done].
    rewrite Hzero by done. by rewrite is_table_0. }
  split.
  - intros t' l' [[<- <-]|[_ HT]]%lookup_insert_Some; [split; [done|lia]|].
    by apply (pt_frame _ _ _ Hwf).
  - intros t' l' j HT Hl' Hj Htab. destruct (Hin _ _ HT _ Hj Htab) as [Hne HT'].
    destruct (link_old_table _ _ _ HT' Hl' Hj Htab) as [[-> ->]|(-> & Hch & Hnc)].
    + rewrite Hd2, lookup_insert_eq. congruence.
    + by rewrite lookup_insert_ne.
  - intros t1 l1 i1 t2 l2 i2 HT1 Hl1 Hi1 HT2 Hl2 Hi2 Htab1 Htab2 Hnext.
    destruct (Hin _ _ HT1 _ Hi1 Htab1) as [_ HT1'], (Hin _ _ HT2 _ Hi2 Htab2) as [_ HT2'].
    destruct (link_old_table _ _ _ HT1' Hl1 Hi1 Htab1) as [[-> ->]|(E1 & Hch1 & Hn1)],
      (link_old_table _ _ _ HT2' Hl2 Hi2 Htab2) as [[-> ->]|(E2 & Hch2 & Hn2)].
    + by left.
    + congruence.
    + congruence.
    + rewrite E1, E2 in *. by apply (pt_inj _ _ _ Hwf t1 l1 i1 t2 l2 i2).
  - intros t' [[<- [=]]|[Hne HT]]%lookup_insert_Some.
    destruct (pt_root _ _ _ Hwf _ HT) as [Hr1 Hr2].
    rewrite Hother; [done|eauto|unfold ENTRIES; lia|].
    intros [= -> <-]. apply is_table_valid in Hr1. congruence.
  - rewrite lookup_insert_ne; [apply (pt_kl1 _ _ _ Hwf)|].
    intros <-. rewrite (pt_kl1 _ _ _ Hwf) in Hfresh. done.
  - intros t' l' j [[<- <-]|[Hne HT]]%lookup_insert_Some Hl' Hj Hv Hnt.
    { rewrite Hzero in Hv by done. done. }
    destruct (decide ((t', j) = (t, i))) as [[= -> ->]|Hne']; [congruence|].
    rewrite Hother in Hv, Hnt by eauto.
    destruct (pt_blk _ _ _ Hwf _ _ _ HT Hl' Hj Hv Hnt) as [->|(j' & Hj' & Hk1 & Hk2)]; [by left|].
    right. exists j'. rewrite Hother; [done|by rewrite (pt_kl1 _ _ _ Hwf)|done|].
    intros [= <- ->]. apply is_table_valid in Hk1. congruence.
Qed.

Lemma link_hw k t' va :
  T !! t' = Some (3 - k)%nat -> (k <= 3)%nat -> hw_walk m' k t' va = hw_walk m k t' va.
Proof.
  revert t'. induction k as [|k IH]; intros t' Ht' Hk; cbn [hw_walk]; cbv zeta;
    set (j := index_at _ va);
    assert (Hj : 0 <= j < ENTRIES) by (apply index_at_range; lia).
  - rewrite Hother; [done|eauto|done|].
    intros [= -> _]. rewrite Ht in Ht'. injection Ht'. lia.
  - destruct (decide ((t', j) = (t, i))) as [[= -> E]|Hne].
    + rewrite E. destruct link_desc as [-> ->]. rewrite hw_walk_zero_table by done.
      rewrite Hfree. destruct (is_table (entry m t i)) eqn:Et; [|done].
      apply is_table_valid in Et. congruence.
    + rewrite Hother by eauto. destruct (is_table (entry m t' j)) eqn:Et; [|done].
      apply IH; [|lia]. pose proof (pt_child _ _ _ Hwf _ _ _ Ht' ltac:(lia) Hj Et) as Hch.
      rewrite Hch. f_equal. lia.
Qed.
End link.

(** [s'] has the tables of [s] and possibly more, taken from the pool, and no
    address translates differently. *)
Record mm_grow (s : mmu) (T : gmap Z nat) (l : list Z)
               (s' : mmu) (T' : gmap Z nat) (l' : list Z) : Prop := {
  mg_inv : mm_inv s' T' l';
  mg_sub : T ⊆ T';
  mg_used : exists used, l = used ++ l' /\ dom T' = dom T ∪ list_to_set used;
  mg_hw : forall t k va, T !! t = Some (3 - k)%nat -> (k <= 3)%nat ->
    hw_walk (mem_of s') k t va = hw_walk (mem_of s) k t va;
  mg_link : forall t lv i, T !! t = Some lv -> (lv < 3)%nat -> 0 <= i < ENTRIES ->
    is_valid (entry (mem_of s) t i) = true -> entry (mem_of s') t i = entry (mem_of s) t i;
  mg_mem : forall f, valid_frame f -> T' !! f = None ->
    same_on (mem_of s) (mem_of s') f FRAME_SIZE;
  mg_regs : s' = set_ph (ph s') s
}.

Lemma mm_grow_refl s T l : mm_inv s T l -> mm_grow s T l s T l.
Proof.
  intros Hinv. split; try done.
  - exists []. split; [done|set_solver].
  - by destruct s.
Qed.

Lemma mm_grow_trans s1 T1 l1 s2 T2 l2 s3 T3 l3 :
  mm_grow s1 T1 l1 s2 T2 l2 -> mm_grow s2 T2 l2 s3 T3 l3 -> mm_grow s1 T1 l1 s3 T3 l3.
Proof.
  intros [I1 S1 U1 X1 L1 M1 R1] [I2 S2 U2 X2 L2 M2 R2]. split.
  - done.
  - by transitivity T2.
  - destruct U1 as (u1 & -> & D1), U2 as (u2 & -> & D2). exists (u1 ++ u2).
    rewrite app_assoc. split; [done|]. rewrite D2, D1. set_solver.
  - intros t k va Ht Hk. rewrite X2, X1; eauto using lookup_weaken.
  - intros t lv i Ht Hlv Hi Hv. pose proof (L1 t lv i Ht Hlv Hi Hv) as E1. rewrite <-E1.
    apply L2 with lv; eauto using lookup_weaken. by rewrite E1.
  - intros f Hf Hf3 b Hb.
    assert (Hf2 : T2 !! f = None).
    { destruct (T2 !! f) eqn:E; [|done]. apply (lookup_weaken _ T3) in E; [congruence|done]. }
    by rewrite (M2 f), (M1 f).
  - rewrite R2. cbn. by rewrite R1.
Qed.

(** A fresh zeroed table [c] hangs off the empty entry [(t, i)], all else equal. *)
Record linked (m : mem) (T : gmap Z nat) (t i c : Z) (m' : mem) : Prop := {
  lk_empty : is_valid (entry m t i) = false;
  lk_frame : valid_frame c;
  lk_fresh : T !! c = None;
  lk_desc : entry m' t i = Z.lor c DESC_TABLE;
  lk_zero : forall j, 0 <= j < ENTRIES -> entry m' c j = 0;
  lk_other : forall t' j, is_Some (T !! t') -> 0 <= j < ENTRIES -> (t', j) <> (t, i) ->
    entry m' t' j = entry m t' j
}.

Lemma get_or_create_spec (pan : Prop) s T l t i lv :
  mm_inv s T l -> T !! t = Some lv -> (lv < 3)%nat -> 0 <= i < ENTRIES ->
  (is_valid (entry (mem_of s) t i) = true -> is_table (entry (mem_of s) t i) = false -> pan) ->
  (is_valid (entry (mem_of s) t i) = false -> l = [] -> pan) ->
  wp pan (get_or_create t i) (fun c s' => exists T' l',
    mm_grow s T l s' T' l' /\ (length l <= S (length l'))%nat /\ T' !! c = Some (S lv) /\
    is_table (entry (mem_of s') t i) = true /\ next_table (entry (mem_of s') t i) = c /\
    (s' = s /\ T' = T /\ l' = l \/
     l = c :: l' /\ T' = <[c := S lv]> T /\ linked (mem_of s) T t i c (mem_of s'))) s.
Proof.
  intros Hinv Ht Hlv Hi Hblk Hoom. pose proof (mi_pt _ _ _ Hinv) as Hwf.
  destruct (pt_frame _ _ _ Hwf _ _ Ht) as [Hvt _].
  unfold get_or_create, read_entry. wp_steps.
  destruct (is_valid (entry (mem_of s) t i)) eqn:Ev.
  - wp_steps; [|by eauto]. exists T, l.
    split_and!; [by apply mm_grow_refl|lia| |done|done|by left]. by apply (pt_child _ _ _ Hwf).
  - wp_steps. eapply wp_mono; [apply alloc_table_spec; [apply Hinv|by auto]|].
    intros c s1 (l' & Hl & Hc & Hcl' & Hp1 & Ho1 & Hz1 & Hs1).
    assert (HcT : T !! c = None) by (apply (mi_sep _ _ _ Hinv); rewrite Hl; set_solver).
    assert (Htc : t <> c) by congruence.
    wp_steps. apply write_entry_spec. wp_steps.
    set (m' := write64 (mem_of s1) (t + 8 * i) (Z.lor c DESC_TABLE)).
    assert (Hlink : entry m' t i = Z.lor c DESC_TABLE) by (by apply entry_write_eq, table_desc_range).
    assert (Hzero : forall j, 0 <= j < ENTRIES -> entry m' c j = 0).
    { intros j Hj. unfold m'. rewrite entry_write_ne by (done || congruence). auto. }
    assert (Hother : forall t' j, is_Some (T !! t') -> 0 <= j < ENTRIES -> (t', j) <> (t, i) ->
              entry m' t' j = entry (mem_of s) t' j).
    { intros t' j [lv' Ht'] Hj Hne. destruct (pt_frame _ _ _ Hwf _ _ Ht') as [Hvt' _].
      unfold m'. rewrite entry_write_ne by (done || congruence).
      apply entry_same_frame; [|done]. apply (only_frame_other c); [done..|congruence]. }
    assert (is_table (entry m' t i) = true /\ next_table (entry m' t i) = c) as [Hd1 Hd2]
      by (by eapply link_desc).
    exists (<[c := S lv]> T), l'.
    split_and!; [|by rewrite Hl|by rewrite lookup_insert_eq|done|done|by right; split_and!; [|done|split]].
    split; cbn [ph set_ph ram set_ram].
    + split; cbn [ph set_ph ram set_ram KERNEL_L1].
      * apply free_inv_only_frame with t; [done..| | |by apply only_frame_write].
        { intros Hin. assert (T !! t = None); [|congruence].
          apply (mi_sep _ _ _ Hinv). rewrite Hl. set_solver. }
        apply mem_ok_write64, Hp1.
      * replace (KERNEL_L1 s1) with (KERNEL_L1 s) by (by rewrite Hs1).
        by eapply link_pt_wf.
      * intros f Hf. rewrite lookup_insert_ne by congruence.
        apply (mi_sep _ _ _ Hinv). rewrite Hl. set_solver.
    + by apply insert_subseteq.
    + exists [c]. split; [done|]. rewrite dom_insert_L. set_solver.
    + intros t' k va Ht' Hk. by apply (link_hw (KERNEL_L1 s) (mem_of s) m' T t i c lv).
    + intros t' lv' j Ht' Hlv' Hj Hv. apply Hother; [by eauto|done|]. intros [= -> ->]. congruence.
    + intros f Hf [Hfn Hfc]%lookup_insert_None b Hb.
      unfold m'. rewrite write64_out; [|done|].
      * by apply (only_frame_other c _ _ f Ho1).
      * assert (Htf : t <> f) by congruence. destruct (frames_disjoint t f Hvt Hf Htf); lia.
    + by apply set_ph_regs.
Qed.

(** ** Writing a page descriptor *)

Lemma pt_wf_ext kl1 m m' T :
  (forall t l i, T !! t = Some l -> (l < 3)%nat -> 0 <= i < ENTRIES -> entry m' t i = entry m t i) ->
  pt_wf kl1 m T -> pt_wf kl1 m' T.
Proof.
  intros He [Hf Hc Hi Hr Hk Hb]. split.
  - done.
  - intros t l i Ht Hl Hi'. rewrite (He t l i) by done. by apply Hc.
  - intros t1 l1 i1 t2 l2 i2 H1 Hl1 Hi1 H2 Hl2 Hi2.
    rewrite (He t1 l1 i1), (He t2 l2 i2) by done. by apply Hi.
  - intros t Ht. rewrite (He t O 0); [auto|done|lia|unfold ENTRIES; lia].
  - done.
  - intros t l i Ht Hl Hi'. rewrite (He t l i) by done. intros Hv Hnt.
    destruct (Hb _ _ _ Ht Hl Hi' Hv Hnt) as [?|(j & Hj & Hk1 & Hk2)]; [by left|right].
    exists j. rewrite (He kl1 1%nat j); [done|done|lia|done].
Qed.

Lemma walk_ext m m' (T : gmap Z nat) k t va :
  (forall t l i, T !! t = Some l -> (l < 3)%nat -> 0 <= i < ENTRIES -> entry m' t i = entry m t i) ->
  (forall t l i, T !! t = Some l -> (l < 3)%nat -> 0 <= i < ENTRIES ->
     is_table (entry m t i) = true -> T !! next_table (entry m t i) = Some (S l)) ->
  T !! t = Some (3 - k)%nat -> (k <= 3)%nat -> walk m' t (shifts k) va = walk m t (shifts k) va.
Proof.
  intros He Hc. revert t. induction k as [|k IH]; intros t Ht Hk; [done|].
  cbn [shifts walk]. cbv zeta.
  assert (Hj : 0 <= index_at (12 + 9 * Z.of_nat (S k)) va < ENTRIES) by (apply index_at_range; lia).
  rewrite (He _ _ _ Ht ltac:(lia) Hj). destruct (is_table _) eqn:E; [|done].
  apply IH; [|lia]. rewrite (Hc _ _ _ Ht ltac:(lia) Hj E). f_equal. lia.
Qed.

Lemma walk_level kl1 m T k t va l3 :
  pt_wf kl1 m T -> T !! t = Some (3 - k)%nat -> (k <= 3)%nat ->
  walk m t (shifts k) va = Some l3 -> T !! l3 = Some 3%nat.
Proof.
  intros Hwf. revert t. induction k as [|k IH]; intros t Ht Hk; cbn [shifts walk].
  { intros [= <-]. done. }
  assert (Hj : 0 <= index_at (12 + 9 * Z.of_nat (S k)) va < ENTRIES) by (apply index_at_range; lia).
  cbv zeta. destruct (is_table _) eqn:E; [|done]. apply IH; [|lia].
  rewrite (pt_child _ _ _ Hwf _ _ _ Ht ltac:(lia) Hj E). f_equal. lia.
Qed.

(** Below the roots, a table is reached by one path only. *)
Lemma walk_inj_low kl1 m T k t1 t2 va1 va2 l3 :
  pt_wf kl1 m T -> (k <= 2)%nat -> T !! t1 = Some (3 - k)%nat -> T !! t2 = Some (3 - k)%nat ->
  walk m t1 (shifts k) va1 = Some l3 -> walk m t2 (shifts k) va2 = Some l3 ->
  t1 = t2 /\ Forall (fun sh => index_at sh va1 = index_at sh va2) (shifts k).
Proof.
  intros Hwf. revert t1 t2. induction k as [|k IH]; intros t1 t2 Hk H1 H2; cbn [shifts walk].
  { intros [= ->] [= ->]. done. }
  cbv zeta. destruct (is_table _) eqn:E1; [|done]. intros W1.
  destruct (is_table (entry m t2 _)) eqn:E2; [|done]. intros W2.
  assert (Hj : forall va, 0 <= index_at (12 + 9 * Z.of_nat (S k)) va < ENTRIES)
    by (intros; apply index_at_range; lia).
  pose proof (pt_child _ _ _ Hwf _ _ _ H1 ltac:(lia) (Hj va1) E1) as C1.
  pose proof (pt_child _ _ _ Hwf _ _ _ H2 ltac:(lia) (Hj va2) E2) as C2.
  replace (S (3 - S k)) with (3 - k)%nat in C1, C2 by lia.
  destruct (IH _ _ ltac:(lia) C1 C2 W1 W2) as [En Hf].
  destruct (pt_inj _ _ _ Hwf _ _ _ _ _ _ H1 ltac:(lia) (Hj va1) H2 ltac:(lia) (Hj va2) E1 E2 En)
    as [[-> Ei]|(Hl & _)]; [|lia].
  split; [done|]. constructor; done.
Qed.

Lemma walk_inj kl1 m T r1 r2 va1 va2 l3 :
  pt_wf kl1 m T -> T !! r1 = Some O -> T !! r2 = Some O ->
  walk m r1 (shifts 3) va1 = Some l3 -> walk m r2 (shifts 3) va2 = Some l3 ->
  (r1 = r2 \/ index_at 39 va1 = 0) /\
  Forall (fun sh => index_at sh va1 = index_at sh va2) (shifts 3).
Proof.
  intros Hwf H1 H2. change (shifts 3) with (39 :: shifts 2). cbn [walk]. cbv zeta.
  destruct (is_table _) eqn:E1; [|done]. intros W1.
  destruct (is_table (entry m r2 _)) eqn:E2; [|done]. intros W2.
  assert (Hj : forall va, 0 <= index_at 39 va < ENTRIES) by (intros; apply index_at_range; lia).
  pose proof (pt_child _ _ _ Hwf _ _ _ H1 ltac:(lia) (Hj va1) E1) as C1.
  pose proof (pt_child _ _ _ Hwf _ _ _ H2 ltac:(lia) (Hj va2) E2) as C2.
  destruct (walk_inj_low _ _ _ 2 _ _ _ _ _ Hwf ltac:(lia) C1 C2 W1 W2) as [En Hf].
  destruct (pt_inj _ _ _ Hwf _ _ _ _ _ _ H1 ltac:(lia) (Hj va1) H2 ltac:(lia) (Hj va2) E1 E2 En)
    as [[-> Ei]|(_ & _ & E & E')]; split; auto; constructor; congruence.
Qed.

(** ** Addresses and pages *)

Definition canonical (va : Z) : Prop := 0 <= va < 2 ^ 48.

Lemma index_at_eq shift va : 0 <= shift -> index_at shift va = (va / 2 ^ shift) mod 512.
Proof. apply land_mod_512. Qed.

(** The four indices determine the page. *)
Lemma same_page_indices va1 va2 :
  canonical va1 -> canonical va2 ->
  (va1 / 4096 = va2 / 4096 <->
   Forall (fun sh => index_at sh va1 = index_at sh va2) (shifts 3) /\
   index_at 12 va1 = index_at 12 va2).
Proof.
  intros H1 H2. unfold canonical in *. change (shifts 3) with [39; 30; 21].
  rewrite !Forall_cons, Forall_nil, !index_at_eq by lia. split.
  - intros E. split_and!; done || zlia.
  - intros [(E0 & E1 & E2 & _) E3]. zlia.
Qed.

Lemma low_half va : canonical va -> (index_at 39 va = 0 <-> va < 2 ^ 39).
Proof. intros H. unfold canonical in H. rewrite index_at_eq by lia. zlia. Qed.

Lemma l0_ptr_root f : valid_frame f -> l0_ptr f = f.
Proof.
  intros Hf. pose proof (valid_frame_range _ Hf). destruct Hf as (Ha & _).
  apply next_table_aligned; [done|lia].
Qed.

(** Two addresses of one page take the same path, from one root or, in the kernel
    half, from any two. *)
Lemma walk_same_page kl1 m T r r' va va' :
  pt_wf kl1 m T -> T !! r = Some O -> T !! r' = Some O ->
  Forall (fun sh => index_at sh va' = index_at sh va) (shifts 3) ->
  r' = r \/ index_at 39 va = 0 ->
  walk m r' (shifts 3) va' = walk m r (shifts 3) va.
Proof.
  intros Hwf Hr Hr'. change (shifts 3) with [39; 30; 21].
  rewrite !Forall_cons. intros (E0 & E1 & E2 & _) Hroot. cbn [walk]. cbv zeta.
  rewrite E0, E1, E2. destruct Hroot as [->|Hz]; [done|].
  rewrite Hz. destruct (pt_root _ _ _ Hwf _ Hr) as [-> ->].
  by destruct (pt_root _ _ _ Hwf _ Hr') as [-> ->].
Qed.

(** Mapping [va] in [root] concerns [va'] in [root']: the same page, of the same
    space or of the kernel half that all spaces share. *)
Definition hits (root va root' va' : Z) : Prop :=
  va' / 4096 = va / 4096 /\ (root' = root \/ va < 2 ^ 39).
#[export] Instance hits_dec root va root' va' : Decision (hits root va root' va').
Proof. unfold hits. apply _. Defined.

Lemma hw_walk_same_page kl1 m T r r' va va' :
  pt_wf kl1 m T -> T !! r = Some O -> T !! r' = Some O ->
  Forall (fun sh => index_at sh va' = index_at sh va) (shifts 3) ->
  index_at 12 va' = index_at 12 va ->
  r' = r \/ index_at 39 va = 0 ->
  hw_walk m 3 r' va' = hw_walk m 3 r va.
Proof.
  intros Hwf Hr Hr'. change (shifts 3) with [39; 30; 21].
  rewrite !Forall_cons. intros (E0 & E1 & E2 & _) E3 Hroot. cbn [hw_walk]. cbv zeta.
  change (12 + 9 * Z.of_nat 3) with 39. change (12 + 9 * Z.of_nat 2) with 30.
  change (12 + 9 * Z.of_nat 1) with 21. change (12 + 9 * Z.of_nat 0) with 12.
  rewrite E0, E1, E2, E3. destruct Hroot as [->|Hz]; [done|].
  rewrite Hz. destruct (pt_root _ _ _ Hwf _ Hr) as [-> ->].
  by destruct (pt_root _ _ _ Hwf _ Hr') as [-> ->].
Qed.

(** Where a walk ends after its page, but not a block, has been taken away. *)
Definition unpaged (w : option (nat * Z)) : option (nat * Z) :=
  match w with Some (O, _) => None | _ => w end.

Lemma walk_none_unpaged m k t va :
  walk m t (shifts k) va = None -> unpaged (hw_walk m k t va) = hw_walk m k t va.
Proof.
  revert t. induction k as [|k IH]; intros t; cbn [shifts walk hw_walk]; cbv zeta; [done|].
  set (e := entry m t _). destruct (is_table e); [apply IH|]. by destruct (is_valid e).
Qed.

Lemma walk_some_unpaged m k t va l3 :
  walk m t (shifts k) va = Some l3 -> unpaged (hw_walk m k t va) = None.
Proof.
  revert t. induction k as [|k IH]; intros t; cbn [shifts walk hw_walk]; cbv zeta.
  - intros _. by destruct (is_valid _).
  - set (e := entry m t _). by destruct (is_table e); [apply IH|].
Qed.

(** Overwriting descriptor [(l3, i3)] is seen by exactly the walks that end there. *)
Lemma leaf_write_hw kl1 m T l3 i3 v k t va :
  pt_wf kl1 m T -> T !! l3 = Some 3%nat -> 0 <= i3 < ENTRIES -> 0 <= v < 2 ^ 64 ->
  T !! t = Some (3 - k)%nat -> (k <= 3)%nat ->
  hw_walk (write64 m (l3 + 8 * i3) v) k t va =
    if decide (walk m t (shifts k) va = Some l3 /\ index_at 12 va = i3)
    then (if is_valid v then Some (O, v) else None)
    else hw_walk m k t va.
Proof.
  intros Hwf Hl3 Hi3 Hv. destruct (pt_frame _ _ _ Hwf _ _ Hl3) as [Hfl3 _].
  revert t. induction k as [|k IH]; intros t Ht Hk;
    destruct (pt_frame _ _ _ Hwf _ _ Ht) as [Hft _]; cbn [hw_walk shifts walk]; cbv zeta.
  - change (12 + 9 * Z.of_nat 0) with 12.
    assert (Hj : 0 <= index_at 12 va < ENTRIES) by (apply index_at_range; lia).
    destruct (decide (_ /\ _)) as [[[= ->] <-]|Hne].
    + by rewrite entry_write_eq.
    + rewrite entry_write_ne; [done..|]. intros [= -> ->]. by apply Hne.
  - set (j := index_at _ va). assert (Hj : 0 <= j < ENTRIES) by (apply index_at_range; lia).
    rewrite entry_write_ne; [|done..|].
    2:{ intros [= -> _]. rewrite Hl3 in Ht. injection Ht. lia. }
    destruct (is_table (entry m t j)) eqn:Et.
    + apply IH; [|lia]. rewrite (pt_child _ _ _ Hwf _ _ _ Ht ltac:(lia) Hj Et). f_equal. lia.
    + destruct (decide (_ /\ _)) as [[[=] _]|]; done.
Qed.

(** What overwriting the descriptor of [va]'s page with [v] does to every address
    space. *)
Lemma leaf_write_update kl1 m T root va l3 v root' va' :
  pt_wf kl1 m T -> T !! root = Some O -> T !! root' = Some O ->
  canonical va -> canonical va' -> 0 <= v < 2 ^ 64 ->
  walk m root (shifts 3) va = Some l3 ->
  hw_walk (write64 m (l3 + 8 * index_at 12 va) v) 3 root' va' =
    if decide (hits root va root' va')
    then (if is_valid v then Some (O, v) else None)
    else hw_walk m 3 root' va'.
Proof.
  intros Hwf Hr Hr' Hva Hva' Hv Hw.
  pose proof (walk_level _ _ _ 3 _ _ _ Hwf Hr ltac:(lia) Hw) as Hl3.
  rewrite (leaf_write_hw kl1 m T); [|done..|apply index_at_range; lia|done|done|lia].
  assert (Hiff : walk m root' (shifts 3) va' = Some l3 /\ index_at 12 va' = index_at 12 va <->
                 hits root va root' va').
  { unfold hits. rewrite same_page_indices by done. split.
    - intros [Hw' E12]. destruct (walk_inj _ _ _ _ _ _ _ _ Hwf Hr' Hr Hw' Hw) as [Hroot Hsh].
      split; [done|]. destruct Hroot as [->|Hz]; [by left|right].
      rewrite <-low_half by done. change (shifts 3) with [39; 30; 21] in Hsh.
      apply Forall_cons in Hsh as [E39 _]. congruence.
    - intros [[Hsh E12] Hroot]. split; [|done]. rewrite <-Hw.
      apply (walk_same_page kl1 m T); [done..|]. by rewrite low_half. }
  destruct (decide (_ /\ _)), (decide (hits _ _ _ _)); tauto.
Qed.

(** ** Mapping a page *)

(** Tables reached through a slot other than 0 of a root hold no blocks, so
    [get_or_create] never trips over one there. *)
Definition no_blocks (m : mem) (t : Z) : Prop :=
  forall i, 0 <= i < ENTRIES -> is_valid (entry m t i) = true -> is_table (entry m t i) = true.

Lemma root_no_blocks kl1 m T r : pt_wf kl1 m T -> T !! r = Some O -> no_blocks m r.
Proof.
  intros Hwf Hr i Hi Hv. destruct (is_table (entry m r i)) eqn:E; [done|].
  pose proof (pt_kl1 _ _ _ Hwf) as Hk.
  destruct (pt_blk _ _ _ Hwf _ _ _ Hr ltac:(lia) Hi Hv E) as [->|(j & Hj & E1 & <-)]; [congruence|].
  rewrite (pt_child _ _ _ Hwf _ _ _ Hk ltac:(lia) Hj E1) in Hr. done.
Qed.

Lemma user_l1_no_blocks kl1 m T r i :
  pt_wf kl1 m T -> T !! r = Some O -> 0 < i < ENTRIES -> is_table (entry m r i) = true ->
  next_table (entry m r i) <> kl1 /\ no_blocks m (next_table (entry m r i)).
Proof.
  intros Hwf Hr Hi Htab. pose proof (pt_kl1 _ _ _ Hwf) as Hk.
  assert (Hne : next_table (entry m r i) <> kl1).
  { intros E. destruct (pt_root _ _ _ Hwf _ Hr) as [R1 R2].
    destruct (pt_inj _ _ _ Hwf r O i r O 0) as [[_ ?]|(_ & _ & ? & _)];
      done || lia || congruence || (unfold ENTRIES; lia). }
  split; [done|]. intros j Hj Hv. destruct (is_table (entry m _ j)) eqn:E; [done|].
  assert (Hi' : 0 <= i < ENTRIES) by lia.
  pose proof (pt_child _ _ _ Hwf _ _ _ Hr ltac:(lia) Hi' Htab) as Hc.
  destruct (pt_blk _ _ _ Hwf _ _ _ Hc ltac:(lia) Hj Hv E) as [?|(j' & Hj' & E1 & E2)]; [done|].
  pose proof (pt_child _ _ _ Hwf _ _ _ Hk ltac:(lia) Hj' E1) as Hc'. congruence.
Qed.

Lemma user_l2_no_blocks kl1 m T t i :
  pt_wf kl1 m T -> T !! t = Some 1%nat -> t <> kl1 -> 0 <= i < ENTRIES ->
  is_table (entry m t i) = true -> no_blocks m (next_table (entry m t i)).
Proof.
  intros Hwf Ht Hne Hi Htab j Hj Hv. destruct (is_table (entry m _ j)) eqn:E; [done|].
  pose proof (pt_kl1 _ _ _ Hwf) as Hk.
  pose proof (pt_child _ _ _ Hwf _ _ _ Ht ltac:(lia) Hi Htab) as Hc.
  destruct (pt_blk _ _ _ Hwf _ _ _ Hc ltac:(lia) Hj Hv E) as [?|(j' & Hj' & E1 & E2)]; [congruence|].
  destruct (pt_inj _ _ _ Hwf kl1 1%nat j' t 1%nat i) as [[? _]|(? & _)]; done || lia.
Qed.

(** No block lies on the walk of [va]. *)
Definition unblocked (m : mem) (root va : Z) : Prop :=
  forall n e, hw_walk m 3 root va = Some (n, e) -> n = O.

Lemma user_unblocked kl1 m T root va :
  pt_wf kl1 m T -> T !! root = Some O -> index_at 39 va <> 0 -> unblocked m root va.
Proof.
  intros Hwf Hr Hu n e. assert (Hix : forall sh, 0 <= sh -> 0 <= index_at sh va < ENTRIES)
    by (intros; by apply index_at_range).
  cbn [hw_walk]. cbv zeta. change (12 + 9 * Z.of_nat 3) with 39. change (12 + 9 * Z.of_nat 2) with 30.
  change (12 + 9 * Z.of_nat 1) with 21. change (12 + 9 * Z.of_nat 0) with 12.
  destruct (is_table (entry m root (index_at 39 va))) eqn:E1.
  2: { destruct (is_valid _) eqn:V; [|done]. rewrite (root_no_blocks _ _ _ _ Hwf Hr) in E1; [done|by apply Hix|done]. }
  pose proof (Hix 39 ltac:(lia)) as H39.
  assert (H39' : 0 < index_at 39 va < ENTRIES) by lia.
  destruct (user_l1_no_blocks _ _ _ _ _ Hwf Hr H39' E1) as [Hk Hnb1].
  pose proof (pt_child _ _ _ Hwf _ _ _ Hr ltac:(lia) H39 E1) as Hc1.
  set (l1 := next_table (entry m root _)) in *.
  destruct (is_table (entry m l1 (index_at 30 va))) eqn:E2.
  2: { destruct (is_valid _) eqn:V; [|done]. rewrite (Hnb1 (index_at 30 va)) in E2; [done|by apply Hix|done]. }
  pose proof (user_l2_no_blocks _ _ _ _ _ Hwf Hc1 Hk (Hix 30 ltac:(lia)) E2) as Hnb2.
  set (l2 := next_table (entry m l1 _)) in *.
  destruct (is_table (entry m l2 (index_at 21 va))) eqn:E3.
  2: { destruct (is_valid _) eqn:V; [|done]. rewrite (Hnb2 (index_at 21 va)) in E3; [done|by apply Hix|done]. }
  by destruct (is_valid _); intros [= <- _].
Qed.

(** [get_or_create] on three levels builds the path of [va] and nothing else. *)
Lemma build_path_spec (pan : Prop) s T l root va :
  mm_inv s T l -> T !! root = Some O ->
  (~ ((3 <= length l)%nat /\ unblocked (mem_of s) root va) -> pan) ->
  wp pan (let! l1 := get_or_create root (index_at 39 va) in
          let! l2 := get_or_create l1 (index_at 30 va) in
          get_or_create l2 (index_at 21 va))
    (fun l3 s' => exists T' l', mm_grow s T l s' T' l' /\ (length l <= length l' + 3)%nat /\
       walk (mem_of s') root (shifts 3) va = Some l3) s.
Proof.
  intros Hinv Hr Hpan.
  assert (Hix : forall sh, 0 <= sh -> 0 <= index_at sh va < ENTRIES) by (intros; by apply index_at_range).
  assert (Hlen : forall n, (length l < n)%nat -> (n <= 3)%nat -> pan) by (intros n ??; apply Hpan; lia).
  assert (Hblk : forall n e, hw_walk (mem_of s) 3 root va = Some (S n, e) -> pan).
  { intros n e Hw. apply Hpan. intros [_ Hu]. by apply Hu in Hw. }
  wp_steps. eapply wp_mono.
  { apply (get_or_create_spec _ s T l root _ O); [done|done|lia|by apply Hix| |].
    - intros Hv Hnt. pose proof (mi_pt _ _ _ Hinv) as Hwf.
      rewrite (root_no_blocks _ _ _ _ Hwf Hr) in Hnt; [done|by apply Hix|done].
    - intros _ ->. apply (Hlen 1%nat); cbn; lia. }
  intros l1 s1 (T1 & f1 & G1 & Hn1 & Hl1 & Et1 & En1 & _). wp_steps.
  assert (W1 : hw_walk (mem_of s) 3 root va = hw_walk (mem_of s1) 2 l1 va).
  { rewrite <-(mg_hw _ _ _ _ _ _ G1 root 3 va Hr ltac:(lia)). cbn [hw_walk]. cbv zeta.
    change (12 + 9 * Z.of_nat 3) with 39. by rewrite Et1, En1. }
  eapply wp_mono.
  { apply (get_or_create_spec _ s1 T1 f1 l1 _ 1%nat); [apply G1|done|lia|by apply Hix| |].
    - intros Hv Hnt. apply (Hblk 1%nat (entry (mem_of s1) l1 (index_at 30 va))). rewrite W1.
      cbn [hw_walk]. cbv zeta. change (12 + 9 * Z.of_nat 2) with 30. by rewrite Hnt, Hv.
    - intros _ ->. cbn in *. apply (Hlen 2%nat); lia. }
  intros l2 s2 (T2 & f2 & G2 & Hn2 & Hl2 & Et2 & En2 & _). wp_steps.
  assert (W2 : hw_walk (mem_of s) 3 root va = hw_walk (mem_of s2) 1 l2 va).
  { rewrite W1, <-(mg_hw _ _ _ _ _ _ G2 l1 2 va Hl1 ltac:(lia)). cbn [hw_walk]. cbv zeta.
    change (12 + 9 * Z.of_nat 2) with 30. by rewrite Et2, En2. }
  eapply wp_mono.
  { apply (get_or_create_spec _ s2 T2 f2 l2 _ 2%nat); [apply G2|done|lia|by apply Hix| |].
    - intros Hv Hnt. apply (Hblk O (entry (mem_of s2) l2 (index_at 21 va))). rewrite W2.
      cbn [hw_walk]. cbv zeta. change (12 + 9 * Z.of_nat 1) with 21. by rewrite Hnt, Hv.
    - intros _ ->. cbn in *. apply (Hlen 3%nat); lia. }
  intros l3 s3 (T3 & f3 & G3 & Hn3 & Hl3 & Et3 & En3 & _). exists T3, f3.
  split_and!; [by eauto using mm_grow_trans|lia|].
  pose proof (lookup_weaken _ _ _ _ Hr (mg_sub _ _ _ _ _ _ G1)) as Hr1.
  change (shifts 3) with [39; 30; 21]. cbn [walk]. cbv zeta.
  assert (E1 : entry (mem_of s3) root (index_at 39 va) = entry (mem_of s1) root (index_at 39 va)).
  { eapply (mg_link _ _ _ _ _ _ (mm_grow_trans _ _ _ _ _ _ _ _ _ G2 G3));
      [done|lia|by apply Hix|by apply is_table_valid]. }
  rewrite E1, Et1, En1.
  assert (E2 : entry (mem_of s3) l1 (index_at 30 va) = entry (mem_of s2) l1 (index_at 30 va)).
  { eapply (mg_link _ _ _ _ _ _ G3); [by eapply lookup_weaken, (mg_sub _ _ _ _ _ _ G2)|lia|by apply Hix|by apply is_table_valid]. }
  by rewrite E2, Et2, En2, Et3, En3.
Qed.

(** Address and flags that make a valid page descriptor. *)
Record page_ok (pa flags : Z) : Prop := {
  po_aligned : pa mod 4096 = 0;
  po_range : 0 <= pa < 2 ^ 48;
  po_flags : 0 <= flags < 2 ^ 64;
  po_mask : Z.land flags ADDR_MASK = 0;
  po_valid : is_valid flags = true
}.

Lemma page_offset pa va : pa mod 4096 = 0 -> Z.lor pa (Z.land va 0xFFF) = pa + va mod 4096.
Proof.
  intros Ha. change 0xFFF with (Z.ones 12). rewrite Z.land_ones by lia.
  change (2 ^ 12) with 4096. pose proof (Z.mod_pos_bound va 4096).
  rewrite Z.add_nocarry_lxor, Z.lxor_lor; [done|..]; apply aligned_low_bits; done || lia.
Qed.

Lemma page_desc_ok pa flags :
  page_ok pa flags ->
  0 <= Z.lor pa flags < 2 ^ 64 /\ is_valid (Z.lor pa flags) = true /\
  Z.land (Z.lor pa flags) ADDR_MASK = pa /\ Z.land pa ADDR_MASK = pa.
Proof.
  intros [Ha Hr Hf Hm Hv].
  split; [apply lor_lt_pow2; lia|split; [|split; [by apply next_table_desc|by apply next_table_aligned]]].
  unfold is_valid, DESC_VALID in *. by rewrite Z.land_lor_distr_l, (aligned_low_bits pa) by lia.
Qed.

(** [s'] is [s] with the walk for the page of [va] in address space [root] ending
    at [res]; every other walk, in every address space, is as before. *)
Record mm_update (s : mmu) (T : gmap Z nat) (l : list Z) (root va : Z) (res : option (nat * Z))
                 (s' : mmu) (T' : gmap Z nat) (l' : list Z) : Prop := {
  mu_inv : mm_inv s' T' l';
  mu_sub : T ⊆ T';
  mu_used : exists used, l = used ++ l' /\ dom T' = dom T ∪ list_to_set used /\
                         (length used <= 3)%nat;
  mu_hw : forall root' va', T !! root' = Some O -> canonical va' ->
    hw_walk (mem_of s') 3 root' va' =
      if decide (hits root va root' va') then res else hw_walk (mem_of s) 3 root' va';
  mu_mem : forall f, valid_frame f -> T' !! f = None ->
    same_on (mem_of s) (mem_of s') f FRAME_SIZE;
  mu_regs : s' = set_ph (ph s') s
}.

(** Overwriting the descriptor that [va]'s walk ends at. *)
Lemma write_leaf_update s T l root va l3 v :
  mm_inv s T l -> T !! root = Some O -> canonical va -> 0 <= v < 2 ^ 64 ->
  walk (mem_of s) root (shifts 3) va = Some l3 ->
  mm_update s T l root va (if is_valid v then Some (O, v) else None)
    (set_ph (set_ram (write64 (mem_of s) (l3 + 8 * index_at 12 va) v) (ph s)) s) T l.
Proof.
  intros Hinv Hr Hva Hv Hw. pose proof (mi_pt _ _ _ Hinv) as Hwf.
  pose proof (walk_level _ _ _ 3 _ _ _ Hwf Hr ltac:(lia) Hw) as Hl3.
  destruct (pt_frame _ _ _ Hwf _ _ Hl3) as [Hfl3 _].
  assert (Hi : 0 <= index_at 12 va < ENTRIES) by (apply index_at_range; lia).
  split; cbn [ph set_ph ram set_ram].
  - split; cbn [ph set_ph ram set_ram KERNEL_L1].
    + apply free_inv_only_frame with l3; [apply Hinv|done| | |by apply only_frame_write].
      * intros Hin%(mi_sep _ _ _ Hinv). congruence.
      * apply mem_ok_write64, (mi_pool _ _ _ Hinv).
    + eapply pt_wf_ext; [|exact Hwf]. intros t lv i Ht Hlv Hti.
      destruct (pt_frame _ _ _ Hwf _ _ Ht) as [Hft _].
      apply entry_write_ne; [done..|]. intros [= -> _]. rewrite Hl3 in Ht. injection Ht. lia.
    + apply Hinv.
  - done.
  - exists []. split_and!; [done|set_solver|cbn; lia].
  - intros root' va' Hr' Hva'. by eapply leaf_write_update.
  - intros f Hf HfT b Hb. apply write64_out; [done|].
    assert (Hne : l3 <> f) by congruence. destruct (frames_disjoint l3 f Hfl3 Hf Hne); lia.
  - done.
Qed.

Lemma map_page_in_path l0 va pa flags s :
  map_page_in l0 va pa flags s =
  bindM (let! l1 := get_or_create l0 (index_at 39 va) in
         let! l2 := get_or_create l1 (index_at 30 va) in
         get_or_create l2 (index_at 21 va))
    (fun l3 => write_entry l3 (index_at 12 va) (Z.lor (Z.land pa ADDR_MASK) flags)) s.
Proof.
  unfold map_page_in, bindM. destruct (get_or_create _ _ _) as [[l1 s1]|]; [|done].
  destruct (get_or_create l1 _ _) as [[l2 s2]|]; [|done].
  by destruct (get_or_create l2 _ _) as [[l3 s3]|].
Qed.

Lemma map_page_in_gen (pan : Prop) s T l root va pa flags :
  mm_inv s T l -> T !! root = Some O -> canonical va -> page_ok pa flags ->
  (~ ((3 <= length l)%nat /\ unblocked (mem_of s) root va) -> pan) ->
  wp pan (map_page_in root va pa flags) (fun _ s' => exists T' l',
    mm_update s T l root va (Some (O, Z.lor pa flags)) s' T' l') s.
Proof.
  intros Hinv Hr Hva Hpg Hpan.
  destruct (page_desc_ok _ _ Hpg) as (Hv & Hval & _ & Hpa).
  unfold wp. rewrite map_page_in_path, Hpa. apply wp_bind.
  eapply wp_mono; [by apply build_path_spec|].
  intros l3 s1 (T1 & l1 & [I S U X L Mm R] & Hlen & Hw). apply write_entry_spec.
  exists T1, l1. pose proof (lookup_weaken _ _ _ _ Hr S) as Hr1.
  destruct (write_leaf_update s1 T1 l1 root va l3 _ I Hr1 Hva Hv Hw) as [I' S' U' X' M' R'].
  split.
  - done.
  - done.
  - destruct U as (used & -> & Hd). exists used. rewrite length_app in Hlen. split_and!; [done..|lia].
  - intros root' va' Hr' Hva'. rewrite X' by eauto using lookup_weaken.
    rewrite Hval. case_decide; [done|]. by apply X.
  - intros f Hf HfT b Hb. by rewrite (M' f), (Mm f).
  - cbn. by rewrite R.
Qed.

(** A user address with three frames free is never refused. *)
Lemma map_page_in_spec (pan : Prop) s T l root va pa flags :
  mm_inv s T l -> T !! root = Some O -> canonical va -> page_ok pa flags ->
  (~ ((3 <= length l)%nat /\ 2 ^ 39 <= va) -> pan) ->
  wp pan (map_page_in root va pa flags) (fun _ s' => exists T' l',
    mm_update s T l root va (Some (O, Z.lor pa flags)) s' T' l') s.
Proof.
  intros Hinv Hr Hva Hpg Hpan. apply map_page_in_gen; [done..|].
  intros Hn. apply Hpan. intros [Hlen Hu]. apply Hn. split; [done|].
  eapply user_unblocked; [apply Hinv|done|]. rewrite low_half by done. lia.
Qed.

Lemma unmap_page_in_spec s T l root va :
  mm_inv s T l -> T !! root = Some O -> canonical va ->
  wp False (unmap_page_in root va) (fun _ s' =>
    mm_update s T l root va (unpaged (hw_walk (mem_of s) 3 root va)) s' T l) s.
Proof.
  intros Hinv Hr Hva. unfold unmap_page_in. wp_steps. change [39; 30; 21] with (shifts 3).
  pose proof (mi_pt _ _ _ Hinv) as Hwf.
  destruct (walk (mem_of s) root (shifts 3) va) as [l3|] eqn:Hw.
  - apply write_entry_spec. rewrite (walk_some_unpaged _ _ _ _ _ Hw).
    by apply (write_leaf_update s T l root va l3 0).
  - wp_steps. split; try done.
    + exists []. split_and!; [done|set_solver|cbn; lia].
    + intros root' va' Hr' Hva'. case_decide as Hd; [|done]. destruct Hd as [Hp Hroot].
      apply same_page_indices in Hp as [Hsh H12]; [|done..].
      rewrite (walk_none_unpaged _ _ _ _ Hw).
      apply (hw_walk_same_page _ _ _ root root' va va' Hwf); [done..|]. by rewrite low_half.
    + by destruct s.
Qed.
