(* ===== verification/AddressSpaces.v ===== *)
(** * Address spaces: creation, the boot identity map, switching, reclamation

    The correctness of [init_mmu], [new_address_space], [activate] and
    [free_address_space] over the invariant of PageTables, and the memory
    properties of kernel/src/mmu.rs that the rest of the kernel relies on. *)

From Stdlib Require Import ZArith Lia.
From stdpp Require Import base numbers gmap list list_relations.
From S2P Require Import Prelude Memory Abi Frames Mmu PageTables.

(** ** Output addresses and permissions of a walk *)

(** The physical address a descriptor with [n] levels left gives [va]. *)
Definition hw_pa (n : nat) (e va : Z) : Z :=
  Z.land e (Z.shiftl (Z.ones (36 - 9 * Z.of_nat n)) (12 + 9 * Z.of_nat n)) +
  va mod 2 ^ (12 + 9 * Z.of_nat n).

(** AP and execute-never bits, as the architecture reads them. *)
Definition el0_readable (e : Z) : bool := Z.testbit e 6.
Definition el0_writable (e : Z) : bool := Z.testbit e 6 && negb (Z.testbit e 7).
Definition el0_executable (e : Z) : bool := negb (Z.testbit e 54).
Definition el1_writable (e : Z) : bool := negb (Z.testbit e 7).
Definition el1_executable (e : Z) : bool := negb (Z.testbit e 53).

(** Translation through TTBR0: 48 bits of input address, anything above faults. *)
Definition mmu_walk (m : mem) (root va : Z) : option (nat * Z) :=
  if (0 <=? va) && (va <? 2 ^ 48) then hw_walk m 3 root va else None.

(** Loads and stores through a walk; [None] is a fault. An EL1 load needs no more
    than a mapping. *)
Definition el0_load (m : mem) (root va : Z) : option Z :=
  match mmu_walk m root va with
  | Some (n, e) => if el0_readable e then Some (read8 m (hw_pa n e va)) else None
  | None => None
  end.

Definition el0_store (m : mem) (root va b : Z) : option mem :=
  match mmu_walk m root va with
  | Some (n, e) => if el0_writable e then Some (write8 m (hw_pa n e va) b) else None
  | None => None
  end.

Definition el0_fetchable (m : mem) (root va : Z) : bool :=
  match mmu_walk m root va with Some (_, e) => el0_executable e | None => false end.

Definition el1_load (m : mem) (root va : Z) : option Z :=
  match mmu_walk m root va with Some (n, e) => Some (read8 m (hw_pa n e va)) | None => None end.

(** ** Frames that are not tables *)

Lemma hw_walk_ext kl1 m m' T k t va :
  pt_wf kl1 m T ->
  (forall t l i, T !! t = Some l -> 0 <= i < ENTRIES -> entry m' t i = entry m t i) ->
  T !! t = Some (3 - k)%nat -> (k <= 3)%nat -> hw_walk m' k t va = hw_walk m k t va.
Proof.
  intros Hwf He. revert t. induction k as [|k IH]; intros t Ht Hk; cbn [hw_walk]; cbv zeta;
    set (j := index_at _ va);
    assert (Hj : 0 <= j < ENTRIES) by (apply index_at_range; lia);
    rewrite (He _ _ _ Ht Hj); [done|].
  destruct (is_table (entry m t j)) eqn:E; [|done]. apply IH; [|lia].
  rewrite (pt_child _ _ _ Hwf _ _ _ Ht ltac:(lia) Hj E). f_equal. lia.
Qed.

Lemma table_not_free s T l t lv : mm_inv s T l -> T !! t = Some lv -> t ∉ l.
Proof. intros Hinv Ht Hin%(mi_sep _ _ _ Hinv). congruence. Qed.

Lemma table_valid s T l t lv : mm_inv s T l -> T !! t = Some lv -> valid_frame t.
Proof. intros Hinv Ht. by apply (pt_frame _ _ _ (mi_pt _ _ _ Hinv) _ _ Ht). Qed.

(** ** New address spaces *)

(** A fresh root whose slot 0 is the kernel L1 and whose other slots are empty. *)
Section new_root.
Context (kl1 : Z) (m m' : mem) (T : gmap Z nat) (r : Z).
Hypothesis Hwf : pt_wf kl1 m T.
Hypothesis Hr : valid_frame r.
Hypothesis Hfresh : T !! r = None.
Hypothesis Hslot0 : entry m' r 0 = Z.lor kl1 DESC_TABLE.
Hypothesis Hslots : forall j, 0 < j < ENTRIES -> entry m' r j = 0.
Hypothesis Hother : forall t l i, T !! t = Some l -> 0 <= i < ENTRIES -> entry m' t i = entry m t i.

Lemma root_desc : is_table (entry m' r 0) = true /\ next_table (entry m' r 0) = kl1.
Proof.
  destruct (pt_frame _ _ _ Hwf _ _ (pt_kl1 _ _ _ Hwf)) as [Hk _].
  pose proof (valid_frame_range _ Hk). destruct Hk as (Ha & _).
  rewrite Hslot0. split; [by apply is_table_desc|]. apply next_table_desc; [done|lia|done].
Qed.

Lemma root_slot j : 0 <= j < ENTRIES -> is_valid (entry m' r j) = true -> j = 0.
Proof.
  intros Hj Hv. destruct (decide (j = 0)); [done|]. rewrite Hslots in Hv by lia. done.
Qed.

Lemma root_pt_wf : pt_wf kl1 m' (<[r := O]> T).
Proof.
  destruct root_desc as [Hd1 Hd2].
  assert (Hsl : forall j, 0 <= j < ENTRIES -> is_table (entry m' r j) = true -> j = 0)
    by (intros j Hj Ht; by apply root_slot, is_table_valid).
  split.
  - intros t l [[<- <-]|[_ Ht]]%lookup_insert_Some; [split; [done|lia]|].
    by apply (pt_frame _ _ _ Hwf).
  - intros t l i [[<- <-]|[Hne Ht]]%lookup_insert_Some Hl Hi Htab.
    + rewrite (Hsl i Hi Htab), Hd2, lookup_insert_ne by (pose proof (pt_kl1 _ _ _ Hwf); congruence).
      apply (pt_kl1 _ _ _ Hwf).
    + rewrite (Hother _ _ _ Ht Hi) in *. pose proof (pt_child _ _ _ Hwf _ _ _ Ht Hl Hi Htab) as Hc.
      rewrite lookup_insert_ne; [done|congruence].
  - assert (Hx : forall t l i, T !! t = Some l -> (l < 3)%nat -> 0 <= i < ENTRIES ->
      is_table (entry m t i) = true -> next_table (entry m t i) = kl1 -> l = O /\ i = 0).
    { intros t l i Ht Hl Hi Htab Hn.
      pose proof (pt_child _ _ _ Hwf _ _ _ Ht Hl Hi Htab) as Hc. rewrite Hn, (pt_kl1 _ _ _ Hwf) in Hc.
      assert (l = O) as -> by (injection Hc; lia). split; [done|].
      destruct (pt_root _ _ _ Hwf _ Ht) as [R1 R2].
      destruct (pt_inj _ _ _ Hwf t O i t O 0) as [[_ ?]|(_ & _ & ? & _)];
        done || lia || congruence || (unfold ENTRIES; lia). }
    intros t1 l1 i1 t2 l2 i2 [[<- <-]|[Hn1 H1]]%lookup_insert_Some Hl1 Hi1
      [[<- <-]|[Hn2 H2]]%lookup_insert_Some Hl2 Hi2 Ht1 Ht2 Hn.
    + left. by rewrite (Hsl _ Hi1 Ht1), (Hsl _ Hi2 Ht2).
    + right. rewrite (Hsl _ Hi1 Ht1) in *. rewrite (Hother _ _ _ H2 Hi2) in *.
      rewrite Hd2 in Hn. by destruct (Hx _ _ _ H2 Hl2 Hi2 Ht2 (eq_sym Hn)) as [-> ->].
    + right. rewrite (Hsl _ Hi2 Ht2) in *. rewrite (Hother _ _ _ H1 Hi1) in *.
      rewrite Hd2 in Hn. by destruct (Hx _ _ _ H1 Hl1 Hi1 Ht1 Hn) as [-> ->].
    + rewrite (Hother _ _ _ H1 Hi1), (Hother _ _ _ H2 Hi2) in *.
      by apply (pt_inj _ _ _ Hwf t1 l1 i1 t2 l2 i2).
  - intros t [[<- _]|[Hne Ht]]%lookup_insert_Some; [done|].
    rewrite (Hother _ _ 0 Ht) by (unfold ENTRIES; lia). by apply (pt_root _ _ _ Hwf).
  - rewrite lookup_insert_ne; [apply Hwf|]. intros ->. pose proof (pt_kl1 _ _ _ Hwf). congruence.
  - intros t l i [[<- <-]|[Hne Ht]]%lookup_insert_Some Hl Hi Hv Hnt.
    + rewrite (root_slot _ Hi Hv) in Hnt. congruence.
    + rewrite (Hother _ _ _ Ht Hi) in *.
      destruct (pt_blk _ _ _ Hwf _ _ _ Ht Hl Hi Hv Hnt) as [?|(j & Hj & ?)]; [by left|right].
      exists j. by rewrite (Hother _ _ _ (pt_kl1 _ _ _ Hwf) Hj).
Qed.

Lemma root_hw va :
  canonical va ->
  hw_walk m' 3 r va = if va <? 2 ^ 39 then hw_walk m 2 kl1 va else None.
Proof.
  intros Hva. cbn [hw_walk]. cbv zeta. change (12 + 9 * Z.of_nat 3) with 39.
  destruct (Z.ltb_spec va (2 ^ 39)) as [Hlt|Hge].
  - apply low_half in Hlt; [|done]. rewrite Hlt. destruct root_desc as [-> ->].
    apply (hw_walk_ext kl1 m m' T 2 kl1 va Hwf Hother); [apply Hwf|lia].
  - assert (Hi : 0 < index_at 39 va < ENTRIES).
    { pose proof (index_at_range 39 va). pose proof (low_half va Hva). lia. }
    by rewrite Hslots.
Qed.
End new_root.

Lemma new_address_space_spec (pan : Prop) s T l :
  mm_inv s T l -> (l = [] -> pan) ->
  wp pan new_address_space (fun r s' => exists l', l = r :: l' /\ T !! r = None /\
    mm_inv s' (<[r := O]> T) l' /\
    (forall root va, T !! root = Some O -> hw_walk (mem_of s') 3 root va = hw_walk (mem_of s) 3 root va) /\
    (forall va, canonical va ->
       hw_walk (mem_of s') 3 r va = if va <? 2 ^ 39 then hw_walk (mem_of s) 2 (KERNEL_L1 s) va else None) /\
    (forall j, 0 < j < ENTRIES -> entry (mem_of s') r j = 0) /\
    (forall t lv i, T !! t = Some lv -> 0 <= i < ENTRIES -> entry (mem_of s') t i = entry (mem_of s) t i) /\
    s' = set_ph (ph s') s) s.
Proof.
  intros Hinv Hoom. pose proof (mi_pt _ _ _ Hinv) as Hwf.
  unfold new_address_space. wp_steps.
  eapply wp_mono; [apply alloc_table_spec; [apply Hinv|done]|].
  intros r s1 (l' & Hl & Hr & Hrl & Hp1 & Ho1 & Hz1 & Hs1).
  assert (Hk1 : KERNEL_L1 s1 = KERNEL_L1 s) by (by rewrite Hs1).
  pose proof (table_valid _ _ _ _ _ Hinv (pt_kl1 _ _ _ Hwf)) as Hkv.
  pose proof (valid_frame_range _ Hkv) as Hkr.
  assert (HrT : T !! r = None) by (apply (mi_sep _ _ _ Hinv); rewrite Hl; set_solver).
  wp_steps; [|exfalso; destruct (Z.eqb_spec (KERNEL_L1 s1) 0); [lia|done]].
  apply write_entry_spec. wp_steps. exists l'. rewrite Hk1.
  set (m' := write64 _ _ _).
  assert (H0 : 0 <= 0 < ENTRIES) by (unfold ENTRIES; lia).
  assert (Ho' : only_frame r (mem_of s) m').
  { eapply only_frame_trans; [exact Ho1|]. by apply only_frame_write. }
  assert (Hs0 : entry m' r 0 = Z.lor (KERNEL_L1 s) DESC_TABLE) by (by apply entry_write_eq, table_desc_range).
  assert (Hsj : forall j, 0 < j < ENTRIES -> entry m' r j = 0).
  { intros j Hj. unfold m'. rewrite entry_write_ne; [apply Hz1; lia|done..|lia|].
    intros [= <-]. lia. }
  assert (Hoth : forall t lv i, T !! t = Some lv -> 0 <= i < ENTRIES -> entry m' t i = entry (mem_of s) t i).
  { intros t lv i Ht Hi. apply entry_same_frame; [|done].
    apply (only_frame_other r); [done..|by eapply table_valid|congruence]. }
  split_and!; [done..| | | |done|done|by apply set_ph_regs].
  - split; cbn [ph set_ph ram set_ram KERNEL_L1].
    + apply free_inv_only_frame with r; [done..|apply mem_ok_write64, Hp1|by apply only_frame_write].
    + rewrite Hk1. by apply (root_pt_wf (KERNEL_L1 s) (mem_of s)).
    + intros f Hf. rewrite lookup_insert_ne by congruence. apply (mi_sep _ _ _ Hinv). rewrite Hl. set_solver.
  - intros root va Hroot. by apply (hw_walk_ext (KERNEL_L1 s) _ _ T 3).
  - intros va Hva. by apply (root_hw (KERNEL_L1 s) (mem_of s) m' T r).
Qed.

Lemma root_walk_low kl1 m T r va :
  pt_wf kl1 m T -> T !! r = Some O -> canonical va -> va < 2 ^ 39 ->
  hw_walk m 3 r va = hw_walk m 2 kl1 va.
Proof.
  intros Hwf Hr Hva Hlt. destruct (pt_root _ _ _ Hwf _ Hr) as [R1 R2].
  cbn [hw_walk]. cbv zeta. change (12 + 9 * Z.of_nat 3) with 39.
  apply low_half in Hlt; [|done]. by rewrite Hlt, R1, R2.
Qed.

(** ** The boot address space *)

(** What [init_mmu] leaves in the three tables. *)
Record boot_tables (m : mem) (l0 l1 l2 : Z) : Prop := {
  bt_valid : Forall valid_frame [l0; l1; l2];
  bt_nodup : NoDup [l0; l1; l2];
  bt_l0 : forall i, 0 <= i < ENTRIES ->
    entry m l0 i = if i =? 0 then Z.lor l1 DESC_TABLE else 0;
  bt_l1 : forall i, 0 <= i < ENTRIES ->
    entry m l1 i = if i =? 0 then DEVICE_BLOCK else if i =? 1 then Z.lor l2 DESC_TABLE else 0;
  bt_l2 : forall i, 0 <= i < ENTRIES ->
    entry m l2 i = if i <? RAM_BLOCKS then Z.lor (RAM_BASE + i * BLOCK_2MIB) NORMAL_BLOCK else 0
}.

Lemma ram_block_range i :
  0 <= i < RAM_BLOCKS -> 0 <= Z.lor (RAM_BASE + i * BLOCK_2MIB) NORMAL_BLOCK < 2 ^ 64.
Proof.
  intros Hi. apply lor_lt_pow2; [lia| |split; vm_compute; discriminate || done].
  change RAM_BLOCKS with 64 in Hi. unfold RAM_BASE, BLOCK_2MIB. lia.
Qed.

Lemma ram_block_bits i :
  0 <= i < RAM_BLOCKS ->
  is_table (Z.lor (RAM_BASE + i * BLOCK_2MIB) NORMAL_BLOCK) = false /\
  is_valid (Z.lor (RAM_BASE + i * BLOCK_2MIB) NORMAL_BLOCK) = true.
Proof.
  intros Hi. assert (Ha : (RAM_BASE + i * BLOCK_2MIB) mod 4096 = 0)
    by (unfold RAM_BASE, BLOCK_2MIB; zlia).
  unfold is_table, is_valid, DESC_TABLE, DESC_VALID.
  rewrite !Z.land_lor_distr_l, (aligned_low_bits _ 3), (aligned_low_bits _ 1) by lia. done.
Qed.

Lemma boot_pt_wf m l0 l1 l2 :
  boot_tables m l0 l1 l2 -> pt_wf l1 m (<[l0 := O]> (<[l1 := 1%nat]> {[l2 := 2%nat]})).
Proof.
  intros [Hv Hnd H0 H1 H2].
  rewrite !Forall_cons in Hv. destruct Hv as (Hv0 & Hv1 & Hv2 & _).
  rewrite !NoDup_cons in Hnd. destruct Hnd as (Hn0 & Hn1 & _).
  assert (l0 <> l1 /\ l0 <> l2 /\ l1 <> l2) as (N01 & N02 & N12) by set_solver.
  assert (Hdesc : forall c, valid_frame c -> is_table (Z.lor c DESC_TABLE) = true /\
            next_table (Z.lor c DESC_TABLE) = c).
  { intros c Hc. pose proof (valid_frame_range _ Hc). destruct Hc as (Ha & _).
    split; [by apply is_table_desc|]. apply next_table_desc; [done|lia|done]. }
  destruct (Hdesc l1 Hv1) as [D1 D1'], (Hdesc l2 Hv2) as [D2 D2'].
  set (T := <[l0 := O]> _).
  assert (HT : forall t lv, T !! t = Some lv ->
            (t = l0 /\ lv = O) \/ (t = l1 /\ lv = 1%nat) \/ (t = l2 /\ lv = 2%nat)).
  { intros t lv. unfold T. rewrite !lookup_insert_Some, lookup_singleton_Some. naive_solver. }
  assert (T0 : T !! l0 = Some O) by (unfold T; by rewrite lookup_insert_eq).
  assert (T1 : T !! l1 = Some 1%nat) by (unfold T; by rewrite lookup_insert_ne, lookup_insert_eq).
  assert (T2 : T !! l2 = Some 2%nat).
  { unfold T. by rewrite !lookup_insert_ne, lookup_singleton_eq. }
  (* the only table descriptors are (l0, 0) and (l1, 1) *)
  assert (Htab : forall t lv i, T !! t = Some lv -> 0 <= i < ENTRIES -> is_table (entry m t i) = true ->
            (t = l0 /\ lv = O /\ i = 0 /\ next_table (entry m t i) = l1) \/
            (t = l1 /\ lv = 1%nat /\ i = 1 /\ next_table (entry m t i) = l2)).
  { intros t lv i Ht Hi. destruct (HT _ _ Ht) as [[-> ->]|[[-> ->]|[-> ->]]].
    - rewrite H0 by done. destruct (Z.eqb_spec i 0); [auto|done].
    - rewrite H1 by done. destruct (Z.eqb_spec i 0); [done|]. destruct (Z.eqb_spec i 1); [auto|done].
    - rewrite H2 by done. destruct (Z.ltb_spec i RAM_BLOCKS); [|done].
      by rewrite (proj1 (ram_block_bits i ltac:(lia))). }
  split.
  - intros t lv Ht. destruct (HT _ _ Ht) as [[-> ->]|[[-> ->]|[-> ->]]]; split; done || lia.
  - intros t lv i Ht _ Hi Hd.
    destruct (Htab _ _ _ Ht Hi Hd) as [(-> & -> & _ & ->)|(-> & -> & _ & ->)]; done.
  - intros t1 lv1 i1 t2 lv2 i2 Ht1 _ Hi1 Ht2 _ Hi2 Hd1 Hd2 Hn.
    destruct (Htab _ _ _ Ht1 Hi1 Hd1) as [(-> & -> & -> & E1)|(-> & -> & -> & E1)],
      (Htab _ _ _ Ht2 Hi2 Hd2) as [(-> & -> & -> & E2)|(-> & -> & -> & E2)]; auto; congruence.
  - intros t Ht. destruct (HT _ _ Ht) as [[-> _]|[[_ [=]]|[_ [=]]]].
    rewrite H0 by (unfold ENTRIES; lia). done.
  - done.
  - intros t lv i Ht Hlv Hi Hval Hnt. destruct (HT _ _ Ht) as [[-> ->]|[[-> ->]|[-> ->]]].
    + rewrite H0 in Hval, Hnt by done. destruct (Z.eqb_spec i 0); [congruence|done].
    + by left.
    + right. exists 1. rewrite H1 by (unfold ENTRIES; lia). split; [unfold ENTRIES; lia|done].
Qed.

Lemma write_table_spec pan s l t i v :
  free_inv (ph s) l -> valid_frame t -> t ∉ l -> 0 <= i < ENTRIES -> 0 <= v < 2 ^ 64 ->
  wp pan (write_entry t i v) (fun _ s' =>
    free_inv (ph s') l /\ only_frame t (mem_of s) (mem_of s') /\
    (forall j, 0 <= j < ENTRIES ->
       entry (mem_of s') t j = if j =? i then v else entry (mem_of s) t j) /\
    s' = set_ph (ph s') s) s.
Proof.
  intros Hp Ht Hnin Hi Hv. apply write_entry_spec. cbn [ph set_ph ram set_ram]. split_and!.
  - apply free_inv_only_frame with t; auto using only_frame_write. apply mem_ok_write64, Hp.
  - by apply only_frame_write.
  - intros j Hj. destruct (Z.eqb_spec j i) as [->|Hne]; [by apply entry_write_eq|].
    apply entry_write_ne; [done..|congruence].
  - done.
Qed.

Lemma only_frame_entry t m m' t' i :
  only_frame t m m' -> valid_frame t -> valid_frame t' -> t <> t' -> 0 <= i < ENTRIES ->
  entry m' t' i = entry m t' i.
Proof. intros. apply entry_same_frame; [by apply (only_frame_other t)|done]. Qed.

(** The loop that fills the L2 table with RAM blocks. *)
Lemma fill_blocks_spec pan s l t :
  free_inv (ph s) l -> valid_frame t -> t ∉ l ->
  (forall i, 0 <= i < ENTRIES -> entry (mem_of s) t i = 0) ->
  wp pan (forM (zseq 0 (Z.to_nat RAM_BLOCKS)) (fun i =>
            write_entry t i (Z.lor (RAM_BASE + i * BLOCK_2MIB) NORMAL_BLOCK))) (fun _ s' =>
    free_inv (ph s') l /\ only_frame t (mem_of s) (mem_of s') /\
    (forall i, 0 <= i < ENTRIES -> entry (mem_of s') t i =
       if i <? RAM_BLOCKS then Z.lor (RAM_BASE + i * BLOCK_2MIB) NORMAL_BLOCK else 0) /\
    s' = set_ph (ph s') s) s.
Proof.
  intros Hp Ht Hnin Hz. eapply wp_mono.
  - apply (wp_forM pan _ _ (fun done s' =>
      free_inv (ph s') l /\ only_frame t (mem_of s) (mem_of s') /\
      (forall i, 0 <= i < ENTRIES -> entry (mem_of s') t i =
         if decide (i ∈ done) then Z.lor (RAM_BASE + i * BLOCK_2MIB) NORMAL_BLOCK else 0) /\
      s' = set_ph (ph s') s)).
    { split_and!; [done|done| |by destruct s]. intros i Hi. case_decide; [set_solver|auto]. }
    intros done i rest s' Hseq (Hp' & Ho & He & Hs').
    assert (Hi : 0 <= i < RAM_BLOCKS).
    { assert (Hin : i ∈ zseq 0 (Z.to_nat RAM_BLOCKS)) by (rewrite Hseq; set_solver).
      rewrite elem_of_zseq in Hin. change RAM_BLOCKS with 64 in *. lia. }
    eapply wp_mono; [apply (write_table_spec pan s' l t i)|]; [done..| |by apply ram_block_range|].
    { change RAM_BLOCKS with 64 in *. unfold ENTRIES. lia. }
    intros [] s'' (Hp'' & Ho'' & He'' & Hs''). split_and!; [done|by eapply only_frame_trans| |].
    + intros j Hj. rewrite He'', He by done. destruct (Z.eqb_spec j i) as [->|Hne].
      * case_decide; [done|set_solver].
      * repeat case_decide; set_solver.
    + rewrite Hs''. by apply set_ph_regs.
  - intros [] s' (H1 & H2 & H3 & H4). split_and!; [done|done| |done].
    intros i Hi. rewrite H3 by done. case_decide as Hd; rewrite elem_of_zseq in Hd;
      change RAM_BLOCKS with 64 in *; destruct (Z.ltb_spec i 64); done || lia.
Qed.

Lemma init_mmu_spec (pan : Prop) s l :
  free_inv (ph s) l -> ((length l < 3)%nat -> pan) ->
  wp pan init_mmu (fun _ s' => exists l0 l1 l2 l', l = l0 :: l1 :: l2 :: l' /\
    boot_tables (mem_of s') l0 l1 l2 /\
    mm_inv s' (<[l0 := O]> (<[l1 := 1%nat]> {[l2 := 2%nat]})) l' /\
    ttbr0_el1 s' = l0 /\ KERNEL_TTBR0 s' = l0 /\ KERNEL_L1 s' = l1 /\ INSTALLED s' = INSTALLED s) s.
Proof.
  intros Hp Hpan. unfold init_mmu. wp_steps.
  eapply wp_mono; [apply alloc_table_spec; [done|intros ->; apply Hpan; cbn; lia]|].
  intros l0 s1 (f1 & -> & V0 & N0 & P1 & O1 & Z1 & S1). wp_steps.
  eapply wp_mono; [apply alloc_table_spec; [done|intros ->; apply Hpan; cbn; lia]|].
  intros l1 s2 (f2 & -> & V1 & N1 & P2 & O2 & Z2 & S2). wp_steps.
  eapply wp_mono; [apply alloc_table_spec; [done|intros ->; apply Hpan; cbn; lia]|].
  intros l2 s3 (f3 & -> & V2 & N2 & P3 & O3 & Z3 & S3). wp_steps.
  rewrite !not_elem_of_cons in N0. destruct N0 as (N01 & N02 & N0).
  rewrite not_elem_of_cons in N1. destruct N1 as (N12 & N1).
  assert (Hfl : forall f, f ∈ f3 -> valid_frame f) by (intros; by eapply free_inv_in_valid).
  eapply wp_mono; [by apply (fill_blocks_spec pan s3 f3 l2)|].
  intros [] s4 (P4 & O4 & E4 & S4). wp_steps.
  assert (R0 : 0 <= 0 < ENTRIES) by (unfold ENTRIES; lia).
  assert (R1 : 0 <= 1 < ENTRIES) by (unfold ENTRIES; lia).
  eapply wp_mono; [apply (write_table_spec pan s4 f3 l1 0 DEVICE_BLOCK)|]; [done..| |].
  { split; vm_compute; discriminate || done. }
  intros [] s5 (P5 & O5 & E5 & S5). wp_steps.
  eapply wp_mono; [apply (write_table_spec pan s5 f3 l1 1)|]; [done..|by apply table_desc_range|].
  intros [] s6 (P6 & O6 & E6 & S6). wp_steps.
  eapply wp_mono; [apply (write_table_spec pan s6 f3 l0 0)|]; [done..|by apply table_desc_range|].
  intros [] s7 (P7 & O7 & E7 & S7). wp_steps.
  exists l0, l1, l2, f3. cbn [ph mem_of ram KERNEL_L1 KERNEL_TTBR0 ttbr0_el1 INSTALLED].
  assert (Hbt : boot_tables (mem_of s7) l0 l1 l2).
  { split.
    - by rewrite !Forall_cons, Forall_nil.
    - rewrite !NoDup_cons, !not_elem_of_cons.
      split_and!; try done; apply not_elem_of_nil || apply NoDup_nil_2.
    - intros i Hi. rewrite E7 by done. destruct (i =? 0); [done|].
      rewrite (only_frame_entry l1 _ _ l0 i O6), (only_frame_entry l1 _ _ l0 i O5),
        (only_frame_entry l2 _ _ l0 i O4), (only_frame_entry l2 _ _ l0 i O3),
        (only_frame_entry l1 _ _ l0 i O2) by done. auto.
    - intros i Hi. rewrite (only_frame_entry l0 _ _ l1 i O7), E6, E5 by done.
      rewrite (only_frame_entry l2 _ _ l1 i O4), (only_frame_entry l2 _ _ l1 i O3), Z2 by done.
      by destruct (Z.eqb_spec i 0) as [->|].
    - intros i Hi. rewrite (only_frame_entry l0 _ _ l2 i O7), (only_frame_entry l1 _ _ l2 i O6),
        (only_frame_entry l1 _ _ l2 i O5) by done. auto. }
  split_and!; [done|done| |done|done|done|].
  - split; cbn [ph ram KERNEL_L1]; [done|by apply boot_pt_wf|].
    intros f Hf. rewrite !lookup_insert_None, lookup_singleton_None. split_and!; by intros ->.
  - by rewrite S7, S6, S5, S4, S3, S2, S1.
Qed.

(** ** The identity map *)

(** Where the boot walk ends for each address below 512 GiB. *)
Lemma boot_hw m l0 l1 l2 va :
  boot_tables m l0 l1 l2 -> canonical va ->
  hw_walk m 3 l0 va =
    if va <? 2 ^ 30 then Some (2%nat, DEVICE_BLOCK)
    else if (RAM_BASE <=? va) && (va <? RAM_TOP)
    then Some (1%nat, Z.lor (RAM_BASE + (va - RAM_BASE) / BLOCK_2MIB * BLOCK_2MIB) NORMAL_BLOCK)
    else None.
Proof.
  intros [Hv Hnd H0 H1 H2] Hva. unfold canonical in Hva.
  rewrite !Forall_cons in Hv. destruct Hv as (Hv0 & Hv1 & Hv2 & _).
  assert (Hdesc : forall c, valid_frame c -> is_table (Z.lor c DESC_TABLE) = true /\
            next_table (Z.lor c DESC_TABLE) = c).
  { intros c Hc. pose proof (valid_frame_range _ Hc). destruct Hc as (Ha & _).
    split; [by apply is_table_desc|]. apply next_table_desc; [done|lia|done]. }
  destruct (Hdesc l1 Hv1) as [D1 D1'], (Hdesc l2 Hv2) as [D2 D2'].
  cbn [hw_walk]. cbv zeta. change (12 + 9 * Z.of_nat 3) with 39.
  change (12 + 9 * Z.of_nat 2) with 30. change (12 + 9 * Z.of_nat 1) with 21.
  change (12 + 9 * Z.of_nat 0) with 12.
  rewrite H0 by (apply index_at_range; lia). rewrite (index_at_eq 39) by lia.
  destruct (Z.eqb_spec ((va / 2 ^ 39) mod 512) 0) as [E0|E0]; cycle 1.
  { unfold RAM_TOP, RAM_BASE, RAM_SIZE.
    destruct (Z.ltb_spec va (2 ^ 30)); [exfalso; zlia|].
    destruct (Z.ltb_spec va (0x40000000 + 128 * 1024 * 1024)); [exfalso; zlia|].
    by rewrite andb_false_r. }
  rewrite D1, D1', H1 by (apply index_at_range; lia). rewrite (index_at_eq 30) by lia.
  destruct (Z.ltb_spec va (2 ^ 30)) as [Hd|Hd].
  { replace ((va / 2 ^ 30) mod 512) with 0 by zlia. done. }
  destruct (Z.eqb_spec ((va / 2 ^ 30) mod 512) 0); [exfalso; zlia|].
  destruct (Z.eqb_spec ((va / 2 ^ 30) mod 512) 1) as [E1|E1]; cycle 1.
  { unfold RAM_TOP, RAM_BASE, RAM_SIZE.
    destruct (Z.ltb_spec va (0x40000000 + 128 * 1024 * 1024)); [exfalso; zlia|].
    by rewrite andb_false_r. }
  rewrite D2, D2', H2 by (apply index_at_range; lia). rewrite (index_at_eq 21) by lia.
  destruct (Z.ltb_spec ((va / 2 ^ 21) mod 512) RAM_BLOCKS) as [E2|E2].
  - assert (Hr : 0 <= (va / 2 ^ 21) mod 512 < RAM_BLOCKS) by (pose proof (Z.mod_pos_bound (va / 2 ^ 21) 512); lia).
    destruct (ram_block_bits _ Hr) as [-> ->]. change RAM_BLOCKS with 64 in E2.
    replace ((RAM_BASE <=? va) && (va <? RAM_TOP)) with true.
    + do 3 f_equal. unfold RAM_BASE, BLOCK_2MIB. zlia.
    + symmetry. apply andb_true_iff. rewrite Z.leb_le, Z.ltb_lt.
      unfold RAM_TOP, RAM_BASE, RAM_SIZE. zlia.
  - change RAM_BLOCKS with 64 in E2. cbn. unfold RAM_TOP, RAM_BASE, RAM_SIZE.
    destruct (Z.ltb_spec va (0x40000000 + 128 * 1024 * 1024)); [exfalso; zlia|].
    by rewrite andb_false_r.
Qed.
