(* ===== verification/Reclaim.v ===== *)
(** * Reclaiming an address space

    [free_subtree] and [free_address_space] of kernel/src/mmu.rs: exactly the
    tables reachable through the user slot, and the root, go back to the pool, and
    no other address space notices. *)

From Stdlib Require Import ZArith Lia.
From stdpp Require Import base numbers gmap list list_relations.
From S2P Require Import Prelude Memory Abi Frames Mmu PageTables AddressSpaces.

(** The tables below and including [t], in the order they are freed. *)
Fixpoint subtree (m : mem) (k : nat) (t : Z) : list Z :=
  match k with
  | O => []
  | S k' => mbind (fun i =>
      let e := entry m t i in
      if is_table e then subtree m k' (next_table e) else [])
      (zseq 0 (Z.to_nat ENTRIES))
  end ++ [t].

Lemma elem_of_entries i : i ∈ zseq 0 (Z.to_nat ENTRIES) <-> 0 <= i < ENTRIES.
Proof. rewrite elem_of_zseq. unfold ENTRIES. lia. Qed.

Lemma elem_of_subtree_S m k t x :
  x ∈ subtree m (S k) t <->
  x = t \/ exists i, 0 <= i < ENTRIES /\ is_table (entry m t i) = true /\
                     x ∈ subtree m k (next_table (entry m t i)).
Proof.
  cbn [subtree]. rewrite elem_of_app, list_elem_of_singleton, list_elem_of_bind. split.
  - intros [(i & Hx & Hi%elem_of_entries)| ->]; [right|by left].
    exists i. cbv zeta in Hx. destruct (is_table (entry m t i)); [done|set_solver].
  - intros [->|(i & Hi & Ht & Hx)]; [by right|left].
    exists i. rewrite elem_of_entries, Ht. done.
Qed.

Lemma elem_of_subtree_self m k t : t ∈ subtree m k t.
Proof. destruct k; cbn [subtree]; apply elem_of_app; right; by apply list_elem_of_singleton. Qed.

Lemma elem_of_subtree_0 m t x : x ∈ subtree m 0 t <-> x = t.
Proof. exact (list_elem_of_singleton x t). Qed.

(** ** Shape of a subtree *)

Section shape.
Context (kl1 : Z) (m : mem) (T : gmap Z nat).
Hypothesis Hwf : pt_wf kl1 m T.

Lemma child_level t k i :
  T !! t = Some (3 - S k)%nat -> (S k <= 3)%nat -> 0 <= i < ENTRIES -> is_table (entry m t i) = true ->
  T !! next_table (entry m t i) = Some (3 - k)%nat.
Proof.
  intros Ht Hk Hi Htab. rewrite (pt_child _ _ _ Hwf _ _ _ Ht ltac:(lia) Hi Htab). f_equal. lia.
Qed.

(** Members sit at the level of [t] only if they are [t]. *)
Lemma subtree_level k t x :
  T !! t = Some (3 - k)%nat -> (k <= 3)%nat -> x ∈ subtree m k t ->
  x = t \/ exists l, T !! x = Some l /\ (3 - k < l)%nat.
Proof.
  revert t. induction k as [|k IH]; intros t Ht Hk Hx.
  { left. by apply elem_of_subtree_0 in Hx. }
  apply elem_of_subtree_S in Hx as [->|(i & Hi & Htab & Hx)]; [by left|right].
  pose proof (child_level _ _ _ Ht Hk Hi Htab) as Hc.
  destruct (IH _ Hc ltac:(lia) Hx) as [->|(l & Hl & Hlt)]; eexists; split; eauto; lia.
Qed.

Lemma subtree_typed k t x :
  T !! t = Some (3 - k)%nat -> (k <= 3)%nat -> x ∈ subtree m k t -> is_Some (T !! x).
Proof. intros Ht Hk Hx. destruct (subtree_level k t x Ht Hk Hx) as [->|(l & Hl & _)]; eauto. Qed.

Lemma subtree_disjoint k t1 t2 x :
  T !! t1 = Some (3 - k)%nat -> T !! t2 = Some (3 - k)%nat -> (k <= 2)%nat -> t1 <> t2 ->
  x ∈ subtree m k t1 -> x ∈ subtree m k t2 -> False.
Proof.
  revert t1 t2. induction k as [|k IH]; intros t1 t2 H1 H2 Hk Hne Hx1 Hx2.
  { apply elem_of_subtree_0 in Hx1, Hx2. congruence. }
  destruct (subtree_level _ _ _ H1 ltac:(lia) Hx1) as [->|(l & Hl & Hlt)].
  { destruct (subtree_level _ _ _ H2 ltac:(lia) Hx2) as [?|(l & Hl & Hlt)]; [done|].
    rewrite H1 in Hl. injection Hl. lia. }
  apply elem_of_subtree_S in Hx1 as [->|(i & Hi & Ht1 & Hx1)]; [rewrite H1 in Hl; injection Hl; lia|].
  apply elem_of_subtree_S in Hx2 as [->|(j & Hj & Ht2 & Hx2)]; [rewrite H2 in Hl; injection Hl; lia|].
  pose proof (child_level _ _ _ H1 ltac:(lia) Hi Ht1) as C1.
  pose proof (child_level _ _ _ H2 ltac:(lia) Hj Ht2) as C2.
  destruct (decide (next_table (entry m t1 i) = next_table (entry m t2 j))) as [E|E].
  - destruct (pt_inj _ _ _ Hwf _ _ _ _ _ _ H1 ltac:(lia) Hi H2 ltac:(lia) Hj Ht1 Ht2 E) as [[? _]|(? & _)];
      [done|lia].
  - exact (IH _ _ C1 C2 ltac:(lia) E Hx1 Hx2).
Qed.

(** Two entries of one table lead to disjoint subtrees. *)
Lemma sibling_disjoint k t i j x :
  T !! t = Some (3 - S k)%nat -> (S k <= 2)%nat -> 0 <= i < ENTRIES -> 0 <= j < ENTRIES -> i <> j ->
  is_table (entry m t i) = true -> is_table (entry m t j) = true ->
  x ∈ subtree m k (next_table (entry m t i)) -> x ∈ subtree m k (next_table (entry m t j)) -> False.
Proof.
  intros Ht Hk Hi Hj Hne Hti Htj.
  apply subtree_disjoint; [by eapply child_level; try lia..|lia|].
  intros E. destruct (pt_inj _ _ _ Hwf _ _ _ _ _ _ Ht ltac:(lia) Hi Ht ltac:(lia) Hj Hti Htj E)
    as [[_ ?]|(? & _)]; [done|lia].
Qed.

(** The only way into a subtree is through its top. *)
Lemma subtree_parent k t x p lp i :
  T !! t = Some (3 - k)%nat -> (k <= 2)%nat -> x ∈ subtree m k t -> x <> t ->
  T !! p = Some lp -> (lp < 3)%nat -> 0 <= i < ENTRIES ->
  is_table (entry m p i) = true -> next_table (entry m p i) = x -> p ∈ subtree m k t.
Proof.
  revert t. induction k as [|k IH]; intros t Ht Hk Hx Hne Hp Hlp Hi Htab Hn.
  { by apply elem_of_subtree_0 in Hx. }
  apply elem_of_subtree_S in Hx as [->|(j & Hj & Htj & Hx)]; [done|].
  pose proof (child_level _ _ _ Ht ltac:(lia) Hj Htj) as Hc.
  apply elem_of_subtree_S. destruct (decide (x = next_table (entry m t j))) as [E|E].
  - subst x. left. destruct (pt_inj _ _ _ Hwf _ _ _ _ _ _ Hp Hlp Hi Ht ltac:(lia) Hj Htab Htj E)
      as [[? _]|(_ & ? & _)]; [done|lia].
  - right. exists j. split_and!; [lia..|done|]. apply IH; try done; lia.
Qed.
End shape.

(** ** Freeing a subtree *)

(** Progress of the reclamation: the frames [D] have been pushed on the initial
    pool [l], and memory is as it was in every other frame. *)
Record freeing (m0 : mem) (s0 : mmu) (l : list Z) (s : mmu) (D : list Z) : Prop := {
  fr_pool : free_inv (ph s) (reverse D ++ l);
  fr_mem : forall f, valid_frame f -> f ∉ D -> same_on m0 (mem_of s) f FRAME_SIZE;
  fr_regs : s = set_ph (ph s) s0
}.

Section reclaim.
Context (kl1 : Z) (m0 : mem) (s0 : mmu) (T : gmap Z nat) (l : list Z).
Hypothesis Hwf : pt_wf kl1 m0 T.
Hypothesis Hsep : forall f, f ∈ l -> T !! f = None.

Lemma push_freeing s D t :
  freeing m0 s0 l s D -> is_Some (T !! t) -> t ∉ D ->
  wp False (in_phys (free_frame_at t)) (fun _ s' => freeing m0 s0 l s' (D ++ [t])) s.
Proof.
  intros [Hp Hm Hr] [lv Ht] HD. destruct (pt_frame _ _ _ Hwf _ _ Ht) as [Hv _].
  unfold in_phys. wp_steps. eapply wp_mono.
  { apply free_frame_spec; [done..|]. rewrite elem_of_app, elem_of_reverse.
    intros [?|Hin%Hsep]; [done|congruence]. }
  intros [] p [Hp' Hram]. split; cbn [ph set_ph].
  - rewrite reverse_app. exact Hp'.
  - intros f Hf HfD b Hb. rewrite elem_of_app, list_elem_of_singleton in HfD.
    rewrite Hram. unfold write64. rewrite read8_store_ne; [apply (Hm f); tauto|].
    destruct (frames_disjoint t f Hv Hf ltac:(naive_solver)); unfold FRAME_SIZE in *; lia.
  - by apply set_ph_regs.
Qed.

Lemma free_subtree_spec k t s D :
  freeing m0 s0 l s D -> T !! t = Some (3 - k)%nat -> (k <= 2)%nat ->
  (forall x, x ∈ subtree m0 k t -> x ∉ D) ->
  wp False (free_subtree k t) (fun _ s' => freeing m0 s0 l s' (D ++ subtree m0 k t)) s.
Proof.
  revert t s D. induction k as [|k IH]; intros t s D Hfr Ht Hk HD.
  { cbn [free_subtree subtree app]. wp_steps. apply push_freeing; [done|eauto|].
    apply HD, elem_of_subtree_self. }
  cbn [free_subtree subtree].
  set (body := fun i => let e := entry m0 t i in if is_table e then subtree m0 k (next_table e) else []).
  destruct (pt_frame _ _ _ Hwf _ _ Ht) as [Hvt _].
  assert (HtD : t ∉ D) by apply HD, elem_of_subtree_self.
  assert (Hbody : forall i x, 0 <= i < ENTRIES -> x ∈ body i -> x <> t /\ x ∉ D).
  { intros i x Hi Hx. unfold body in Hx. cbv zeta in Hx.
    destruct (is_table (entry m0 t i)) eqn:Htab; [|by apply elem_of_nil in Hx].
    pose proof (child_level _ _ _ Hwf _ _ _ Ht ltac:(lia) Hi Htab) as Hc. split.
    - intros ->. destruct (subtree_level _ _ _ Hwf _ _ _ Hc ltac:(lia) Hx) as [E|(lv & Hl & Hlt)].
      + rewrite <-E, Ht in Hc. injection Hc. lia.
      + rewrite Ht in Hl. injection Hl. lia.
    - apply HD, elem_of_subtree_S. eauto. }
  apply wp_bind. eapply wp_mono.
  { apply (wp_forM False _ _ (fun done s' => freeing m0 s0 l s' (D ++ mbind body done))).
    { rewrite app_nil_r. done. }
    intros done i rest s' Hseq Hfr'.
    assert (Hin : forall j, j ∈ done ++ i :: rest -> 0 <= j < ENTRIES)
      by (intros j Hj; apply elem_of_entries; rewrite Hseq; exact Hj).
    assert (Hi : 0 <= i < ENTRIES) by (apply Hin, elem_of_app; right; apply list_elem_of_here).
    pose proof (NoDup_zseq 0 (Z.to_nat ENTRIES)) as Hnd. rewrite Hseq in Hnd.
    apply NoDup_app in Hnd as (_ & Hnd & _).
    assert (Hbd : forall x, x ∈ mbind body done -> x <> t).
    { intros x. rewrite list_elem_of_bind. intros (j & Hx & Hj).
      apply (Hbody j x); [by apply Hin, elem_of_app; left|done]. }
    assert (Hrd : entry (mem_of s') t i = entry m0 t i).
    { apply entry_same_frame; [|done]. apply (fr_mem _ _ _ _ _ Hfr'); [done|].
      rewrite elem_of_app. intros [?|Hx%Hbd]; done. }
    unfold read_entry. wp_steps. rewrite Hrd, bind_app, app_assoc.
    change (mbind body [i]) with (body i ++ []). rewrite app_nil_r.
    unfold body at 2. cbv zeta. destruct (is_table (entry m0 t i)) eqn:Htab.
    - pose proof (child_level _ _ _ Hwf _ _ _ Ht ltac:(lia) Hi Htab) as Hc.
      apply IH; [done|done|lia|]. intros x Hx. rewrite elem_of_app. intros [HxD|Hxd].
      + eapply HD; [|exact HxD]. apply elem_of_subtree_S. eauto.
      + apply list_elem_of_bind in Hxd as (j & Hxj & Hj).
        unfold body in Hxj. cbv zeta in Hxj. destruct (is_table (entry m0 t j)) eqn:Htj; [|by apply elem_of_nil in Hxj].
        eapply (sibling_disjoint _ _ _ Hwf k t i j x); eauto; [by apply Hin, elem_of_app; left|].
        intros ->. by apply (Hnd j), list_elem_of_here.
    - wp_steps. by rewrite app_nil_r. }
  intros [] s' Hfr'. rewrite app_assoc. apply push_freeing; [done|eauto|].
  rewrite elem_of_app, list_elem_of_bind. intros [?|(i & Hx & Hi%elem_of_entries)]; [done|].
  by apply (Hbody i t Hi) in Hx as [? _].
Qed.
End reclaim.

(** ** Forgetting the reclaimed tables *)

(** The private tables of the address space rooted at [root], in freeing order. *)
Definition space_tables (m : mem) (root : Z) : list Z :=
  let e1 := entry m root USER_L0_IDX in
  (if is_table e1 then subtree m 2 (next_table e1) else []) ++ [root].

Definition prune (R : list Z) (T : gmap Z nat) : gmap Z nat :=
  filter (fun p => p.1 ∉ R) T.

Lemma lookup_prune R T t lv : prune R T !! t = Some lv <-> T !! t = Some lv /\ t ∉ R.
Proof. apply map_lookup_filter_Some. Qed.

Lemma lookup_prune_None R T t : T !! t = None -> prune R T !! t = None.
Proof. intros H. apply eq_None_not_Some. intros [lv [? _]%lookup_prune]. congruence. Qed.

(** A set of tables that no other table points into can be forgotten. *)
Lemma pt_wf_prune kl1 m T R :
  pt_wf kl1 m T -> kl1 ∉ R ->
  (forall p lp i, T !! p = Some lp -> (lp < 3)%nat -> 0 <= i < ENTRIES ->
     is_table (entry m p i) = true -> next_table (entry m p i) ∈ R -> p ∈ R) ->
  pt_wf kl1 m (prune R T).
Proof.
  intros [Hf Hc Hi Hr Hk Hb] HkR Hcl. split.
  - intros t lv [? _]%lookup_prune. eauto.
  - intros t lv i [Ht HtR]%lookup_prune Hl Hi' Htab. apply lookup_prune. split; [by eapply Hc|].
    intros Hin. by apply HtR, (Hcl t lv i).
  - intros t1 l1 i1 t2 l2 i2 [H1 _]%lookup_prune Hl1 Hi1 [H2 _]%lookup_prune. eauto.
  - intros t [? _]%lookup_prune. eauto.
  - by apply lookup_prune.
  - intros t lv i [Ht _]%lookup_prune. eauto.
Qed.

Lemma user_slot : 0 < USER_L0_IDX < ENTRIES.
Proof. by split. Qed.

Section space.
Context (kl1 : Z) (m : mem) (T : gmap Z nat) (root : Z).
Hypothesis Hwf : pt_wf kl1 m T.
Hypothesis Hroot : T !! root = Some O.

Lemma user_l1_level :
  is_table (entry m root USER_L0_IDX) = true ->
  T !! next_table (entry m root USER_L0_IDX) = Some (3 - 2)%nat.
Proof. intros H. pose proof user_slot. by apply (child_level kl1 m T Hwf root 2); [..|lia|lia|]. Qed.

Lemma elem_of_space_tables x :
  x ∈ space_tables m root <->
  x = root \/ is_table (entry m root USER_L0_IDX) = true /\
              x ∈ subtree m 2 (next_table (entry m root USER_L0_IDX)).
Proof.
  unfold space_tables. cbv zeta. rewrite elem_of_app, list_elem_of_singleton.
  destruct (is_table _); [tauto|]. rewrite elem_of_nil. split; [intros [[]| ->]; by left|].
  intros [->|[? _]]; [by right|done].
Qed.

Lemma space_tables_typed x : x ∈ space_tables m root -> is_Some (T !! x).
Proof.
  rewrite elem_of_space_tables. intros [->|[Htab Hx]]; [eauto|].
  eapply (subtree_typed kl1 m T Hwf); [by apply user_l1_level|lia|done].
Qed.

(** No root but its own, and not the kernel's table. *)
Lemma space_tables_root x : x ∈ space_tables m root -> T !! x = Some O -> x = root.
Proof.
  rewrite elem_of_space_tables. intros [->|[Htab Hx]] H0; [done|].
  pose proof (user_l1_level Htab) as Hc.
  destruct (subtree_level _ _ _ Hwf _ _ _ Hc ltac:(lia) Hx) as [->|(lv & Hl & ?)];
    rewrite H0 in *; [done|]. injection Hl. lia.
Qed.

Lemma space_tables_kl1 : kl1 ∉ space_tables m root.
Proof.
  pose proof (pt_kl1 _ _ _ Hwf) as Hk.
  rewrite elem_of_space_tables. intros [->|[Htab Hx]]; [congruence|].
  pose proof (user_l1_level Htab) as Hc.
  destruct (subtree_level _ _ _ Hwf _ _ _ Hc ltac:(lia) Hx) as [E|(lv & Hl & ?)].
  - by apply (user_l1_no_blocks _ _ _ _ _ Hwf Hroot user_slot) in Htab as [? _].
  - rewrite Hk in Hl. injection Hl. lia.
Qed.

Lemma space_tables_closed p lp i :
  T !! p = Some lp -> (lp < 3)%nat -> 0 <= i < ENTRIES -> is_table (entry m p i) = true ->
  next_table (entry m p i) ∈ space_tables m root -> p ∈ space_tables m root.
Proof.
  intros Hp Hlp Hi Htab. rewrite !elem_of_space_tables. pose proof user_slot as Hu.
  pose proof (pt_child _ _ _ Hwf _ _ _ Hp Hlp Hi Htab) as Hc.
  intros [E|[Hut Hx]]; [rewrite E in Hc; congruence|].
  destruct (decide (next_table (entry m p i) = next_table (entry m root USER_L0_IDX))) as [E|E].
  - left. destruct (pt_inj _ _ _ Hwf _ _ _ _ _ _ Hp Hlp Hi Hroot ltac:(lia) (conj (Z.lt_le_incl _ _ (proj1 Hu)) (proj2 Hu)) Htab Hut E)
      as [[? _]|(_ & _ & _ & ?)]; [done|lia].
  - right. split; [done|]. eapply (subtree_parent kl1 m T Hwf 2); eauto using user_l1_level.
Qed.

Lemma space_pruned : pt_wf kl1 m (prune (space_tables m root) T).
Proof.
  apply pt_wf_prune; [done|apply space_tables_kl1|]. intros p lp i. apply space_tables_closed.
Qed.
End space.

Lemma free_address_space_spec s T l root :
  mm_inv s T l -> T !! root = Some O ->
  wp False (free_address_space root) (fun _ s' =>
    let R := space_tables (mem_of s) root in
    mm_inv s' (prune R T) (reverse R ++ l) /\
    (forall root' va, T !! root' = Some O -> root' <> root ->
       hw_walk (mem_of s') 3 root' va = hw_walk (mem_of s) 3 root' va) /\
    (forall f, valid_frame f -> f ∉ R -> same_on (mem_of s) (mem_of s') f FRAME_SIZE) /\
    s' = set_ph (ph s') s) s.
Proof.
  intros Hinv Hroot. pose proof (mi_pt _ _ _ Hinv) as Hwf.
  set (R := space_tables (mem_of s) root).
  assert (Hfr : freeing (mem_of s) s l s []) by (split; [apply Hinv|done|by destruct s]).
  cut (wp False (free_address_space root) (fun _ s' => freeing (mem_of s) s l s' R) s).
  { intros H. eapply wp_mono; [exact H|]. intros [] s' [Hp Hm Hr]. cbv zeta.
    pose proof (space_pruned _ _ _ _ Hwf Hroot) as Hpr. fold R in Hpr.
    assert (He : forall t lv i, prune R T !! t = Some lv -> 0 <= i < ENTRIES ->
              entry (mem_of s') t i = entry (mem_of s) t i).
    { intros t lv i [Ht HR]%lookup_prune Hi. apply entry_same_frame; [|done].
      apply Hm; [by eapply table_valid|done]. }
    split; [split|split; [|done]].
    - done.
    - replace (KERNEL_L1 s') with (KERNEL_L1 s) by (by rewrite Hr).
      eapply pt_wf_ext; [|exact Hpr]. eauto.
    - intros f. rewrite elem_of_app, elem_of_reverse. intros [HfR|Hfl].
      + apply eq_None_not_Some. intros [lv [_ ?]%lookup_prune]. done.
      + by apply lookup_prune_None, (mi_sep _ _ _ Hinv).
    - intros root' va Hr' Hne. eapply hw_walk_ext; [exact Hpr|exact He| |lia].
      apply lookup_prune. split; [done|]. intros Hin. apply Hne.
      eapply (space_tables_root _ _ _ _ Hwf Hroot); [exact Hin|done]. }
  unfold free_address_space. change (Z.land root ADDR_MASK) with (l0_ptr root). cbv zeta.
  rewrite l0_ptr_root by (by eapply table_valid).
  unfold read_entry. wp_steps. unfold R, space_tables. cbv zeta.
  destruct (is_table (entry (mem_of s) root USER_L0_IDX)) eqn:Htab.
  - pose proof (user_l1_level _ _ _ _ Hwf Hroot Htab) as Hc.
    eapply wp_mono; [eapply (free_subtree_spec (KERNEL_L1 s)); eauto; [apply Hinv|]|].
    { intros x _. apply not_elem_of_nil. }
    intros [] s' Hs'. eapply (push_freeing (KERNEL_L1 s)); eauto; [apply Hinv|].
    cbn [app]. intros Hin.
    destruct (subtree_level _ _ _ Hwf _ _ _ Hc ltac:(lia) Hin) as [E|(lv & Hl & ?)].
    + rewrite <-E, Hroot in Hc. done.
    + rewrite Hroot in Hl. injection Hl. lia.
  - wp_steps. eapply (push_freeing (KERNEL_L1 s)); eauto; [apply Hinv|apply not_elem_of_nil].
Qed.
