(* ===== verification/VirtualMemory.v ===== *)
(** * The contracts of the virtual-memory layer

    What the operations of kernel/src/mmu.rs promise to the rest of the kernel,
    stated on the translation a hardware walk gives: the boot identity map, and
    how mapping, unmapping, creating and reclaiming address spaces change it. *)

From Stdlib Require Import ZArith Lia.
From stdpp Require Import base numbers gmap list list_relations.
From S2P Require Import Prelude Memory Abi Frames Mmu PageTables AddressSpaces Reclaim.

(** ** A booted machine *)

(** The top sixteen frames of RAM, as [init_frames] hands them over, and the
    machine [init_mmu] makes of them. *)
Definition small_end : Z := RAM_TOP - 16 * FRAME_SIZE.
Definition small_phys : phys :=
  exec (init_frames small_end) {| ram := ∅; fa := FrameAllocator_new |}.
Definition cold : mmu :=
  {| ph := small_phys; KERNEL_L1 := 0; KERNEL_TTBR0 := 0; INSTALLED := 0;
     ttbr0_el1 := 0; mair_el1 := 0; tcr_el1 := 0; sctlr_el1 := 0 |}.
Definition booted : mmu := exec init_mmu cold.

Definition small_pool : list Z := reverse (frames_between (first_frame small_end) RAM_TOP).

Lemma small_pool_inv : free_inv (ph cold) small_pool.
Proof.
  destruct (wp_exec _ _ _ (init_frames_pool ∅ small_end ltac:(apply mem_ok_empty)
    ltac:(unfold small_end, RAM_TOP, RAM_BASE, RAM_SIZE, FRAME_SIZE; lia))) as (_ & _ & H).
  exact H.
Qed.

Definition boot_types : gmap Z nat :=
  <[0x47fff000 := O]> (<[0x47ffe000 := 1%nat]> {[0x47ffd000 := 2%nat]}).
Definition boot_pool : list Z := drop 3 small_pool.

Lemma booted_inv : mm_inv booted boot_types boot_pool.
Proof.
  assert (Hp : (length small_pool < 3)%nat -> False).
  { replace (length small_pool) with 16%nat by (vm_compute; reflexivity). lia. }
  destruct (wp_exec _ _ _ (init_mmu_spec False cold small_pool small_pool_inv Hp))
    as (_ & _ & l0 & l1 & l2 & l' & Hl & _ & Hinv & _).
  assert (Hs : small_pool = 0x47fff000 :: 0x47ffe000 :: 0x47ffd000 :: boot_pool)
    by (vm_compute; reflexivity).
  rewrite Hs in Hl. injection Hl as <- <- <- <-. exact Hinv.
Qed.

Lemma boot_root : boot_types !! 0x47fff000 = Some O.
Proof. vm_compute. reflexivity. Qed.

Lemma boot_pool_long : (3 <= length boot_pool)%nat.
Proof. vm_compute. lia. Qed.

(** ** The boot map *)

Lemma block_pa n k base flags va :
  (n <= 3)%nat -> k = 12 + 9 * Z.of_nat n -> base mod 2 ^ k = 0 -> 0 <= base < 2 ^ 48 ->
  Z.land flags (Z.shiftl (Z.ones (48 - k)) k) = 0 ->
  base <= va < base + 2 ^ k -> hw_pa n (Z.lor base flags) va = va.
Proof.
  intros Hn -> Hb Hr Hf Hva. unfold hw_pa. set (k := 12 + 9 * Z.of_nat n) in *.
  replace (36 - 9 * Z.of_nat n) with (48 - k) by lia.
  assert (0 < 2 ^ k) by (apply Z.pow_pos_nonneg; lia).
  assert (Hpow : 2 ^ 48 = 2 ^ k * 2 ^ (48 - k)) by (rewrite <-Z.pow_add_r by lia; f_equal; lia).
  rewrite Z.land_lor_distr_l, Hf, Z.lor_0_r, land_shifted_ones by lia.
  assert (Hq : 0 <= base / 2 ^ k < 2 ^ (48 - k)).
  { split; [apply Z.div_pos; lia|]. apply Z.div_lt_upper_bound; lia. }
  rewrite Z.mod_small by done.
  pose proof (Z.div_mod base (2 ^ k)) as Hd.
  pose proof (Z.div_mod va (2 ^ k)) as Hd'. pose proof (Z.mod_pos_bound va (2 ^ k)).
  assert (va / 2 ^ k = base / 2 ^ k); [|nia].
  symmetry. apply (Z.div_unique va (2 ^ k) _ (va - base)); nia.
Qed.

Lemma device_pa va : 0 <= va < 2 ^ 30 -> hw_pa 2 DEVICE_BLOCK va = va.
Proof.
  intros H. change DEVICE_BLOCK with (Z.lor 0 DEVICE_BLOCK).
  apply (block_pa 2 30); [lia|done|done|lia|by vm_compute|lia].
Qed.

Definition ram_desc (va : Z) : Z :=
  Z.lor (RAM_BASE + (va - RAM_BASE) / BLOCK_2MIB * BLOCK_2MIB) NORMAL_BLOCK.

Lemma ram_pa va : RAM_BASE <= va < RAM_TOP -> hw_pa 1 (ram_desc va) va = va.
Proof.
  intros H. unfold ram_desc, RAM_TOP, RAM_SIZE, RAM_BASE, BLOCK_2MIB in *.
  apply (block_pa 1 21); [lia|done| | |by vm_compute|]; change (2 ^ 21) with 2097152; zlia.
Qed.

Lemma ram_desc_bit va n :
  RAM_BASE <= va < RAM_TOP -> (n < 12 \/ 48 <= n) -> 0 <= n ->
  Z.testbit (ram_desc va) n = Z.testbit NORMAL_BLOCK n.
Proof.
  intros H Hn Hn0. unfold ram_desc. rewrite Z.lor_spec.
  set (b := RAM_BASE + _). assert (Hb : 0 <= b < 2 ^ 48 /\ b mod 2 ^ 12 = 0).
  { unfold b, RAM_TOP, RAM_SIZE, RAM_BASE, BLOCK_2MIB in *. zlia. }
  replace (Z.testbit b n) with false; [done|]. symmetry. destruct Hn as [Hn|Hn].
  - rewrite <-(Z.mod_pow2_bits_low b 12 n) by lia. rewrite (proj2 Hb). apply Z.bits_0.
  - rewrite <-(Z.mod_small b (2 ^ 48)) by lia. apply Z.mod_pow2_bits_high. lia.
Qed.

(** C22: with three frames in the pool [init_mmu] does not panic, and the map it
    installs in TTBR0 is the identity on the device gigabyte and on RAM and empty
    elsewhere; nothing in it is open to EL0, and only RAM is executable at EL1. *)
Theorem init_mmu_identity s l :
  free_inv (ph s) l -> (3 <= length l)%nat ->
  exists s', init_mmu s = Ret (tt, s') /\
    forall va, canonical va ->
      let device := va < 2 ^ 30 in
      let ram := RAM_BASE <= va < RAM_TOP in
      match hw_walk (mem_of s') 3 (l0_ptr (ttbr0_el1 s')) va with
      | Some (n, e) => (device \/ ram) /\ hw_pa n e va = va /\
          el0_readable e = false /\ el0_writable e = false /\ el0_executable e = false /\
          el1_writable e = true /\ (el1_executable e = true <-> ram)
      | None => ~ device /\ ~ ram
      end.
Proof.
  intros Hp Hlen. destruct (wp_result _ _ _ (init_mmu_spec False s l Hp ltac:(lia)))
    as ([] & s' & Hrun & l0 & l1 & l2 & l' & _ & Hb & Hinv & Ht & _).
  exists s'. split; [done|]. intros va Hva. cbv zeta.
  assert (Hv0 : valid_frame l0) by (pose proof (bt_valid _ _ _ _ Hb) as H; by inversion H).
  rewrite Ht, l0_ptr_root, (boot_hw _ _ _ _ _ Hb) by done. fold (ram_desc va).
  destruct (Z.ltb_spec va (2 ^ 30)) as [Hd|Hd].
  { assert (~ (RAM_BASE <= va < RAM_TOP)) by (unfold RAM_BASE; lia).
    split; [by left|]. split; [apply device_pa; unfold canonical in Hva; lia|].
    do 4 (split; [reflexivity|]). split; [discriminate|done]. }
  destruct (Z.leb_spec RAM_BASE va), (Z.ltb_spec va RAM_TOP); cbn [andb]; try (split; lia).
  assert (Hr : RAM_BASE <= va < RAM_TOP) by lia.
  split; [by right|]. split; [by apply ram_pa|].
  unfold el0_readable, el0_writable, el0_executable, el1_writable, el1_executable.
  rewrite !ram_desc_bit by (done || lia).
  do 4 (split; [reflexivity|]). split; done.
Qed.

Lemma init_mmu_identity_witness : exists s', init_mmu cold = Ret (tt, s') /\
  hw_walk (mem_of s') 3 (l0_ptr (ttbr0_el1 s')) 0x09000000 <> None.
Proof.
  destruct (init_mmu_identity cold small_pool small_pool_inv) as (s' & Hrun & H).
  { vm_compute. lia. }
  exists s'. split; [exact Hrun|]. specialize (H 0x09000000). cbv zeta in H.
  destruct (hw_walk _ _ _ _); [discriminate|]. exfalso.
  destruct H as [H _]; [unfold canonical; lia|]. apply H. lia.
Defined.

(** ** Mapping and unmapping pages *)

Lemma page_ok_user_rw f : valid_frame f -> page_ok f PAGE_USER_RW.
Proof.
  intros Hf. pose proof (valid_frame_range _ Hf). destruct Hf as (Ha & _).
  split; [done|lia|by vm_compute..].
Qed.

(** The page containing [va] in the space rooted at [root], and no other. *)
Definition on_page (root va root' va' : Z) : Prop := root' = root /\ va' / 4096 = va / 4096.
#[export] Instance on_page_dec root va root' va' : Decision (on_page root va root' va').
Proof. unfold on_page. apply _. Defined.

Lemma hits_user root va root' va' :
  2 ^ 39 <= va -> hits root va root' va' <-> on_page root va root' va'.
Proof. intros H. unfold hits, on_page. split; [|tauto]. intros [? [?|?]]; [done|lia]. Qed.

Lemma translate_root s T l root va :
  mm_inv s T l -> T !! root = Some O ->
  translate (mem_of s) root va = match hw_walk (mem_of s) 3 root va with
    | Some (O, e) => Some (Z.lor (Z.land e ADDR_MASK) (Z.land va 0xFFF))
    | _ => None
    end.
Proof. intros Hinv Hr. rewrite translate_hw, l0_ptr_root; [done|by eapply table_valid]. Qed.

(** C23: mapping a page at a user address with three frames free never panics; it
    makes that page of that space translate to the frame with the given
    descriptor, leaves every other translation of every address space alone, and
    takes at most three frames for tables. *)
Theorem map_page_in_translates s T l root va pa flags :
  mm_inv s T l -> T !! root = Some O -> 2 ^ 39 <= va < 2 ^ 48 -> page_ok pa flags ->
  (3 <= length l)%nat ->
  exists s' T' used l', map_page_in root va pa flags s = Ret (tt, s') /\
    mm_inv s' T' l' /\ l = used ++ l' /\ (length used <= 3)%nat /\ dom T' = dom T ∪ list_to_set used /\
    forall root' va', T !! root' = Some O -> canonical va' ->
      if decide (on_page root va root' va')
      then hw_walk (mem_of s') 3 root' va' = Some (O, Z.lor pa flags) /\
           translate (mem_of s') root' va' = Some (pa + va' mod 4096)
      else hw_walk (mem_of s') 3 root' va' = hw_walk (mem_of s) 3 root' va' /\
           translate (mem_of s') root' va' = translate (mem_of s) root' va'.
Proof.
  intros Hinv Hr [Hva Hva'] Hpg Hlen.
  destruct (wp_result _ _ _ (map_page_in_spec False s T l root va pa flags Hinv Hr
    ltac:(split; lia) Hpg ltac:(tauto))) as ([] & s' & Hrun & T' & l' & [I Sub (used & Hl & Hd & Hu) X _ _]).
  exists s', T', used, l'. do 5 (split; [done|]). intros root' va2 Hr' Hva2.
  pose proof (lookup_weaken _ _ _ _ Hr' Sub) as Hr2.
  rewrite (translate_root s' T' l'), (translate_root s T l), X by done.
  destruct (decide (on_page root va root' va2)) as [Hon|Hon].
  - rewrite decide_True by (by apply hits_user). split; [done|].
    rewrite (proj1 (proj2 (proj2 (page_desc_ok _ _ Hpg)))), page_offset; [done|apply Hpg].
  - rewrite decide_False by (by rewrite hits_user). done.
Qed.

Lemma map_page_in_translates_witness : exists s',
  map_page_in 0x47fff000 (USER_BASE + 0x1000) 0x47ffc000 PAGE_USER_RW booted = Ret (tt, s') /\
  translate (mem_of s') 0x47fff000 (USER_BASE + 0x1234) = Some 0x47ffc234.
Proof.
  assert (Hf : valid_frame 0x47ffc000) by (split_and!; vm_compute; done).
  assert (Hva : 2 ^ 39 <= USER_BASE + 0x1000 < 2 ^ 48) by (split; vm_compute; done).
  assert (Hva' : canonical (USER_BASE + 0x1234)) by (split; vm_compute; done).
  assert (Hon : on_page 0x47fff000 (USER_BASE + 0x1000) 0x47fff000 (USER_BASE + 0x1234))
    by (split; vm_compute; done).
  destruct (map_page_in_translates booted boot_types boot_pool _ _ _ PAGE_USER_RW
    booted_inv boot_root Hva (page_ok_user_rw _ Hf) boot_pool_long)
    as (s' & T' & u & l' & H & _ & _ & _ & _ & X).
  exists s'. split; [exact H|]. specialize (X _ _ boot_root Hva').
  rewrite decide_True in X by exact Hon. exact (proj2 X).
Defined.

(** C24: unmapping a user address never panics or allocates; that page of that
    space stops translating and every other translation stays. *)
Theorem unmap_page_in_translates s T l root va :
  mm_inv s T l -> T !! root = Some O -> 2 ^ 39 <= va < 2 ^ 48 ->
  exists s', unmap_page_in root va s = Ret (tt, s') /\ mm_inv s' T l /\
    forall root' va', T !! root' = Some O -> canonical va' ->
      translate (mem_of s') root' va' =
        if decide (on_page root va root' va') then None else translate (mem_of s) root' va'.
Proof.
  intros Hinv Hr [Hva Hva'].
  destruct (wp_result _ _ _ (unmap_page_in_spec s T l root va Hinv Hr ltac:(split; lia)))
    as ([] & s' & Hrun & [I _ _ X _ _]).
  exists s'. do 2 (split; [done|]). intros root' va2 Hr' Hva2.
  rewrite (translate_root s' T l), (translate_root s T l), X by done.
  destruct (decide (on_page root va root' va2)) as [Hon|Hon].
  - rewrite decide_True by (by apply hits_user). by destruct (hw_walk _ _ _ va) as [[[|n] e]|].
  - by rewrite decide_False by (by rewrite hits_user).
Qed.

Lemma unmap_page_in_translates_witness : exists s',
  unmap_page_in 0x47fff000 USER_BASE booted = Ret (tt, s') /\
  translate (mem_of s') 0x47fff000 (USER_BASE + 5) = None.
Proof.
  assert (Hva : 2 ^ 39 <= USER_BASE < 2 ^ 48) by (split; vm_compute; done).
  assert (Hva' : canonical (USER_BASE + 5)) by (split; vm_compute; done).
  assert (Hon : on_page 0x47fff000 USER_BASE 0x47fff000 (USER_BASE + 5)) by (split; vm_compute; done).
  destruct (unmap_page_in_translates booted boot_types boot_pool _ _ booted_inv boot_root Hva)
    as (s' & H & _ & X).
  exists s'. split; [exact H|]. rewrite (X _ _ boot_root Hva'), decide_True by exact Hon. reflexivity.
Defined.

(** ** Creating and reclaiming address spaces *)

(** C25: a new address space costs one frame, sees the kernel half exactly as every
    other space does, has nothing in its user half, and disturbs no other space. *)
Theorem new_address_space_maps s T f l :
  mm_inv s T (f :: l) ->
  exists s', new_address_space s = Ret (f, s') /\ mm_inv s' (<[f := O]> T) l /\ T !! f = None /\
    forall root va, T !! root = Some O -> canonical va ->
      hw_walk (mem_of s') 3 root va = hw_walk (mem_of s) 3 root va /\
      hw_walk (mem_of s') 3 f va = if va <? 2 ^ 39 then hw_walk (mem_of s) 3 root va else None.
Proof.
  intros Hmm. destruct (wp_result _ _ _ (new_address_space_spec False s T (f :: l) Hmm ltac:(done)))
    as (r & s' & Hrun & l' & [= <- <-] & HrT & Hmm' & Hw & Hwr & _ & _ & _).
  exists s'. do 3 (split; [done|]). intros root va Hroot Hva. split; [by apply Hw|].
  rewrite Hwr by done. destruct (Z.ltb_spec va (2 ^ 39)); [|done].
  symmetry. apply (root_walk_low _ _ T); [apply Hmm|done..].
Qed.

Lemma new_address_space_maps_witness : exists s', new_address_space booted = Ret (0x47ffc000, s') /\
  hw_walk (mem_of s') 3 0x47ffc000 USER_BASE = None.
Proof.
  assert (Hp : boot_pool = 0x47ffc000 :: drop 4 small_pool) by (vm_compute; reflexivity).
  pose proof booted_inv as Hb. rewrite Hp in Hb.
  destruct (new_address_space_maps booted boot_types 0x47ffc000 (drop 4 small_pool) Hb)
    as (s' & Hrun & _ & _ & H).
  exists s'. split; [exact Hrun|].
  assert (Hc : canonical USER_BASE) by (split; vm_compute; done).
  exact (proj2 (H 0x47fff000 USER_BASE boot_root Hc)).
Defined.

(** C26: [free_address_space] never panics; it returns exactly the root and the
    tables below its user slot to the pool, each once, forgets those tables and no
    others, and no translation of another address space changes. *)
Theorem free_address_space_reclaims s T l root :
  mm_inv s T l -> T !! root = Some O ->
  let R := space_tables (mem_of s) root in
  exists s', free_address_space root s = Ret (tt, s') /\
    free_inv (ph s') (reverse R ++ l) /\ mm_inv s' (prune R T) (reverse R ++ l) /\
    (forall x, x ∈ R -> is_Some (T !! x) /\ x <> KERNEL_L1 s) /\
    (forall root' va, T !! root' = Some O -> root' <> root ->
       hw_walk (mem_of s') 3 root' va = hw_walk (mem_of s) 3 root' va).
Proof.
  intros Hmm Hr R. pose proof (mi_pt _ _ _ Hmm) as Hwf.
  destruct (wp_result _ _ _ (free_address_space_spec s T l root Hmm Hr))
    as ([] & s' & Hrun & Hmm' & Hw & _ & _).
  exists s'. split_and!; [done|apply Hmm'|done| |done]. intros x Hx. split.
  - by eapply (space_tables_typed (KERNEL_L1 s) _ _ root).
  - intros ->. by apply (space_tables_kl1 _ _ _ _ Hwf Hr) in Hx.
Qed.

Lemma free_address_space_reclaims_witness : exists s',
  free_address_space 0x47fff000 booted = Ret (tt, s') /\
  0x47fff000 ∈ reverse (space_tables (mem_of booted) 0x47fff000) ++ boot_pool.
Proof.
  destruct (free_address_space_reclaims booted boot_types boot_pool 0x47fff000 booted_inv boot_root)
    as (s' & Hrun & _).
  exists s'. split; [exact Hrun|]. apply elem_of_app. left. apply elem_of_reverse, elem_of_space_tables.
  by left.
Defined.

(** ** Instruction-cache maintenance *)

(** [n] consecutive cache lines. *)
Definition lines (p : Z) (n : nat) : list Z := (fun i => p + LINE * Z.of_nat i) <$> seq 0 n.

Lemma lines_S p n : lines p (S n) = p :: lines (p + LINE) n.
Proof.
  unfold lines. cbn [seq fmap list_fmap]. f_equal; [lia|].
  rewrite <-seq_shift, <-list_fmap_compose. apply list_fmap_ext. intros i x _. cbn. lia.
Qed.

Lemma line_loop_spec op n fuel p end_ :
  (n < fuel)%nat -> 0 <= p -> p + LINE * Z.of_nat n < 2 ^ 64 ->
  LINE * (Z.of_nat n - 1) < end_ - p <= LINE * Z.of_nat n \/ (n = O /\ end_ <= p) ->
  line_loop op fuel p end_ = Some (op <$> lines p n).
Proof.
  unfold LINE. revert fuel p. induction n as [|n IH]; intros [|fuel] p Hf Hp Hov Hn; try lia;
    cbn [line_loop].
  - destruct (Z.ltb_spec p end_); [lia|done].
  - destruct (Z.ltb_spec p end_); [|lia]. unfold checked_add, LINE.
    destruct (Z.ltb_spec (p + 64) (2 ^ 64)); [|lia]. cbn [mbind option_bind].
    rewrite IH by (destruct n; lia). by rewrite lines_S.
Qed.

Lemma sync_cache_total pa len :
  0 <= pa -> 0 < len -> pa + len + LINE < 2 ^ 64 -> exists ops, sync_instruction_cache pa len = Some ops.
Proof.
  intros Hpa Hlen Hov. unfold sync_instruction_cache, checked_add, LINE in *.
  destruct (Z.ltb_spec (pa + len) (2 ^ 64)); [|lia]. cbn [mbind option_bind].
  change (64 - 1) with (2 ^ 6 - 1). rewrite land_not64 by lia. change (2 ^ 6) with 64.
  set (n := Z.to_nat ((pa + len - 64 * (pa / 64) + 63) / 64)).
  rewrite !(line_loop_spec _ n); [by eexists|..]; unfold n, LINE; zlia.
Qed.

(** Making freshly written code executable cleans and then invalidates exactly
    the cache lines that overlap it, in that order and with the barriers between,
    unless the range ends within a line of the top of the address space. *)
Theorem sync_instruction_cache_covers pa len :
  0 <= pa -> 0 < len -> pa + len + LINE < 2 ^ 64 ->
  exists n, let L := lines (LINE * (pa / LINE)) n in
  sync_instruction_cache pa len =
    Some ((DcCvau <$> L) ++ [DsbIsh] ++ (IcIvau <$> L) ++ [DsbIsh; Isb]) /\
  (forall p, p ∈ L <-> p mod LINE = 0 /\ p < pa + len /\ pa < p + LINE).
Proof.
  intros Hpa Hlen Hov. set (st := LINE * (pa / LINE)).
  assert (Hst : Z.land pa (not64 (LINE - 1)) = st).
  { change (LINE - 1) with (2 ^ 6 - 1). unfold LINE in Hov. rewrite land_not64 by lia. done. }
  assert (Hb : st <= pa < st + LINE) by (unfold st, LINE; zlia).
  exists (Z.to_nat ((pa + len - st + 63) / 64)). cbv zeta. set (n := Z.to_nat _).
  assert (Hn : LINE * (Z.of_nat n - 1) < pa + len - st <= LINE * Z.of_nat n) by (unfold n, LINE in *; zlia).
  split.
  - unfold sync_instruction_cache. rewrite Hst. unfold LINE in *. unfold checked_add.
    destruct (Z.ltb_spec (pa + len) (2 ^ 64)); [|lia]. cbn [mbind option_bind].
    rewrite !(line_loop_spec _ n); [done|..]; unfold n, LINE; zlia.
  - intros p. unfold lines. rewrite list_elem_of_fmap. split.
    + intros (i & -> & Hi%elem_of_seq). unfold st, LINE in *. zlia.
    + intros (Hm & H1 & H2). exists (Z.to_nat ((p - st) / LINE)). rewrite elem_of_seq.
      unfold st, LINE in *. zlia.
Qed.

Lemma sync_instruction_cache_covers_witness : exists n,
  sync_instruction_cache 0x40080010 100 =
    Some ((DcCvau <$> lines 0x40080000 n) ++ [DsbIsh] ++ (IcIvau <$> lines 0x40080000 n) ++ [DsbIsh; Isb]) /\
  0x40080040 ∈ lines 0x40080000 n.
Proof.
  destruct (sync_instruction_cache_covers 0x40080010 100) as (n & H & Hin); [lia..|unfold LINE; lia|].
  exists n. split; [exact H|]. apply Hin. split_and!; vm_compute; done.
Defined.
