(* ===== verification/Ownership.v ===== *)
(** * Which address space owns which page table

    Every table [map_page_in] (kernel/src/mmu.rs) creates for a user address hangs
    below the user slot of that address space's root, and below no other root, so
    [free_address_space] on that root finds it. *)

From Stdlib Require Import ZArith Lia.
From stdpp Require Import base numbers gmap list list_relations.
From S2P Require Import Prelude Memory Abi Frames Mmu PageTables AddressSpaces Reclaim.

(** ** Linking one table *)

Lemma subtree_zero m k c x :
  (forall j, 0 <= j < ENTRIES -> entry m c j = 0) -> x ∈ subtree m k c -> x = c.
Proof.
  intros Hz. destruct k as [|k]; [apply elem_of_subtree_0|].
  intros [->|(j & Hj & Htab & _)]%elem_of_subtree_S; [done|]. by rewrite Hz in Htab.
Qed.

Lemma subtree_ext kl1 m m' T k r :
  pt_wf kl1 m T ->
  (forall t lv i, T !! t = Some lv -> (lv < 3)%nat -> 0 <= i < ENTRIES -> entry m' t i = entry m t i) ->
  T !! r = Some (3 - k)%nat -> (k <= 2)%nat -> subtree m' k r = subtree m k r.
Proof.
  intros Hwf He. revert r. induction k as [|k IH]; intros r Hr Hk; [done|].
  cbn [subtree]. f_equal. apply Forall_bind_ext. apply list.Forall_forall. intros i Hi%elem_of_entries. cbv zeta.
  rewrite (He r _ i Hr) by (done || lia). destruct (is_table (entry m r i)) eqn:Htab; [|done].
  apply IH; [|lia]. eapply child_level; eauto; lia.
Qed.

(** The owner's root slot, or a table below it. *)
Definition anchor (m : mem) (root t i : Z) : Prop :=
  (t = root /\ i = USER_L0_IDX) \/
  (is_table (entry m root USER_L0_IDX) = true /\
   t ∈ subtree m 2 (next_table (entry m root USER_L0_IDX))).

Section link_tree.
Context (kl1 : Z) (m m' : mem) (T : gmap Z nat) (t i c : Z) (lv : nat).
Hypothesis Hwf : pt_wf kl1 m T.
Hypothesis Ht : T !! t = Some lv.
Hypothesis Hlv : (lv < 3)%nat.
Hypothesis Hi : 0 <= i < ENTRIES.
Hypothesis Hlk : linked m T t i c m'.

Lemma linked_desc : is_table (entry m' t i) = true /\ next_table (entry m' t i) = c.
Proof. eapply link_desc; apply Hlk || done. Qed.

(** An old table entry is unchanged. *)
Lemma linked_old r j :
  is_Some (T !! r) -> 0 <= j < ENTRIES -> is_table (entry m r j) = true ->
  entry m' r j = entry m r j.
Proof.
  intros Hr Hj Htab. apply (lk_other _ _ _ _ _ _ Hlk); [done..|].
  intros [= -> ->]. apply is_table_valid in Htab. by rewrite (lk_empty _ _ _ _ _ _ Hlk) in Htab.
Qed.

Lemma subtree_link k r x :
  T !! r = Some (3 - k)%nat -> (k <= 2)%nat ->
  x ∈ subtree m' k r <-> x ∈ subtree m k r \/ (x = c /\ t ∈ subtree m k r).
Proof.
  destruct linked_desc as [Hd1 Hd2].
  revert r. induction k as [|k IH]; intros r Hr Hk.
  { rewrite !elem_of_subtree_0. split; [by left|]. intros [?|[_ ->]]; [done|].
    rewrite Ht in Hr. injection Hr. lia. }
  assert (Hch : forall j, 0 <= j < ENTRIES -> is_table (entry m r j) = true ->
            T !! next_table (entry m r j) = Some (3 - k)%nat).
  { intros j Hj Htab. eapply child_level; eauto; lia. }
  rewrite !elem_of_subtree_S. split.
  - intros [->|(j & Hj & Htab & Hx)]; [left; by left|].
    destruct (decide ((r, j) = (t, i))) as [[= -> ->]|Hne].
    + right. rewrite Hd2 in Hx. apply subtree_zero in Hx; [|apply Hlk]. split; [done|by left].
    + rewrite (lk_other _ _ _ _ _ _ Hlk) in Htab, Hx by eauto.
      apply IH in Hx as [Hx|[-> Hx]]; [| |by apply Hch|lia].
      * left. right. eauto.
      * right. split; [done|]. right. eauto.
  - intros [[->|(j & Hj & Htab & Hx)]|[-> [->|(j & Hj & Htab & Hx)]]].
    + by left.
    + right. exists j. rewrite linked_old by eauto. do 2 (split; [done|]). apply IH; [auto|lia|by left].
    + right. exists i. rewrite Hd1, Hd2. do 2 (split; [done|]). apply elem_of_subtree_self.
    + right. exists j. rewrite linked_old by eauto. do 2 (split; [done|]). apply IH; [auto|lia|by right].
Qed.

Lemma space_tables_link root x :
  T !! root = Some O ->
  x ∈ space_tables m' root <-> x ∈ space_tables m root \/ (x = c /\ anchor m root t i).
Proof.
  intros Hr. destruct linked_desc as [Hd1 Hd2]. pose proof user_slot.
  assert (Hu : 0 <= USER_L0_IDX < ENTRIES) by lia.
  rewrite !elem_of_space_tables. unfold anchor.
  destruct (decide ((root, USER_L0_IDX) = (t, i))) as [[= -> ->]|Hne].
  - rewrite Hd1, Hd2. split.
    + intros [->|[_ Hx]]; [left; by left|]. right.
      apply subtree_zero in Hx; [|apply Hlk]. split; [done|]. by left.
    + intros [[->|[Htab _]]|[-> _]]; [by left| |right; split; [done|apply elem_of_subtree_self]].
      apply is_table_valid in Htab. by rewrite (lk_empty _ _ _ _ _ _ Hlk) in Htab.
  - rewrite (lk_other _ _ _ _ _ _ Hlk) by eauto.
    destruct (is_table (entry m root USER_L0_IDX)) eqn:Htab.
    + rewrite subtree_link by (lia || by apply (user_l1_level kl1 m T root)).
      assert (~ (t = root /\ i = USER_L0_IDX)) by (intros [-> ->]; done). tauto.
    + assert (~ (t = root /\ i = USER_L0_IDX)) by (intros [-> ->]; done).
      split; [intros [->|[? _]]; [left; by left|done]|].
      intros [[->|[? _]]|[_ [?|[? _]]]]; [by left|done|tauto|done].
Qed.
End link_tree.

(** A table belongs to one root. *)
Lemma anchor_inj kl1 m T t i r1 r2 :
  pt_wf kl1 m T -> T !! r1 = Some O -> T !! r2 = Some O ->
  anchor m r1 t i -> anchor m r2 t i -> r1 = r2.
Proof.
  intros Hwf H1 H2. pose proof user_slot.
  assert (Hno : forall r r', T !! r = Some O -> T !! r' = Some O ->
            is_table (entry m r USER_L0_IDX) = true ->
            r' ∉ subtree m 2 (next_table (entry m r USER_L0_IDX))).
  { intros r r' Hr Hr' Htab Hin. pose proof (user_l1_level _ _ _ _ Hwf Hr Htab) as Hc.
    destruct (subtree_level _ _ _ Hwf _ _ _ Hc ltac:(lia) Hin) as [->|(lv & Hl & ?)]; [by rewrite Hr' in Hc|].
    rewrite Hr' in Hl. injection Hl. lia. }
  intros [[-> _]|[Ht1 Hin1]] [[? _]|[Ht2 Hin2]]; [done|by destruct (Hno r2 r1)|subst; by destruct (Hno r1 r2)|].
  destruct (decide (r1 = r2)) as [|Hne]; [done|]. exfalso.
  eapply (subtree_disjoint _ _ _ Hwf 2 _ _ t (user_l1_level _ _ _ _ Hwf H1 Ht1)
    (user_l1_level _ _ _ _ Hwf H2 Ht2)); [lia| |done|done].
  intros E. destruct (pt_inj _ _ _ Hwf r1 O USER_L0_IDX r2 O USER_L0_IDX) as [[? _]|(_ & _ & ? & _)];
    done || lia.
Qed.

(** Everything below a table of a subtree is in the subtree. *)
Lemma subtree_child kl1 m T k r t lv i :
  pt_wf kl1 m T -> T !! r = Some (3 - k)%nat -> (k <= 2)%nat -> t ∈ subtree m k r ->
  T !! t = Some lv -> (lv < 3)%nat -> 0 <= i < ENTRIES -> is_table (entry m t i) = true ->
  next_table (entry m t i) ∈ subtree m k r.
Proof.
  intros Hwf. revert r. induction k as [|k IH]; intros r Hr Hk Hin Ht Hlv Hi Htab.
  { apply elem_of_subtree_0 in Hin as ->. rewrite Ht in Hr. injection Hr. lia. }
  apply elem_of_subtree_S in Hin as [->|(j & Hj & Htj & Hin)]; apply elem_of_subtree_S; right.
  - exists i. do 2 (split; [done|]). apply elem_of_subtree_self.
  - exists j. do 2 (split; [done|]). apply IH; try done; [|lia]. eapply child_level; eauto; lia.
Qed.

(** ** Growth of one address space *)

(** The tables of [root] gained exactly [used]; every other space kept its own. *)
Definition owned_step (m : mem) (T : gmap Z nat) (root : Z) (m' : mem) (used : list Z) : Prop :=
  forall r x, T !! r = Some O ->
    x ∈ space_tables m' r <-> x ∈ space_tables m r \/ (r = root /\ x ∈ used).

Lemma owned_step_refl m T root : owned_step m T root m [].
Proof. intros r x _. rewrite elem_of_nil. tauto. Qed.

Lemma owned_step_trans m1 T1 root m2 u1 T2 m3 u2 :
  T1 ⊆ T2 -> owned_step m1 T1 root m2 u1 -> owned_step m2 T2 root m3 u2 ->
  owned_step m1 T1 root m3 (u1 ++ u2).
Proof.
  intros Hsub H1 H2 r x Hr. rewrite (H2 r x), (H1 r x), elem_of_app by eauto using lookup_weaken.
  tauto.
Qed.

Lemma owned_step_link kl1 m m' T t i c lv root :
  pt_wf kl1 m T -> T !! t = Some lv -> (lv < 3)%nat -> 0 <= i < ENTRIES -> linked m T t i c m' ->
  T !! root = Some O -> anchor m root t i -> owned_step m T root m' [c].
Proof.
  intros Hwf Ht Hlv Hi Hlk Hr Ha r x Hr'.
  rewrite (space_tables_link kl1 m m' T t i c lv), list_elem_of_singleton by done. split.
  - intros [?|[-> Ha']]; [by left|]. right. split; [|done]. by eapply anchor_inj.
  - intros [?|[-> ->]]; [by left|]. by right.
Qed.

(** The tables that hang off the user slot of [root]. *)
Definition below (m : mem) (root t : Z) : Prop :=
  is_table (entry m root USER_L0_IDX) = true /\
  t ∈ subtree m 2 (next_table (entry m root USER_L0_IDX)).

Lemma get_or_create_owned s T l root t i lv :
  mm_inv s T l -> T !! root = Some O -> T !! t = Some lv -> (lv < 3)%nat -> 0 <= i < ENTRIES ->
  anchor (mem_of s) root t i ->
  wp True (get_or_create t i) (fun c s' => exists T' l' used,
    mm_grow s T l s' T' l' /\ l = used ++ l' /\ T' !! c = Some (S lv) /\
    owned_step (mem_of s) T root (mem_of s') used /\ below (mem_of s') root c) s.
Proof.
  intros Hinv Hr Ht Hlv Hi Ha. pose proof (mi_pt _ _ _ Hinv) as Hwf. pose proof user_slot.
  eapply wp_mono; [by apply get_or_create_spec|].
  intros c s' (T' & l' & G & _ & Hc & Htab & Hnext & Hcase).
  pose proof (mi_pt _ _ _ (mg_inv _ _ _ _ _ _ G)) as Hwf'.
  pose proof (lookup_weaken _ _ _ _ Hr (mg_sub _ _ _ _ _ _ G)) as Hr'.
  pose proof (lookup_weaken _ _ _ _ Ht (mg_sub _ _ _ _ _ _ G)) as Ht'.
  assert (Hown : exists used, l = used ++ l' /\ owned_step (mem_of s) T root (mem_of s') used).
  { destruct Hcase as [(-> & -> & ->)|(-> & -> & Hlk)].
    - exists []. split; [done|apply owned_step_refl].
    - exists [c]. split; [done|]. by eapply owned_step_link. }
  destruct Hown as (used & Hl & Hown). exists T', l', used. split_and!; try done.
  destruct Ha as [[-> ->]|[Hut Hin]].
  { split; [done|]. rewrite Hnext. apply elem_of_subtree_self. }
  assert (Hut' : entry (mem_of s') root USER_L0_IDX = entry (mem_of s) root USER_L0_IDX).
  { apply (mg_link _ _ _ _ _ _ G root O); [done|lia|lia|by apply is_table_valid]. }
  assert (Hin' : t ∈ space_tables (mem_of s') root).
  { apply Hown; [done|]. left. apply elem_of_space_tables. by right. }
  apply elem_of_space_tables in Hin' as [->|[Htab' Hin']]; [|split; [done|]; rewrite <-Hnext].
  - exfalso. rewrite Ht in Hr. injection Hr as ->.
    pose proof (user_l1_level _ _ _ _ Hwf Ht Hut) as Hc1.
    destruct (subtree_level _ _ _ Hwf _ _ _ Hc1 ltac:(lia) Hin) as [E|(lv & Hl' & ?)];
      [by rewrite <-E, Ht in Hc1|]. rewrite Ht in Hl'. injection Hl'. lia.
  - eapply (subtree_child _ _ T' 2); eauto using user_l1_level.
Qed.

Lemma user_slot_index va : 2 ^ 39 <= va < 2 ^ 40 -> index_at 39 va = USER_L0_IDX.
Proof.
  intros H. rewrite index_at_eq by lia. change USER_L0_IDX with 1.
  change (2 ^ 40) with (2 * 2 ^ 39) in H. zlia.
Qed.

Lemma build_path_owned s T l root va :
  mm_inv s T l -> T !! root = Some O -> 2 ^ 39 <= va < 2 ^ 40 ->
  wp True (let! l1 := get_or_create root (index_at 39 va) in
           let! l2 := get_or_create l1 (index_at 30 va) in
           get_or_create l2 (index_at 21 va))
    (fun l3 s' => exists T' l' used, mm_grow s T l s' T' l' /\ l = used ++ l' /\
       T' !! l3 = Some 3%nat /\ owned_step (mem_of s) T root (mem_of s') used) s.
Proof.
  intros Hinv Hr Hva.
  assert (Hix : forall sh, 0 <= sh -> 0 <= index_at sh va < ENTRIES) by (intros; by apply index_at_range).
  wp_steps. eapply wp_mono.
  { apply (get_or_create_owned s T l root root _ O); [done|done|done|lia|by apply Hix|].
    left. by rewrite user_slot_index. }
  intros l1 s1 (T1 & f1 & u1 & G1 & -> & Hl1 & Ho1 & Hb1). wp_steps.
  pose proof (lookup_weaken _ _ _ _ Hr (mg_sub _ _ _ _ _ _ G1)) as Hr1.
  eapply wp_mono.
  { apply (get_or_create_owned s1 T1 f1 root l1 _ 1%nat);
      [apply G1|done|done|lia|by apply Hix|by right]. }
  intros l2 s2 (T2 & f2 & u2 & G2 & -> & Hl2 & Ho2 & Hb2). wp_steps.
  pose proof (lookup_weaken _ _ _ _ Hr1 (mg_sub _ _ _ _ _ _ G2)) as Hr2.
  eapply wp_mono.
  { apply (get_or_create_owned s2 T2 f2 root l2 _ 2%nat);
      [apply G2|done|done|lia|by apply Hix|by right]. }
  intros l3 s3 (T3 & f3 & u3 & G3 & -> & Hl3 & Ho3 & Hb3).
  exists T3, f3, (u1 ++ u2 ++ u3). split_and!; [by eauto using mm_grow_trans|by rewrite !app_assoc|done|].
  eapply owned_step_trans; [apply G1|exact Ho1|].
  eapply owned_step_trans; [apply G2|exact Ho2|exact Ho3].
Qed.

Lemma space_tables_ext kl1 m m' T r :
  pt_wf kl1 m T ->
  (forall t lv i, T !! t = Some lv -> (lv < 3)%nat -> 0 <= i < ENTRIES -> entry m' t i = entry m t i) ->
  T !! r = Some O -> space_tables m' r = space_tables m r.
Proof.
  intros Hwf He Hr. unfold space_tables. cbv zeta. pose proof user_slot.
  rewrite (He r O USER_L0_IDX Hr) by lia.
  destruct (is_table _) eqn:Htab; [|done]. f_equal.
  eapply subtree_ext; eauto using user_l1_level.
Qed.

(** A leaf descriptor is not part of the tree of tables. *)
Lemma leaf_write_tables kl1 m T l3 i v r :
  pt_wf kl1 m T -> T !! l3 = Some 3%nat -> 0 <= i < ENTRIES -> T !! r = Some O ->
  space_tables (write64 m (l3 + 8 * i) v) r = space_tables m r.
Proof.
  intros Hwf Hl3 Hi Hr. eapply space_tables_ext; [done| |done].
  intros t lv j Ht Hlv Hj. destruct (pt_frame _ _ _ Hwf _ _ Ht), (pt_frame _ _ _ Hwf _ _ Hl3).
  apply entry_write_ne; [done..|]. intros [= -> _]. rewrite Hl3 in Ht. injection Ht. lia.
Qed.

Lemma map_page_in_owned s T l root va pa flags :
  mm_inv s T l -> T !! root = Some O -> 2 ^ 39 <= va < 2 ^ 40 ->
  wp True (map_page_in root va pa flags) (fun _ s' => exists l' used,
    free_inv (ph s') l' /\ l = used ++ l' /\ owned_step (mem_of s) T root (mem_of s') used) s.
Proof.
  intros Hinv Hr Hva. unfold wp. rewrite map_page_in_path. apply wp_bind.
  eapply wp_mono; [by apply build_path_owned|].
  intros l3 s1 (T1 & l1 & used & G & Hl & Hl3 & Ho). apply write_entry_spec.
  pose proof (mg_inv _ _ _ _ _ _ G) as Hinv1. pose proof (mi_pt _ _ _ Hinv1) as Hwf1.
  assert (Hi : 0 <= index_at 12 va < ENTRIES) by (apply index_at_range; lia).
  exists l1, used. cbn [ph set_ph ram set_ram]. split_and!; [|done|].
  - apply free_inv_only_frame with l3; [apply Hinv1|by eapply table_valid| | |].
    + by apply (table_not_free s1 T1 l1 l3 3%nat).
    + apply mem_ok_write64, (mi_pool _ _ _ Hinv1).
    + apply only_frame_write; done.
  - intros r x Hr'. rewrite (leaf_write_tables (KERNEL_L1 s1) _ T1) by eauto using lookup_weaken, mg_sub. by apply Ho.
Qed.

(** ** Disjointness of address spaces *)

Lemma space_tables_anchor m r x : x ∈ space_tables m r <-> anchor m r x USER_L0_IDX.
Proof. rewrite elem_of_space_tables. unfold anchor. tauto. Qed.

Lemma space_tables_disjoint kl1 m T r1 r2 x :
  pt_wf kl1 m T -> T !! r1 = Some O -> T !! r2 = Some O ->
  x ∈ space_tables m r1 -> x ∈ space_tables m r2 -> r1 = r2.
Proof. rewrite !space_tables_anchor. apply anchor_inj. Qed.

Lemma unmap_page_in_owned s T l root va :
  mm_inv s T l -> T !! root = Some O ->
  wp False (unmap_page_in root va) (fun _ s' => owned_step (mem_of s) T root (mem_of s') []) s.
Proof.
  intros Hinv Hr. unfold unmap_page_in. wp_steps. change [39; 30; 21] with (shifts 3).
  pose proof (mi_pt _ _ _ Hinv) as Hwf.
  destruct (walk (mem_of s) root (shifts 3) va) as [l3|] eqn:Hw; [|wp_steps; apply owned_step_refl].
  apply write_entry_spec. cbn [ph set_ph ram set_ram]. intros r x Hr'.
  pose proof (walk_level _ _ _ 3 _ _ _ Hwf Hr ltac:(lia) Hw) as Hl3.
  rewrite (leaf_write_tables (KERNEL_L1 s) _ T) by (done || apply index_at_range; lia).
  rewrite elem_of_nil. tauto.
Qed.
