(* ===== verification/Isolation.v ===== *)
(** * Memory isolation of the running system

    The kernel's memory operations as a transition system over the real
    definitions of Frames.v and Mmu.v: data frames taken and returned, address
    spaces created, mapped, unmapped, activated and reclaimed, and arbitrary
    stores by programs into data frames. The invariant says that EL0 reaches data
    frames only, whatever programs store there, and that no frame is ever lost. *)

From Stdlib Require Import ZArith Lia.
From stdpp Require Import base numbers gmap list list_relations.
From S2P Require Import Prelude Memory Abi Frames Mmu PageTables AddressSpaces Reclaim.
From S2P Require Import Ownership VirtualMemory.

(** The machine, the roots of the live processes, and the frames handed out for
    data (program pages, stacks, rings). *)
Record vm := mkVm { vs : mmu; roots : gset Z; data : gset Z }.

Definition root_of (v : vm) (r : Z) : Prop := r = KERNEL_TTBR0 (vs v) \/ r ∈ roots v.

(** What EL0 can do through a descriptor, at all. *)
Definition el0_access (e : Z) : bool := el0_readable e || el0_executable e.

(** [f] is not visible to EL0 in any address space. *)
Definition unshared (v : vm) (f : Z) : Prop :=
  forall r va n e, root_of v r -> canonical va -> hw_walk (mem_of (vs v)) 3 r va = Some (n, e) ->
    el0_access e = true -> next_table e <> f.

Inductive vm_step : vm -> vm -> Prop :=
| vs_alloc s R D f s' :
    in_phys alloc_frame s = Ret (Some f, s') -> vm_step (mkVm s R D) (mkVm s' R ({[f]} ∪ D))
| vs_release s R D f s' :
    f ∈ D -> unshared (mkVm s R D) f -> in_phys (free_frame f) s = Ret (tt, s') ->
    vm_step (mkVm s R D) (mkVm s' R (D ∖ {[f]}))
| vs_store s R D f o b :
    f ∈ D -> 0 <= o < FRAME_SIZE ->
    vm_step (mkVm s R D) (mkVm (set_ph (set_ram (write8 (mem_of s) (f + o) b) (ph s)) s) R D)
| vs_new s R D r s' :
    new_address_space s = Ret (r, s') -> vm_step (mkVm s R D) (mkVm s' ({[r]} ∪ R) D)
| vs_map s R D r va f flags s' :
    r ∈ R -> f ∈ D -> 2 ^ 39 <= va < 2 ^ 40 -> page_ok f flags ->
    map_page_in r va f flags s = Ret (tt, s') -> vm_step (mkVm s R D) (mkVm s' R D)
| vs_unmap s R D r va s' :
    r ∈ R -> canonical va -> unmap_page_in r va s = Ret (tt, s') ->
    vm_step (mkVm s R D) (mkVm s' R D)
| vs_activate s R D r s' :
    root_of (mkVm s R D) r -> activate r s = Ret (tt, s') -> vm_step (mkVm s R D) (mkVm s' R D)
| vs_reclaim s R D r s' :
    r ∈ R -> r <> ttbr0_el1 s -> free_address_space r s = Ret (tt, s') ->
    vm_step (mkVm s R D) (mkVm s' (R ∖ {[r]}) D).

(** Ghost state: table levels [T] and pool [l]; [K] are the kernel's own tables
    and [A] all frames under management. *)
Record vm_inv (K A : gset Z) (v : vm) (T : gmap Z nat) (l : list Z) : Prop := {
  vi_mm : mm_inv (vs v) T l;
  vi_all : dom T ∪ list_to_set l ∪ data v = A;
  vi_kroot : KERNEL_TTBR0 (vs v) ∈ K;
  vi_roots : forall r, root_of v r -> T !! r = Some O;
  vi_own : forall x, is_Some (T !! x) <->
    x ∈ K \/ exists r, r ∈ roots v /\ x ∈ space_tables (mem_of (vs v)) r;
  vi_kern : forall r x, r ∈ roots v -> x ∈ space_tables (mem_of (vs v)) r -> x ∉ K;
  vi_data : forall f, f ∈ data v -> valid_frame f /\ T !! f = None /\ f ∉ l;
  vi_el0 : forall r va n e, root_of v r -> canonical va ->
    hw_walk (mem_of (vs v)) 3 r va = Some (n, e) -> el0_access e = true ->
    n = O /\ next_table e ∈ data v;
  vi_live : root_of v (ttbr0_el1 (vs v));
  vi_installed : INSTALLED (vs v) = ttbr0_el1 (vs v) \/ INSTALLED (vs v) = 0
}.

(** ** Steps that leave every table as it is *)

Lemma same_tables s T l m' :
  mm_inv s T l ->
  (forall t lv i, T !! t = Some lv -> 0 <= i < ENTRIES -> entry m' t i = entry (mem_of s) t i) ->
  pt_wf (KERNEL_L1 s) m' T /\
  (forall r va, T !! r = Some O -> hw_walk m' 3 r va = hw_walk (mem_of s) 3 r va) /\
  (forall r, T !! r = Some O -> space_tables m' r = space_tables (mem_of s) r).
Proof.
  intros Hinv He. pose proof (mi_pt _ _ _ Hinv) as Hwf. split; [|split].
  - eapply pt_wf_ext; [|exact Hwf]. eauto.
  - intros r va Hr. eapply hw_walk_ext; [exact Hwf|done|done|lia].
  - intros r Hr. eapply space_tables_ext; [exact Hwf|eauto|done].
Qed.

(** Memory changes outside the tables, and the pool and data frames are
    redistributed. *)
Lemma vm_inv_retag K A s R D T l s' D' l' :
  vm_inv K A (mkVm s R D) T l -> s' = set_ph (ph s') s -> free_inv (ph s') l' ->
  (forall t lv i, T !! t = Some lv -> 0 <= i < ENTRIES -> entry (mem_of s') t i = entry (mem_of s) t i) ->
  list_to_set l' ∪ D' = (list_to_set l ∪ D : gset Z) ->
  (forall f, f ∈ D' -> valid_frame f /\ f ∉ l') ->
  (forall r va n e, root_of (mkVm s R D) r -> canonical va ->
     hw_walk (mem_of s) 3 r va = Some (n, e) -> el0_access e = true ->
     next_table e ∈ D -> next_table e ∈ D') ->
  vm_inv K A (mkVm s' R D') T l'.
Proof.
  intros [Hmm Hall Hkr Hro Hown Hkern Hdata Hel Hlive Hinst] Hregs Hp He Hset HD' Hel'.
  cbn [vs roots data] in *. destruct (same_tables s T l _ Hmm He) as (Hwf' & Hw & Hst).
  assert (Hro' : forall r, root_of (mkVm s' R D') r -> root_of (mkVm s R D) r)
    by (intros r; unfold root_of; cbn; by rewrite Hregs).
  assert (HrR : forall r, r ∈ R -> T !! r = Some O) by (intros r Hr; apply Hro; by right).
  assert (HnT : forall f, f ∈ list_to_set l ∪ D -> T !! f = None).
  { intros f [Hf|Hf]%elem_of_union; [|by apply Hdata].
    apply (mi_sep _ _ _ Hmm). by apply elem_of_list_to_set in Hf. }
  split; cbn [vs roots data].
  - split; [done|by rewrite Hregs|]. intros f Hf. apply HnT. rewrite <-Hset.
    apply elem_of_union. left. by apply elem_of_list_to_set.
  - rewrite <-Hall, <-!(assoc_L (∪)). by rewrite Hset.
  - by rewrite Hregs.
  - intros r Hr. by apply Hro, Hro'.
  - intros x. rewrite Hown. split; (intros [?|(r & Hr & Hx)]; [by left|right; exists r; split; [done|]]).
    + by rewrite Hst by auto.
    + by rewrite <-Hst by auto.
  - intros r x Hr. rewrite Hst by auto. by apply Hkern.
  - intros f Hf. destruct (HD' f Hf). split_and!; [done| |done].
    apply HnT. rewrite <-Hset. by apply elem_of_union; right.
  - intros r va n e Hr Hva Hwk Ha. rewrite Hw in Hwk by auto.
    destruct (Hel r va n e) as [-> Hin]; auto. split; [done|].
    by apply (Hel' r va O e); auto.
  - unfold root_of. cbn. rewrite Hregs. exact Hlive.
  - by rewrite Hregs.
Qed.

Lemma in_phys_ret {A} (m : M phys A) s a s' :
  in_phys m s = Ret (a, s') -> exists p', m (ph s) = Ret (a, p') /\ s' = set_ph p' s.
Proof. unfold in_phys, zoomM. destruct (m (ph s)) as [[b p]|]; [|done]. intros [= <- <-]. eauto. Qed.

Lemma alloc_step K A s R D f s' T l :
  vm_inv K A (mkVm s R D) T l -> in_phys alloc_frame s = Ret (Some f, s') ->
  exists l', l = f :: l' /\ mem_of s' = mem_of s /\ vm_inv K A (mkVm s' R ({[f]} ∪ D)) T l'.
Proof.
  intros Hv (p' & Hrun & ->)%in_phys_ret. pose proof (mi_pool _ _ _ (vi_mm _ _ _ _ _ Hv)) as Hp.
  cbn [vs] in Hp. pose proof (alloc_frame_inv _ _ _ _ Hp Hrun) as Ha.
  destruct l as [|g l']; [by destruct Ha|]. destruct Ha as ([= <-] & Hp' & Hram).
  pose proof (fi_nodup _ _ Hp) as [Hnin _]%NoDup_cons. exists l'. do 2 (split; [done|]).
  eapply vm_inv_retag; [exact Hv|done|done| | | |]; cbn [ph set_ph].
  - intros. by rewrite Hram.
  - cbn [list_to_set]. set_solver.
  - intros x [->%elem_of_singleton|Hx]%elem_of_union.
    + split; [|done]. eapply free_inv_in_valid; [exact Hp|]. apply list_elem_of_here.
    + destruct (vi_data _ _ _ _ _ Hv x Hx) as (? & _ & Hx'). rewrite not_elem_of_cons in Hx'. tauto.
  - intros. apply elem_of_union. by right.
Qed.

Lemma release_step K A s R D f s' T l :
  vm_inv K A (mkVm s R D) T l -> f ∈ D -> unshared (mkVm s R D) f ->
  in_phys (free_frame f) s = Ret (tt, s') -> exists l', vm_inv K A (mkVm s' R (D ∖ {[f]})) T l'.
Proof.
  intros Hv Hf Hun (p' & Hrun & ->)%in_phys_ret.
  pose proof (vi_mm _ _ _ _ _ Hv) as Hmm. pose proof (mi_pool _ _ _ Hmm) as Hp. cbn [vs] in Hmm, Hp.
  destruct (vi_data _ _ _ _ _ Hv f Hf) as (Hfv & HfT & Hfl).
  destruct (wp_run _ _ _ _ _ _ (free_frame_spec _ _ _ Hp Hfv Hfl) Hrun) as [Hp' Hram].
  exists (f :: l). eapply vm_inv_retag; [exact Hv|done|done| | | |]; cbn [ph set_ph].
  - intros t lv i Ht Hi. rewrite Hram. apply entry_same_frame; [|done].
    apply (only_frame_other f); [|done|by eapply table_valid|congruence].
    rewrite <-(Z.add_0_r f) at 2. by apply (only_frame_write _ f 0).
  - cbn [list_to_set]. rewrite (union_comm_L {[f]}), <-(assoc_L (∪)). f_equal.
    symmetry. by apply union_difference_singleton_L.
  - intros x [Hx Hne]%elem_of_difference. rewrite elem_of_singleton in Hne.
    destruct (vi_data _ _ _ _ _ Hv x Hx) as (? & _ & ?). by rewrite not_elem_of_cons.
  - intros r va n e Hr Hva Hw Ha Hin. apply elem_of_difference. split; [done|].
    rewrite elem_of_singleton. by eapply Hun.
Qed.

Lemma store_step K A s R D f o b T l :
  vm_inv K A (mkVm s R D) T l -> f ∈ D -> 0 <= o < FRAME_SIZE ->
  vm_inv K A (mkVm (set_ph (set_ram (write8 (mem_of s) (f + o) b) (ph s)) s) R D) T l.
Proof.
  intros Hv Hf Ho. pose proof (vi_mm _ _ _ _ _ Hv) as Hmm. cbn [vs] in Hmm.
  destruct (vi_data _ _ _ _ _ Hv f Hf) as (Hfv & HfT & Hfl).
  assert (Hof : only_frame f (mem_of s) (write8 (mem_of s) (f + o) b)).
  { intros a Ha. apply read8_write8_ne. lia. }
  eapply vm_inv_retag; [exact Hv|done| | |done| |done]; cbn [ph set_ph ram set_ram].
  - eapply free_inv_only_frame; [apply Hmm|done|done| |exact Hof].
    apply mem_ok_write8, (mi_pool _ _ _ Hmm).
  - intros t lv i Ht Hi. apply entry_same_frame; [|done].
    apply (only_frame_other f); [done|done|by eapply table_valid|congruence].
  - intros x Hx. destruct (vi_data _ _ _ _ _ Hv x Hx) as (? & _ & ?). done.
Qed.

Lemma activate_step K A s R D r s' T l :
  vm_inv K A (mkVm s R D) T l -> root_of (mkVm s R D) r -> activate r s = Ret (tt, s') ->
  vm_inv K A (mkVm s' R D) T l.
Proof.
  intros [Hmm Hall Hkr Hro Hown Hkern Hdata Hel Hlive Hinst] Hr [= <-]. cbn [vs roots data] in *.
  assert (Hr0 : r <> 0).
  { pose proof (valid_frame_range r (table_valid _ _ _ _ _ Hmm (Hro r Hr))). lia. }
  destruct (Z.eqb_spec (INSTALLED s) r) as [E|E]; cbn [negb]; [by split|].
  split; cbn [vs roots data ph]; [|done..|by left].
  split; apply Hmm.
Qed.

(** ** Steps that change the tables *)

Lemma new_step K A s R D r s' T l :
  vm_inv K A (mkVm s R D) T l -> new_address_space s = Ret (r, s') ->
  exists T' l', vm_inv K A (mkVm s' ({[r]} ∪ R) D) T' l'.
Proof.
  intros [Hmm Hall Hkr Hro Hown Hkern Hdata Hel Hlive Hinst] Hrun. cbn [vs roots data] in *.
  destruct (wp_run True _ _ _ _ _ (new_address_space_spec True s T l Hmm ltac:(done)) Hrun)
    as (l' & Hl & HrT & Hmm' & Hw & Hwr & Hz & Hsame & Hregs).
  exists (<[r := O]> T), l'. pose proof user_slot as Hu.
  destruct (same_tables s T l _ Hmm Hsame) as (_ & _ & Hst).
  assert (Hst' : space_tables (mem_of s') r = [r]) by (unfold space_tables; cbv zeta; by rewrite Hz).
  assert (Hroot : forall r', root_of (mkVm s' ({[r]} ∪ R) D) r' -> r' = r \/ root_of (mkVm s R D) r').
  { intros r' [->|Hr']; [right; left; cbn [vs]; by rewrite Hregs|]. cbn [roots] in Hr'.
    apply elem_of_union in Hr' as [->%elem_of_singleton|?]; [by left|right; by right]. }
  assert (HR : forall x, x ∈ R -> T !! x = Some O) by (intros x Hx; apply Hro; by right).
  assert (HKT : forall x, x ∈ K -> x <> r).
  { intros x Hx ->. destruct (proj2 (Hown r) (or_introl Hx)). congruence. }
  split; cbn [vs roots data].
  - done.
  - rewrite <-Hall, Hl, dom_insert_L. cbn [list_to_set]. clear. set_solver.
  - by rewrite Hregs.
  - intros r' [->|Hr']%Hroot; [by rewrite lookup_insert_eq|].
    pose proof (Hro _ Hr'). rewrite lookup_insert_ne by congruence. done.
  - intros x. rewrite lookup_insert_is_Some', Hown. split.
    + intros [<-|[?|(r' & Hr' & Hx)]]; [right; exists r|by left|right; exists r'].
      * rewrite Hst'. split; [|by apply list_elem_of_singleton]. by apply elem_of_union; left; apply elem_of_singleton.
      * rewrite Hst by auto. split; [by apply elem_of_union; right|done].
    + intros [?|(r' & [->%elem_of_singleton|Hr']%elem_of_union & Hx)]; [right; by left|left|right; right].
      * rewrite Hst' in Hx. by apply list_elem_of_singleton in Hx.
      * exists r'. by rewrite <-Hst by auto.
  - intros r' x [->%elem_of_singleton|Hr']%elem_of_union.
    + rewrite Hst'. intros ->%list_elem_of_singleton Hin. by apply (HKT r).
    + rewrite Hst by auto. by apply Hkern.
  - intros f Hf. destruct (Hdata f Hf) as (Hfv & HfT & Hfl). rewrite Hl, not_elem_of_cons in Hfl.
    split_and!; [done| |tauto]. by rewrite lookup_insert_ne by (intros <-; tauto).
  - intros r' va n e [->|Hr']%Hroot Hva Hwk Ha.
    + rewrite Hwr in Hwk by done. destruct (Z.ltb_spec va (2 ^ 39)); [|done].
      rewrite <-(root_walk_low _ _ _ _ _ (mi_pt _ _ _ Hmm) (Hro _ Hlive)) in Hwk by done. by eapply Hel.
    + rewrite Hw in Hwk by auto. by eapply Hel.
  - rewrite Hregs. destruct Hlive as [Hk|Hin]; [by left|right]. by apply elem_of_union; right.
  - by rewrite Hregs.
Qed.

Lemma update_step K A s R D root va res s' T l T' l' used :
  vm_inv K A (mkVm s R D) T l -> root ∈ R -> l = used ++ l' ->
  mm_update s T l root va res s' T' l' -> owned_step (mem_of s) T root (mem_of s') used ->
  (forall n e, res = Some (n, e) -> el0_access e = true -> n = O /\ next_table e ∈ D) ->
  vm_inv K A (mkVm s' R D) T' l'.
Proof.
  intros [Hmm Hall Hkr Hro Hown Hkern Hdata Hel Hlive Hinst] HrR Hl [I Sub U X _ Hregs] Ho Hres.
  cbn [vs roots data] in *.
  assert (Hdom : dom T' = dom T ∪ list_to_set used).
  { destruct U as (used' & Hl' & Hd & _). rewrite Hl in Hl'. by apply app_inv_tail in Hl' as ->. }
  assert (Hsome : forall x, is_Some (T' !! x) <-> is_Some (T !! x) \/ x ∈ used).
  { intros x. rewrite <-!elem_of_dom, Hdom, elem_of_union, elem_of_list_to_set. done. }
  assert (Hro' : forall r, root_of (mkVm s' R D) r -> root_of (mkVm s R D) r)
    by (intros r; unfold root_of; cbn [vs roots]; by rewrite Hregs).
  assert (HR : forall r, r ∈ R -> T !! r = Some O) by (intros r Hr; apply Hro; by right).
  assert (Hused : forall x, x ∈ used -> T !! x = None).
  { intros x Hx. apply (mi_sep _ _ _ Hmm). rewrite Hl. apply elem_of_app. by left. }
  assert (HK : forall x, x ∈ K -> is_Some (T !! x)) by (intros x Hx; apply Hown; by left).
  split; cbn [vs roots data].
  - done.
  - rewrite <-Hall, Hdom, Hl, list_to_set_app_L. clear. set_solver.
  - by rewrite Hregs.
  - intros r Hr. eapply lookup_weaken; [|exact Sub]. by apply Hro, Hro'.
  - intros x. rewrite Hsome, Hown. split.
    + intros [[?|(r & Hr & Hx)]|Hx]; [by left|right; exists r|right; exists root]; (split; [done|]);
        apply Ho; auto.
    + intros [?|(r & Hr & Hx)]; [left; by left|]. apply Ho in Hx as [Hx|[-> Hx]]; [|by right|by apply HR].
      left. right. eauto.
  - intros r x Hr Hx HxK. apply Ho in Hx as [Hx|[-> Hx]]; [by apply (Hkern r x)| |by apply HR].
    destruct (HK x HxK). rewrite Hused in * by done. done.
  - intros f Hf. destruct (Hdata f Hf) as (Hfv & HfT & Hfl). rewrite Hl, not_elem_of_app in Hfl.
    split_and!; [done| |tauto]. apply eq_None_not_Some. rewrite Hsome, HfT. intros [[]|?]; [done|tauto].
  - intros r va' n e Hr Hva Hwk Ha. rewrite X in Hwk by (done || by apply Hro, Hro').
    destruct (decide (hits root va r va')); [by eapply Hres|]. apply (Hel r va' n e); [by apply Hro'|done..].
  - unfold root_of. cbn [vs roots]. rewrite Hregs. exact Hlive.
  - by rewrite Hregs.
Qed.

Lemma map_step K A s R D r va f flags s' T l :
  vm_inv K A (mkVm s R D) T l -> r ∈ R -> f ∈ D -> 2 ^ 39 <= va < 2 ^ 40 -> page_ok f flags ->
  map_page_in r va f flags s = Ret (tt, s') ->
  exists T' l', vm_inv K A (mkVm s' R D) T' l' /\ mm_update s T l r va (Some (O, Z.lor f flags)) s' T' l'.
Proof.
  intros Hv Hr Hf Hva Hpg Hrun. pose proof (vi_mm _ _ _ _ _ Hv) as Hmm. cbn [vs] in Hmm.
  assert (HrT : T !! r = Some O) by (apply (vi_roots _ _ _ _ _ Hv); by right).
  assert (Hc : canonical va) by (unfold canonical; lia).
  destruct (wp_run _ _ _ _ _ _ (map_page_in_spec True s T l r va f flags Hmm HrT Hc Hpg ltac:(done)) Hrun)
    as (T' & l' & Hup).
  destruct (wp_run _ _ _ _ _ _ (map_page_in_owned s T l r va f flags Hmm HrT Hva) Hrun)
    as (l2 & used & Hp & Hl & Ho).
  assert (l2 = l') as -> by (eapply free_inv_inj; [exact Hp|apply (mu_inv _ _ _ _ _ _ _ _ _ Hup)]).
  exists T', l'. split; [|done]. eapply update_step; [exact Hv|exact Hr|exact Hl|exact Hup|exact Ho|].
  intros n e [= <- <-] _. split; [done|]. unfold next_table.
  by rewrite (proj1 (proj2 (proj2 (page_desc_ok _ _ Hpg)))).
Qed.

Lemma unmap_step K A s R D r va s' T l :
  vm_inv K A (mkVm s R D) T l -> r ∈ R -> canonical va ->
  unmap_page_in r va s = Ret (tt, s') -> vm_inv K A (mkVm s' R D) T l.
Proof.
  intros Hv Hr Hc Hrun. pose proof (vi_mm _ _ _ _ _ Hv) as Hmm. cbn [vs] in Hmm.
  assert (HrT : T !! r = Some O) by (apply (vi_roots _ _ _ _ _ Hv); by right).
  pose proof (wp_run _ _ _ _ _ _ (unmap_page_in_spec s T l r va Hmm HrT Hc) Hrun) as Hup.
  pose proof (wp_run _ _ _ _ _ _ (unmap_page_in_owned s T l r va Hmm HrT) Hrun) as Ho.
  eapply update_step with (used := []); [exact Hv|exact Hr|done|exact Hup|exact Ho|].
  intros n e Hun Ha. destruct (hw_walk (mem_of s) 3 r va) as [[[|n'] e']|] eqn:Hw; [done| |done].
  injection Hun as <- <-. eapply (vi_el0 _ _ _ _ _ Hv); [right; exact Hr|exact Hc|exact Hw|done].
Qed.

Lemma lookup_prune_is_Some X T x : is_Some (prune X T !! x) <-> is_Some (T !! x) /\ x ∉ X.
Proof.
  split; [intros [lv [? ?]%lookup_prune]; eauto|]. intros [[lv ?] ?]. exists lv. by apply lookup_prune.
Qed.

Lemma prune_frames X T l :
  (forall x, x ∈ X -> is_Some (T !! x)) ->
  dom (prune X T) ∪ list_to_set (reverse X ++ l) = (dom T ∪ list_to_set l : gset Z).
Proof.
  intros HXT. apply set_eq. intros x.
  rewrite !elem_of_union, !elem_of_list_to_set, !elem_of_dom, lookup_prune_is_Some, elem_of_app,
    elem_of_reverse.
  destruct (decide (x ∈ X)); [|tauto]. pose proof (HXT x). tauto.
Qed.

(** What survives the reclamation of [r]. *)
Lemma reclaim_keeps s T l r s' r' :
  mm_inv s T l -> T !! r = Some O ->
  (forall f, valid_frame f -> f ∉ space_tables (mem_of s) r -> same_on (mem_of s) (mem_of s') f FRAME_SIZE) ->
  T !! r' = Some O -> r' <> r ->
  prune (space_tables (mem_of s) r) T !! r' = Some O /\
  space_tables (mem_of s') r' = space_tables (mem_of s) r'.
Proof.
  intros Hmm Hr Hmem Hr' Hne. pose proof (mi_pt _ _ _ Hmm) as Hwf.
  pose proof (space_pruned _ _ _ _ Hwf Hr) as Hpr.
  assert (Hp' : prune (space_tables (mem_of s) r) T !! r' = Some O).
  { apply lookup_prune. split; [done|]. intros Hin.
    by apply Hne, (space_tables_root _ _ _ _ Hwf Hr _ Hin). }
  split; [done|]. eapply space_tables_ext; [exact Hpr| |done].
  intros t lv i [Ht HtX]%lookup_prune _ Hi. apply entry_same_frame; [|done].
  apply Hmem; [exact (table_valid _ _ _ _ _ Hmm Ht)|done].
Qed.

Lemma reclaim_step K A s R D r s' T l :
  vm_inv K A (mkVm s R D) T l -> r ∈ R -> r <> ttbr0_el1 s ->
  free_address_space r s = Ret (tt, s') -> exists T' l', vm_inv K A (mkVm s' (R ∖ {[r]}) D) T' l'.
Proof.
  intros [Hmm Hall Hkr Hro Hown Hkern Hdata Hel Hlive Hinst] Hr Hnl Hrun. cbn [vs roots data] in *.
  assert (HR : forall r', r' ∈ R -> T !! r' = Some O) by (intros r' Hr'; apply Hro; by right).
  pose proof (wp_run _ _ _ _ _ _ (free_address_space_spec s T l r Hmm (HR r Hr)) Hrun) as Hpost.
  cbv zeta in Hpost. set (X := space_tables (mem_of s) r) in *.
  destruct Hpost as (Hmm' & Hw & Hmem & Hregs). exists (prune X T), (reverse X ++ l).
  pose proof (mi_pt _ _ _ Hmm) as Hwf.
  assert (Hkeep : forall r', r' ∈ R ∖ {[r]} -> r' ∈ R /\ r' <> r /\ prune X T !! r' = Some O /\
            space_tables (mem_of s') r' = space_tables (mem_of s) r').
  { intros r' [Hr' Hne]%elem_of_difference. rewrite elem_of_singleton in Hne.
    do 2 (split; [done|]). apply (reclaim_keeps s T l); auto. }
  assert (HKX : forall x, x ∈ K -> x ∉ X) by (intros x HxK HxX; by apply (Hkern r x)).
  assert (HXT : forall x, x ∈ X -> is_Some (T !! x)) by (intros x Hx; apply Hown; right; eauto).
  assert (Hroot : forall r', root_of (mkVm s' (R ∖ {[r]}) D) r' ->
            root_of (mkVm s R D) r' /\ r' <> r /\ prune X T !! r' = Some O).
  { intros r' [->|Hr']; cbn [vs roots] in *; [|destruct (Hkeep r' Hr') as (? & ? & ? & _); split; [by right|done]].
    rewrite Hregs. cbn [KERNEL_TTBR0 set_ph]. split; [by left|].
    assert (KERNEL_TTBR0 s ∉ X) by auto. split; [|by apply lookup_prune; split; [apply Hro; left|]].
    intros E. apply H. rewrite E. apply elem_of_space_tables. by left. }
  split; cbn [vs roots data].
  - done.
  - rewrite <-Hall. f_equal. by apply prune_frames.
  - by rewrite Hregs.
  - intros r' Hr'. by apply Hroot.
  - intros x. rewrite lookup_prune_is_Some. split.
    + intros [Hx HxX]. destruct (proj1 (Hown x) Hx) as [?|(r' & Hr' & Hin)]; [by left|].
      right. exists r'. assert (Hk : r' ∈ R ∖ {[r]}).
      { apply elem_of_difference. split; [done|]. rewrite elem_of_singleton. by intros ->. }
      split; [done|]. destruct (Hkeep r' Hk) as (_ & _ & _ & ->). done.
    + intros [Hx|(r' & Hr' & Hx)]; [split; [apply Hown; by left|by apply HKX]|].
      destruct (Hkeep r' Hr') as (HrR & Hne & _ & E). rewrite E in Hx.
      split; [apply Hown; right; eauto|]. intros HxX. apply Hne.
      eapply (space_tables_disjoint _ _ _ _ _ x Hwf); eauto.
  - intros r' x Hr'. destruct (Hkeep r' Hr') as (HrR & _ & _ & ->). by apply Hkern.
  - intros f Hf. destruct (Hdata f Hf) as (Hfv & HfT & Hfl).
    split_and!; [done|by apply lookup_prune_None|].
    rewrite elem_of_app, elem_of_reverse. intros [Hin|?]; [|done].
    destruct (HXT f Hin). congruence.
  - intros r' va n e Hr' Hva Hwk Ha. destruct (Hroot r' Hr') as (Hr0 & Hne & _).
    rewrite Hw in Hwk by auto. by apply (Hel r' va n e).
  - rewrite Hregs. cbn [ttbr0_el1 set_ph]. destruct Hlive as [Hk|Hin]; [left|right]; cbn [vs roots] in *.
    + by rewrite Hk, Hregs.
    + apply elem_of_difference. split; [done|]. rewrite elem_of_singleton. congruence.
  - by rewrite Hregs.
Qed.

(** ** Reachable states *)

Lemma vm_inv_step K A v v' T l :
  vm_inv K A v T l -> vm_step v v' -> exists T' l', vm_inv K A v' T' l'.
Proof.
  intros Hv Hs. destruct Hs.
  - edestruct alloc_step as (l' & _ & _ & ?); eauto.
  - exists T. by eapply release_step.
  - exists T, l. by apply store_step.
  - by eapply new_step.
  - edestruct map_step as (T' & l' & ? & _); eauto.
  - exists T, l. by eapply unmap_step.
  - exists T, l. by eapply activate_step.
  - by eapply reclaim_step.
Qed.

Lemma vm_inv_steps K A v v' T l :
  vm_inv K A v T l -> rtc vm_step v v' -> exists T' l', vm_inv K A v' T' l'.
Proof.
  intros Hv Hr. revert T l Hv. induction Hr as [|v1 v2 v3 Hs _ IH]; intros T l Hv; [eauto|].
  destruct (vm_inv_step _ _ _ _ _ _ Hv Hs) as (T' & l' & Hv'). by eapply IH.
Qed.

Lemma boot_el0 m l0 l1 l2 va n e :
  boot_tables m l0 l1 l2 -> canonical va -> hw_walk m 3 l0 va = Some (n, e) -> el0_access e = false.
Proof.
  intros Hb Hva. rewrite (boot_hw _ _ _ _ _ Hb Hva). fold (ram_desc va).
  destruct (va <? 2 ^ 30); [by intros [= <- <-]|].
  destruct (Z.leb_spec RAM_BASE va), (Z.ltb_spec va RAM_TOP); cbn [andb]; intros [=]. subst.
  unfold el0_access, el0_readable, el0_executable. by rewrite !ram_desc_bit by (done || lia).
Qed.

(** The state [init_mmu] hands over satisfies the invariant. *)
Lemma boot_vm_inv s0 l s :
  free_inv (ph s0) l -> INSTALLED s0 = 0 -> init_mmu s0 = Ret (tt, s) ->
  exists K T, vm_inv K (list_to_set l) (mkVm s ∅ ∅) T (drop 3 l) /\ size K = 3%nat.
Proof.
  intros Hp Hin Hrun.
  destruct (wp_run _ _ _ _ _ _ (init_mmu_spec True s0 l Hp ltac:(done)) Hrun)
    as (l0 & l1 & l2 & l' & -> & Hb & Hmm & Ht & Hk & Hk1 & Hi).
  pose proof (fi_nodup _ _ Hp) as Hnd. rewrite !NoDup_cons in Hnd.
  rewrite !not_elem_of_cons in Hnd. destruct Hnd as ((N01 & N02 & _) & (N12 & _) & _).
  set (T := <[l0 := O]> _) in *.
  assert (Hslot : space_tables (mem_of s) l0 = [l0]).
  { unfold space_tables. cbv zeta. by rewrite (bt_l0 _ _ _ _ Hb) by (pose proof user_slot; lia). }
  assert (Hroot : forall r, root_of (mkVm s ∅ ∅) r -> r = l0).
  { intros r [->|?]; [done|by cbn in *; set_solver]. }
  exists ({[l0]} ∪ ({[l1]} ∪ {[l2]})), T. split.
  2: { rewrite !size_union, !size_singleton by set_solver. done. }
  split; cbn [vs roots data drop].
  - done.
  - unfold T. rewrite !dom_insert_L, dom_singleton_L. cbn [list_to_set]. clear. set_solver.
  - rewrite Hk. clear. set_solver.
  - intros r ->%Hroot. unfold T. by rewrite lookup_insert_eq.
  - intros x. rewrite <-elem_of_dom. unfold T. rewrite !dom_insert_L, dom_singleton_L.
    split; [intros Hx; left; exact Hx|]. intros [?|(r & Hr & _)]; [done|]. by apply elem_of_empty in Hr.
  - intros r x Hr. by apply elem_of_empty in Hr.
  - intros f Hf. by apply elem_of_empty in Hf.
  - intros r va n e ->%Hroot Hva Hw Ha. by rewrite (boot_el0 _ _ _ _ _ _ _ Hb Hva Hw) in Ha.
  - left. cbn [vs]. congruence.
  - right. congruence.
Qed.

(** In every state the kernel's memory operations and any stores of programs
    into their data frames can reach from boot, an address EL0 can read, write or
    execute in any address space lies in a 4 KiB page of a data frame, and no data
    frame is a page table or on the free list. *)
Theorem el0_isolation s0 l s v r va n e :
  free_inv (ph s0) l -> INSTALLED s0 = 0 -> init_mmu s0 = Ret (tt, s) ->
  rtc vm_step (mkVm s ∅ ∅) v ->
  root_of v r -> canonical va -> hw_walk (mem_of (vs v)) 3 r va = Some (n, e) -> el0_access e = true ->
  n = O /\ next_table e ∈ data v /\
  exists T pool, mm_inv (vs v) T pool /\ T !! r = Some O /\
    forall f, f ∈ data v -> T !! f = None /\ f ∉ pool.
Proof.
  intros Hp Hi Hrun Hr Hro Hva Hw Ha.
  destruct (boot_vm_inv _ _ _ Hp Hi Hrun) as (K & T0 & Hv0 & _).
  destruct (vm_inv_steps _ _ _ _ _ _ Hv0 Hr) as (T & pool & Hv).
  destruct (vi_el0 _ _ _ _ _ Hv r va n e Hro Hva Hw Ha) as [-> Hin].
  do 2 (split; [done|]). exists T, pool. split_and!; [apply Hv|by apply (vi_roots _ _ _ _ _ Hv)|].
  intros f Hf. by apply (vi_data _ _ _ _ _ Hv).
Qed.

Lemma vm_pool K A v T l : vm_inv K A v T l -> list_to_set l = A ∖ (dom T ∪ data v).
Proof.
  intros Hv. rewrite <-(vi_all _ _ _ _ _ Hv). apply set_eq. intros x.
  rewrite elem_of_difference, !elem_of_union, elem_of_list_to_set, elem_of_dom.
  pose proof (mi_sep _ _ _ (vi_mm _ _ _ _ _ Hv) x) as H1.
  pose proof (vi_data _ _ _ _ _ Hv x) as H2. split; [|tauto]. intros Hx. split; [tauto|].
  rewrite (H1 Hx). intros [[]%is_Some_None|Hd]. by apply H2 in Hd as (_ & _ & ?).
Qed.

(** No frame is lost or duplicated: whatever processes were created, mapped
    and reclaimed since boot, once no process and no data frame is left the free
    list holds again exactly the frames it held after [init_mmu]. *)
Theorem no_frame_leak s0 l s v :
  free_inv (ph s0) l -> INSTALLED s0 = 0 -> init_mmu s0 = Ret (tt, s) ->
  rtc vm_step (mkVm s ∅ ∅) v -> roots v = ∅ -> data v = ∅ ->
  exists pool, free_inv (ph (vs v)) pool /\ pool ≡ₚ drop 3 l /\
    free_frame_count (ph (vs v)) = free_frame_count (ph s).
Proof.
  intros Hp Hi Hrun Hr HR HD.
  destruct (boot_vm_inv _ _ _ Hp Hi Hrun) as (K & T0 & Hv0 & _).
  destruct (vm_inv_steps _ _ _ _ _ _ Hv0 Hr) as (T & pool & Hv).
  pose proof (mi_pool _ _ _ (vi_mm _ _ _ _ _ Hv)) as Hpool.
  pose proof (mi_pool _ _ _ (vi_mm _ _ _ _ _ Hv0)) as Hpool0. cbn [vs] in Hpool0.
  assert (HT : dom T = dom T0).
  { apply set_eq. intros x. rewrite !elem_of_dom, (vi_own _ _ _ _ _ Hv), (vi_own _ _ _ _ _ Hv0), HR.
    cbn [roots]. by split; (intros [?|(r & Hin%elem_of_empty & _)]; [left|]). }
  assert (Hperm : pool ≡ₚ drop 3 l).
  { apply NoDup_Permutation; [apply Hpool|apply Hpool0|]. intros x.
    rewrite <-!(elem_of_list_to_set (C := gset Z)), (vm_pool _ _ _ _ _ Hv), (vm_pool _ _ _ _ _ Hv0), HT, HD.
    done. }
  exists pool. do 2 (split; [done|]). unfold free_frame_count.
  by rewrite (fi_count _ _ Hpool), (fi_count _ _ Hpool0), Hperm.
Qed.

(** The address space TTBR0 points at is at all times the kernel's or a live
    process's, never a reclaimed one, and [activate] of any of these really
    installs it, although it trusts its own record of what is installed. *)
Theorem ttbr0_live s0 l s v r :
  free_inv (ph s0) l -> INSTALLED s0 = 0 -> init_mmu s0 = Ret (tt, s) ->
  rtc vm_step (mkVm s ∅ ∅) v -> root_of v r ->
  root_of v (ttbr0_el1 (vs v)) /\
  exists s', activate r (vs v) = Ret (tt, s') /\ ttbr0_el1 s' = r /\ INSTALLED s' = r.
Proof.
  intros Hp Hi Hrun Hr Hro.
  destruct (boot_vm_inv _ _ _ Hp Hi Hrun) as (K & T0 & Hv0 & _).
  destruct (vm_inv_steps _ _ _ _ _ _ Hv0 Hr) as (T & pool & Hv).
  split; [apply Hv|]. eexists. split; [reflexivity|].
  pose proof (table_valid _ _ _ _ _ (vi_mm _ _ _ _ _ Hv) (vi_roots _ _ _ _ _ Hv r Hro)) as Hf.
  pose proof (valid_frame_range _ Hf).
  destruct (Z.eqb_spec (INSTALLED (vs v)) r) as [E|E]; cbn [negb]; [|done].
  destruct (vi_installed _ _ _ _ _ Hv); split; congruence || lia.
Qed.

(** ** A process comes and goes *)

Lemma elem_of_new (r : Z) (R : gset Z) : r ∈ {[r]} ∪ R.
Proof. set_solver. Qed.

Lemma none_left (r : Z) : ({[r]} ∪ ∅) ∖ {[r]} = (∅ : gset Z).
Proof. set_solver. Qed.

Lemma booted_run : init_mmu cold = Ret (tt, booted).
Proof.
  destruct (wp_exec _ _ _ (init_mmu_spec False cold small_pool small_pool_inv
    ltac:(intros H; vm_compute in H; lia))) as ([] & Hrun & _). exact Hrun.
Qed.

Lemma demo_new : exists r s1 l1, new_address_space booted = Ret (r, s1) /\
  mm_inv s1 (<[r := O]> boot_types) l1 /\ (10 <= length l1)%nat /\ r <> ttbr0_el1 s1.
Proof.
  destruct (wp_result _ _ _ (new_address_space_spec False booted boot_types boot_pool booted_inv
    ltac:(done))) as (r & s1 & Hrun & l1 & Hl & HrT & Hmm & _ & _ & _ & _ & Hregs).
  exists r, s1, l1. split_and!; [done|done| |].
  - assert (H : length boot_pool = 13%nat) by (vm_compute; reflexivity). rewrite Hl in H. cbn in H. lia.
  - intros ->. rewrite Hregs in HrT. cbn [ttbr0_el1 set_ph] in HrT.
    destruct (boot_vm_inv cold small_pool booted small_pool_inv eq_refl booted_run) as (K & T & Hv & _).
    destruct (wp_run _ _ _ _ _ _ (init_mmu_spec True cold small_pool small_pool_inv ltac:(done)) booted_run)
      as (l0 & ? & ? & ? & Hs & _ & _ & Ht & _).
    assert (Hs' : small_pool = 0x47fff000 :: tail small_pool) by (vm_compute; reflexivity).
    rewrite Hs' in Hs. injection Hs as <- _. rewrite Ht, boot_root in HrT. discriminate HrT.
Qed.

Lemma demo_map : exists r s1 f s2 s3,
  new_address_space booted = Ret (r, s1) /\ in_phys alloc_frame s1 = Ret (Some f, s2) /\
  page_ok f PAGE_USER_RW /\ map_page_in r USER_BASE f PAGE_USER_RW s2 = Ret (tt, s3) /\
  hw_walk (mem_of s3) 3 r USER_BASE = Some (O, Z.lor f PAGE_USER_RW).
Proof.
  destruct demo_new as (r & s1 & l1 & Hnew & Hmm & Hlen & _).
  destruct (wp_result _ _ _ (pop_spec _ _ (mi_pool _ _ _ Hmm))) as (o & p2 & Hpop & Ho).
  destruct l1 as [|f l2]; [cbn in Hlen; lia|]. destruct Ho as (-> & Hp2 & Hram).
  set (s2 := set_ph p2 s1).
  assert (Hmm2 : mm_inv s2 (<[r := O]> boot_types) l2).
  { split; [done| |].
    - cbn. rewrite Hram. apply Hmm.
    - intros x Hx. apply (mi_sep _ _ _ Hmm). by apply list_elem_of_further. }
  assert (Hpg : page_ok f PAGE_USER_RW).
  { apply page_ok_user_rw. eapply free_inv_in_valid; [apply Hmm|apply list_elem_of_here]. }
  assert (Hva : canonical USER_BASE) by (split; vm_compute; done).
  assert (Hr : <[r := O]> boot_types !! r = Some O) by apply lookup_insert_eq.
  destruct (wp_result _ _ _ (map_page_in_spec False s2 _ l2 r USER_BASE f PAGE_USER_RW Hmm2 Hr Hva Hpg
    ltac:(intros []; split; [cbn in Hlen; lia|vm_compute; done]))) as ([] & s3 & Hmap & T' & l' & Hup).
  exists r, s1, f, s2, s3. split_and!; [done| |done|done|].
  - unfold in_phys, zoomM. change alloc_frame with pop. by rewrite Hpop.
  - rewrite (mu_hw _ _ _ _ _ _ _ _ _ Hup) by done. by rewrite decide_True by (split; [done|by left]).
Qed.

Lemma el0_isolation_witness : exists v r e,
  rtc vm_step (mkVm booted ∅ ∅) v /\ hw_walk (mem_of (vs v)) 3 r USER_BASE = Some (O, e) /\
  next_table e ∈ data v.
Proof.
  destruct demo_map as (r & s1 & f & s2 & s3 & Hnew & Halloc & Hpg & Hmap & Hw).
  exists (mkVm s3 ({[r]} ∪ ∅) ({[f]} ∪ ∅)), r, (Z.lor f PAGE_USER_RW).
  assert (Hr : rtc vm_step (mkVm booted ∅ ∅) (mkVm s3 ({[r]} ∪ ∅) ({[f]} ∪ ∅))).
  { eapply rtc_l; [apply vs_new; exact Hnew|]. eapply rtc_l; [apply vs_alloc; exact Halloc|].
    apply rtc_once. eapply vs_map; [| | |exact Hpg|exact Hmap]; [apply elem_of_new..|split; vm_compute; done]. }
  split; [exact Hr|]. split; [exact Hw|].
  eapply (el0_isolation cold small_pool booted _ r USER_BASE O _ small_pool_inv eq_refl booted_run Hr).
  - right. apply elem_of_new.
  - split; vm_compute; done.
  - exact Hw.
  - unfold el0_access, el0_readable. rewrite Z.lor_spec. apply orb_true_iff. left.
    apply orb_true_iff. by right.
Defined.

Lemma no_frame_leak_witness : exists r s1 v pool,
  new_address_space booted = Ret (r, s1) /\ rtc vm_step (mkVm s1 ({[r]} ∪ ∅) ∅) v /\
  free_inv (ph (vs v)) pool /\ pool ≡ₚ boot_pool.
Proof.
  destruct demo_new as (r & s1 & l1 & Hnew & Hmm & Hlen & Hlive).
  destruct (wp_result _ _ _ (free_address_space_spec s1 _ l1 r Hmm ltac:(apply lookup_insert_eq)))
    as ([] & s2 & Hfree & _).
  assert (Hr : vm_step (mkVm s1 ({[r]} ∪ ∅) ∅) (mkVm s2 (({[r]} ∪ ∅) ∖ {[r]}) ∅)).
  { apply vs_reclaim; [apply elem_of_new|exact Hlive|exact Hfree]. }
  assert (Hall : rtc vm_step (mkVm booted ∅ ∅) (mkVm s2 (({[r]} ∪ ∅) ∖ {[r]}) ∅)).
  { eapply rtc_l; [apply vs_new; exact Hnew|]. by apply rtc_once. }
  destruct (no_frame_leak cold small_pool booted _ small_pool_inv eq_refl booted_run Hall)
    as (pool & Hp & Hperm & _); [apply none_left|done|].
  exists r, s1, (mkVm s2 (({[r]} ∪ ∅) ∖ {[r]}) ∅), pool.
  split; [exact Hnew|]. split; [by apply rtc_once|]. by split.
Defined.

Lemma ttbr0_live_witness : exists r s1 s2, new_address_space booted = Ret (r, s1) /\
  activate r s1 = Ret (tt, s2) /\ ttbr0_el1 s2 = r.
Proof.
  destruct demo_new as (r & s1 & l1 & Hnew & _).
  assert (Hall : rtc vm_step (mkVm booted ∅ ∅) (mkVm s1 ({[r]} ∪ ∅) ∅)).
  { apply rtc_once, vs_new. exact Hnew. }
  destruct (ttbr0_live cold small_pool booted _ r small_pool_inv eq_refl booted_run Hall)
    as (_ & s2 & Hact & Ht & _); [right; apply elem_of_new|].
  exists r, s1, s2. by split_and!.
Defined.
