(* ===== verification/Heap.v ===== *)
(** * The kernel heap

    kernel/src/allocator.rs: [init_heap] maps a two-megabyte window of virtual
    addresses onto frames, and a bump allocator hands the window out. The
    allocator's state is protected by its lock, which is not modelled: each
    operation is one step. *)

From Stdlib Require Import ZArith Lia.
From stdpp Require Import base numbers gmap list list_relations.
From S2P Require Import Prelude Memory Abi Frames Mmu PageTables AddressSpaces Reclaim VirtualMemory.

Definition HEAP_VBASE : Z := 0x100000000.
Definition HEAP_SIZE : Z := 2 * 1024 * 1024.

Record BumpAllocator := mkBump { heap_start : Z; heap_end : Z; next : Z; allocations : Z }.
Definition BumpAllocator_new : BumpAllocator := mkBump 0 0 0 0.

(** [core::alloc::Layout]. *)
Record Layout := mkLayout { size : Z; align : Z }.

(** ** The bump allocator *)

Definition bump_init (start size : Z) : M BumpAllocator unit :=
  let! end_ := addM start size in
  putM (mkBump start end_ start 0).

(** [(addr + align - 1) & !(align - 1)]. *)
Definition align_up (addr align : Z) : M BumpAllocator Z :=
  let! a := addM addr align in
  let! a := subM a 1 in
  let! m := subM align 1 in
  retM (Z.land a (not64 m)).

(** [alloc]; [0] is the null pointer. *)
Definition alloc (layout : Layout) : M BumpAllocator Z :=
  let! bump := getM in
  let! alloc_start := align_up (next bump) (align layout) in
  match checked_add alloc_start (size layout) with
  | None => retM 0
  | Some alloc_end =>
      if heap_end bump <? alloc_end then retM 0
      else
        let! n := addM (allocations bump) 1 in
        putM (mkBump (heap_start bump) (heap_end bump) alloc_end n) ;;;
        retM alloc_start
  end.

Definition dealloc (ptr : Z) (layout : Layout) : M BumpAllocator unit :=
  let! bump := getM in
  let! n := subM (allocations bump) 1 in
  putM (mkBump (heap_start bump) (heap_end bump) (if n =? 0 then heap_start bump else next bump) n).

(** ** Mapping the window *)

Record heap := mkHeap { hmm : mmu; ALLOCATOR : BumpAllocator }.
Definition set_hmm (m : mmu) (h : heap) : heap := mkHeap m (ALLOCATOR h).
Definition set_bump (b : BumpAllocator) (h : heap) : heap := mkHeap (hmm h) b.

(** [while off < HEAP_SIZE { ..; off += FRAME_SIZE }]: one round per page, so
    [HEAP_SIZE / FRAME_SIZE + 1] rounds reach the exit. *)
Fixpoint map_heap (fuel : nat) (off : Z) : M mmu unit :=
  match fuel with
  | O => panicM
  | S fuel' =>
      if off <? HEAP_SIZE then
        let! o := in_phys alloc_frame in
        let! frame := expectM o in
        let! va := addM HEAP_VBASE off in
        map_page va frame PAGE_KERNEL_RW ;;;
        let! off' := addM off FRAME_SIZE in
        map_heap fuel' off'
      else retM tt
  end.

Definition init_heap : M heap unit :=
  zoomM hmm set_hmm (map_heap (S (Z.to_nat (HEAP_SIZE / FRAME_SIZE))) 0) ;;;
  zoomM ALLOCATOR set_bump (bump_init HEAP_VBASE HEAP_SIZE).

(** ** Live blocks *)

(** What Rust guarantees of a layout given to the allocator: a power-of-two
    alignment, and a positive size that does not overflow [isize] when rounded up
    to it. *)
Definition layout_ok (l : Layout) : Prop :=
  (exists k, 0 <= k < 63 /\ align l = 2 ^ k) /\ 0 < size l /\ size l + align l <= 2 ^ 63.

Definition block := (Z * Layout)%type.
Definition blocks_apart (b1 b2 : block) : Prop :=
  b1.1 + size b1.2 <= b2.1 \/ b2.1 + size b2.2 <= b1.1.

(** A heap in use: the allocator with the blocks handed out, newest first. *)
Record bump_inv (a : BumpAllocator) (live : list block) : Prop := {
  bi_bounds : 0 < heap_start a <= next a /\ next a <= heap_end a /\ heap_end a < 2 ^ 62;
  bi_count : allocations a = Z.of_nat (length live);
  bi_room : Z.of_nat (length live) <= next a - heap_start a;
  bi_inside : Forall (fun b => heap_start a <= b.1 /\ b.1 + size b.2 <= next a /\
                               layout_ok b.2 /\ b.1 mod align b.2 = 0) live;
  bi_apart : ForallOrdPairs blocks_apart live
}.

Inductive heap_step : BumpAllocator * list block -> BumpAllocator * list block -> Prop :=
| hs_alloc a live l p a' :
    layout_ok l -> alloc l a = Ret (p, a') ->
    heap_step (a, live) (a', if p =? 0 then live else (p, l) :: live)
| hs_dealloc a live p l pre post a' :
    live = pre ++ (p, l) :: post -> dealloc p l a = Ret (tt, a') ->
    heap_step (a, live) (a', pre ++ post).

Lemma heap_align_up_spec addr al a :
  0 <= addr -> (exists k, 0 <= k < 63 /\ al = 2 ^ k) -> addr + al < 2 ^ 64 ->
  wp False (align_up addr al) (fun r a' => a' = a /\ addr <= r < addr + al /\ r mod al = 0) a.
Proof.
  intros H0 (k & Hk & ->) Hov. assert (0 < 2 ^ k) by (apply Z.pow_pos_nonneg; lia).
  unfold align_up. wp_steps. apply wp_add; [done|]. wp_steps. apply wp_sub; [lia|]. wp_steps.
  apply wp_sub; [lia|]. wp_steps. split; [done|].
  rewrite land_not64 by lia. set (q := (addr + 2 ^ k - 1) / 2 ^ k).
  pose proof (Z.div_mod (addr + 2 ^ k - 1) (2 ^ k)) as Hd.
  pose proof (Z.mod_pos_bound (addr + 2 ^ k - 1) (2 ^ k)). fold q in Hd.
  split; [lia|]. rewrite Z.mul_comm. by apply Z.mod_mul; lia.
Qed.

Lemma alloc_spec l a live :
  bump_inv a live -> layout_ok l ->
  wp False (alloc l) (fun p a' =>
    if p =? 0 then a' = a /\ heap_end a < next a + align l + size l
    else bump_inv a' ((p, l) :: live) /\ heap_start a' = heap_start a /\ heap_end a' = heap_end a /\
         next a <= p /\ p mod align l = 0 /\ next a' = p + size l) a.
Proof.
  intros [Hb Hc Hr Hi Ha] Hl. pose proof Hl as (Hal & Hs & Hsz).
  assert (0 < align l) by (destruct Hal as (k & Hk & ->); apply Z.pow_pos_nonneg; lia).
  unfold alloc. wp_steps. eapply wp_mono; [apply heap_align_up_spec; [lia|done|lia]|].
  intros st a' (-> & Hst & Hm). cbn beta. unfold checked_add.
  destruct (Z.ltb_spec (st + size l) (2 ^ 64)); [|lia].
  destruct (Z.ltb_spec (heap_end a) (st + size l)); wp_steps; [split; [done|lia]|].
  apply wp_add; [lia|]. wp_steps. destruct (Z.eqb_spec st 0); [lia|]. split; [|do 2 (split; [done|]); split; [lia|done]].
  split; cbn [heap_start heap_end next allocations].
  - lia.
  - cbn [length]. lia.
  - cbn [length]. lia.
  - constructor; cbn; [split_and!; try done; lia|].
    eapply Forall_impl; [exact Hi|]. cbn. intros b (? & ? & ? & ?). split_and!; try done; lia.
  - constructor; [|done]. eapply Forall_impl; [exact Hi|]. intros b (? & ? & _). right. cbn. lia.
Qed.

Lemma apart_remove (pre : list block) b post :
  ForallOrdPairs blocks_apart (pre ++ b :: post) -> ForallOrdPairs blocks_apart (pre ++ post).
Proof.
  induction pre as [|x pre IH]; cbn [app]; intros H; inversion H as [|? ? Hx Hp]; subst; [done|].
  constructor; [|by apply IH]. apply Forall_app in Hx as [H1 H2]. inversion H2; subst. by apply Forall_app.
Qed.

Lemma dealloc_spec a live pre p l post :
  bump_inv a live -> live = pre ++ (p, l) :: post ->
  wp False (dealloc p l) (fun _ a' => bump_inv a' (pre ++ post) /\
    heap_start a' = heap_start a /\ heap_end a' = heap_end a) a.
Proof.
  intros [Hb Hc Hr Hi Ha] ->. rewrite length_app in Hc, Hr. cbn [length] in Hc, Hr.
  unfold dealloc. wp_steps. apply wp_sub; [lia|]. wp_steps. split; [|done].
  apply Forall_app in Hi as [Hi1 Hi2]. inversion Hi2 as [|? ? _ Hi2']; subst.
  split; cbn [heap_start heap_end next allocations]; rewrite ?length_app.
  - destruct (_ =? 0); lia.
  - lia.
  - destruct (Z.eqb_spec (allocations a - 1) 0); lia.
  - destruct (Z.eqb_spec (allocations a - 1) 0).
    + assert (pre ++ post = []) as ->; [|done]. apply length_zero_iff_nil. rewrite length_app. lia.
    + by apply Forall_app.
  - by eapply apart_remove.
Qed.

(** ** Properties *)

Definition heap_window (a : BumpAllocator) : Prop := heap_start a = HEAP_VBASE /\ heap_end a = HEAP_VBASE + HEAP_SIZE.

Lemma heap_fresh : bump_inv (mkBump HEAP_VBASE (HEAP_VBASE + HEAP_SIZE) HEAP_VBASE 0) [].
Proof.
  split; cbn; unfold HEAP_VBASE, HEAP_SIZE; [lia|done|lia|constructor|constructor].
Qed.

Lemma heap_step_inv s s' :
  bump_inv s.1 s.2 /\ heap_window s.1 -> heap_step s s' -> bump_inv s'.1 s'.2 /\ heap_window s'.1.
Proof.
  intros [Hi [Hw1 Hw2]] Hs. destruct Hs as [a live l p a' Hl Hrun|a live p l pre post a' Hlive Hrun]; cbn [fst snd] in *.
  - pose proof (alloc_spec l a live Hi Hl) as H. unfold wp in H. rewrite Hrun in H.
    destruct (p =? 0); [by destruct H as [-> _]|]. destruct H as (? & H1 & H2 & _). split; [done|].
    unfold heap_window. by rewrite H1, H2.
  - pose proof (dealloc_spec a live pre p l post Hi Hlive) as H. unfold wp in H. rewrite Hrun in H.
    destruct H as (? & H1 & H2). split; [done|]. unfold heap_window. by rewrite H1, H2.
Qed.

(** C37: however blocks are allocated and freed, in any order, the blocks in use lie
    inside the heap window, have the alignment asked for, and never overlap; in
    particular the reset to an empty heap never gives out memory that is in use. *)
Theorem heap_blocks_apart a live :
  rtc heap_step (mkBump HEAP_VBASE (HEAP_VBASE + HEAP_SIZE) HEAP_VBASE 0, []) (a, live) ->
  allocations a = Z.of_nat (length live) /\
  Forall (fun b => HEAP_VBASE <= b.1 /\ b.1 + size b.2 <= HEAP_VBASE + HEAP_SIZE /\
                   b.1 mod align b.2 = 0) live /\
  ForallOrdPairs blocks_apart live.
Proof.
  intros Hr.
  assert (H : forall s s', rtc heap_step s s' -> bump_inv s.1 s.2 /\ heap_window s.1 ->
                bump_inv s'.1 s'.2 /\ heap_window s'.1).
  { intros s s' H. induction H; [done|]. eauto using heap_step_inv. }
  destruct (H _ _ Hr (conj heap_fresh (conj eq_refl eq_refl))) as [[Hb Hc _ Hi Ha] [Hw1 Hw2]]. cbn in *.
  split_and!; [done| |done]. eapply Forall_impl; [exact Hi|]. cbn. intros b (? & ? & _ & ?).
  rewrite <-Hw2, <-Hw1. split_and!; try done; lia.
Qed.

Lemma heap_blocks_apart_witness : exists a p1 p2 l,
  rtc heap_step (mkBump HEAP_VBASE (HEAP_VBASE + HEAP_SIZE) HEAP_VBASE 0, []) (a, [(p2, l); (p1, l)]) /\
  ForallOrdPairs blocks_apart [(p2, l); (p1, l)].
Proof.
  set (l := mkLayout 24 16).
  assert (Hl : layout_ok l) by (split; [exists 4; cbn; lia|cbn; lia]).
  set (a1 := mkBump HEAP_VBASE (HEAP_VBASE + HEAP_SIZE) (HEAP_VBASE + 24) 1).
  set (a2 := mkBump HEAP_VBASE (HEAP_VBASE + HEAP_SIZE) (HEAP_VBASE + 56) 2).
  assert (Hr : rtc heap_step (mkBump HEAP_VBASE (HEAP_VBASE + HEAP_SIZE) HEAP_VBASE 0, [])
                 (a2, [(HEAP_VBASE + 32, l); (HEAP_VBASE, l)])).
  { eapply rtc_l; [by apply (hs_alloc _ [] l HEAP_VBASE a1 Hl)|].
    apply rtc_once. by apply (hs_alloc a1 _ l (HEAP_VBASE + 32) a2 Hl). }
  exists a2, HEAP_VBASE, (HEAP_VBASE + 32), l. split; [exact Hr|].
  exact (proj2 (proj2 (heap_blocks_apart _ _ Hr))).
Defined.

(** [alloc] never panics on a live heap, and it refuses a request only when the
    rest of the window, less the worst-case padding, cannot hold it. *)
Theorem alloc_refuses_only_when_full a live l :
  bump_inv a live -> layout_ok l ->
  exists p a', alloc l a = Ret (p, a') /\
    (p = 0 -> a' = a /\ heap_end a < next a + align l + size l) /\
    (p <> 0 -> next a <= p /\ p mod align l = 0 /\ next a' = p + size l).
Proof.
  intros Hi Hl. pose proof (alloc_spec l a live Hi Hl) as H.
  destruct (wp_result _ _ _ H) as (p & a' & Hrun & Hp). exists p, a'. split; [done|]. split.
  - intros ->. done.
  - intros Hne. destruct (Z.eqb_spec p 0); [done|]. by destruct Hp as (_ & _ & _ & ?).
Qed.

Lemma alloc_refuses_only_when_full_witness : exists p a',
  alloc (mkLayout 0x200001 1) (mkBump HEAP_VBASE (HEAP_VBASE + HEAP_SIZE) HEAP_VBASE 0) = Ret (p, a') /\
  (p <> 0 -> HEAP_VBASE <= p).
Proof.
  assert (Hl : layout_ok (mkLayout 0x200001 1)) by (split; [exists 0; cbn; lia|cbn; lia]).
  destruct (alloc_refuses_only_when_full _ _ _ heap_fresh Hl) as (p & a' & Hrun & _ & Hp).
  exists p, a'. split; [exact Hrun|]. intros H. exact (proj1 (Hp H)).
Defined.

(** ** The heap window *)

Definition in_window (n : nat) (va : Z) : bool :=
  (HEAP_VBASE <=? va) && (va <? HEAP_VBASE + FRAME_SIZE * Z.of_nat n).
Definition window_page (va : Z) : nat := Z.to_nat ((va - HEAP_VBASE) / FRAME_SIZE).

(** [n] pages of the window are mapped, onto the frames [fs]. *)
Record heap_mapped (s0 : mmu) (T0 : gmap Z nat) (l0 : list Z)
    (n : nat) (fs : list Z) (s : mmu) (T : gmap Z nat) (l : list Z) : Prop := {
  hm_inv : mm_inv s T l;
  hm_len : length fs = n;
  hm_nodup : NoDup fs;
  hm_sub : T0 ⊆ T;
  hm_pool : (length l0 <= length l + 4 * n)%nat;
  hm_fs : forall f, f ∈ fs -> valid_frame f /\ T !! f = None /\ f ∉ l;
  hm_regs : s = set_ph (ph s) s0;
  hm_hw : forall root va, T0 !! root = Some O -> canonical va ->
    hw_walk (mem_of s) 3 root va =
      if in_window n va then (fun f => (O, Z.lor f PAGE_KERNEL_RW)) <$> fs !! window_page va
      else hw_walk (mem_of s0) 3 root va
}.

Lemma page_ok_kernel_rw f : valid_frame f -> page_ok f PAGE_KERNEL_RW.
Proof.
  intros Hf. pose proof (valid_frame_range _ Hf). destruct Hf as (Ha & _). split; [done|lia|by vm_compute..].
Qed.

Lemma heap_mapped_0 s T l : mm_inv s T l -> heap_mapped s T l 0 [] s T l.
Proof.
  intros Hi. split; try done; [constructor|lia|set_solver|by destruct s|].
  intros root va Hr Hva. unfold in_window. destruct (Z.leb_spec HEAP_VBASE va), (Z.ltb_spec va (HEAP_VBASE + FRAME_SIZE * Z.of_nat 0)); cbn [andb]; lia || done.
Qed.

(** One more page: a frame [f] leaves the pool ([s1]) and is mapped ([s']). *)
Lemma heap_mapped_S s0 T0 l0 n fs s T f l s1 root s' T' l' :
  heap_mapped s0 T0 l0 n fs s T (f :: l) -> (n < 512)%nat -> T0 !! root = Some O ->
  mem_of s1 = mem_of s -> s1 = set_ph (ph s1) s ->
  mm_update s1 T l root (HEAP_VBASE + FRAME_SIZE * Z.of_nat n)
    (Some (O, Z.lor f PAGE_KERNEL_RW)) s' T' l' ->
  heap_mapped s0 T0 l0 (S n) (fs ++ [f]) s' T' l'.
Proof.
  intros [I Len ND Sub Pool Fs Regs Hw] Hn Hroot Hm1 Hr1 [I' Sub' U X _ Regs'].
  pose proof (mi_pool _ _ _ I) as Hp. pose proof (fi_nodup _ _ Hp) as [Hfl _]%NoDup_cons.
  assert (HfT : T !! f = None) by (apply (mi_sep _ _ _ I), list_elem_of_here).
  destruct U as (used & Hl & Hdom & Hused).
  assert (Hstill : forall x, T !! x = None -> x ∉ l -> T' !! x = None /\ x ∉ l').
  { intros x HxT Hxl. rewrite Hl, not_elem_of_app in Hxl. split; [|tauto].
    apply not_elem_of_dom. rewrite Hdom, not_elem_of_union, elem_of_list_to_set, not_elem_of_dom. tauto. }
  split; [done| | |by etransitivity| | | |].
  - rewrite length_app. cbn. lia.
  - apply NoDup_app. split_and!; [done| |apply NoDup_singleton].
    intros x Hx ->%list_elem_of_singleton. destruct (Fs f Hx) as (_ & _ & Hnot). apply Hnot, list_elem_of_here.
  - rewrite Hl in Pool. cbn [length] in Pool. rewrite length_app in Pool. lia.
  - intros x [Hx| ->%list_elem_of_singleton]%elem_of_app.
    + destruct (Fs x Hx) as (Hv & HxT & Hxl). rewrite not_elem_of_cons in Hxl. split; [done|]. apply Hstill; tauto.
    + split; [|by apply Hstill]. eapply free_inv_in_valid; [exact Hp|apply list_elem_of_here].
  - rewrite Regs'. cbn. rewrite Hr1. cbn. by rewrite Regs.
  - intros r va Hr Hva. rewrite X by (done || by eapply lookup_weaken).
    rewrite Hm1, (Hw r va Hr Hva). unfold in_window, window_page, FRAME_SIZE.
    destruct (decide (hits root (HEAP_VBASE + 4096 * Z.of_nat n) r va)) as [[Hpg _]|Hno].
    + assert (Hva' : 4096 * Z.of_nat n <= va - HEAP_VBASE < 4096 * Z.of_nat n + 4096)
        by (unfold HEAP_VBASE in *; zlia).
      replace (Z.to_nat ((va - HEAP_VBASE) / 4096)) with n by zlia.
      destruct (Z.leb_spec HEAP_VBASE va), (Z.ltb_spec va (HEAP_VBASE + 4096 * Z.of_nat (S n)));
        cbn [andb]; try lia. by rewrite <-Len, list_lookup_middle.
    + assert (Hva' : ~ (4096 * Z.of_nat n <= va - HEAP_VBASE < 4096 * Z.of_nat n + 4096)).
      { intros Hin. apply Hno. split; [unfold HEAP_VBASE in *; zlia|]. right. unfold HEAP_VBASE. lia. }
      destruct (Z.leb_spec HEAP_VBASE va), (Z.ltb_spec va (HEAP_VBASE + 4096 * Z.of_nat (S n))),
        (Z.ltb_spec va (HEAP_VBASE + 4096 * Z.of_nat n)); cbn [andb]; try done; try lia.
      rewrite lookup_app_l; [done|]. rewrite Len. zlia.
Qed.

Lemma map_heap_spec s0 T0 l0 fuel n fs s T l :
  heap_mapped s0 T0 l0 n fs s T l -> (n + fuel = 513)%nat -> (n <= 512)%nat -> (2048 <= length l0)%nat ->
  T0 !! ttbr0_el1 s0 = Some O ->
  (forall va, HEAP_VBASE <= va < HEAP_VBASE + HEAP_SIZE -> hw_walk (mem_of s0) 3 (ttbr0_el1 s0) va = None) ->
  wp False (map_heap fuel (FRAME_SIZE * Z.of_nat n)) (fun _ s' => exists fs' T' l',
    heap_mapped s0 T0 l0 512 fs' s' T' l') s.
Proof.
  revert n fs s T l. induction fuel as [|fuel IH]; intros n fs s T l Hm Hn Hle Hl0 Hroot Hwin;
    cbn [map_heap]; [lia|].
  destruct (Z.ltb_spec (FRAME_SIZE * Z.of_nat n) HEAP_SIZE) as [Hlt|Hge].
  2: { wp_steps. assert (n = 512%nat) as -> by (unfold FRAME_SIZE, HEAP_SIZE in *; lia). eauto. }
  assert (Hn' : (n < 512)%nat) by (unfold FRAME_SIZE, HEAP_SIZE in *; lia).
  pose proof (hm_pool _ _ _ _ _ _ _ _ Hm) as Hpool. destruct l as [|f l]; [cbn in Hpool; lia|].
  pose proof (hm_inv _ _ _ _ _ _ _ _ Hm) as Hmm.
  wp_steps. unfold in_phys at 1. wp_steps. eapply wp_mono; [apply pop_spec, Hmm|].
  intros o p1 (-> & Hp1 & Hram1). wp_steps.
  apply wp_add; [unfold HEAP_VBASE, FRAME_SIZE; lia|]. wp_steps. unfold map_page. wp_steps.
  set (s1 := set_ph p1 s). set (va := HEAP_VBASE + FRAME_SIZE * Z.of_nat n).
  assert (Hmm1 : mm_inv s1 T l).
  { split; [done|cbn; rewrite Hram1; apply Hmm|]. intros x Hx.
    by apply (mi_sep _ _ _ Hmm), list_elem_of_further. }
  assert (Hva : canonical va) by (unfold canonical, va, HEAP_VBASE, FRAME_SIZE; lia).
  pose proof (lookup_weaken _ _ _ _ Hroot (hm_sub _ _ _ _ _ _ _ _ Hm)) as HrT.
  assert (Hlive : live_l0 s1 = ttbr0_el1 s0).
  { unfold live_l0, current_ttbr0. cbn. replace (ttbr0_el1 s) with (ttbr0_el1 s0)
      by (by rewrite (hm_regs _ _ _ _ _ _ _ _ Hm)). apply l0_ptr_root. by eapply table_valid. }
  rewrite Hlive. eapply wp_mono.
  { apply (map_page_in_gen False s1 T l); [done|done|done| |].
    - apply page_ok_kernel_rw. eapply free_inv_in_valid; [apply Hmm|apply list_elem_of_here].
    - intros []. split; [cbn in Hpool; lia|]. intros k e. cbn [ph set_ph s1]. rewrite Hram1.
      rewrite (hm_hw _ _ _ _ _ _ _ _ Hm) by done. unfold in_window.
      destruct (Z.ltb_spec va (HEAP_VBASE + FRAME_SIZE * Z.of_nat n)); [unfold va in *; lia|].
      rewrite andb_false_r, Hwin; [done|]. unfold va, HEAP_SIZE, FRAME_SIZE in *. lia. }
  intros [] s' (T' & l' & Hup). wp_step. apply wp_add; [unfold FRAME_SIZE; lia|]. wp_steps.
  replace (FRAME_SIZE * Z.of_nat n + FRAME_SIZE) with (FRAME_SIZE * Z.of_nat (S n)) by lia.
  eapply IH; [|lia|lia|done|done|done].
  eapply (heap_mapped_S _ _ _ _ _ _ _ _ _ s1); [exact Hm|done|exact Hroot|exact Hram1|done|exact Hup].
Qed.

(** [init_mmu] leaves the window unmapped. *)
Lemma boot_window m l0 l1 l2 va :
  boot_tables m l0 l1 l2 -> HEAP_VBASE <= va < HEAP_VBASE + HEAP_SIZE -> hw_walk m 3 l0 va = None.
Proof.
  intros Hb Hva. unfold HEAP_VBASE, HEAP_SIZE in Hva. rewrite (boot_hw _ _ _ _ _ Hb) by (unfold canonical; lia).
  destruct (Z.ltb_spec va (2 ^ 30)); [lia|].
  destruct (Z.ltb_spec va RAM_TOP) as [Hlt|]; [|by rewrite andb_false_r].
  unfold RAM_TOP, RAM_BASE, RAM_SIZE in Hlt. lia.
Qed.

Definition bump_empty : BumpAllocator := mkBump HEAP_VBASE (HEAP_VBASE + HEAP_SIZE) HEAP_VBASE 0.

Lemma init_heap_run s T l b :
  mm_inv s T l -> (2048 <= length l)%nat -> T !! ttbr0_el1 s = Some O ->
  (forall va, HEAP_VBASE <= va < HEAP_VBASE + HEAP_SIZE -> hw_walk (mem_of s) 3 (ttbr0_el1 s) va = None) ->
  exists s' fs T' l', init_heap (mkHeap s b) = Ret (tt, mkHeap s' bump_empty) /\ heap_mapped s T l 512 fs s' T' l'.
Proof.
  intros Hmm Hlen Hr Hwin.
  pose proof (map_heap_spec s T l 513 0 [] s T l (heap_mapped_0 _ _ _ Hmm) eq_refl ltac:(lia) Hlen Hr Hwin) as H.
  destruct (wp_unit _ _ _ H) as (s' & Hrun & fs & T' & l' & Hm). exists s', fs, T', l'. split; [|done].
  unfold init_heap, bindM, zoomM. cbn [hmm].
  change (S (Z.to_nat (HEAP_SIZE / FRAME_SIZE))) with 513%nat. change 0 with (FRAME_SIZE * Z.of_nat 0) at 1.
  by rewrite Hrun.
Qed.

(** After [init_mmu], with 2048 frames left, [init_heap] does not panic: every
    address of the window translates, readable and writable by the kernel alone and
    never executable, to its own page of 512 distinct frames that are no longer free
    and no page tables; every other translation is as [init_mmu] left it; and the
    allocator starts out empty over the window. *)
Theorem init_heap_maps s0 l s1 b :
  free_inv (ph s0) l -> (2051 <= length l)%nat -> init_mmu s0 = Ret (tt, s1) ->
  exists s2 fs T pool, init_heap (mkHeap s1 b) = Ret (tt, s2) /\
    mm_inv (hmm s2) T pool /\ length fs = 512%nat /\ NoDup fs /\
    (forall f, f ∈ fs -> valid_frame f /\ T !! f = None /\ f ∉ pool) /\
    (forall off f, 0 <= off < HEAP_SIZE -> fs !! Z.to_nat (off / FRAME_SIZE) = Some f ->
       let e := Z.lor f PAGE_KERNEL_RW in
       hw_walk (mem_of (hmm s2)) 3 (ttbr0_el1 s1) (HEAP_VBASE + off) = Some (O, e) /\
       translate (mem_of (hmm s2)) (ttbr0_el1 s1) (HEAP_VBASE + off) = Some (f + off mod FRAME_SIZE)) /\
    (forall va, canonical va -> ~ (HEAP_VBASE <= va < HEAP_VBASE + HEAP_SIZE) ->
       hw_walk (mem_of (hmm s2)) 3 (ttbr0_el1 s1) va = hw_walk (mem_of s1) 3 (ttbr0_el1 s1) va) /\
    ALLOCATOR s2 = mkBump HEAP_VBASE (HEAP_VBASE + HEAP_SIZE) HEAP_VBASE 0.
Proof.
  intros Hp Hlen Hrun.
  pose proof (init_mmu_spec True s0 l Hp ltac:(done)) as H. unfold wp in H. rewrite Hrun in H.
  destruct H as (l0 & l1 & l2 & l' & -> & Hb & Hmm & Ht & _). cbn [length] in Hlen.
  set (T := <[l0 := O]> _) in *.
  assert (Hr : T !! ttbr0_el1 s1 = Some O) by (rewrite Ht; apply lookup_insert_eq).
  assert (Hwin : forall va, HEAP_VBASE <= va < HEAP_VBASE + HEAP_SIZE ->
            hw_walk (mem_of s1) 3 (ttbr0_el1 s1) va = None).
  { intros va Hva. rewrite Ht. by apply (boot_window _ _ _ _ _ Hb). }
  destruct (init_heap_run s1 T l' b Hmm ltac:(lia) Hr Hwin) as (s2 & fs & T' & pool & Hgo & Hm).
  eexists _, fs, T', pool. split; [exact Hgo|]. cbn [hmm ALLOCATOR].
  destruct Hm as [I Len ND Sub Pool Fs Regs Hw]. do 4 (split; [done|]). split; [|split; [|done]].
  - intros off f Hoff Hf. cbv zeta.
    assert (Hva : canonical (HEAP_VBASE + off)) by (unfold canonical, HEAP_VBASE, HEAP_SIZE in *; lia).
    assert (Hwk : hw_walk (mem_of s2) 3 (ttbr0_el1 s1) (HEAP_VBASE + off) = Some (O, Z.lor f PAGE_KERNEL_RW)).
    { rewrite Hw by done. unfold in_window, window_page. replace (HEAP_VBASE + off - HEAP_VBASE) with off by lia.
      destruct (Z.leb_spec HEAP_VBASE (HEAP_VBASE + off)),
        (Z.ltb_spec (HEAP_VBASE + off) (HEAP_VBASE + FRAME_SIZE * Z.of_nat 512)); cbn [andb];
        [by rewrite Hf|unfold HEAP_SIZE, FRAME_SIZE in *; lia..]. }
    split; [done|]. rewrite (translate_root s2 T' pool), Hwk by (done || by eapply lookup_weaken).
    assert (Hfv : valid_frame f) by (apply (Fs f); by eapply list_elem_of_lookup_2).
    rewrite (proj1 (proj2 (proj2 (page_desc_ok _ _ (page_ok_kernel_rw _ Hfv))))), page_offset;
      [|apply Hfv]. f_equal. f_equal. unfold HEAP_VBASE, FRAME_SIZE. zlia.
  - intros va Hva Hout. rewrite Hw by done. unfold in_window.
    destruct (Z.leb_spec HEAP_VBASE va), (Z.ltb_spec va (HEAP_VBASE + FRAME_SIZE * Z.of_nat 512));
      cbn [andb]; try done. unfold HEAP_SIZE, FRAME_SIZE in *. lia.
Qed.

(** A machine with three thousand frames. *)
Definition mid_end : Z := RAM_TOP - 3000 * FRAME_SIZE.
Definition mid_phys : phys := exec (init_frames mid_end) {| ram := ∅; fa := FrameAllocator_new |}.
Definition mid_cold : mmu := set_ph mid_phys cold.
Definition mid_pool : list Z := reverse (frames_between (first_frame mid_end) RAM_TOP).

Lemma mid_pool_inv : free_inv (ph mid_cold) mid_pool.
Proof.
  destruct (wp_exec _ _ _ (init_frames_pool ∅ mid_end ltac:(apply mem_ok_empty)
    ltac:(unfold mid_end, RAM_TOP, RAM_BASE, RAM_SIZE, FRAME_SIZE; lia))) as (_ & _ & H).
  exact H.
Qed.

Lemma mid_pool_length : length mid_pool = 3000%nat.
Proof. vm_compute. reflexivity. Qed.

Lemma init_heap_maps_witness : exists s1 s2, init_mmu mid_cold = Ret (tt, s1) /\
  init_heap (mkHeap s1 BumpAllocator_new) = Ret (tt, s2) /\ heap_window (ALLOCATOR s2).
Proof.
  assert (H3 : (length mid_pool < 3)%nat -> False) by (rewrite mid_pool_length; lia).
  assert (Hl : (2051 <= length mid_pool)%nat) by (rewrite mid_pool_length; lia).
  destruct (wp_unit _ _ _ (init_mmu_spec False mid_cold mid_pool mid_pool_inv H3)) as (s1 & Hrun & _).
  destruct (init_heap_maps mid_cold mid_pool s1 BumpAllocator_new mid_pool_inv Hl Hrun)
    as (s2 & fs & T & pool & Hheap & _ & _ & _ & _ & _ & _ & Ha).
  exists s1, s2. split; [exact Hrun|]. split; [exact Hheap|]. rewrite Ha. split; reflexivity.
Defined.
