(* ===== verification/Sched.v ===== *)
(** * The scheduler

    kernel/src/sched.rs and kernel/src/switch.s: the task table, the round-robin
    choice of [schedule], blocking, waking and exiting, the fabricated context of a
    new thread, and the register save and restore of a context switch on the
    threads' stacks. Every public operation runs with IRQs disabled up to its
    context switch, so each is one atomic step; what follows the switch in the
    source is the tail of the call in the resumed thread. *)

From Stdlib Require Import ZArith Lia.
From stdpp Require Import base numbers gmap list list_relations.
From S2P Require Import Prelude Memory Abi Frames Mmu.

(** ** Tasks *)

Inductive State := Runnable | Blocked | Exited.
#[export] Instance State_eq_dec : EqDecision State.
Proof. solve_decision. Defined.

Record Task := mkTask {
  sp : Z;
  state : State;
  wake_at : Z;
  process : option nat;
  ttbr0 : option Z
}.

Record Scheduler := mkSched { tasks : list Task; current : nat }.

(** The callee-saved registers of switch.s. *)
Record Regs := mkRegs {
  x19 : Z; x20 : Z; x21 : Z; x22 : Z; x23 : Z; x24 : Z;
  x25 : Z; x26 : Z; x27 : Z; x28 : Z; x29 : Z; x30 : Z
}.

(** The scheduler's view of the machine: its static, the tick counter, the CPU,
    kernel memory (where the stacks are), and the MMU. *)
Record ksched := mkKs {
  SCHEDULER : Scheduler;
  TICKS : Z;
  cpu_regs : Regs;
  cpu_sp : Z;
  kmem : mem;
  kmmu : mmu
}.

Definition set_sched (sc : Scheduler) (s : ksched) : ksched :=
  mkKs sc (TICKS s) (cpu_regs s) (cpu_sp s) (kmem s) (kmmu s).
Definition set_mmu (m : mmu) (s : ksched) : ksched :=
  mkKs (SCHEDULER s) (TICKS s) (cpu_regs s) (cpu_sp s) (kmem s) m.
Definition set_cpu (r : Regs) (p : Z) (m : mem) (s : ksched) : ksched :=
  mkKs (SCHEDULER s) (TICKS s) r p m (kmmu s).

Definition set_sp (p : Z) (t : Task) : Task := mkTask p (state t) (wake_at t) (process t) (ttbr0 t).
Definition set_state (st : State) (t : Task) : Task :=
  mkTask (sp t) st (wake_at t) (process t) (ttbr0 t).
Definition set_wake_at (w : Z) (t : Task) : Task :=
  mkTask (sp t) (state t) w (process t) (ttbr0 t).

(** [s.tasks[i]]: indexing panics out of range. *)
Definition task (i : nat) : M ksched Task :=
  let! s := getM in expectM (tasks (SCHEDULER s) !! i).

Definition alter_task (f : Task -> Task) (i : nat) (sc : Scheduler) : Scheduler :=
  mkSched (alter f i (tasks sc)) (current sc).

(** [s.tasks[i].field = v]. *)
Definition update_task (i : nat) (f : Task -> Task) : M ksched unit :=
  let! _ := task i in
  modifyM (fun s => set_sched (alter_task f i (SCHEDULER s)) s).

(** ** Context switch (switch.s) *)

(** [stp a, b, [sp, #-16]!] and [ldp a, b, [sp], #16]. *)
Definition stp (a b : Z) (pm : Z * mem) : Z * mem :=
  let p := pm.1 - 16 in (p, write64 (write64 pm.2 p a) (p + 8) b).
Definition ldp (p : Z) (m : mem) : Z * Z * Z := (read64 m p, read64 m (p + 8), p + 16).

Definition save_regs (r : Regs) (p : Z) (m : mem) : Z * mem :=
  stp (x29 r) (x30 r) (stp (x27 r) (x28 r) (stp (x25 r) (x26 r)
    (stp (x23 r) (x24 r) (stp (x21 r) (x22 r) (stp (x19 r) (x20 r) (p, m)))))).

Definition restore_regs (p : Z) (m : mem) : Regs * Z :=
  let '(r29, r30, p) := ldp p m in
  let '(r27, r28, p) := ldp p m in
  let '(r25, r26, p) := ldp p m in
  let '(r23, r24, p) := ldp p m in
  let '(r21, r22, p) := ldp p m in
  let '(r19, r20, p) := ldp p m in
  (mkRegs r19 r20 r21 r22 r23 r24 r25 r26 r27 r28 r29 r30, p).

(** [context_switch(&mut tasks[prev].sp, next_sp)]. *)
Definition context_switch (prev : nat) (next_sp : Z) : M ksched unit :=
  let! s := getM in
  let '(p, m) := save_regs (cpu_regs s) (cpu_sp s) (kmem s) in
  update_task prev (set_sp p) ;;;
  let '(r, p') := restore_regs next_sp m in
  modifyM (set_cpu r p' m).

(** ** Operations *)

Definition STACK_SIZE : Z := 16 * 1024.
Definition CONTEXT_REGS : Z := 12.
Definition U64_MAX : Z := 2 ^ 64 - 1.

Definition push_task (t : Task) : M ksched unit :=
  modifyM (fun s => set_sched (mkSched (tasks (SCHEDULER s) ++ [t]) (current (SCHEDULER s))) s).

Definition init : M ksched unit := push_task (mkTask 0 Runnable 0 None None).

(** The context fabricated at [ctx] for a thread that will run [entry(arg)] from
    [task_trampoline]. *)
Definition fabricate (task_trampoline entry arg ctx : Z) (m : mem) : mem :=
  let m := fold_left (fun m i => write64 m (ctx + 8 * i) 0) (zseq 0 (Z.to_nat CONTEXT_REGS)) m in
  let m := write64 m (ctx + 8 * 1) task_trampoline in
  let m := write64 m (ctx + 8 * 10) entry in
  write64 m (ctx + 8 * 11) arg.

Definition stack_top (stack : Z) : Z := Z.land (stack + STACK_SIZE) (not64 0xF).

(** [stack] is the 16 KiB block the heap returned, which [vec!] zeroes. *)
Definition spawn_inner (task_trampoline stack entry arg : Z) (process : option nat)
    (ttbr0 : option Z) : M ksched unit :=
  let! _ := addM stack STACK_SIZE in
  let ctx := stack_top stack - CONTEXT_REGS * 8 in
  modifyM (fun s =>
    let m := fill_up (Z.to_nat STACK_SIZE) stack 0 0 (kmem s) in
    set_cpu (cpu_regs s) (cpu_sp s) (fabricate task_trampoline entry arg ctx m) s) ;;;
  push_task (mkTask ctx Runnable 0 process ttbr0).

Definition spawn (task_trampoline stack entry arg : Z) : M ksched unit :=
  spawn_inner task_trampoline stack entry arg None None.
Definition spawn_user (task_trampoline stack entry arg : Z) (process : nat) (ttbr0 : Z) : M ksched unit :=
  spawn_inner task_trampoline stack entry arg (Some process) (Some ttbr0).

Definition any_worker_alive (s : ksched) : bool :=
  existsb (fun t => negb (bool_decide (state t = Exited))) (drop 1 (tasks (SCHEDULER s))).

Definition runnable_at (ts : list Task) (i : nat) : bool :=
  match ts !! i with Some t => bool_decide (state t = Runnable) | None => false end.

(** [for i in 1..=n { let cand = (cur + i) % n; if runnable { next = cand; break } }]. *)
Fixpoint pick_loop (ts : list Task) (cur : nat) (ns : list nat) : nat :=
  match ns with
  | [] => cur
  | i :: ns' =>
      let cand := ((cur + i) mod length ts)%nat in
      if runnable_at ts cand then cand else pick_loop ts cur ns'
  end.
Definition pick (sc : Scheduler) : nat :=
  pick_loop (tasks sc) (current sc) (seq 1 (length (tasks sc))).

Definition schedule : M ksched unit :=
  let! s := getM in
  let cur := current (SCHEDULER s) in
  let next := pick (SCHEDULER s) in
  if bool_decide (next = cur) then retM tt
  else
    modifyM (fun s => set_sched (mkSched (tasks (SCHEDULER s)) next) s) ;;;
    let! _ := task cur in
    let! t := task next in
    match ttbr0 t with
    | Some r => zoomM kmmu set_mmu (activate r)
    | None => retM tt
    end ;;;
    context_switch cur (sp t).

Definition yield_now : M ksched unit := schedule.

Definition current_task (s : ksched) : nat := current (SCHEDULER s).

Definition current_process : M ksched (option nat) :=
  let! s := getM in
  let! t := task (current (SCHEDULER s)) in
  retM (process t).

Definition block_current : M ksched unit :=
  let! s := getM in
  update_task (current (SCHEDULER s)) (fun t => set_state Blocked (set_wake_at U64_MAX t)) ;;;
  schedule.

Definition wake_task (t : Task) : Task :=
  if bool_decide (state t = Blocked) then set_state Runnable t else t.
Definition wake (i : nat) : M ksched unit := update_task i wake_task.

Definition sleep_ticks (n : Z) : M ksched unit :=
  let! s := getM in
  let! w := addM (TICKS s) n in
  update_task (current (SCHEDULER s)) (fun t => set_state Blocked (set_wake_at w t)) ;;;
  schedule.

Definition wake_due (now : Z) (t : Task) : Task :=
  if bool_decide (state t = Blocked) && (wake_at t <=? now) then set_state Runnable t else t.
Definition wake_sleepers (now : Z) : M ksched unit :=
  modifyM (fun s => set_sched (mkSched (wake_due now <$> tasks (SCHEDULER s)) (current (SCHEDULER s))) s).

Definition tick : M ksched unit :=
  let! s := getM in
  wake_sleepers (TICKS s) ;;;
  schedule.

(** [task_exit] switches away; the spin loop after [schedule] is reached only if
    no other task is runnable. *)
Definition task_exit : M ksched unit :=
  let! s := getM in
  update_task (current (SCHEDULER s)) (set_state Exited) ;;;
  schedule.

(** ** The round-robin choice *)

Definition swf (s : ksched) : Prop := (current (SCHEDULER s) < length (tasks (SCHEDULER s)))%nat.

Lemma runnable_at_lt ts i : runnable_at ts i = true -> (i < length ts)%nat.
Proof. unfold runnable_at. destruct (ts !! i) eqn:E; [|done]. intros _. by eapply lookup_lt_Some. Qed.

Lemma pick_loop_spec ts cur ns :
  (exists pre i post, ns = pre ++ i :: post /\ pick_loop ts cur ns = ((cur + i) mod length ts)%nat /\
     runnable_at ts ((cur + i) mod length ts) = true /\
     Forall (fun j => runnable_at ts ((cur + j) mod length ts) = false) pre) \/
  (pick_loop ts cur ns = cur /\ Forall (fun j => runnable_at ts ((cur + j) mod length ts) = false) ns).
Proof.
  induction ns as [|i ns IH]; cbn [pick_loop]; [by right|]. cbv zeta.
  destruct (runnable_at ts ((cur + i) mod length ts)) eqn:E.
  - left. exists [], i, ns. split_and!; done || by constructor.
  - destruct IH as [(pre & j & post & -> & Hp & Hr & Hf)|[Hp Hf]].
    + left. exists (i :: pre), j, post. split_and!; try done. by constructor.
    + right. split; [done|by constructor].
Qed.

(** Either the first runnable task after [current] in cyclic order is chosen, or
    no task at all is runnable. *)
Lemma pick_spec sc :
  (current sc < length (tasks sc))%nat ->
  (exists i, (1 <= i <= length (tasks sc))%nat /\ pick sc = ((current sc + i) mod length (tasks sc))%nat /\
     runnable_at (tasks sc) (pick sc) = true /\
     forall j, (1 <= j < i)%nat -> runnable_at (tasks sc) ((current sc + j) mod length (tasks sc)) = false) \/
  (pick sc = current sc /\ forall t, runnable_at (tasks sc) t = false).
Proof.
  intros Hc. unfold pick. set (n := length (tasks sc)) in *.
  destruct (pick_loop_spec (tasks sc) (current sc) (seq 1 n)) as [(pre & i & post & Hs & Hp & Hr & Hf)|[Hp Hf]].
  - left. assert (Hlen : length (seq 1 n) = length (pre ++ i :: post)) by (by rewrite Hs).
    rewrite length_seq, length_app in Hlen. cbn in Hlen.
    assert (Hi : i = S (length pre)).
    { assert (H : seq 1 n !! length pre = Some i) by (by rewrite Hs, list_lookup_middle).
      apply lookup_seq in H. lia. }
    exists i. rewrite Hp. split; [lia|]. do 2 (split; [done|]). intros j Hj.
    assert (H : pre !! (j - 1)%nat = Some j).
    { apply (f_equal (fun l => l !! (j - 1)%nat)) in Hs. rewrite lookup_app_l in Hs by lia.
      rewrite <-Hs. apply lookup_seq. lia. }
    rewrite Forall_lookup in Hf. by apply (Hf _ _ H).
  - right. split; [done|]. intros t. destruct (runnable_at (tasks sc) t) eqn:E; [|done].
    pose proof (runnable_at_lt _ _ E) as Ht. fold n in Ht. rewrite Forall_forall in Hf.
    assert (Hd : exists d, (1 <= d <= n)%nat /\ ((current sc + d) mod n = t)%nat).
    { destruct (decide (current sc < t)%nat).
      - exists (t - current sc)%nat. split; [lia|]. rewrite Nat.mod_small; lia.
      - exists (n + t - current sc)%nat. split; [lia|].
        replace (current sc + (n + t - current sc))%nat with (t + 1 * n)%nat by lia.
        rewrite Nat.Div0.mod_add. by apply Nat.mod_small. }
    destruct Hd as (d & Hd & Hdt). rewrite <-E, <-Hdt. apply Hf, elem_of_seq. lia.
Qed.

(** Cyclic distance from [c] to [t] among [n] tasks. *)
Definition dist (n c t : nat) : nat := if decide (c <= t)%nat then (t - c)%nat else (n + t - c)%nat.

Lemma dist_step n c t i :
  (c < n)%nat -> (t < n)%nat -> (1 <= i <= dist n c t)%nat ->
  dist n ((c + i) mod n) t = (dist n c t - i)%nat.
Proof.
  unfold dist. intros Hc Ht Hi. destruct (decide (c + i < n)%nat) as [Hlt|Hge].
  - rewrite Nat.mod_small by done. repeat case_decide; lia.
  - replace ((c + i) mod n)%nat with (c + i - n)%nat; [repeat case_decide; lia|].
    apply (Nat.mod_unique _ _ 1); repeat case_decide; lia.
Qed.

Lemma dist_reach n c t : (c < n)%nat -> (t < n)%nat -> ((c + dist n c t) mod n = t)%nat.
Proof.
  unfold dist. intros Hc Ht. case_decide.
  - rewrite Nat.mod_small; lia.
  - symmetry. apply (Nat.mod_unique _ _ 1); lia.
Qed.

(** Each decision brings the choice strictly closer to a waiting runnable task. *)
Lemma pick_closer sc t :
  (current sc < length (tasks sc))%nat -> runnable_at (tasks sc) t = true -> current sc <> t ->
  (dist (length (tasks sc)) (pick sc) t < dist (length (tasks sc)) (current sc) t)%nat /\
  pick sc <> current sc.
Proof.
  intros Hc Ht Hne. set (n := length (tasks sc)) in *. pose proof (runnable_at_lt _ _ Ht) as Htn.
  assert (Hd : (1 <= dist n (current sc) t < n)%nat) by (unfold dist; case_decide; lia).
  destruct (pick_spec sc Hc) as [(i & Hi & Hp & _ & Hf)|[_ Hf]]; [|by rewrite Hf in Ht].
  fold n in Hi, Hp, Hf.
  assert (Hle : (i <= dist n (current sc) t)%nat).
  { destruct (decide (i <= dist n (current sc) t)%nat); [done|].
    pose proof (Hf (dist n (current sc) t) ltac:(lia)) as H. rewrite dist_reach in H by done. congruence. }
  rewrite Hp, dist_step by (done || lia). split; [lia|].
  intros E. pose proof (dist_step n (current sc) t i Hc Htn ltac:(lia)) as H. rewrite E in H. lia.
Qed.

(** ** One scheduling decision *)

(** What a switch from [s] to task [next] leaves. *)
Record switched (s : ksched) (next : nat) (t : Task) (s' : ksched) : Prop := {
  sw_tasks : tasks (SCHEDULER s') =
    alter (set_sp (save_regs (cpu_regs s) (cpu_sp s) (kmem s)).1) (current (SCHEDULER s)) (tasks (SCHEDULER s));
  sw_mem : kmem s' = (save_regs (cpu_regs s) (cpu_sp s) (kmem s)).2;
  sw_cpu : (cpu_regs s', cpu_sp s') = restore_regs (sp t) (kmem s');
  sw_mmu : kmmu s' = match ttbr0 t with Some r => exec (activate r) (kmmu s) | None => kmmu s end
}.

Lemma pick_lt sc : (current sc < length (tasks sc))%nat -> (pick sc < length (tasks sc))%nat.
Proof.
  intros Hc. destruct (pick_spec sc Hc) as [(i & _ & _ & Hr & _)|[-> _]]; [|done].
  by apply runnable_at_lt.
Qed.

Lemma schedule_spec s :
  swf s ->
  let next := pick (SCHEDULER s) in
  wp False schedule (fun _ s' => current (SCHEDULER s') = next /\ TICKS s' = TICKS s /\
    if decide (next = current (SCHEDULER s)) then s' = s
    else exists t, tasks (SCHEDULER s) !! next = Some t /\ switched s next t s') s.
Proof.
  intros Hwf next. unfold schedule. wp_steps. fold next.
  destruct (decide (next = current (SCHEDULER s))) as [E|E].
  { rewrite bool_decide_eq_true_2 by done. wp_steps. done. }
  rewrite bool_decide_eq_false_2 by done. wp_steps.
  destruct (lookup_lt_is_Some_2 _ _ Hwf) as [tc Htc].
  destruct (lookup_lt_is_Some_2 _ _ (pick_lt _ Hwf)) as [t Ht]. fold next in Ht.
  unfold task. wp_steps. cbn [SCHEDULER set_sched tasks]. rewrite Htc. wp_steps.
  cbn [SCHEDULER set_sched tasks]. rewrite Ht. wp_steps.
  apply (wp_mono False _ (fun _ s' => s' = set_mmu
    match ttbr0 t with Some r => exec (activate r) (kmmu s) | None => kmmu s end
    (set_sched (mkSched (tasks (SCHEDULER s)) next) s))).
  { destruct (ttbr0 t); wp_steps; by destruct s. }
  intros [] s1 ->. unfold context_switch. wp_steps.
  cbn [cpu_regs cpu_sp kmem set_mmu set_sched].
  destruct (save_regs (cpu_regs s) (cpu_sp s) (kmem s)) as [p m] eqn:Hs.
  unfold update_task, task. wp_steps. cbn [SCHEDULER set_mmu set_sched tasks]. rewrite Htc. wp_steps.
  destruct (restore_regs (sp t) m) as [r p'] eqn:Hr. wp_steps.
  split; [done|]. split; [done|]. exists t. split; [done|].
  split; cbn [SCHEDULER set_sched set_mmu set_cpu alter_task tasks current kmem cpu_regs cpu_sp kmmu];
    by rewrite ?Hs.
Qed.

(** All of a task but its saved stack pointer. *)
Definition view (t : Task) := (state t, wake_at t, process t, ttbr0 t).

Lemma view_alter_sp p (i : nat) (ts : list Task) : view <$> alter (set_sp p) i ts = view <$> ts.
Proof.
  apply list_eq. intros j. rewrite !list_lookup_fmap. destruct (decide (i = j)) as [->|Hne].
  - rewrite list_lookup_alter_eq. by destruct (ts !! j).
  - by rewrite list_lookup_alter_ne.
Qed.

Lemma runnable_at_view (ts ts' : list Task) i : view <$> ts = view <$> ts' -> runnable_at ts i = runnable_at ts' i.
Proof.
  intros H. apply (f_equal (fun l => l !! i)) in H. rewrite !list_lookup_fmap in H.
  unfold runnable_at. destruct (ts !! i), (ts' !! i); try done. injection H as H _ _ _. by rewrite H.
Qed.

(** ** Executions *)

(** The count of [timer::on_tick]. *)
Definition count_tick : M ksched unit :=
  modifyM (fun s => mkKs (SCHEDULER s) (wrapping_add 64 (TICKS s) 1) (cpu_regs s) (cpu_sp s) (kmem s) (kmmu s)).

Definition on_timer_irq : M ksched unit := count_tick ;;; tick.

(** Scheduler calls of the running thread or an interrupt handler. *)
Inductive op :=
| OYield | OBlock | OSleep (n : Z) | OExit | OWake (i : nat) | OTimer
| OSpawn (tramp stack entry arg : Z) (p : option nat) (r : option Z).

Definition run_op (o : op) : M ksched unit :=
  match o with
  | OYield => yield_now
  | OBlock => block_current
  | OSleep n => sleep_ticks n
  | OExit => task_exit
  | OWake i => wake i
  | OTimer => on_timer_irq
  | OSpawn tr st e a p r => spawn_inner tr st e a p r
  end.

(** Task 0 is [kmain], which after start-up only yields. *)
Definition allowed (s : ksched) (o : op) : Prop :=
  match o with
  | OBlock | OSleep _ | OExit => current (SCHEDULER s) <> O
  | _ => True
  end.

Inductive sched_step : ksched -> ksched -> Prop :=
| ss_op o s s' : allowed s o -> run_op o s = Ret (tt, s') -> sched_step s s'
| ss_compute s r p m mm : sched_step s (mkKs (SCHEDULER s) (TICKS s) r p m mm).

(** The idle task and the running task are runnable. *)
Record safe (s : ksched) : Prop := {
  sf_idle : runnable_at (tasks (SCHEDULER s)) 0 = true;
  sf_current : runnable_at (tasks (SCHEDULER s)) (current (SCHEDULER s)) = true
}.

Lemma safe_swf s : safe s -> swf s.
Proof. intros [_ H]. by apply runnable_at_lt. Qed.

Lemma schedule_views s s' :
  swf s -> schedule s = Ret (tt, s') ->
  current (SCHEDULER s') = pick (SCHEDULER s) /\
  view <$> tasks (SCHEDULER s') = view <$> tasks (SCHEDULER s).
Proof.
  intros Hwf Hrun. pose proof (schedule_spec s Hwf) as H. cbv zeta in H. unfold wp in H. rewrite Hrun in H.
  destruct H as (Hc & _ & H). split; [done|]. destruct (decide _); [by subst|].
  destruct H as (t & _ & H). by rewrite (sw_tasks _ _ _ _ H), view_alter_sp.
Qed.

(** Scheduling from a state whose idle task is runnable lands on a runnable task. *)
Lemma schedule_safe s s' :
  swf s -> runnable_at (tasks (SCHEDULER s)) 0 = true -> schedule s = Ret (tt, s') -> safe s'.
Proof.
  intros Hwf H0 Hrun. destruct (schedule_views s s' Hwf Hrun) as [Hc Hv].
  split; rewrite (runnable_at_view _ _ _ Hv); [done|]. rewrite Hc.
  destruct (pick_spec _ Hwf) as [(i & _ & _ & Hr & _)|[_ Hf]]; [done|]. by rewrite Hf in H0.
Qed.

(** Changing one task that is not the idle task. *)
Lemma runnable_alter_ne f i j (ts : list Task) :
  i <> j -> runnable_at (alter f i ts) j = runnable_at ts j.
Proof. intros H. unfold runnable_at. by rewrite list_lookup_alter_ne. Qed.

Lemma update_task_spec i f s :
  (i < length (tasks (SCHEDULER s)))%nat ->
  wp False (update_task i f) (fun _ s' => s' = set_sched (alter_task f i (SCHEDULER s)) s) s.
Proof.
  intros Hi. unfold update_task, task. wp_steps.
  destruct (lookup_lt_is_Some_2 _ _ Hi) as [t Ht]. rewrite Ht. by wp_steps.
Qed.

(** The common shape of blocking, sleeping and exiting. *)
Lemma leave_safe f s s' :
  safe s -> current (SCHEDULER s) <> O ->
  (update_task (current (SCHEDULER s)) f ;;; schedule) s = Ret (tt, s') -> safe s'.
Proof.
  intros Hs Hne Hrun. pose proof (safe_swf _ Hs) as Hwf.
  pose proof (update_task_spec (current (SCHEDULER s)) f s Hwf) as Hu. unfold wp in Hu.
  unfold bindM in Hrun. destruct (update_task _ f s) as [[[] s1]|]; [subst s1|done].
  eapply schedule_safe; [| |exact Hrun].
  - unfold swf. cbn. by rewrite length_alter.
  - cbn. rewrite runnable_alter_ne by done. apply Hs.
Qed.

Lemma alter_runnable f i (ts : list Task) j :
  (forall t, state t = Runnable -> state (f t) = Runnable) ->
  runnable_at ts j = true -> runnable_at (alter f i ts) j = true.
Proof.
  intros Hf. unfold runnable_at. destruct (decide (i = j)) as [->|Hne].
  - rewrite list_lookup_alter_eq. destruct (ts !! j) as [t|]; [|done]. cbn.
    rewrite !bool_decide_eq_true. apply Hf.
  - by rewrite list_lookup_alter_ne.
Qed.

Lemma fmap_runnable f (ts : list Task) j :
  (forall t, state t = Runnable -> state (f t) = Runnable) ->
  runnable_at ts j = true -> runnable_at (f <$> ts) j = true.
Proof.
  intros Hf. unfold runnable_at. rewrite list_lookup_fmap. destruct (ts !! j) as [t|]; [|done]. cbn.
  rewrite !bool_decide_eq_true. apply Hf.
Qed.

Lemma app_runnable (ts ts' : list Task) j : runnable_at ts j = true -> runnable_at (ts ++ ts') j = true.
Proof.
  intros H. pose proof (runnable_at_lt _ _ H). unfold runnable_at in *. by rewrite lookup_app_l.
Qed.

Lemma wake_task_runnable t : state t = Runnable -> state (wake_task t) = Runnable.
Proof. unfold wake_task. intros H. by rewrite H. Qed.

Lemma wake_due_runnable now t : state t = Runnable -> state (wake_due now t) = Runnable.
Proof. unfold wake_due. intros H. by rewrite H. Qed.

(** The state the timer interrupt schedules from. *)
Definition after_timer (s : ksched) : ksched :=
  let now := wrapping_add 64 (TICKS s) 1 in
  mkKs (mkSched (wake_due now <$> tasks (SCHEDULER s)) (current (SCHEDULER s))) now
    (cpu_regs s) (cpu_sp s) (kmem s) (kmmu s).

Lemma on_timer_irq_eq s : on_timer_irq s = schedule (after_timer s).
Proof. done. Qed.

Lemma after_timer_swf s : swf s -> swf (after_timer s).
Proof. unfold swf. cbn. by rewrite length_fmap. Qed.

(** The state after a spawn: the context fabricated over the zeroed stack [m0],
    and the new task at the end of the table. *)
Lemma spawn_inner_run tr st e a p r s s1 :
  spawn_inner tr st e a p r s = Ret (tt, s1) ->
  st + STACK_SIZE < 2 ^ 64 /\
  exists m0, s1 = mkKs
    (mkSched (tasks (SCHEDULER s) ++ [mkTask (stack_top st - CONTEXT_REGS * 8) Runnable 0 p r])
       (current (SCHEDULER s)))
    (TICKS s) (cpu_regs s) (cpu_sp s)
    (fabricate tr e a (stack_top st - CONTEXT_REGS * 8) m0) (kmmu s).
Proof.
  unfold spawn_inner, addM, checked_add, bindM at 1.
  destruct (Z.ltb_spec (st + STACK_SIZE) (2 ^ 64)) as [Hlt|]; cbn [expectM]; [|done].
  unfold retM, modifyM, bindM, push_task. set (m0 := fill_up _ _ _ _ _).
  intros H. split; [done|]. exists m0. by apply Ret_inj in H as [_ <-].
Qed.

Lemma step_safe s s' : safe s -> sched_step s s' -> safe s'.
Proof.
  intros Hs Hstep. pose proof (safe_swf _ Hs) as Hwf. pose proof (sf_idle _ Hs) as H0.
  destruct Hstep as [o s s' Ha Hrun|s r p m mm]; [|by split; apply Hs].
  destruct o as [| |n| |i| |tr st e a p r]; cbn [run_op allowed] in *.
  - by eapply schedule_safe.
  - eapply leave_safe; [exact Hs|exact Ha|exact Hrun].
  - unfold sleep_ticks, bindM at 1, getM, bindM at 1 in Hrun.
    destruct (addM (TICKS s) n s) as [[w s1]|] eqn:Hadd; [|done].
    apply addM_state in Hadd as [-> ->].
    eapply leave_safe; [exact Hs|exact Ha|exact Hrun].
  - eapply leave_safe; [exact Hs|exact Ha|exact Hrun].
  - unfold wake in Hrun. unfold update_task, bindM, task in Hrun. cbn in Hrun.
    destruct (tasks (SCHEDULER s) !! i); cbn in Hrun; [|done]. injection Hrun as <-.
    split; cbn; apply alter_runnable; apply wake_task_runnable || apply Hs.
  - rewrite on_timer_irq_eq in Hrun.
    eapply schedule_safe; [by apply after_timer_swf| |exact Hrun].
    cbn. by apply fmap_runnable; [apply wake_due_runnable|].
  - apply spawn_inner_run in Hrun as (_ & m0 & ->).
    split; cbn [SCHEDULER tasks current]; apply app_runnable; apply Hs.
Qed.

(** ** Tasks that are not running *)

Lemma view_lookup (ts ts' : list Task) i t :
  view <$> ts' = view <$> ts -> ts !! i = Some t -> exists t', ts' !! i = Some t' /\ view t' = view t.
Proof.
  intros H Ht. apply (f_equal (fun l => l !! i)) in H. rewrite !list_lookup_fmap, Ht in H.
  destruct (ts' !! i) as [t'|]; [|done]. injection H as H. exists t'. split; [done|]. unfold view. congruence.
Qed.

(** What a scheduler call does to a task that is not running: only [wake] and the
    timer touch it. *)
Definition others_view (o : op) (s : ksched) (i : nat) (t : Task) : Task :=
  match o with
  | OWake j => if decide (i = j) then wake_task t else t
  | OTimer => wake_due (wrapping_add 64 (TICKS s) 1) t
  | _ => t
  end.

Lemma leave_others f s s' i t :
  safe s -> (update_task (current (SCHEDULER s)) f ;;; schedule) s = Ret (tt, s') ->
  tasks (SCHEDULER s) !! i = Some t -> current (SCHEDULER s) <> i ->
  exists t', tasks (SCHEDULER s') !! i = Some t' /\ view t' = view t.
Proof.
  intros Hs Hrun Ht Hne. pose proof (safe_swf _ Hs) as Hwf.
  pose proof (update_task_spec (current (SCHEDULER s)) f s Hwf) as Hu. unfold wp in Hu.
  unfold bindM in Hrun. destruct (update_task _ f s) as [[[] s1]|]; [subst s1|done].
  apply schedule_views in Hrun as [_ Hv]; [|unfold swf; cbn; by rewrite length_alter].
  apply (view_lookup _ _ _ _ Hv). cbn. by rewrite list_lookup_alter_ne.
Qed.

Lemma run_op_others o s s' i t :
  safe s -> run_op o s = Ret (tt, s') -> tasks (SCHEDULER s) !! i = Some t -> current (SCHEDULER s) <> i ->
  exists t', tasks (SCHEDULER s') !! i = Some t' /\ view t' = view (others_view o s i t).
Proof.
  intros Hs Hrun Ht Hne. pose proof (safe_swf _ Hs) as Hwf.
  destruct o as [| |n| |j| |tr st e a p r]; cbn [run_op others_view] in *.
  - apply schedule_views in Hrun as [_ Hv]; [|done]. by apply (view_lookup _ _ _ _ Hv).
  - eapply leave_others; [exact Hs|exact Hrun|done|done].
  - unfold sleep_ticks, bindM at 1, getM, bindM at 1 in Hrun.
    destruct (addM (TICKS s) n s) as [[w s1]|] eqn:Hadd; [|done].
    apply addM_state in Hadd as [-> ->]. eapply leave_others; [exact Hs|exact Hrun|done|done].
  - eapply leave_others; [exact Hs|exact Hrun|done|done].
  - unfold wake, update_task, bindM, task in Hrun. cbn in Hrun.
    destruct (tasks (SCHEDULER s) !! j) eqn:Hj; cbn in Hrun; [|done]. injection Hrun as <-. cbn.
    case_decide as E; subst.
    + rewrite list_lookup_alter_eq, Ht. cbn. eauto.
    + rewrite list_lookup_alter_ne by done. eauto.
  - rewrite on_timer_irq_eq in Hrun.
    apply schedule_views in Hrun as [_ Hv]; [|by apply after_timer_swf].
    apply (view_lookup _ _ _ _ Hv). cbn. by rewrite list_lookup_fmap, Ht.
  - apply spawn_inner_run in Hrun as (_ & m0 & ->).
    exists t. cbn [SCHEDULER tasks]. split; [|done].
    rewrite lookup_app_l; [done|]. by eapply lookup_lt_Some.
Qed.

Lemma not_running s i t :
  safe s -> tasks (SCHEDULER s) !! i = Some t -> state t <> Runnable -> current (SCHEDULER s) <> i.
Proof.
  intros [_ Hc] Ht Hst E. rewrite E in Hc. unfold runnable_at in Hc. rewrite Ht in Hc.
  by apply bool_decide_eq_true in Hc.
Qed.

(** ** Properties *)

(** The table before [init]. *)
Definition unstarted (s : ksched) : Prop := SCHEDULER s = mkSched [] 0.

Lemma init_safe s s' : unstarted s -> init s = Ret (tt, s') -> safe s'.
Proof. intros Hs [= <-]. split; cbn; by rewrite Hs. Qed.

Lemma steps_safe s s' : safe s -> rtc sched_step s s' -> safe s'.
Proof. intros Hs Hr. induction Hr; [done|]. eauto using step_safe. Qed.

(** C32: in every state the scheduler can reach from boot, with threads blocking,
    sleeping, exiting, being woken, spawned and preempted in any order, the task
    that is running is a runnable one: the CPU is never given to a blocked or
    exited thread, and the idle task is always there to fall back on. *)
Theorem running_is_runnable s0 s1 s :
  unstarted s0 -> init s0 = Ret (tt, s1) -> rtc sched_step s1 s ->
  exists t, tasks (SCHEDULER s) !! current (SCHEDULER s) = Some t /\ state t = Runnable.
Proof.
  intros H0 Hi Hr. destruct (steps_safe _ _ (init_safe _ _ H0 Hi) Hr) as [_ Hc].
  unfold runnable_at in Hc. destruct (_ !! _) as [t|]; [|done]. exists t.
  split; [done|]. by apply bool_decide_eq_true in Hc.
Qed.

(** A thread that has exited stays exited and never runs again. *)
Theorem exited_for_good s s' i t :
  safe s -> rtc sched_step s s' -> tasks (SCHEDULER s) !! i = Some t -> state t = Exited ->
  current (SCHEDULER s') <> i /\
  exists t', tasks (SCHEDULER s') !! i = Some t' /\ state t' = Exited.
Proof.
  intros Hs Hr. revert t. induction Hr as [s|s s1 s2 Hstep Hr IH]; intros t Ht Hst.
  { split; [|eauto]. eapply not_running; eauto. congruence. }
  assert (H1 : exists t1, tasks (SCHEDULER s1) !! i = Some t1 /\ state t1 = Exited).
  { destruct Hstep as [o s s1 Ha Hrun|]; [|eauto].
    destruct (run_op_others o s s1 i t Hs Hrun Ht) as (t1 & Ht1 & Hv).
    { eapply not_running; eauto. congruence. }
    exists t1. split; [done|]. injection Hv as Hv _ _ _. rewrite Hv.
    destruct o; cbn [others_view]; try done.
    - case_decide; [|done]. unfold wake_task. by rewrite Hst.
    - unfold wake_due. by rewrite Hst. }
  destruct H1 as (t1 & Ht1 & Hst1). eapply IH; eauto using step_safe.
Qed.

(** [k] scheduling decisions in a row that pass task [i] over, although it stays
    runnable; between decisions the other tasks may change state at will. *)
Inductive passed_over (i : nat) : nat -> ksched -> Prop :=
| po_0 s : passed_over i 0 s
| po_S k s s1 s2 :
    schedule s = Ret (tt, s1) -> current (SCHEDULER s1) <> i ->
    length (tasks (SCHEDULER s2)) = length (tasks (SCHEDULER s1)) ->
    current (SCHEDULER s2) = current (SCHEDULER s1) ->
    runnable_at (tasks (SCHEDULER s2)) i = true ->
    passed_over i k s2 -> passed_over i (S k) s.

(** C33: round robin is fair: with [n] tasks, a runnable task is never passed over
    by [n - 1] scheduling decisions in a row, whatever the others do. *)
Theorem bounded_waiting i k s :
  swf s -> runnable_at (tasks (SCHEDULER s)) i = true -> current (SCHEDULER s) <> i ->
  passed_over i k s -> (k < length (tasks (SCHEDULER s)) - 1)%nat.
Proof.
  set (n := length (tasks (SCHEDULER s))). intros Hwf Hi Hne Hp.
  enough (k < dist n (current (SCHEDULER s)) i)%nat as Hk.
  { pose proof (runnable_at_lt _ _ Hi). unfold swf in Hwf. fold n in H, Hwf.
    revert Hk. unfold dist. case_decide; lia. }
  assert (Hn : length (tasks (SCHEDULER s)) = n) by done. clearbody n. revert Hwf Hi Hne Hn.
  induction Hp as [s|k s s1 s2 Hrun Hc1 Hlen Hcur Hi2 Hp IH]; intros Hwf Hi Hne Hn.
  { pose proof (runnable_at_lt _ _ Hi). unfold swf in Hwf. unfold dist. case_decide; lia. }
  destruct (schedule_views s s1 Hwf Hrun) as [Hpick Hv].
  assert (Hlen1 : length (tasks (SCHEDULER s1)) = n).
  { rewrite <-Hn, <-(length_fmap view), Hv. apply length_fmap. }
  destruct (pick_closer (SCHEDULER s) i Hwf Hi Hne) as [Hcl _]. rewrite Hn, <-Hpick, <-Hcur in Hcl.
  assert (k < dist n (current (SCHEDULER s2)) i)%nat; [|lia].
  apply IH; [|done|congruence|congruence].
  unfold swf. rewrite Hlen, Hlen1, Hcur, Hpick, <-Hn. by apply pick_lt.
Qed.

(** ** Context switches restore a thread *)

Definition u64 (v : Z) : Prop := 0 <= v < 2 ^ 64.
Definition regs_ok (r : Regs) : Prop :=
  Forall u64 [x19 r; x20 r; x21 r; x22 r; x23 r; x24 r; x25 r; x26 r; x27 r; x28 r; x29 r; x30 r].

Lemma save_regs_sp r p m : (save_regs r p m).1 = p - 96.
Proof. unfold save_regs, stp. cbn. lia. Qed.

Lemma restore_ext p m m' : same_on m m' p 96 -> restore_regs p m' = restore_regs p m.
Proof.
  intros Hs. unfold restore_regs, ldp.
  assert (Hr : forall a, p <= a -> a + 8 <= p + 96 -> read64 m' a = read64 m a).
  { intros a H1 H2. apply load_ext. intros b Hb. apply Hs. lia. }
  rewrite !Hr by lia. done.
Qed.

Lemma read64_write64_at m a b v : a = b -> u64 v -> read64 (write64 m a v) b = v.
Proof. intros ->. apply read64_write64_eq. Qed.

Lemma restore_save r p m :
  regs_ok r -> restore_regs (p - 96) (save_regs r p m).2 = (r, p).
Proof.
  intros Hr. unfold regs_ok in Hr. rewrite !Forall_cons in Hr. destruct_and! Hr.
  unfold save_regs, restore_regs, stp, ldp. cbn [fst snd].
  repeat first [rewrite read64_write64_at by (lia || assumption)|rewrite read64_write64_ne by lia].
  destruct r; cbn. f_equal. lia.
Qed.

Definition apart (a na b nb : Z) : Prop := a + na <= b \/ b + nb <= a.

Lemma save_regs_out r p m a n : apart (p - 96) 96 a n -> same_on m (save_regs r p m).2 a n.
Proof.
  intros Ha b Hb. unfold apart in Ha. unfold save_regs, stp, write64. cbn [fst snd].
  rewrite !read8_store_ne by lia. done.
Qed.

(** Resuming task [i] loads the context saved at its stack pointer. *)
Lemma resume s s' i t :
  swf s -> schedule s = Ret (tt, s') -> current (SCHEDULER s') = i -> current (SCHEDULER s) <> i ->
  tasks (SCHEDULER s) !! i = Some t -> apart (cpu_sp s - 96) 96 (sp t) 96 ->
  (cpu_regs s', cpu_sp s') = restore_regs (sp t) (kmem s).
Proof.
  intros Hwf Hrun Hi Hne Ht Ha. pose proof (schedule_spec s Hwf) as H. cbv zeta in H.
  unfold wp in H. rewrite Hrun in H. destruct H as (Hc & _ & H). rewrite decide_False in H by congruence.
  destruct H as (t' & Ht' & Hsw). rewrite <-Hc, Hi, Ht in Ht'. injection Ht' as <-.
  rewrite (sw_cpu _ _ _ _ Hsw), (sw_mem _ _ _ _ Hsw). by apply restore_ext, save_regs_out.
Qed.

(** C35: a thread that is switched out resumes, whenever it is chosen again, with
    the callee-saved registers and the stack pointer it had, provided nobody wrote
    to the 96 bytes below that stack pointer meanwhile. *)
Theorem switch_roundtrip s s1 s2 s3 t1 t2 :
  let a := current (SCHEDULER s) in
  swf s -> regs_ok (cpu_regs s) -> schedule s = Ret (tt, s1) -> current (SCHEDULER s1) <> a ->
  swf s2 -> current (SCHEDULER s2) <> a ->
  tasks (SCHEDULER s1) !! a = Some t1 -> tasks (SCHEDULER s2) !! a = Some t2 -> sp t2 = sp t1 ->
  same_on (kmem s1) (kmem s2) (cpu_sp s - 96) 96 -> apart (cpu_sp s2 - 96) 96 (cpu_sp s - 96) 96 ->
  schedule s2 = Ret (tt, s3) -> current (SCHEDULER s3) = a ->
  cpu_regs s3 = cpu_regs s /\ cpu_sp s3 = cpu_sp s.
Proof.
  intros a Hwf Hok Hrun Hne Hwf2 Hne2 Ht1 Ht2 Hsp Hsame Hap Hrun2 Hc3.
  pose proof (schedule_spec s Hwf) as H. cbv zeta in H. unfold wp in H. rewrite Hrun in H.
  destruct H as (Hc & _ & H). rewrite decide_False in H by (rewrite <-Hc; exact Hne).
  destruct H as (t & _ & Hsw). rewrite (sw_tasks _ _ _ _ Hsw) in Ht1. fold a in Ht1.
  rewrite list_lookup_alter_eq in Ht1. destruct (tasks (SCHEDULER s) !! a) as [t0|]; [|done].
  cbn [fmap option_fmap option_map] in Ht1. apply (inj Some) in Ht1 as <-. cbn [sp set_sp] in Hsp. rewrite save_regs_sp in Hsp.
  assert (Hres : (cpu_regs s3, cpu_sp s3) = restore_regs (sp t2) (kmem s2)).
  { apply (resume s2 s3 a t2); [done..|]. by rewrite Hsp. }
  rewrite Hsp, (restore_ext _ _ _ Hsame), (sw_mem _ _ _ _ Hsw), restore_save in Hres by done.
  by injection Hres.
Qed.

Lemma stack_top_bounds st :
  0 <= st -> st + STACK_SIZE < 2 ^ 64 ->
  stack_top st mod 16 = 0 /\ st + STACK_SIZE - 16 < stack_top st <= st + STACK_SIZE.
Proof.
  intros H0 H1. unfold stack_top. change 0xF with (2 ^ 4 - 1). unfold STACK_SIZE in *.
  rewrite land_not64 by lia. change (2 ^ 4) with 16. zlia.
Qed.

Lemma fabricate_restore tr e a ctx m :
  u64 tr -> u64 e -> u64 a ->
  restore_regs ctx (fabricate tr e a ctx m) = (mkRegs e a 0 0 0 0 0 0 0 0 0 tr, ctx + 96).
Proof.
  intros Ht He Ha. assert (H0 : u64 0) by (unfold u64; lia).
  unfold fabricate, CONTEXT_REGS. cbv zeta. change (zseq 0 (Z.to_nat 12)) with [0;1;2;3;4;5;6;7;8;9;10;11].
  cbn [fold_left]. unfold restore_regs, ldp.
  repeat first [rewrite read64_write64_at by (lia || assumption)|rewrite read64_write64_ne by lia].
  f_equal. lia.
Qed.

(** C36: the first time a spawned thread is chosen it enters [task_trampoline] with
    its entry point and argument in x19 and x20 and an aligned stack pointer at the
    top of its own 16 KiB, of which the fabricated context is part. *)
Theorem spawn_first_run s s1 s2 s3 tr st e arg p r t :
  let i := length (tasks (SCHEDULER s)) in
  let ctx := stack_top st - 96 in
  u64 tr -> u64 e -> u64 arg -> 0 <= st ->
  spawn_inner tr st e arg p r s = Ret (tt, s1) ->
  swf s2 -> current (SCHEDULER s2) <> i -> tasks (SCHEDULER s2) !! i = Some t -> sp t = ctx ->
  same_on (kmem s1) (kmem s2) ctx 96 -> apart (cpu_sp s2 - 96) 96 ctx 96 ->
  schedule s2 = Ret (tt, s3) -> current (SCHEDULER s3) = i ->
  tasks (SCHEDULER s1) = tasks (SCHEDULER s) ++ [mkTask ctx Runnable 0 p r] /\
  x30 (cpu_regs s3) = tr /\ x19 (cpu_regs s3) = e /\ x20 (cpu_regs s3) = arg /\
  cpu_sp s3 mod 16 = 0 /\ st + STACK_SIZE - 16 < cpu_sp s3 <= st + STACK_SIZE /\ st <= ctx.
Proof.
  intros i ctx Htr He Ha Hst Hspawn Hwf2 Hne Ht Hsp Hsame Hap Hrun Hc.
  apply spawn_inner_run in Hspawn as (Hov & m0 & ->).
  change (stack_top st - CONTEXT_REGS * 8) with ctx in *.
  cbn [SCHEDULER tasks kmem] in *. split; [done|].
  destruct (stack_top_bounds st Hst Hov) as [Hm Hb].
  assert (Hres : (cpu_regs s3, cpu_sp s3) = restore_regs (sp t) (kmem s2)).
  { apply (resume s2 s3 i t); [done..|]. by rewrite Hsp. }
  rewrite Hsp, (restore_ext _ _ _ Hsame), fabricate_restore in Hres by done.
  injection Hres as -> ->. cbn [x30 x19 x20]. do 3 (split; [done|]).
  unfold ctx, STACK_SIZE in *. split; [|lia]. by rewrite Z.sub_add.
Qed.



(** ** A run with two threads *)

Definition zero_regs : Regs := mkRegs 0 0 0 0 0 0 0 0 0 0 0 0.
Definition zero_mmu : mmu := mkMmu (mkPhys ∅ (mkFA 0 0)) 0 0 0 0 0 0 0.
Definition idle0 : ksched := mkKs (mkSched [] 0) 0 zero_regs 0x200000 ∅ zero_mmu.
Definition demo1 : ksched := exec init idle0.
Definition demo2 : ksched := exec (run_op (OSpawn 0x80000 0x100000 0x81000 7 None None)) demo1.
Definition demo3 : ksched := exec (run_op OYield) demo2.

Lemma demo1_run : init idle0 = Ret (tt, demo1).
Proof. by apply exec_returns. Qed.
Lemma demo2_run : run_op (OSpawn 0x80000 0x100000 0x81000 7 None None) demo1 = Ret (tt, demo2).
Proof. apply exec_returns. vm_compute. reflexivity. Qed.
Lemma demo3_run : run_op OYield demo2 = Ret (tt, demo3).
Proof. apply exec_returns. vm_compute. reflexivity. Qed.

Lemma demo_steps : rtc sched_step demo1 demo3.
Proof.
  eapply rtc_l; [eapply ss_op; [|exact demo2_run]; done|].
  eapply rtc_l; [eapply ss_op; [|exact demo3_run]; done|]. apply rtc_refl.
Qed.

Lemma demo3_safe : safe demo3.
Proof. split; vm_compute; reflexivity. Qed.

Lemma running_is_runnable_witness : exists t,
  tasks (SCHEDULER demo3) !! 1%nat = Some t /\ state t = Runnable.
Proof.
  assert (H : current (SCHEDULER demo3) = 1%nat) by (vm_compute; reflexivity).
  rewrite <-H. exact (running_is_runnable idle0 demo1 demo3 eq_refl demo1_run demo_steps).
Defined.

Definition gone : ksched := exec (run_op OExit) demo3.

Lemma exited_for_good_witness : exists t',
  tasks (SCHEDULER (exec (run_op OTimer) gone)) !! 1%nat = Some t' /\ state t' = Exited.
Proof.
  assert (Hg : run_op OExit demo3 = Ret (tt, gone)) by (apply exec_returns; vm_compute; reflexivity).
  assert (Hs : safe gone).
  { apply (step_safe demo3); [exact demo3_safe|]. apply (ss_op OExit); [vm_compute; done|exact Hg]. }
  assert (Hr : rtc sched_step gone (exec (run_op OTimer) gone)).
  { apply rtc_once, (ss_op OTimer); [done|]. apply exec_returns. vm_compute. reflexivity. }
  refine (proj2 (exited_for_good gone _ 1 _ Hs Hr _ _)); vm_compute; reflexivity.
Defined.

Definition three : ksched := exec (run_op (OSpawn 0x80000 0x110000 0x82000 8 None None)) demo2.

Lemma bounded_waiting_witness : passed_over 2 1 three /\ (1 < length (tasks (SCHEDULER three)) - 1)%nat.
Proof.
  assert (Hp : passed_over 2 1 three).
  { apply (po_S 2 0 three (exec schedule three) (exec schedule three));
      [apply exec_returns; vm_compute; reflexivity|vm_compute; done|done|done|vm_compute; done|constructor]. }
  split; [exact Hp|].
  apply (bounded_waiting 2 1 three); [vm_compute; lia|vm_compute; done|vm_compute; done|exact Hp].
Defined.

Lemma switch_roundtrip_witness :
  cpu_regs (exec schedule demo3) = cpu_regs demo2 /\ cpu_sp (exec schedule demo3) = cpu_sp demo2.
Proof.
  assert (H2 : schedule demo2 = Ret (tt, demo3)) by exact demo3_run.
  assert (H3 : schedule demo3 = Ret (tt, exec schedule demo3))
    by (apply exec_returns; vm_compute; reflexivity).
  assert (Hl : exists t, tasks (SCHEDULER demo3) !! 0%nat = Some t) by (eexists; vm_compute; reflexivity).
  destruct Hl as [t Ht].
  assert (Hc2 : current (SCHEDULER demo2) = O) by (vm_compute; reflexivity). rewrite <-Hc2 in Ht.
  assert (Hc3 : current (SCHEDULER demo3) <> current (SCHEDULER demo2)) by (vm_compute; discriminate).
  assert (Hc4 : current (SCHEDULER (exec schedule demo3)) = current (SCHEDULER demo2))
    by (vm_compute; reflexivity).
  assert (Hw2 : swf demo2) by (vm_compute; lia). assert (Hw3 : swf demo3) by (vm_compute; lia).
  assert (Hok : regs_ok (cpu_regs demo2)) by (unfold regs_ok; repeat constructor; vm_compute; done).
  assert (Hap : apart (cpu_sp demo3 - 96) 96 (cpu_sp demo2 - 96) 96) by (left; vm_compute; done).
  exact (switch_roundtrip demo2 demo3 demo3 (exec schedule demo3) t t Hw2 Hok H2 Hc3 Hw3 Hc3 Ht Ht
    eq_refl (fun _ _ => eq_refl) Hap H3 Hc4).
Defined.

Lemma spawn_first_run_witness : x30 (cpu_regs demo3) = 0x80000 /\ x19 (cpu_regs demo3) = 0x81000.
Proof.
  assert (H3 : schedule demo2 = Ret (tt, demo3)) by exact demo3_run.
  assert (Hl : tasks (SCHEDULER demo2) !! 1%nat = Some (mkTask (stack_top 0x100000 - 96) Runnable 0 None None))
    by (vm_compute; reflexivity).
  assert (Hap : apart (cpu_sp demo2 - 96) 96 (stack_top 0x100000 - 96) 96) by (right; vm_compute; done).
  assert (Hu : u64 0x80000 /\ u64 0x81000 /\ u64 7) by (unfold u64; lia). destruct Hu as (U1 & U2 & U3).
  assert (Hlen : length (tasks (SCHEDULER demo1)) = 1%nat) by (vm_compute; reflexivity).
  rewrite <-Hlen in Hl.
  assert (Hc2 : current (SCHEDULER demo2) <> length (tasks (SCHEDULER demo1))) by (vm_compute; discriminate).
  assert (Hc3 : current (SCHEDULER demo3) = length (tasks (SCHEDULER demo1))) by (vm_compute; reflexivity).
  assert (Hw2 : swf demo2) by (vm_compute; lia). assert (H0 : 0 <= 0x100000) by lia.
  destruct (spawn_first_run demo1 demo2 demo2 demo3 0x80000 0x100000 0x81000 7 None None _ U1 U2 U3 H0
    demo2_run Hw2 Hc2 Hl eq_refl (fun _ _ => eq_refl) Hap H3 Hc3) as (_ & H30 & H19 & _).
  split; [exact H30|exact H19].
Defined.

