(* ===== verification/Console.v ===== *)
(** * The console

    The PL011 driver of kernel/src/uart.rs and the input ring of
    kernel/src/input.rs. The device is its receive and transmit sides and its
    interrupt mask; the ring refines a bounded queue of bytes, and together they
    lose and reorder nothing. *)

From Stdlib Require Import ZArith Lia.
From stdpp Require Import base numbers gmap list list_relations.
From S2P Require Import Prelude.

(** ** The device *)

(** Bytes waiting to be read, bytes sent, the mask register, and for each byte
    still to be sent how often its status poll finds the FIFO full. *)
Record Pl011 := mkPl011 { rx : list Z; tx : list Z; imsc : Z; busy : list nat }.

Definition UART0_BASE : Z := 0x09000000.
Definition UARTDR : Z := 0x00.
Definition UARTFR : Z := 0x18.
Definition TXFF : Z := Z.shiftl 1 5.
Definition RXFE : Z := Z.shiftl 1 4.
Definition UARTIMSC : Z := 0x38.
Definition RXIM : Z := Z.shiftl 1 4.
Definition UART_INTID : Z := 33.

Definition INPUT_BUF_SIZE : nat := 256.

Record InputBuf := mkInput { buf : list Z; head : nat; tail : nat }.
Definition INPUT_new : InputBuf := mkInput (replicate INPUT_BUF_SIZE 0) 0 0.

Record console := mkConsole { uart : Pl011; INPUT : InputBuf }.

Definition set_uart (u : Pl011) (c : console) : console := mkConsole u (INPUT c).
Definition set_input (i : InputBuf) (c : console) : console := mkConsole (uart c) i.
Definition on_uart (f : Pl011 -> Pl011) : M console unit := modifyM (fun c => set_uart (f (uart c)) c).

(** The device's side of a register read: status flags, and the data register,
    which takes the byte from the receiver. *)
Definition read_fr (u : Pl011) : Z :=
  Z.lor (match rx u with [] => RXFE | _ => 0 end)
        (match busy u with S _ :: _ => TXFF | _ => 0 end).
Definition polled (u : Pl011) : Pl011 :=
  mkPl011 (rx u) (tx u) (imsc u) match busy u with S n :: l => n :: l | l => l end.
Definition read_dr (u : Pl011) : Z * Pl011 :=
  match rx u with
  | [] => (0, u)
  | b :: l => (b, mkPl011 l (tx u) (imsc u) (busy u))
  end.
Definition write_dr (b : Z) (u : Pl011) : Pl011 :=
  mkPl011 (rx u) (tx u ++ [b]) (imsc u) (drop 1 (busy u)).

(** ** uart.rs *)

Definition set_rx_irq (enabled : bool) : M console unit :=
  on_uart (fun u => mkPl011 (rx u) (tx u) (if enabled then RXIM else 0) (busy u)).

(** [while read_volatile(fr) & TXFF != 0 {}], at most [fuel] polls. *)
Fixpoint wait_tx (fuel : nat) : M console unit :=
  match fuel with
  | O => panicM
  | S fuel' =>
      let! c := getM in
      if Z.land (read_fr (uart c)) TXFF =? 0 then retM tt
      else on_uart polled ;;; wait_tx fuel'
  end.

(** The device clears TXFF after finitely many polls. *)
Definition polls_left (u : Pl011) : nat := match busy u with n :: _ => n | [] => 0 end.

Definition write_byte (b : Z) : M console unit :=
  let! c := getM in
  wait_tx (S (polls_left (uart c))) ;;;
  on_uart (write_dr b).

Definition try_getc : M console (option Z) :=
  let! c := getM in
  if negb (Z.land (read_fr (uart c)) RXFE =? 0) then retM None
  else
    let '(b, u) := read_dr (uart c) in
    modifyM (set_uart u) ;;;
    retM (Some (wrap 8 b)).

Definition NL : Z := 10.
Definition CR : Z := 13.

Definition write_str (s : list Z) : M console unit :=
  forM s (fun b =>
    (if b =? NL then write_byte CR else retM tt) ;;;
    write_byte b).

(** ** input.rs *)

Definition is_empty (i : InputBuf) : bool := Nat.eqb (head i) (tail i).
Definition is_full (i : InputBuf) : bool := Nat.eqb ((tail i + 1) mod INPUT_BUF_SIZE) (head i).

(** [self.buf[i]]: the bounds check panics. *)
Definition buf_get (i : nat) (b : InputBuf) : M console Z := expectM (buf b !! i).
Definition buf_set (i : nat) (v : Z) (b : InputBuf) : M console InputBuf :=
  let! _ := buf_get i b in
  retM (mkInput (<[i := v]> (buf b)) (head b) (tail b)).

(** Each round takes a byte from the device, so one more round than it holds is
    enough. *)
Fixpoint drain_loop (fuel : nat) : M console unit :=
  match fuel with
  | O => panicM
  | S fuel' =>
      let! c := getM in
      if is_full (INPUT c) then set_rx_irq false
      else
        let! o := try_getc in
        match o with
        | Some b =>
            let! c := getM in
            let t := tail (INPUT c) in
            let! i := buf_set t b (INPUT c) in
            modifyM (set_input (mkInput (buf i) (head i) ((t + 1) mod INPUT_BUF_SIZE)%nat)) ;;;
            drain_loop fuel'
        | None => retM tt
        end
  end.
Definition drain_uart : M console unit :=
  let! c := getM in drain_loop (S (length (rx (uart c)))).

Definition input_pop : M console (option Z) :=
  let! c := getM in
  let i := INPUT c in
  if is_empty i then retM None
  else
    let was_full := is_full i in
    let! b := buf_get (head i) i in
    modifyM (set_input (mkInput (buf i) ((head i + 1) mod INPUT_BUF_SIZE)%nat (tail i))) ;;;
    (if was_full then set_rx_irq true else retM tt) ;;;
    retM (Some b).

(** ** The ring as a queue *)

Lemma mod_once n a : (a < 2 * n)%nat -> (a mod n = if decide (a < n) then a else a - n)%nat.
Proof.
  intros H. case_decide; [by apply Nat.mod_small|]. symmetry. apply (Nat.mod_unique _ _ 1); lia.
Qed.

Definition count (i : InputBuf) : nat := ((tail i + INPUT_BUF_SIZE - head i) mod INPUT_BUF_SIZE)%nat.
Definition contents (i : InputBuf) : list Z :=
  (fun k => buf i !!! ((head i + k) mod INPUT_BUF_SIZE)%nat) <$> seq 0 (count i).

Definition is_byte (b : Z) : Prop := 0 <= b < 256.

Record iwf (i : InputBuf) : Prop := {
  iw_len : length (buf i) = INPUT_BUF_SIZE;
  iw_head : (head i < INPUT_BUF_SIZE)%nat;
  iw_tail : (tail i < INPUT_BUF_SIZE)%nat;
  iw_bytes : Forall is_byte (buf i)
}.

Lemma length_contents i : length (contents i) = count i.
Proof. unfold contents. by rewrite length_fmap, length_seq. Qed.

Lemma count_eq i :
  iwf i -> count i = if decide (head i <= tail i)%nat then (tail i - head i)%nat
                     else (tail i + INPUT_BUF_SIZE - head i)%nat.
Proof.
  intros [_ Hh Ht]. unfold count. rewrite mod_once by lia. unfold INPUT_BUF_SIZE in *.
  repeat case_decide; lia.
Qed.

Lemma count_lt i : iwf i -> (count i < INPUT_BUF_SIZE)%nat.
Proof. intros _. apply Nat.mod_upper_bound. done. Qed.

Lemma is_empty_spec i : iwf i -> is_empty i = true <-> contents i = [].
Proof.
  intros Hi. rewrite <-length_zero_iff_nil, length_contents, count_eq by done.
  unfold is_empty. rewrite Nat.eqb_eq. destruct Hi as [_ Hh Ht]. unfold INPUT_BUF_SIZE in *.
  case_decide; lia.
Qed.

Lemma is_full_spec i : iwf i -> is_full i = true <-> length (contents i) = (INPUT_BUF_SIZE - 1)%nat.
Proof.
  intros Hi. rewrite length_contents, count_eq by done. unfold is_full. rewrite Nat.eqb_eq.
  destruct Hi as [_ Hh Ht]. rewrite mod_once by lia. unfold INPUT_BUF_SIZE in *.
  repeat case_decide; lia.
Qed.

Definition popped (i : InputBuf) : InputBuf :=
  mkInput (buf i) ((head i + 1) mod INPUT_BUF_SIZE)%nat (tail i).
Definition pushed (v : Z) (i : InputBuf) : InputBuf :=
  mkInput (<[tail i := v]> (buf i)) (head i) ((tail i + 1) mod INPUT_BUF_SIZE)%nat.

Lemma popped_wf i : iwf i -> iwf (popped i).
Proof. intros [Hl Hh Ht Hb]. split; cbn [buf head tail popped pushed]; [done| |done|done]. by apply Nat.mod_upper_bound. Qed.

Lemma pushed_wf v i : is_byte v -> iwf i -> iwf (pushed v i).
Proof.
  intros Hv [Hl Hh Ht Hb]. split; cbn [buf head tail popped pushed]; [by rewrite length_insert|done| |by apply Forall_insert].
  by apply Nat.mod_upper_bound.
Qed.

Lemma contents_bytes i : iwf i -> Forall is_byte (contents i).
Proof.
  intros [Hl Hh Ht Hb]. apply Forall_fmap, Forall_forall. intros j _. cbn [compose]. rewrite Forall_forall in Hb.
  apply Hb. apply list_elem_of_lookup_total_2. rewrite Hl. by apply Nat.mod_upper_bound.
Qed.

Lemma contents_pop i :
  iwf i -> is_empty i = false ->
  exists b, buf i !! head i = Some b /\ contents i = b :: contents (popped i).
Proof.
  intros Hi He. pose proof (popped_wf i Hi) as Hp. destruct (lookup_lt_is_Some_2 (buf i) (head i)) as [b Hb].
  { destruct Hi. lia. }
  exists b. split; [done|].
  assert (Hc : count i = S (count (popped i))).
  { rewrite !count_eq by done. unfold is_empty in He. apply Nat.eqb_neq in He. destruct Hi as [_ Hh Ht].
    cbn [buf head tail popped pushed]. rewrite mod_once by lia. unfold INPUT_BUF_SIZE in *. repeat case_decide; lia. }
  unfold contents. rewrite Hc. cbn [seq fmap list_fmap]. destruct Hi as [Hl Hh Ht]. f_equal.
  - rewrite Nat.add_0_r, Nat.mod_small by done. by apply list_lookup_total_correct.
  - rewrite <-seq_shift, <-list_fmap_compose. apply list_fmap_ext. intros j k Hk%lookup_seq. cbn [buf head popped compose].
    f_equal. rewrite Nat.Div0.add_mod_idemp_l. f_equal. lia.
Qed.

Lemma contents_push v i :
  is_byte v -> iwf i -> is_full i = false -> contents (pushed v i) = contents i ++ [v].
Proof.
  intros Hv Hi Hf. pose proof (pushed_wf v i Hv Hi) as Hp.
  assert (Hc : count (pushed v i) = S (count i)).
  { rewrite !count_eq by done. unfold is_full in Hf. apply Nat.eqb_neq in Hf. destruct Hi as [_ Hh Ht].
    cbn [buf head tail popped pushed]. rewrite mod_once in * by lia. unfold INPUT_BUF_SIZE in *. repeat case_decide; lia. }
  unfold contents. rewrite Hc, seq_S, fmap_app. cbn [fmap list_fmap Nat.add].
  pose proof (count_eq i Hi) as Hce. pose proof (count_lt i Hi) as Hlt. destruct Hi as [Hl Hh Ht]. f_equal.
  - apply list_fmap_ext. intros j k Hk%lookup_seq. cbn [buf head pushed].
    apply list_lookup_total_insert_ne. rewrite mod_once by lia. unfold INPUT_BUF_SIZE in *.
    repeat case_decide; lia.
  - f_equal. cbn [buf head pushed].
    replace ((head i + count i) mod INPUT_BUF_SIZE)%nat with (tail i).
    + apply list_lookup_total_insert_eq. lia.
    + rewrite mod_once by lia. unfold INPUT_BUF_SIZE in *. repeat case_decide; lia.
Qed.

(** ** Specifications *)

Record cwf (c : console) : Prop := {
  cw_input : iwf (INPUT c);
  cw_rx : Forall is_byte (rx (uart c))
}.

Lemma rxfe_spec u : (Z.land (read_fr u) RXFE =? 0) = match rx u with [] => false | _ => true end.
Proof. unfold read_fr. destruct (rx u), (busy u) as [|[|n] bl]; reflexivity. Qed.

Lemma txff_spec u : (Z.land (read_fr u) TXFF =? 0) = Nat.eqb (polls_left u) 0.
Proof. unfold read_fr, polls_left. destruct (rx u), (busy u) as [|[|n] bl]; reflexivity. Qed.

Lemma wrap8_byte b : is_byte b -> wrap 8 b = b.
Proof. intros H. unfold wrap. apply Z.mod_small. exact H. Qed.

Definition pop_rx (u : Pl011) : Pl011 := mkPl011 (drop 1 (rx u)) (tx u) (imsc u) (busy u).

Lemma try_getc_spec c :
  cwf c ->
  wp False try_getc (fun o c' =>
    match rx (uart c) with
    | [] => o = None /\ c' = c
    | b :: _ => o = Some b /\ c' = set_uart (pop_rx (uart c)) c
    end) c.
Proof.
  intros [_ Hb]. unfold try_getc. wp_steps. rewrite rxfe_spec. unfold read_dr, pop_rx.
  destruct (rx (uart c)) as [|b l] eqn:E; cbn [negb]; wp_steps; [done|].
  inversion Hb; subst. by rewrite wrap8_byte.
Qed.

(** The console after the bytes [bs] moved from the receiver to the ring. *)
Record drained (c c' : console) (bs : list Z) : Prop := {
  dr_wf : cwf c';
  dr_rx : rx (uart c) = bs ++ rx (uart c');
  dr_contents : contents (INPUT c') = contents (INPUT c) ++ bs;
  dr_imsc : imsc (uart c') = if is_full (INPUT c') then 0 else imsc (uart c);
  dr_done : is_full (INPUT c') = true \/ rx (uart c') = [];
  dr_tx : tx (uart c') = tx (uart c)
}.

Lemma drain_loop_spec fuel c :
  cwf c -> (length (rx (uart c)) < fuel)%nat ->
  wp False (drain_loop fuel) (fun _ c' => exists bs, drained c c' bs) c.
Proof.
  revert c. induction fuel as [|fuel IH]; intros c Hc Hf; [lia|]. cbn [drain_loop]. wp_steps.
  destruct (is_full (INPUT c)) eqn:Ef.
  { unfold set_rx_irq, on_uart. wp_steps. exists [].
    split; cbn [uart INPUT set_uart rx tx imsc]; rewrite ?Ef, ?app_nil_r; auto. by split; apply Hc. }
  wp_step. eapply wp_mono; [by apply try_getc_spec|]. intros o c1 H.
  destruct (rx (uart c)) as [|b l] eqn:Erx; destruct H as [-> ->].
  { wp_steps. exists []. split; rewrite ?Ef, ?Erx, ?app_nil_r; auto. }
  destruct Hc as [Hi Hb]. rewrite Erx in Hb. inversion Hb as [|? ? Hb1 Hb2]; subst.
  wp_steps. unfold buf_set, buf_get. wp_steps. cbn [INPUT set_uart].
  destruct (lookup_lt_is_Some_2 (buf (INPUT c)) (tail (INPUT c))) as [old Hold]; [destruct Hi; lia|].
  rewrite Hold. wp_steps. cbn [buf head tail INPUT set_uart].
  change (mkInput _ _ _) with (pushed b (INPUT c)).
  eapply wp_mono.
  { apply IH; cbn [uart INPUT set_uart set_input rx pop_rx].
    - split; cbn [uart INPUT set_uart set_input rx pop_rx]; [by apply pushed_wf|by rewrite Erx].
    - rewrite Erx. cbn [length] in Hf. rewrite length_drop. cbn [length]. lia. }
  intros [] c' (bs & [W R C I D X]). cbn [uart INPUT set_uart set_input rx pop_rx imsc tx] in *.
  exists (b :: bs). rewrite Erx in R. change (drop 1 (b :: l)) with l in R. rewrite contents_push, <-app_assoc in C by done.
  split; try done. by rewrite Erx, R.
Qed.

Lemma input_pop_spec c :
  cwf c ->
  wp False input_pop (fun o c' => cwf c' /\ rx (uart c') = rx (uart c) /\ tx (uart c') = tx (uart c) /\
    match contents (INPUT c) with
    | [] => o = None /\ c' = c
    | b :: q => o = Some b /\ contents (INPUT c') = q /\
        imsc (uart c') = if is_full (INPUT c) then RXIM else imsc (uart c)
    end) c.
Proof.
  intros Hc. unfold input_pop. wp_steps. pose proof (cw_input _ Hc) as Hi.
  destruct (is_empty (INPUT c)) eqn:Ee.
  { wp_steps. do 3 (split; [done|]). apply is_empty_spec in Ee as ->; done. }
  wp_steps. destruct (contents_pop _ Hi Ee) as (b & Hb & Hq). unfold buf_get. rewrite Hb, Hq. wp_steps.
  change (mkInput _ _ _) with (popped (INPUT c)).
  assert (Hp : iwf (popped (INPUT c))) by (by apply popped_wf).
  destruct (is_full (INPUT c)); unfold set_rx_irq, on_uart; wp_steps;
    split_and!; try done; split; try done; apply Hc.
Qed.

(** ** The console as a channel *)

(** The console with the history of the line: what the host sent and what readers
    have taken. *)
Record io := mkIo { con : console; sent : list Z; taken : list Z }.

Inductive io_step : io -> io -> Prop :=
| io_send c u s t b :
    is_byte b -> u = mkPl011 (rx (uart c) ++ [b]) (tx (uart c)) (imsc (uart c)) (busy (uart c)) ->
    io_step (mkIo c s t) (mkIo (set_uart u c) (s ++ [b]) t)
| io_irq c s t c' :
    imsc (uart c) = RXIM -> rx (uart c) <> [] -> drain_uart c = Ret (tt, c') ->
    io_step (mkIo c s t) (mkIo c' s t)
| io_pop c s t o c' :
    input_pop c = Ret (o, c') -> io_step (mkIo c s t) (mkIo c' s (t ++ option_list o)).

(** The console as [kmain] leaves it: empty, with the receive interrupt on. *)
Definition console_new (l : list nat) : console := mkConsole (mkPl011 [] [] RXIM l) INPUT_new.

Record io_inv (i : io) : Prop := {
  ii_wf : cwf (con i);
  ii_fifo : sent i = taken i ++ contents (INPUT (con i)) ++ rx (uart (con i));
  ii_imsc : imsc (uart (con i)) = if is_full (INPUT (con i)) then 0 else RXIM
}.

Lemma INPUT_new_wf : iwf INPUT_new.
Proof. split; [vm_compute; done || lia..|]. apply Forall_replicate. by vm_compute. Qed.

Lemma io_new l : io_inv (mkIo (console_new l) [] []).
Proof. split; [split; [apply INPUT_new_wf|constructor]|done|done]. Qed.

Lemma io_step_inv i i' : io_inv i -> io_step i i' -> io_inv i'.
Proof.
  intros [Hw Hf Hi] Hs. destruct Hs as [c u s t b Hb ->|c s t c' Hm Hrx Hrun|c s t o c' Hrun];
    cbn [con sent taken] in *.
  - split; cbn [con sent taken uart INPUT set_uart rx imsc].
    + split; cbn [uart INPUT set_uart rx]; [apply Hw|]. apply Forall_app. split; [apply Hw|by constructor].
    + by rewrite Hf, <-!app_assoc.
    + done.
  - unfold drain_uart in Hrun.
    pose proof (drain_loop_spec (S (length (rx (uart c)))) c Hw ltac:(lia)) as H. unfold wp in H.
    change (drain_loop (S (length (rx (uart c)))) c = Ret (tt, c')) in Hrun. rewrite Hrun in H.
    destruct H as (bs & [W R C I D X]). split; cbn [con sent taken]; [done| |].
    + by rewrite Hf, R, C, <-!app_assoc.
    + rewrite I. destruct (is_full (INPUT c')); congruence.
  - pose proof (input_pop_spec c Hw) as H. unfold wp in H. rewrite Hrun in H.
    destruct H as (W & R & _ & H). split; cbn [con sent taken]; [done| |].
    + rewrite R. destruct (contents (INPUT c)) as [|b q] eqn:E; [destruct H as [-> ->]|destruct H as (-> & -> & _)];
        rewrite Hf; cbn [option_list].
      * by rewrite E, app_nil_r.
      * by rewrite <-!app_assoc.
    + destruct (contents (INPUT c)) as [|b q] eqn:E; [by destruct H as [_ ->]|]. destruct H as (_ & Hq & ->).
      pose proof (is_full_spec _ (cw_input _ W)) as Hfull. rewrite Hq in Hfull.
      pose proof (count_lt _ (cw_input _ Hw)) as Hlt. rewrite <-length_contents, E in Hlt. cbn [length] in Hlt.
      destruct (is_full (INPUT c')) eqn:Ef'; [|by rewrite Hi; destruct (is_full (INPUT c))].
      pose proof (proj1 Hfull eq_refl). unfold INPUT_BUF_SIZE in *. lia.
Qed.

(** C38: console input is a lossless FIFO: however the host's bytes, receive
    interrupts and readers interleave, what readers have taken, followed by the
    ring, followed by the bytes the device still holds, is exactly what was sent;
    and whenever the device holds a byte and the ring has room, the receive
    interrupt is unmasked to fetch it. *)
Theorem console_fifo l i :
  rtc io_step (mkIo (console_new l) [] []) i ->
  sent i = taken i ++ contents (INPUT (con i)) ++ rx (uart (con i)) /\
  (length (contents (INPUT (con i))) < INPUT_BUF_SIZE)%nat /\
  imsc (uart (con i)) = (if is_full (INPUT (con i)) then 0 else RXIM).
Proof.
  intros Hr. assert (Hi : io_inv i).
  { pose proof (io_new l) as Hn. induction Hr; [done|]. eauto using io_step_inv. }
  split; [apply Hi|]. split; [|apply Hi]. rewrite length_contents. apply count_lt, Hi.
Qed.

Lemma console_fifo_witness : exists c, contents (INPUT c) = [65; 66] /\
  [65; 66] = [] ++ contents (INPUT c) ++ rx (uart c).
Proof.
  set (c1 := set_uart (mkPl011 [65] [] RXIM []) (console_new [])).
  set (c2 := set_uart (mkPl011 [65; 66] [] RXIM []) c1).
  set (c3 := exec drain_uart c2).
  assert (Hr : rtc io_step (mkIo (console_new []) [] []) (mkIo c3 [65; 66] [])).
  { eapply rtc_l; [apply (io_send (console_new []) (mkPl011 [65] [] RXIM []) [] [] 65); done|].
    eapply rtc_l; [apply (io_send c1 (mkPl011 [65; 66] [] RXIM []) [65] [] 66); done|].
    apply rtc_once, io_irq; [done|done|]. apply exec_returns. vm_compute. reflexivity. }
  exists c3. split; [vm_compute; reflexivity|].
  exact (proj1 (console_fifo [] _ Hr)).
Defined.

(** ** Output *)

(** Line feeds become carriage return and line feed. *)
Definition crlf (s : list Z) : list Z := mbind (fun b => if b =? NL then [CR; NL] else [b]) s.

Lemma wait_tx_spec fuel c :
  (polls_left (uart c) < fuel)%nat ->
  wp False (wait_tx fuel) (fun _ c' => INPUT c' = INPUT c /\ rx (uart c') = rx (uart c) /\
    tx (uart c') = tx (uart c) /\ imsc (uart c') = imsc (uart c)) c.
Proof.
  revert c. induction fuel as [|fuel IH]; intros c Hf; [lia|]. cbn [wait_tx]. wp_steps.
  rewrite txff_spec. destruct (Nat.eqb_spec (polls_left (uart c)) 0) as [E|E]; [by wp_steps|].
  unfold on_uart. wp_steps. eapply wp_mono; [apply IH|].
  - cbn [uart set_uart]. unfold polls_left, polled in *. destruct (busy (uart c)) as [|[|n] bl]; cbn in *; lia.
  - intros [] c' (? & ? & ? & ?). done.
Qed.

Lemma write_byte_spec b c :
  wp False (write_byte b) (fun _ c' => INPUT c' = INPUT c /\ rx (uart c') = rx (uart c) /\
    tx (uart c') = tx (uart c) ++ [b] /\ imsc (uart c') = imsc (uart c)) c.
Proof.
  unfold write_byte. wp_steps. eapply wp_mono; [apply wait_tx_spec; lia|].
  intros [] c' (? & ? & Htx & ?). unfold on_uart. wp_steps. cbn [uart set_uart write_dr INPUT rx tx imsc].
  by rewrite Htx.
Qed.

Lemma write_str_spec s c :
  wp False (write_str s) (fun _ c' => tx (uart c') = tx (uart c) ++ crlf s /\
    rx (uart c') = rx (uart c) /\ imsc (uart c') = imsc (uart c) /\ INPUT c' = INPUT c) c.
Proof.
  unfold write_str. eapply wp_mono.
  { apply (wp_forM False _ _ (fun done c' => tx (uart c') = tx (uart c) ++ crlf done /\
      rx (uart c') = rx (uart c) /\ imsc (uart c') = imsc (uart c) /\ INPUT c' = INPUT c)).
    { by rewrite app_nil_r. }
    intros done b rest c1 _ (Htx & Hrx & Him & Hin). wp_steps.
    apply (wp_mono False _ (fun _ c2 => tx (uart c2) = tx (uart c1) ++ (if b =? NL then [CR] else []) /\
      rx (uart c2) = rx (uart c1) /\ imsc (uart c2) = imsc (uart c1) /\ INPUT c2 = INPUT c1)).
    { destruct (b =? NL); [|wp_steps; by rewrite app_nil_r].
      eapply wp_mono; [apply write_byte_spec|]. by intros [] c2 (? & ? & ? & ?). }
    intros [] c2 (Htx2 & Hrx2 & Him2 & Hin2). eapply wp_mono; [apply write_byte_spec|].
    intros [] c3 (Hin3 & Hrx3 & Htx3 & Him3). split_and!; try congruence.
    rewrite Htx3, Htx2, Htx. unfold crlf. rewrite bind_app, <-!app_assoc. do 2 f_equal.
    cbn. destruct (Z.eqb_spec b NL) as [->|]; done. }
  done.
Qed.

(** [write_str] terminates whatever the transmitter's delays, sends exactly
    the string with every line feed preceded by a carriage return, and touches
    neither pending input nor the interrupt mask. *)
Theorem write_str_sends s c :
  exists c', write_str s c = Ret (tt, c') /\ tx (uart c') = tx (uart c) ++ crlf s /\
    rx (uart c') = rx (uart c) /\ imsc (uart c') = imsc (uart c) /\ INPUT c' = INPUT c.
Proof.
  apply wp_unit, write_str_spec.
Qed.
