(* ===== verification/Elf.v ===== *)
(** * The ELF loader

    kernel/src/elf.rs: header validation and the segment loader. A slice is a list
    of bytes, indexing panics out of range, and [usize] additions panic on
    overflow. The vector of owned pages and the table of ranges are returned. *)

From Stdlib Require Import ZArith Lia.
From stdpp Require Import base numbers gmap list list_relations.
From S2P Require Import Prelude Memory Abi Frames Mmu.

Definition E_TYPE : Z := 16.
Definition E_MACHINE : Z := 18.
Definition E_ENTRY : Z := 24.
Definition E_PHOFF : Z := 32.
Definition E_PHENTSIZE : Z := 54.
Definition E_PHNUM : Z := 56.

Definition P_TYPE : Z := 0.
Definition P_FLAGS : Z := 4.
Definition P_OFFSET : Z := 8.
Definition P_VADDR : Z := 16.
Definition P_FILESZ : Z := 32.
Definition P_MEMSZ : Z := 40.

Definition PT_LOAD : Z := 1.
Definition PF_X : Z := 1.
Definition PF_W : Z := 2.
Definition MAX_SEGMENTS : nat := 8.

Record Range := mkRange { start : Z; end_ : Z; writable : bool }.
Record Loaded := mkLoaded { entry_va : Z; ranges : list Range; count : nat }.

Section slices.
Context {S : Type}.

(** [b[off]]. *)
Definition byte_at (b : list Z) (off : Z) : M S Z :=
  if off <? 0 then panicM else expectM (b !! Z.to_nat off).

(** [from_le_bytes] of the [n] bytes at [off]. *)
Fixpoint le_bytes (n : nat) (b : list Z) (off : Z) : M S Z :=
  match n with
  | O => retM 0
  | Datatypes.S n' =>
      let! x := byte_at b off in
      let! r := le_bytes n' b (off + 1) in
      retM (x + 256 * r)
  end.

Definition read_u16 (b : list Z) (off : Z) : M S Z := le_bytes 2 b off.
Definition read_u32 (b : list Z) (off : Z) : M S Z := le_bytes 4 b off.

(** The slice bound [off + 8] is computed first. *)
Definition read_u64 (b : list Z) (off : Z) : M S Z :=
  let! _ := addM off 8 in
  le_bytes 8 b off.

Definition validate (image : list Z) : M S Z :=
  assertM (64 <=? Z.of_nat (length image)) ;;;
  assertM (bool_decide (take 4 image = [0x7f; 0x45; 0x4c; 0x46])) ;;;
  let! class := byte_at image 4 in
  assertM (class =? 2) ;;;
  let! ty := read_u16 image E_TYPE in
  assertM (ty =? 2) ;;;
  let! machine := read_u16 image E_MACHINE in
  assertM (machine =? 0xB7) ;;;
  read_u64 image E_ENTRY.

Definition elf_align_up (x : Z) : M S Z :=
  let! a := addM x FRAME_SIZE in
  let! a := subM a 1 in
  retM (Z.land a (not64 (FRAME_SIZE - 1))).
End slices.

(** The byte of the segment at [seg_off]: file contents, then zeros. *)
Definition segment_byte (image : list Z) (offset filesz seg_off : Z) : M mmu Z :=
  if seg_off <? filesz then
    let! i := addM offset seg_off in
    byte_at image i
  else retM 0.

(** [dst.add(b).write_volatile(byte)], through the identity map. *)
Definition write_frame_byte (dst b byte : Z) : M mmu unit :=
  modifyM (fun s => set_ph (set_ram (write8 (mem_of s) (dst + b) byte) (ph s)) s).

Definition fill_page (image : list Z) (offset filesz page frame : Z) : M mmu unit :=
  forM (zseq 0 (Z.to_nat FRAME_SIZE)) (fun b =>
    let! seg_off := addM page b in
    let! byte := segment_byte image offset filesz seg_off in
    write_frame_byte frame b byte).

(** One round of the page loop: the frame, its contents and its mapping. *)
Definition load_page (image : list Z) (l0 vaddr offset filesz : Z) (executable : bool)
    (perms page : Z) : M mmu (Z * Z) :=
  let! o := in_phys alloc_frame in
  let! frame := expectM o in
  fill_page image offset filesz page frame ;;;
  (if executable then
     let! _ := expectM (sync_instruction_cache frame FRAME_SIZE) in retM tt
   else retM tt) ;;;
  let! va := addM vaddr page in
  map_page_in l0 va frame perms ;;;
  retM (va, frame).

(** [while page < align_up(memsz) { .. page += FRAME_SIZE }]: a round per page, so
    [memsz / FRAME_SIZE + 2] rounds reach the exit. *)
Fixpoint load_pages (fuel : nat) (image : list Z) (l0 vaddr offset filesz memsz : Z)
    (executable : bool) (perms page : Z) (owned : list (Z * Z)) : M mmu (list (Z * Z)) :=
  match fuel with
  | O => panicM
  | Datatypes.S fuel' =>
      let! limit := elf_align_up memsz in
      if page <? limit then
        let! vf := load_page image l0 vaddr offset filesz executable perms page in
        let! page' := addM page FRAME_SIZE in
        load_pages fuel' image l0 vaddr offset filesz memsz executable perms page' (owned ++ [vf])
      else retM owned
  end.

Definition load_fuel (memsz : Z) : nat := Z.to_nat (memsz / FRAME_SIZE + 2).

(** The program header at [ph]; [None] for the entries the loader skips. *)
Record Segment := mkSegment { memsz : Z; filesz : Z; vaddr : Z; offset : Z; flags : Z }.

Definition read_segment {S} (image : list Z) (ph : Z) : M S (option Segment) :=
  let! a := addM ph P_TYPE in
  let! ty := read_u32 image a in
  if negb (ty =? PT_LOAD) then retM None
  else
    let! a := addM ph P_MEMSZ in
    let! memsz := read_u64 image a in
    if memsz =? 0 then retM None
    else
      let! a := addM ph P_FILESZ in
      let! filesz := read_u64 image a in
      let! a := addM ph P_VADDR in
      let! vaddr := read_u64 image a in
      let! a := addM ph P_OFFSET in
      let! offset := read_u64 image a in
      let! a := addM ph P_FLAGS in
      let! flags := read_u32 image a in
      retM (Some (mkSegment memsz filesz vaddr offset flags)).

(** Loader progress: ranges, their count, and the owned pages. *)
Record Loading := mkLoading { lranges : list Range; lcount : nat; lowned : list (Z * Z) }.

Definition load_segment (image : list Z) (l0 : Z) (seg : Segment) (st : Loading) : M mmu Loading :=
  assertM (vaddr seg mod FRAME_SIZE =? 0) ;;;
  let executable := negb (Z.land (flags seg) PF_X =? 0) in
  (if executable then assertM (Z.land (flags seg) PF_W =? 0) else retM tt) ;;;
  let perms := if executable then PAGE_USER_RX else PAGE_USER_RW in
  let! owned := load_pages (load_fuel (memsz seg)) image l0 (vaddr seg) (offset seg) (filesz seg)
                  (memsz seg) executable perms 0 (lowned st) in
  assertM (bool_decide (lcount st < MAX_SEGMENTS)%nat) ;;;
  let! e := addM (vaddr seg) (memsz seg) in
  retM (mkLoading (<[lcount st := mkRange (vaddr seg) e (negb executable)]> (lranges st))
          (lcount st + 1) owned).

(** [for i in 0..phnum]. *)
Fixpoint load_headers (image : list Z) (l0 phoff phentsize : Z) (idx : list Z) (st : Loading) :
    M mmu Loading :=
  match idx with
  | [] => retM st
  | i :: idx' =>
      let! ph := addM phoff (i * phentsize) in
      let! o := read_segment image ph in
      match o with
      | None => load_headers image l0 phoff phentsize idx' st
      | Some seg =>
          let! st' := load_segment image l0 seg st in
          load_headers image l0 phoff phentsize idx' st'
      end
  end.

Definition load (image : list Z) (ttbr0 : Z) : M mmu (Loaded * list (Z * Z)) :=
  let! entry := validate image in
  let l0 := l0_ptr ttbr0 in
  let! phoff := read_u64 image E_PHOFF in
  let! phentsize := read_u16 image E_PHENTSIZE in
  let! phnum := read_u16 image E_PHNUM in
  let! st := load_headers image l0 phoff phentsize (zseq 0 (Z.to_nat phnum))
               (mkLoading (replicate MAX_SEGMENTS (mkRange 0 0 false)) 0 []) in
  retM (mkLoaded entry (lranges st) (lcount st), lowned st).

(** ** What an image asks for *)

(** The loadable segments in header order. *)
Fixpoint headers (image : list Z) (phoff phentsize : Z) (idx : list Z) : M unit (list Segment) :=
  match idx with
  | [] => retM []
  | i :: idx' =>
      let! ph := addM phoff (i * phentsize) in
      let! o := read_segment image ph in
      let! segs := headers image phoff phentsize idx' in
      retM (match o with None => segs | Some seg => seg :: segs end)
  end.

Definition image_segments (image : list Z) : M unit (Z * list Segment) :=
  let! entry := validate image in
  let! phoff := read_u64 image E_PHOFF in
  let! phentsize := read_u16 image E_PHENTSIZE in
  let! phnum := read_u16 image E_PHNUM in
  let! segs := headers image phoff phentsize (zseq 0 (Z.to_nat phnum)) in
  retM (entry, segs).
