(* ===== verification/Loader.v ===== *)
(** * Correctness of the ELF loader

    Loading a well-formed image with frames to spare succeeds: every byte of every
    segment ends up where the program header asks, in frames of its own, with
    permissions that are never both writable and executable, and the rest of the
    system does not notice. *)

From Stdlib Require Import ZArith Lia.
From stdpp Require Import base numbers gmap list list_relations.
From S2P Require Import Prelude Memory Abi Frames Mmu PageTables AddressSpaces Reclaim Ownership.
From S2P Require Import VirtualMemory Isolation Elf.

(** ** Filling a frame *)

(** [s'] is [s] with the frame [f] holding [g], reached by stores to [f]. *)
Record frame_filled (R D : gset Z) (s : mmu) (f : Z) (g : Z -> Z) (n : Z) (s' : mmu) : Prop := {
  ff_steps : rtc vm_step (mkVm s R D) (mkVm s' R D);
  ff_inv : forall K A T l, vm_inv K A (mkVm s R D) T l -> vm_inv K A (mkVm s' R D) T l;
  ff_bytes : forall b, 0 <= b < n -> read8 (mem_of s') (f + b) = g b;
  ff_only : only_frame f (mem_of s) (mem_of s');
  ff_regs : s' = set_ph (ph s') s
}.

Definition seg_byte (image : list Z) (offset filesz seg_off : Z) : Z :=
  if seg_off <? filesz then image !!! Z.to_nat (offset + seg_off) else 0.

(** The part of the segment's file contents the page needs is in the image. *)
Definition page_in_image (image : list Z) (offset filesz page : Z) : Prop :=
  forall b, 0 <= b < FRAME_SIZE -> page + b < filesz -> offset + page + b < Z.of_nat (length image).

Lemma segment_byte_spec pan (image : list Z) offset filesz seg_off (s : mmu) :
  0 <= offset -> 0 <= seg_off -> Z.of_nat (length image) < 2 ^ 64 ->
  (seg_off < filesz -> offset + seg_off < Z.of_nat (length image)) ->
  wp pan (segment_byte image offset filesz seg_off)
    (fun v s' => v = seg_byte image offset filesz seg_off /\ s' = s) s.
Proof.
  intros Ho Hs Hlen Hin. unfold segment_byte, seg_byte.
  destruct (Z.ltb_spec seg_off filesz) as [Hlt|]; [|by wp_steps].
  specialize (Hin Hlt). wp_steps. apply wp_add; [lia|]. wp_steps. unfold byte_at.
  destruct (Z.ltb_spec (offset + seg_off) 0); [lia|].
  destruct (lookup_lt_is_Some_2 image (Z.to_nat (offset + seg_off))) as [x Hx]; [lia|].
  rewrite Hx. wp_steps. split; [|done]. symmetry. by apply list_lookup_total_correct.
Qed.

Lemma fill_page_spec pan image offset filesz page f R D s :
  0 <= offset -> 0 <= page < 2 ^ 63 -> Z.of_nat (length image) < 2 ^ 64 -> Forall (fun b => 0 <= b < 256) image ->
  page_in_image image offset filesz page -> f ∈ D ->
  wp pan (fill_page image offset filesz page f)
    (fun _ s' => frame_filled R D s f (fun b => seg_byte image offset filesz (page + b)) FRAME_SIZE s') s.
Proof.
  intros Ho Hp Hlen Hby Hin Hf. unfold fill_page. eapply wp_mono.
  { apply (wp_forM pan _ _ (fun done s' => frame_filled R D s f
      (fun b => seg_byte image offset filesz (page + b)) (Z.of_nat (length done)) s')).
    { split; [apply rtc_refl|done|cbn; lia|done|by destruct s]. }
    intros done b rest s1 Hseq [St Vi By On Rg].
    assert (Hb : b = Z.of_nat (length done) /\ 0 <= b < FRAME_SIZE).
    { assert (H : zseq 0 (Z.to_nat FRAME_SIZE) !! length done = Some b) by (by rewrite Hseq, list_lookup_middle).
      unfold zseq in H. rewrite list_lookup_fmap in H. destruct (seq 0 _ !! _) as [k|] eqn:E; [|done].
      apply lookup_seq in E as [-> Hlt]. injection H as <-. unfold FRAME_SIZE in *. lia. }
    destruct Hb as [Hbl Hb]. unfold FRAME_SIZE in *. wp_steps. apply wp_add; [lia|]. wp_steps.
    eapply wp_mono; [apply segment_byte_spec; [lia|lia|done|]|].
    { intros Hlt. specialize (Hin b Hb Hlt). lia. }
    intros v s2 [-> ->]. unfold write_frame_byte. wp_steps.
    assert (Hv : 0 <= seg_byte image offset filesz (page + b) < 256).
    { unfold seg_byte. destruct (Z.ltb_spec (page + b) filesz) as [Hlt|]; [|lia].
      rewrite Forall_forall in Hby. apply Hby, list_elem_of_lookup_total_2.
      specialize (Hin b Hb Hlt). unfold FRAME_SIZE in *. lia. }
    split; cbn [ph set_ph ram set_ram].
    - eapply rtc_r; [exact St|]. by apply vs_store.
    - intros K A T l Hvm. by apply store_step; [apply Vi| |].
    - intros c Hc. rewrite length_app in Hc. cbn [length] in Hc.
      destruct (decide (c = b)) as [->|Hne].
      + rewrite read8_write8_eq. by apply wrap8_id.
      + rewrite read8_write8_ne by lia. apply By. lia.
    - intros a Ha. rewrite read8_write8_ne by (unfold FRAME_SIZE in *; lia). by apply On.
    - by apply set_ph_regs. }
  intros [] s' H. by rewrite length_zseq in H.
Qed.

(** ** One page *)

Record page := mkPage { pva : Z; pframe : Z; pperms : Z; pbytes : Z -> Z }.

Definition user_perms (perms : Z) : Prop := perms = PAGE_USER_RX \/ perms = PAGE_USER_RW.

Lemma page_ok_user f perms : valid_frame f -> user_perms perms -> page_ok f perms.
Proof.
  intros Hf Hp. pose proof (valid_frame_range _ Hf). destruct Hf as (Ha & _).
  destruct Hp as [-> | ->]; (split; [done|lia|by vm_compute..]).
Qed.

(** A page was added to the space [r]: from [s] to [s'], the pool going from [l]
    to [l'], the data frames gaining the page's frame. *)
Record page_added (K A R D : gset Z) (r : Z) (s : mmu) (T : gmap Z nat) (l : list Z)
    (pg : page) (s' : mmu) (T' : gmap Z nat) (l' : list Z) : Prop := {
  pa_inv : vm_inv K A (mkVm s' R ({[pframe pg]} ∪ D)) T' l';
  pa_steps : rtc vm_step (mkVm s R D) (mkVm s' R ({[pframe pg]} ∪ D));
  pa_fresh : pframe pg ∉ D;
  pa_sub : T ⊆ T';
  pa_pool : (length l <= length l' + 4)%nat;
  pa_bytes : forall b, 0 <= b < FRAME_SIZE -> read8 (mem_of s') (pframe pg + b) = pbytes pg b;
  pa_data : forall g, g ∈ D -> same_on (mem_of s) (mem_of s') g FRAME_SIZE;
  pa_hw : forall r' va', T !! r' = Some O -> canonical va' ->
    hw_walk (mem_of s') 3 r' va' =
      if decide (on_page r (pva pg) r' va') then Some (O, Z.lor (pframe pg) (pperms pg))
      else hw_walk (mem_of s) 3 r' va';
  pa_regs : s' = set_ph (ph s') s
}.

(** A frame taken from the pool, filled, and mapped. *)
Lemma add_page K A R D r va perms f g s T l s1 s2 s3 :
  vm_inv K A (mkVm s R D) T (f :: l) -> r ∈ R -> user_perms perms -> 2 ^ 39 <= va < 2 ^ 40 ->
  in_phys alloc_frame s = Ret (Some f, s1) -> frame_filled R ({[f]} ∪ D) s1 f g FRAME_SIZE s2 ->
  map_page_in r va f perms s2 = Ret (tt, s3) ->
  exists T' l', page_added K A R D r s T (f :: l) (mkPage va f perms g) s3 T' l'.
Proof.
  intros Hv Hr Hperm Hva Halloc [St2 Vi2 By2 On2 Rg2] Hmap.
  pose proof (vi_mm _ _ _ _ _ Hv) as Hmm. cbn [vs] in Hmm.
  destruct (alloc_step _ _ _ _ _ _ _ _ _ Hv Halloc) as (l0 & [= <-] & Hram1 & Hv1).
  assert (Rg1 : s1 = set_ph (ph s1) s) by (by apply in_phys_ret in Halloc as (p1 & _ & ->)).
  assert (Hfv : valid_frame f) by (eapply free_inv_in_valid; [apply Hmm|apply list_elem_of_here]).
  assert (Hfresh : f ∉ D).
  { intros Hd. destruct (vi_data _ _ _ _ _ Hv f Hd) as (_ & _ & Hno). apply Hno, list_elem_of_here. }
  specialize (Vi2 _ _ _ _ Hv1).
  destruct (map_step _ _ _ _ _ _ _ _ _ _ _ _ Vi2 Hr (elem_of_new f D) Hva (page_ok_user _ _ Hfv Hperm) Hmap)
    as (T' & l' & Hv4 & [I4 Sub4 U4 X4 M4 Rg4]).
  exists T', l'. split; cbn [pva pframe pperms pbytes fst snd].
  - done.
  - eapply rtc_l; [by apply vs_alloc|]. eapply rtc_r; [exact St2|].
    eapply vs_map; [exact Hr|apply elem_of_new| |by apply page_ok_user|exact Hmap]. lia.
  - done.
  - done.
  - destruct U4 as (used & -> & _ & Hu). cbn [length]. rewrite length_app. lia.
  - intros b Hb. destruct (vi_data _ _ _ _ _ Hv4 f (elem_of_new f D)) as (_ & HfT & _).
    rewrite (M4 f Hfv HfT (f + b)) by (unfold FRAME_SIZE in *; lia). by apply By2.
  - intros h Hg b Hb. assert (HgD : h ∈ {[f]} ∪ D) by (apply elem_of_union; by right).
    destruct (vi_data _ _ _ _ _ Hv4 h HgD) as (Hgv & HgT & _).
    rewrite (M4 h Hgv HgT b Hb). rewrite (only_frame_other f _ _ h On2 Hfv Hgv); [|by intros ->|done].
    by rewrite Hram1.
  - intros r' va' Hr' Hva'. rewrite X4 by done.
    destruct (decide (on_page r va r' va')) as [Hon|Hno].
    + by rewrite decide_True by (by apply hits_user; [lia|]).
    + rewrite decide_False by (rewrite hits_user by lia; done).
      pose proof (same_tables s T (f :: l) (mem_of s2) Hmm) as Hst. apply Hst; [|done].
      intros t lv i Ht Hi. apply entry_same_frame; [|done].
      assert (Hne : f <> t) by (intros ->; rewrite (mi_sep _ _ _ Hmm t (list_elem_of_here _ _)) in Ht; done).
      intros b Hb. rewrite (only_frame_other f _ _ t On2 Hfv (table_valid _ _ _ _ _ Hmm Ht) Hne b Hb).
      by rewrite Hram1.
  - rewrite Rg4, Rg2, Rg1. done.
Qed.

(** Taking a frame: the pool's first, or out of memory. *)
Lemma alloc_run s T l :
  mm_inv s T l -> exists s1, in_phys alloc_frame s = Ret (hd_error l, s1).
Proof.
  intros Hmm. destruct (wp_result _ _ _ (pop_spec _ _ (mi_pool _ _ _ Hmm))) as (o & p1 & Hrun & Ho).
  exists (set_ph p1 s). unfold in_phys, zoomM. change alloc_frame with pop. rewrite Hrun.
  by destruct l; destruct Ho as [-> _].
Qed.

Lemma alloc_wp {B} pan s T l (k : Z -> M mmu B) Q :
  mm_inv s T l -> (l = [] -> pan) ->
  (forall f l' s1, l = f :: l' -> in_phys alloc_frame s = Ret (Some f, s1) -> wp pan (k f) Q s1) ->
  wp pan (let! o := in_phys alloc_frame in let! f := expectM o in k f) Q s.
Proof.
  intros Hmm Hpan Hk. destruct (alloc_run _ _ _ Hmm) as [s1 Hrun]. unfold wp, bindM. rewrite Hrun.
  destruct l as [|f l']; cbn; [by apply Hpan|]. by apply (Hk f l').
Qed.

Lemma load_page_spec (pan : Prop) K A R D r image vaddr offset filesz (x : bool) perms pg s T l :
  vm_inv K A (mkVm s R D) T l -> r ∈ R -> ((length l < 4)%nat -> pan) -> user_perms perms ->
  0 <= offset -> 0 <= pg < 2 ^ 63 -> 0 <= vaddr -> 2 ^ 39 <= vaddr + pg < 2 ^ 40 ->
  Z.of_nat (length image) < 2 ^ 64 -> Forall (fun b => 0 <= b < 256) image ->
  page_in_image image offset filesz pg ->
  wp pan (load_page image r vaddr offset filesz x perms pg) (fun vf s' => exists T' l',
    vf.1 = vaddr + pg /\
    page_added K A R D r s T l
      (mkPage vf.1 vf.2 perms (fun b => seg_byte image offset filesz (pg + b))) s' T' l') s.
Proof.
  intros Hv Hr Hlen Hperm Ho Hpg Hva0 Hva Hil Hby Hin.
  pose proof (vi_mm _ _ _ _ _ Hv) as Hmm. cbn [vs] in Hmm.
  unfold load_page. eapply alloc_wp; [exact Hmm|intros ->; apply Hlen; cbn; lia|].
  intros f l' s1 -> Halloc. rename l' into l. wp_steps.
  destruct (alloc_step _ _ _ _ _ _ _ _ _ Hv Halloc) as (l0 & [= <-] & _ & Hv1).
  assert (Hfv : valid_frame f) by (eapply free_inv_in_valid; [apply Hmm|apply list_elem_of_here]).
  eapply wp_mono; [by apply (fill_page_spec pan _ _ _ _ f R ({[f]} ∪ D)), elem_of_new|].
  intros [] s2 Hfill. pose proof (ff_inv _ _ _ _ _ _ _ Hfill _ _ _ _ Hv1) as Vi2.
  pose proof (vi_mm _ _ _ _ _ Vi2) as Hmm2. cbn [vs] in Hmm2.
  assert (HrT : T !! r = Some O) by (apply (vi_roots _ _ _ _ _ Vi2); by right).
  wp_step. apply (wp_mono pan _ (fun _ s' => s' = s2)).
  { destruct x; [|by wp_steps]. pose proof (valid_frame_range _ Hfv).
    wp_steps. destruct (sync_cache_total f FRAME_SIZE) as [ops ->]; [unfold FRAME_SIZE, LINE; lia..|]. by wp_steps. }
  intros [] s3 ->. wp_step. apply wp_add; [lia|]. wp_steps.
  eapply wp_mono; [apply wp_eq, (map_page_in_spec pan s2 T l r (vaddr + pg) f perms Hmm2 HrT);
    [split; lia|by apply page_ok_user|intros Hn; apply Hlen; cbn [length]; lia]|].
  intros [] s4 [Hmap _]. wp_steps. cbn [fst snd].
  destruct (add_page _ _ _ _ _ _ _ _ _ _ _ _ _ _ _ Hv Hr Hperm Hva Halloc Hfill Hmap) as (T' & l' & Hadd).
  by exists T', l'.
Qed.

(** ** What EL0 sees through a page *)

Lemma testbit_page f perms i :
  valid_frame f -> (i < 12 \/ 48 <= i) -> Z.testbit (Z.lor f perms) i = Z.testbit perms i.
Proof.
  intros Hf Hi. pose proof (valid_frame_range _ Hf) as Hr. destruct Hf as (Ha & _).
  rewrite Z.lor_spec. destruct (Z.neg_nonneg_cases i) as [Hn|Hn]; [by rewrite !Z.testbit_neg_r|].
  replace (Z.testbit f i) with false; [done|]. symmetry. destruct Hi as [Hi|Hi].
  - unfold FRAME_SIZE in Ha. change 4096 with (2 ^ 12) in Ha.
    rewrite <-(Z.mod_pow2_bits_low f 12 i Hi). by rewrite Ha, Z.bits_0.
  - destruct (Z.eq_dec f 0) as [->|]; [apply Z.bits_0|]. apply Z.bits_above_log2; [lia|].
    assert (Z.log2 f < 48) by (apply Z.log2_lt_pow2; lia). lia.
Qed.

Lemma page_pa f perms va : valid_frame f -> user_perms perms -> hw_pa O (Z.lor f perms) va = f + va mod 4096.
Proof.
  intros Hf Hp. pose proof (valid_frame_range _ Hf) as Hr. pose proof Hf as (Ha & _).
  unfold hw_pa. cbn [Z.of_nat]. f_equal. rewrite Z.land_lor_distr_l.
  replace (Z.land perms _) with 0 by (destruct Hp as [-> | ->]; by vm_compute).
  rewrite Z.lor_0_r. change (36 - 9 * 0) with 36. change (12 + 9 * 0) with 12.
  apply Z.bits_inj'. intros i Hi. rewrite Z.land_spec, Z.shiftl_spec by done.
  destruct (decide (i < 12 \/ 48 <= i)) as [Ho|Ho].
  - pose proof (testbit_page f 0 i Hf Ho) as E. rewrite Z.lor_0_r, Z.bits_0 in E. by rewrite E.
  - rewrite Z.ones_spec_low, andb_true_r by lia. done.
Qed.

Lemma mmu_walk_canonical m root va : canonical va -> mmu_walk m root va = hw_walk m 3 root va.
Proof.
  intros [H0 H1]. unfold mmu_walk. destruct (Z.leb_spec 0 va); [|lia].
  by destruct (Z.ltb_spec va (2 ^ 48)); [|lia].
Qed.

Lemma el0_load_page m root va f perms :
  canonical va -> hw_walk m 3 root va = Some (O, Z.lor f perms) -> valid_frame f -> user_perms perms ->
  el0_load m root va = Some (read8 m (f + va mod 4096)).
Proof.
  intros Hc Hw Hf Hp. unfold el0_load, el0_readable. rewrite mmu_walk_canonical, Hw, testbit_page, page_pa by (done || lia).
  by destruct Hp as [-> | ->].
Qed.

Lemma el0_store_page m root va f b :
  canonical va -> hw_walk m 3 root va = Some (O, Z.lor f PAGE_USER_RW) -> valid_frame f ->
  el0_store m root va b = Some (write8 m (f + va mod 4096) b).
Proof.
  intros Hc Hw Hf. unfold el0_store, el0_writable. rewrite mmu_walk_canonical, Hw, !testbit_page, page_pa by (done || lia || by right).
  done.
Qed.

Lemma el0_fetch_page m root va f perms :
  canonical va -> hw_walk m 3 root va = Some (O, Z.lor f perms) -> valid_frame f -> user_perms perms ->
  el0_fetchable m root va = bool_decide (perms = PAGE_USER_RX).
Proof.
  intros Hc Hw Hf Hp. unfold el0_fetchable, el0_executable. rewrite mmu_walk_canonical, Hw, testbit_page by (done || lia).
  by destruct Hp as [-> | ->].
Qed.

Lemma el0_store_ro m root va f b :
  canonical va -> hw_walk m 3 root va = Some (O, Z.lor f PAGE_USER_RX) -> valid_frame f -> el0_store m root va b = None.
Proof.
  intros Hc Hw Hf. unfold el0_store, el0_writable. rewrite mmu_walk_canonical, Hw, !testbit_page by (done || lia). done.
Qed.

(** ** Many pages *)

Definition with_frames (pgs : list page) (D : gset Z) : gset Z := list_to_set (pframe <$> pgs) ∪ D.

Lemma with_frames_snoc pgs pg D :
  with_frames (pgs ++ [pg]) D = {[pframe pg]} ∪ with_frames pgs D.
Proof. unfold with_frames. rewrite fmap_app, list_to_set_app_L. cbn. set_solver. Qed.

Lemma elem_of_with_frames pgs D f : f ∈ with_frames pgs D <-> (exists pg, pg ∈ pgs /\ pframe pg = f) \/ f ∈ D.
Proof.
  unfold with_frames. rewrite elem_of_union, elem_of_list_to_set, list_elem_of_fmap. naive_solver.
Qed.

(** The pages [pgs] were added to the space [r], in order. *)
Record pages_added (K A R D : gset Z) (r : Z) (s : mmu) (T : gmap Z nat) (l : list Z)
    (pgs : list page) (s' : mmu) (T' : gmap Z nat) (l' : list Z) : Prop := {
  ps_inv : vm_inv K A (mkVm s' R (with_frames pgs D)) T' l';
  ps_steps : rtc vm_step (mkVm s R D) (mkVm s' R (with_frames pgs D));
  ps_fresh : NoDup (pframe <$> pgs) /\ forall pg, pg ∈ pgs -> pframe pg ∉ D;
  ps_distinct : NoDup ((fun pg => pva pg / 4096) <$> pgs);
  ps_sub : T ⊆ T';
  ps_pool : (length l <= length l' + 4 * length pgs)%nat;
  ps_bytes : forall pg b, pg ∈ pgs -> 0 <= b < FRAME_SIZE -> read8 (mem_of s') (pframe pg + b) = pbytes pg b;
  ps_data : forall g, g ∈ D -> same_on (mem_of s) (mem_of s') g FRAME_SIZE;
  ps_hit : forall pg va', pg ∈ pgs -> canonical va' -> va' / 4096 = pva pg / 4096 ->
    hw_walk (mem_of s') 3 r va' = Some (O, Z.lor (pframe pg) (pperms pg));
  ps_miss : forall r' va', T !! r' = Some O -> canonical va' ->
    (forall pg, pg ∈ pgs -> ~ on_page r (pva pg) r' va') ->
    hw_walk (mem_of s') 3 r' va' = hw_walk (mem_of s) 3 r' va';
  ps_regs : s' = set_ph (ph s') s
}.

Lemma pages_added_nil K A R D r s T l :
  vm_inv K A (mkVm s R D) T l -> pages_added K A R D r s T l [] s T l.
Proof.
  intros Hv. assert (E : with_frames [] D = D) by (unfold with_frames; cbn; set_solver).
  split; rewrite ?E.
  - done.
  - apply rtc_refl.
  - split; [constructor|by intros ? ?%elem_of_nil].
  - constructor.
  - done.
  - cbn. lia.
  - by intros ? ? ?%elem_of_nil.
  - done.
  - by intros ? ? ?%elem_of_nil.
  - done.
  - by destruct s.
Qed.

Lemma pages_added_snoc K A R D r s T l pgs s1 T1 l1 pg s2 T2 l2 :
  r ∈ R ->
  pages_added K A R D r s T l pgs s1 T1 l1 ->
  page_added K A R (with_frames pgs D) r s1 T1 l1 pg s2 T2 l2 ->
  (forall q, q ∈ pgs -> pva q / 4096 <> pva pg / 4096) ->
  pages_added K A R D r s T l (pgs ++ [pg]) s2 T2 l2.
Proof.
  intros HrR [I1 S1 [F1 F1'] N1 B1 P1 Y1 Da1 H1 M1 R1] [I2 S2 F2 B2 P2 Y2 Da2 H2 R2] Hnew.
  assert (Hr1 : T1 !! r = Some O) by (apply (vi_roots _ _ _ _ _ I1); by right).
  assert (Hsn : forall q, q ∈ pgs ++ [pg] <-> q ∈ pgs \/ q = pg)
    by (intros q; by rewrite elem_of_app, list_elem_of_singleton).
  rewrite elem_of_with_frames in F2.
  split; rewrite ?with_frames_snoc.
  - done.
  - by etransitivity.
  - split; [|intros q [?| ->]%Hsn; [by apply F1'|tauto]].
    rewrite fmap_app. apply NoDup_app. split; [done|]. split; [|apply NoDup_singleton].
    intros x (q & -> & Hq)%list_elem_of_fmap E%list_elem_of_singleton. apply F2. left. eauto.
  - rewrite fmap_app. apply NoDup_app. split; [done|]. split; [|apply NoDup_singleton].
    intros x (q & -> & Hq)%list_elem_of_fmap E%list_elem_of_singleton. by apply (Hnew q).
  - by etransitivity.
  - rewrite length_app. cbn. lia.
  - intros q b [Hq| ->]%Hsn Hb; [|by apply Y2].
    rewrite (Da2 (pframe q)); [by apply Y1| |lia]. apply elem_of_with_frames. left. eauto.
  - intros g Hg b Hb. rewrite (Da2 g), (Da1 g); [done|done|done| |done].
    apply elem_of_with_frames. by right.
  - intros q va' [Hq| ->]%Hsn Hva Hpg; rewrite H2 by done.
    + rewrite decide_False; [by apply H1|]. intros [_ E]. apply (Hnew q Hq). congruence.
    + by rewrite decide_True.
  - intros r' va' Hr' Hva Hno. rewrite H2 by (done || by eapply lookup_weaken).
    rewrite decide_False by (apply Hno, Hsn; by right). apply M1; [done|done|].
    intros q Hq. apply Hno, Hsn. by left.
  - rewrite R2. cbn. by rewrite R1.
Qed.

(** ** A segment *)

Definition seg_executable (seg : Segment) : bool := negb (Z.land (flags seg) PF_X =? 0).
Definition seg_perms (seg : Segment) : Z := if seg_executable seg then PAGE_USER_RX else PAGE_USER_RW.
Definition npages (seg : Segment) : nat := Z.to_nat ((memsz seg + (FRAME_SIZE - 1)) / FRAME_SIZE).

(** What the loader requires of a program header (and what it does not check: that
    the segment lies in the user window). *)
Record seg_ok (image : list Z) (seg : Segment) : Prop := {
  so_aligned : vaddr seg mod FRAME_SIZE = 0;
  so_memsz : 0 < memsz seg;
  so_offset : 0 <= offset seg;
  so_window : 2 ^ 39 <= vaddr seg /\ vaddr seg + FRAME_SIZE * Z.of_nat (npages seg) <= 2 ^ 40;
  so_file : offset seg + Z.min (filesz seg) (FRAME_SIZE * Z.of_nat (npages seg)) <= Z.of_nat (length image);
  so_wx : seg_executable seg = true -> Z.land (flags seg) PF_W = 0
}.

(** The [i]-th page the segment asks for. *)
Record wanted (image : list Z) (seg : Segment) (i : nat) (pg : page) : Prop := {
  wa_va : pva pg = vaddr seg + FRAME_SIZE * Z.of_nat i;
  wa_perms : pperms pg = seg_perms seg;
  wa_bytes : forall b, pbytes pg b = seg_byte image (offset seg) (filesz seg) (FRAME_SIZE * Z.of_nat i + b)
}.

Lemma npages_bounds image seg :
  seg_ok image seg ->
  memsz seg <= FRAME_SIZE * Z.of_nat (npages seg) < memsz seg + FRAME_SIZE /\
  FRAME_SIZE * Z.of_nat (npages seg) < 2 ^ 40.
Proof. intros [_ Hm _ Hw _ _]. unfold npages, FRAME_SIZE in *. zlia. Qed.

Lemma elf_align_up_spec {S} pan image seg (s : S) :
  seg_ok image seg ->
  wp pan (elf_align_up (memsz seg)) (fun r s' => r = FRAME_SIZE * Z.of_nat (npages seg) /\ s' = s) s.
Proof.
  intros Hok. pose proof (npages_bounds _ _ Hok) as Hb. pose proof (so_memsz _ _ Hok) as Hm.
  unfold elf_align_up, FRAME_SIZE in *. wp_steps. apply wp_add; [lia|]. wp_steps. apply wp_sub; [lia|]. wp_steps.
  split; [|done]. change (4096 - 1) with (2 ^ 12 - 1). rewrite land_not64 by lia.
  change (2 ^ 12) with 4096. unfold npages, FRAME_SIZE. zlia.
Qed.

Definition owned_pages (pgs : list page) : list (Z * Z) := (fun pg => (pva pg, pframe pg)) <$> pgs.

(** No page of [seg] is among [pgs]. *)
Definition seg_clear (seg : Segment) (pgs : list page) : Prop :=
  forall q i, q ∈ pgs -> (i < npages seg)%nat ->
    pva q / 4096 <> (vaddr seg + FRAME_SIZE * Z.of_nat i) / 4096.

Section segments.
Context (pan : Prop) (K A R D : gset Z) (r : Z) (s0 : mmu) (T0 : gmap Z nat) (l0 : list Z) (image : list Z).
Hypothesis HrR : r ∈ R.
Hypothesis Hlen : Z.of_nat (length image) < 2 ^ 64.
Hypothesis Hbytes : Forall (fun b => 0 <= b < 256) image.

Lemma load_pages_spec seg k i fuel pgs s T l :
  seg_ok image seg -> (i + k = npages seg)%nat -> (k < fuel)%nat ->
  pages_added K A R D r s0 T0 l0 pgs s T l -> ((length l < 4 * k)%nat -> pan) ->
  (forall q j, q ∈ pgs -> (i <= j < npages seg)%nat ->
     pva q / 4096 <> (vaddr seg + FRAME_SIZE * Z.of_nat j) / 4096) ->
  wp pan (load_pages fuel image r (vaddr seg) (offset seg) (filesz seg) (memsz seg)
      (seg_executable seg) (seg_perms seg) (FRAME_SIZE * Z.of_nat i) (owned_pages pgs))
    (fun owned s' => exists new T' l', owned = owned_pages (pgs ++ new) /\
       Forall2 (wanted image seg) (seq i k) new /\
       pages_added K A R D r s0 T0 l0 (pgs ++ new) s' T' l') s.
Proof.
  intros Hok. pose proof (npages_bounds _ _ Hok) as Hb. pose proof (so_window _ _ Hok) as Hw.
  pose proof (so_file _ _ Hok) as Hfile. pose proof (so_offset _ _ Hok).
  revert i fuel pgs s T l. induction k as [|k IH]; intros i [|fuel] pgs s T l Hi Hf Hp Hl Hcl; try lia;
    cbn [load_pages]; wp_steps; (eapply wp_mono; [by apply (elf_align_up_spec pan image)|]); intros lim s1 [-> ->].
  - destruct (Z.ltb_spec (FRAME_SIZE * Z.of_nat i) (FRAME_SIZE * Z.of_nat (npages seg)));
      [unfold FRAME_SIZE in *; lia|]. wp_steps. exists [], T, l. rewrite app_nil_r. by split_and!.
  - destruct (Z.ltb_spec (FRAME_SIZE * Z.of_nat i) (FRAME_SIZE * Z.of_nat (npages seg)));
      [|unfold FRAME_SIZE in *; lia].
    wp_step. eapply wp_mono.
    { apply (load_page_spec pan K A R (with_frames pgs D) r); try done.
      - apply Hp.
      - intros ?. apply Hl. lia.
      - unfold user_perms, seg_perms. destruct (seg_executable seg); tauto.
      - unfold FRAME_SIZE in *. lia.
      - lia.
      - unfold FRAME_SIZE in *. lia.
      - intros b Hb' Hlt. unfold FRAME_SIZE in *. lia. }
    intros [va f] s2 (T2 & l2 & Hva & Hadd). cbn [fst snd] in *. wp_step.
    apply wp_add; [unfold FRAME_SIZE in *; lia|].
    set (pg := mkPage va f (seg_perms seg) _) in *.
    assert (Hp2 : pages_added K A R D r s0 T0 l0 (pgs ++ [pg]) s2 T2 l2).
    { eapply pages_added_snoc; [exact HrR|exact Hp|exact Hadd|]. intros q Hq. cbn [pva pg]. rewrite Hva.
      apply (Hcl q i Hq). lia. }
    replace (FRAME_SIZE * Z.of_nat i + FRAME_SIZE) with (FRAME_SIZE * Z.of_nat (S i)) by lia.
    replace (owned_pages pgs ++ [(va, f)]) with (owned_pages (pgs ++ [pg]))
      by (unfold owned_pages; by rewrite fmap_app).
    eapply wp_mono.
    { apply (IH (S i) fuel (pgs ++ [pg]) s2 T2 l2); [lia|lia|done| |].
      - intros ?. apply Hl. pose proof (pa_pool _ _ _ _ _ _ _ _ _ _ _ _ Hadd). lia.
      - intros q j [Hq| ->%list_elem_of_singleton]%elem_of_app Hj; [apply (Hcl q j Hq); lia|].
        cbn [pva pg]. rewrite Hva. unfold FRAME_SIZE. zlia. }
    intros owned s3 (new & T3 & l3 & -> & Hnew & Hp3).
    exists (pg :: new), T3, l3. rewrite <-app_assoc in *. cbn [app] in *. split; [done|]. split; [|done].
    cbn [seq]. constructor; [|done]. by split.
Qed.

Definition seg_range (seg : Segment) : Range :=
  mkRange (vaddr seg) (vaddr seg + memsz seg) (negb (seg_executable seg)).

Lemma load_segment_spec seg pgs rs c s T l :
  seg_ok image seg -> pages_added K A R D r s0 T0 l0 pgs s T l -> ((length l < 4 * npages seg)%nat -> pan) ->
  seg_clear seg pgs -> (c < MAX_SEGMENTS)%nat ->
  wp pan (load_segment image r seg (mkLoading rs c (owned_pages pgs)))
    (fun st' s' => exists new T' l',
       st' = mkLoading (<[c := seg_range seg]> rs) (c + 1) (owned_pages (pgs ++ new)) /\
       Forall2 (wanted image seg) (seq 0 (npages seg)) new /\
       pages_added K A R D r s0 T0 l0 (pgs ++ new) s' T' l') s.
Proof.
  intros Hok Hp Hl Hcl Hc. pose proof (npages_bounds _ _ Hok) as Hb. pose proof (so_window _ _ Hok) as Hw.
  unfold load_segment. wp_step. rewrite (so_aligned _ _ Hok). wp_step; [|done]. fold (seg_executable seg).
  wp_step. apply (wp_mono pan _ (fun _ s' => s' = s)).
  { destruct (seg_executable seg) eqn:E; [|by wp_steps]. rewrite (so_wx _ _ Hok E). by wp_steps. }
  intros [] s1 ->. fold (seg_perms seg). cbn [lowned lcount lranges]. wp_step. eapply wp_mono.
  { apply (load_pages_spec seg (npages seg) 0 (load_fuel (memsz seg)) pgs s T l); try done.
    - unfold load_fuel, npages, FRAME_SIZE. pose proof (so_memsz _ _ Hok). zlia.
    - intros q j Hq Hj. apply Hcl; [done|lia]. }
  intros owned s2 (new & T2 & l2 & -> & Hnew & Hp2). wp_step. rewrite bool_decide_eq_true_2 by done.
  wp_steps; [|done]. apply wp_add; [unfold FRAME_SIZE in *; lia|]. wp_steps. exists new, T2, l2. done.
Qed.
End segments.

(** ** The header table *)

(** A reader of the image does the same in any state, and leaves it alone. *)
Definition sim {S A} (m1 : M unit A) (m2 : M S A) : Prop :=
  forall s, m2 s = match m1 tt with Ret (a, _) => Ret (a, s) | Panic => Panic end.

Lemma wp_sim {S A} pan (m1 : M unit A) (m2 : M S A) Q a s :
  sim m1 m2 -> m1 tt = Ret (a, tt) -> Q a s -> wp pan m2 Q s.
Proof. intros Hs Hm HQ. unfold wp. by rewrite (Hs s), Hm. Qed.

Lemma sim_run {S A B} (m1 : M unit A) (m2 : M S A) (k : A -> M S B) s r :
  sim m1 m2 -> bindM m2 k s = Ret r -> exists a, m1 tt = Ret (a, tt) /\ k a s = Ret r.
Proof. intros Hs. unfold bindM. rewrite (Hs s). destruct (m1 tt) as [[a []]|]; [eauto|done]. Qed.

Lemma sim_ret {S A} (a : A) : sim (retM a) (retM a : M S A).
Proof. done. Qed.

Lemma sim_panic {S A} : sim panicM (panicM : M S A).
Proof. done. Qed.

Lemma sim_bind {S A B} (m1 : M unit A) (m2 : M S A) (k1 : A -> M unit B) (k2 : A -> M S B) :
  sim m1 m2 -> (forall a, sim (k1 a) (k2 a)) -> sim (bindM m1 k1) (bindM m2 k2).
Proof.
  intros Hm Hk s. unfold bindM. rewrite (Hm s). destruct (m1 tt) as [[a []]|]; [apply Hk|done].
Qed.

Lemma sim_expect {S A} (o : option A) : sim (expectM o) (expectM o : M S A).
Proof. by destruct o. Qed.

Lemma sim_assert {S} (b : bool) : sim (assertM b) (assertM b : M S unit).
Proof. by destruct b. Qed.

Lemma sim_byte_at {S} b off : sim (byte_at b off) (byte_at b off : M S Z).
Proof. unfold byte_at. destruct (off <? 0); [apply sim_panic|apply sim_expect]. Qed.

Lemma sim_le_bytes {S} n b off : sim (le_bytes n b off) (le_bytes n b off : M S Z).
Proof.
  revert off. induction n as [|n IH]; intros off; cbn [le_bytes]; [apply sim_ret|].
  apply sim_bind; [apply sim_byte_at|]. intros x. apply sim_bind; [apply IH|]. intros y. apply sim_ret.
Qed.

Lemma sim_add {S} a b : sim (addM a b) (addM a b : M S Z).
Proof. apply sim_expect. Qed.

Create HintDb readers.
#[export] Hint Resolve sim_ret sim_bind sim_expect sim_assert sim_byte_at sim_le_bytes sim_add : readers.

Lemma sim_read_u64 {S} b off : sim (read_u64 b off) (read_u64 b off : M S Z).
Proof. unfold read_u64. auto with readers. Qed.
#[export] Hint Resolve sim_read_u64 : readers.

Lemma sim_read_segment {S} image ph : sim (read_segment image ph) (read_segment image ph : M S (option Segment)).
Proof.
  unfold read_segment, read_u32. apply sim_bind; [auto with readers|]. intros a.
  apply sim_bind; [auto with readers|]. intros ty. destruct (negb _); [auto with readers|].
  apply sim_bind; [auto with readers|]. intros b. apply sim_bind; [auto with readers|]. intros m.
  destruct (m =? 0); [auto with readers|].
  repeat (apply sim_bind; [auto with readers|intros]). auto with readers.
Qed.

Lemma sim_validate {S} image : sim (validate image) (validate image : M S Z).
Proof.
  unfold validate, read_u16. repeat (apply sim_bind; [auto with readers|intros]); auto with readers.
Qed.

(** ** Whole images *)

(** Two segments that share no page. *)
Definition segs_apart (a b : Segment) : Prop :=
  forall i j, (i < npages a)%nat -> (j < npages b)%nat ->
    (vaddr a + FRAME_SIZE * Z.of_nat i) / 4096 <> (vaddr b + FRAME_SIZE * Z.of_nat j) / 4096.

Definition total_pages (segs : list Segment) : nat := sum_list_with npages segs.

(** [chunks] are the pages of the segments [segs], in order. *)
Definition chunks_of (image : list Z) (segs : list Segment) (chunks : list (list page)) : Prop :=
  Forall2 (fun seg chunk => Forall2 (wanted image seg) (seq 0 (npages seg)) chunk) segs chunks.

Lemma wanted_va image seg chunk q :
  Forall2 (wanted image seg) (seq 0 (npages seg)) chunk -> q ∈ chunk ->
  exists i, (i < npages seg)%nat /\ wanted image seg i q.
Proof.
  intros H Hq. apply list_elem_of_lookup in Hq as [k Hk].
  destruct (Forall2_lookup_r _ _ _ _ _ H Hk) as (i & Hi & Hw).
  apply lookup_seq in Hi as [-> Hi]. eauto.
Qed.

Lemma chunks_clear image segs chunks seg :
  chunks_of image segs chunks -> Forall (fun a => segs_apart a seg) segs -> seg_clear seg (concat chunks).
Proof.
  intros Hc Ha q j Hq Hj. apply list_elem_of_In, in_concat in Hq as (chunk & Hch & Hq).
  apply list_elem_of_In in Hch, Hq. apply list_elem_of_lookup in Hch as [k Hk].
  destruct (Forall2_lookup_r _ _ _ _ _ Hc Hk) as (a & Hak & Hw).
  destruct (wanted_va _ _ _ _ Hw Hq) as (i & Hi & Hwq). rewrite (wa_va _ _ _ _ Hwq).
  rewrite Forall_lookup in Ha. by apply (Ha _ _ Hak).
Qed.

Section load.
Context (pan : Prop) (K A R D : gset Z) (r : Z) (s0 : mmu) (T0 : gmap Z nat) (l0 : list Z) (image : list Z).
Hypothesis HrR : r ∈ R.
Hypothesis Hlen : Z.of_nat (length image) < 2 ^ 64.
Hypothesis Hbytes : Forall (fun b => 0 <= b < 256) image.

Lemma load_headers_spec phoff phentsize idx done todo chunks s T l :
  headers image phoff phentsize idx tt = Ret (todo, tt) ->
  Forall (seg_ok image) todo -> ForallOrdPairs segs_apart (done ++ todo) ->
  chunks_of image done chunks -> (length (done ++ todo) <= MAX_SEGMENTS)%nat ->
  pages_added K A R D r s0 T0 l0 (concat chunks) s T l ->
  ((length l0 < 4 * (length (concat chunks) + total_pages todo))%nat -> pan) ->
  let rs n segs := (seg_range <$> segs) ++ replicate (MAX_SEGMENTS - n) (mkRange 0 0 false) in
  wp pan (load_headers image r phoff phentsize idx
      (mkLoading (rs (length done) done) (length done) (owned_pages (concat chunks))))
    (fun st s' => exists chunks' T' l', chunks_of image (done ++ todo) chunks' /\
       st = mkLoading (rs (length (done ++ todo)) (done ++ todo)) (length (done ++ todo))
              (owned_pages (concat chunks')) /\
       pages_added K A R D r s0 T0 l0 (concat chunks') s' T' l') s.
Proof.
  intros Hh Hok Hap Hch Hmax Hp Hl rs. revert done todo chunks s T l Hh Hok Hap Hch Hmax Hp Hl.
  induction idx as [|i idx IH]; intros done todo chunks s T l Hh Hok Hap Hch Hmax Hp Hl; cbn [load_headers].
  { injection Hh as <-. rewrite app_nil_r in *. wp_steps. exists chunks, T, l. done. }
  cbn [headers] in Hh. unfold bindM at 1 in Hh.
  destruct (addM phoff (i * phentsize) tt) as [[ph []]|] eqn:Ha; [|done]. unfold bindM at 1 in Hh.
  destruct (read_segment image ph tt) as [[o []]|] eqn:Ho; [|done]. unfold bindM at 1 in Hh.
  destruct (headers image phoff phentsize idx tt) as [[segs []]|] eqn:Hs; [|done]. injection Hh as Hh.
  wp_step. apply (wp_sim _ _ _ _ _ _ (sim_add _ _) Ha).
  wp_step. apply (wp_sim _ _ _ _ _ _ (sim_read_segment _ _) Ho).
  destruct o as [seg|]; subst todo; [|by apply (IH _ _ _ _ T l)].
  inversion Hok as [|? ? Hok1 Hok2]; subst.
  assert (Hdone : (length done < MAX_SEGMENTS)%nat) by (rewrite length_app in Hmax; cbn in Hmax; lia).
  assert (Hapd : Forall (fun a => segs_apart a seg) done).
  { clear -Hap. induction done as [|a done IHd]; constructor; inversion Hap as [|? ? H1 H2]; subst; [|auto].
    apply Forall_app in H1 as [_ H1]. by inversion H1. }
  wp_step. eapply wp_mono.
  { apply (load_segment_spec pan K A R D r s0 T0 l0 image HrR Hlen Hbytes seg _ _ _ _ T l); [done|exact Hp| | |done].
    - intros ?. apply Hl. pose proof (ps_pool _ _ _ _ _ _ _ _ _ _ _ _ Hp). unfold total_pages. cbn. lia.
    - by apply (chunks_clear image done). }
  intros st s1 (new & T1 & l1 & -> & Hnew & Hp1).
  replace (<[length done := seg_range seg]> (rs (length done) done)) with (rs (length (done ++ [seg])) (done ++ [seg])).
  2: { unfold rs. rewrite insert_app_r_alt by (by rewrite length_fmap). rewrite length_fmap, Nat.sub_diag.
       rewrite fmap_app, length_app, <-app_assoc. cbn [fmap list_fmap length app]. f_equal.
       replace (MAX_SEGMENTS - length done)%nat with (S (MAX_SEGMENTS - (length done + 1))) by lia. done. }
  replace (length done + 1)%nat with (length (done ++ [seg])) by (rewrite length_app; done).
  replace (concat chunks ++ new) with (concat (chunks ++ [new])) in *
    by (rewrite concat_app; cbn; by rewrite app_nil_r).
  replace (done ++ seg :: segs) with ((done ++ [seg]) ++ segs) in * by (by rewrite <-app_assoc).
  eapply IH; [done|done|done| |done|exact Hp1|].
  - apply Forall2_app; [done|]. by constructor.
  - rewrite concat_app, length_app. cbn [concat]. rewrite app_nil_r, <-(Forall2_length _ _ _ Hnew), length_seq.
    intros ?. apply Hl. unfold total_pages in *. cbn. lia.
Qed.
Lemma load_spec entry segs :
  vm_inv K A (mkVm s0 R D) T0 l0 -> image_segments image tt = Ret ((entry, segs), tt) ->
  Forall (seg_ok image) segs -> ForallOrdPairs segs_apart segs -> (length segs <= MAX_SEGMENTS)%nat ->
  ((length l0 < 4 * total_pages segs)%nat -> pan) ->
  wp pan (load image r) (fun lo s' => exists chunks T' l',
    lo = (mkLoaded entry ((seg_range <$> segs) ++ replicate (MAX_SEGMENTS - length segs) (mkRange 0 0 false))
            (length segs), owned_pages (concat chunks)) /\
    chunks_of image segs chunks /\ pages_added K A R D r s0 T0 l0 (concat chunks) s' T' l') s0.
Proof.
  intros Hv Him Hok Hap Hmax Hl. assert (HrT : T0 !! r = Some O) by (apply (vi_roots _ _ _ _ _ Hv); by right).
  unfold image_segments, read_u16 in Him. unfold load, read_u16.
  unfold bindM at 1 in Him. destruct (validate image tt) as [[e []]|] eqn:E1; [|done].
  unfold bindM at 1 in Him. destruct (read_u64 image E_PHOFF tt) as [[phoff []]|] eqn:E2; [|done].
  unfold bindM at 1 in Him. destruct (le_bytes 2 image E_PHENTSIZE tt) as [[phe []]|] eqn:E3; [|done].
  unfold bindM at 1 in Him. destruct (le_bytes 2 image E_PHNUM tt) as [[phn []]|] eqn:E4; [|done].
  unfold bindM at 1 in Him. destruct (headers image phoff phe _ tt) as [[sg []]|] eqn:E5; [|done].
  apply Ret_inj in Him as [Him _]. injection Him as <- <-.
  wp_step. apply (wp_sim _ _ _ _ _ _ (sim_validate _) E1). cbv zeta.
  wp_step. apply (wp_sim _ _ _ _ _ _ (sim_read_u64 _ _) E2).
  wp_step. apply (wp_sim _ _ _ _ _ _ (sim_le_bytes _ _ _) E3).
  wp_step. apply (wp_sim _ _ _ _ _ _ (sim_le_bytes _ _ _) E4).
  rewrite l0_ptr_root by (eapply table_valid; [apply (vi_mm _ _ _ _ _ Hv)|exact HrT]).
  wp_step. eapply wp_mono.
  { apply (load_headers_spec phoff phe _ [] sg [] s0 T0 l0 E5 Hok Hap); [constructor|done| |done].
    by apply pages_added_nil. }
  cbn beta. intros st s' (chunks & T' & l' & Hch & -> & Hp). cbn [app] in *. wp_steps. by exists chunks, T', l'.
Qed.
End load.

(** The page a segment's byte is on, and what it looks like to EL0. *)
Lemma chunk_page image segs chunks seg b :
  chunks_of image segs chunks -> seg ∈ segs -> seg_ok image seg -> 0 <= b < memsz seg ->
  exists pg, pg ∈ concat chunks /\ pva pg = vaddr seg + FRAME_SIZE * (b / FRAME_SIZE) /\
    pperms pg = seg_perms seg /\
    pbytes pg (b mod FRAME_SIZE) = seg_byte image (offset seg) (filesz seg) b.
Proof.
  intros Hc Hs Hok Hb. apply list_elem_of_lookup in Hs as [k Hk].
  destruct (Forall2_lookup_l _ _ _ _ _ Hc Hk) as (chunk & Hck & Hch).
  pose proof (npages_bounds _ _ Hok) as Hn. set (i := Z.to_nat (b / FRAME_SIZE)).
  assert (Hi : (i < npages seg)%nat) by (unfold i, FRAME_SIZE in *; zlia).
  assert (Hseq : seq 0 (npages seg) !! i = Some i) by (by rewrite lookup_seq).
  destruct (Forall2_lookup_l _ _ _ _ _ Hch Hseq) as (pg & Hpg & [Hva Hpe Hby]).
  assert (Hiz : Z.of_nat i = b / FRAME_SIZE) by (unfold i, FRAME_SIZE; zlia).
  exists pg. split.
  { apply list_elem_of_In, in_concat. exists chunk. split; apply list_elem_of_In.
    - by eapply list_elem_of_lookup_2.
    - by eapply list_elem_of_lookup_2. }
  rewrite Hva, Hby, Hiz. split; [done|]. split; [done|]. f_equal. unfold FRAME_SIZE. zlia.
Qed.

Lemma seg_perms_user seg : user_perms (seg_perms seg).
Proof. unfold user_perms, seg_perms. destruct (seg_executable seg); tauto. Qed.

Lemma seg_canonical image seg b : seg_ok image seg -> 0 <= b < memsz seg -> canonical (vaddr seg + b).
Proof.
  intros Hok Hb. pose proof (so_window _ _ Hok). pose proof (npages_bounds _ _ Hok).
  unfold canonical, FRAME_SIZE in *. lia.
Qed.

Lemma chunk_walk K A R D r s T l s' T' l' image segs chunks seg b :
  pages_added K A R D r s T l (concat chunks) s' T' l' -> chunks_of image segs chunks ->
  seg ∈ segs -> seg_ok image seg -> 0 <= b < memsz seg ->
  exists f, f ∈ with_frames (concat chunks) D /\ valid_frame f /\
    hw_walk (mem_of s') 3 r (vaddr seg + b) = Some (O, Z.lor f (seg_perms seg)) /\
    read8 (mem_of s') (f + (vaddr seg + b) mod 4096) = seg_byte image (offset seg) (filesz seg) b.
Proof.
  intros Hp Hc Hs Hok Hb. destruct (chunk_page _ _ _ _ _ Hc Hs Hok Hb) as (pg & Hpg & Hva & Hpe & Hby).
  pose proof (so_window _ _ Hok) as Hw. pose proof (npages_bounds _ _ Hok) as Hn.
  pose proof (so_aligned _ _ Hok) as Hal. unfold FRAME_SIZE in *.
  assert (Hf : pframe pg ∈ with_frames (concat chunks) D) by (apply elem_of_with_frames; left; eauto).
  exists (pframe pg). split; [done|]. split; [by apply (vi_data _ _ _ _ _ (ps_inv _ _ _ _ _ _ _ _ _ _ _ _ Hp))|].
  split.
  - rewrite <-Hpe. apply (ps_hit _ _ _ _ _ _ _ _ _ _ _ _ Hp); [done|unfold canonical; lia|].
    rewrite Hva. zlia.
  - replace ((vaddr seg + b) mod 4096) with (b mod 4096) by zlia.
    rewrite (ps_bytes _ _ _ _ _ _ _ _ _ _ _ _ Hp) by (done || (unfold FRAME_SIZE; zlia)). done.
Qed.

(** C30: Loading a well-formed image into an address space, with frames to spare,
    returns: the entry point and the ranges are those of the headers, every byte of
    every segment reads at EL0 as the file says (zero past [filesz]), a page is
    executable exactly when the segment is, writable exactly when it is not, the
    owned frames are distinct and fresh, no other translation of any space changes,
    and the loader only did what [vm_step] allows. *)
Theorem load_correct K A R D r s T l image entry segs :
  vm_inv K A (mkVm s R D) T l -> r ∈ R ->
  Z.of_nat (length image) < 2 ^ 64 -> Forall (fun b => 0 <= b < 256) image ->
  image_segments image tt = Ret ((entry, segs), tt) ->
  Forall (seg_ok image) segs -> ForallOrdPairs segs_apart segs ->
  (length segs <= MAX_SEGMENTS)%nat -> (4 * total_pages segs <= length l)%nat ->
  exists lo owned s', load image r s = Ret ((lo, owned), s') /\
    entry_va lo = entry /\ take (count lo) (ranges lo) = seg_range <$> segs /\
    (forall seg b, seg ∈ segs -> 0 <= b < memsz seg ->
       el0_load (mem_of s') r (vaddr seg + b) = Some (seg_byte image (offset seg) (filesz seg) b) /\
       el0_fetchable (mem_of s') r (vaddr seg + b) = seg_executable seg /\
       (forall x, el0_store (mem_of s') r (vaddr seg + b) x = None <-> seg_executable seg = true)) /\
    NoDup owned.*2 /\ (forall f, f ∈ owned.*2 -> f ∉ D) /\
    rtc vm_step (mkVm s R D) (mkVm s' R (list_to_set owned.*2 ∪ D)) /\
    (forall r' va, T !! r' = Some O -> canonical va ->
       (forall p, p ∈ owned.*1 -> ~ on_page r p r' va) ->
       hw_walk (mem_of s') 3 r' va = hw_walk (mem_of s) 3 r' va).
Proof.
  intros Hv Hr Hlen Hby Him Hok Hap Hmax Hl.
  destruct (wp_result _ _ _ (load_spec False K A R D r s T l image Hr Hlen Hby _ _ Hv Him Hok Hap Hmax ltac:(lia)))
    as (lo & s' & Hrun & chunks & T' & l' & -> & Hch & Hp).
  assert (E2 : (owned_pages (concat chunks)).*2 = pframe <$> concat chunks)
    by (unfold owned_pages; by rewrite <-list_fmap_compose).
  assert (E1 : (owned_pages (concat chunks)).*1 = pva <$> concat chunks)
    by (unfold owned_pages; by rewrite <-list_fmap_compose).
  eexists _, _, s'. split; [exact Hrun|]. rewrite E1, E2. cbn [entry_va count ranges].
  split; [done|]. split; [by rewrite take_app_length' by (by rewrite length_fmap)|]. split.
  - intros seg b Hs Hb. rewrite Forall_forall in Hok.
    destruct (chunk_walk _ _ _ _ _ _ _ _ _ _ _ _ _ _ _ _ Hp Hch Hs (Hok _ Hs) Hb) as (f & _ & Hf & Hw & Hr8).
    pose proof (seg_perms_user seg) as Hu. pose proof (seg_canonical _ _ b (Hok _ Hs) Hb) as Hc.
    rewrite (el0_load_page _ _ _ _ _ Hc Hw Hf Hu), (el0_fetch_page _ _ _ _ _ Hc Hw Hf Hu), Hr8.
    split; [done|]. unfold seg_perms in *. destruct (seg_executable seg).
    + split; [done|]. intros x. by rewrite (el0_store_ro _ _ _ _ _ Hc Hw).
    + split; [done|]. intros x. by rewrite (el0_store_page _ _ _ _ _ Hc Hw).
  - destruct (ps_fresh _ _ _ _ _ _ _ _ _ _ _ _ Hp) as [Hnd Hfr]. split; [done|].
    split; [intros f (pg & -> & Hpg)%list_elem_of_fmap; by apply Hfr|].
    split; [apply Hp|]. intros r' va Hr' Hva Hno. apply (ps_miss _ _ _ _ _ _ _ _ _ _ _ _ Hp); [done|done|].
    intros pg Hpg. apply Hno, list_elem_of_fmap. by exists pg.
Qed.

(** ** What the loader refuses *)

(** The checks of the loader itself. *)
Definition seg_checked (seg : Segment) : Prop :=
  vaddr seg mod FRAME_SIZE = 0 /\ ~ (Z.land (flags seg) PF_X <> 0 /\ Z.land (flags seg) PF_W <> 0).

Lemma load_segment_checked image l0 seg st s st' s' :
  load_segment image l0 seg st s = Ret (st', s') ->
  seg_checked seg /\ (lcount st < MAX_SEGMENTS)%nat /\ lcount st' = (lcount st + 1)%nat /\
  lranges st' = <[lcount st := seg_range seg]> (lranges st).
Proof.
  unfold load_segment. intros (u & Ha & H)%(sim_run _ _ _ _ _ (sim_assert _)).
  destruct (vaddr seg mod FRAME_SIZE =? 0) eqn:Eal; [|done]. cbv zeta in H.
  apply Z.eqb_eq in Eal. fold (seg_executable seg) in H.
  assert (Hwx : ~ (Z.land (flags seg) PF_X <> 0 /\ Z.land (flags seg) PF_W <> 0) /\
    exists owned s1, (assertM (bool_decide (lcount st < MAX_SEGMENTS)%nat) ;;;
      let! e := addM (vaddr seg) (memsz seg) in
      retM (mkLoading (<[lcount st := mkRange (vaddr seg) e (negb (seg_executable seg))]> (lranges st))
          (lcount st + 1) owned)) s1 = Ret (st', s')).
  { destruct (seg_executable seg) eqn:Ex.
    - apply (sim_run _ _ _ _ _ (sim_assert _)) in H as (v & Hv & H).
      destruct (Z.land (flags seg) PF_W =? 0) eqn:Ew; [|done]. apply Z.eqb_eq in Ew.
      split; [tauto|]. unfold bindM at 1 in H. destruct (load_pages _ _ _ _ _ _ _ _ _ _ _ _) as [[o s1]|]; [|done].
      by exists o, s1.
    - apply (sim_run _ _ _ _ _ (sim_ret _)) in H as (v & Hv & H). unfold seg_executable in Ex.
      apply negb_false_iff, Z.eqb_eq in Ex. split; [tauto|].
      unfold bindM at 1 in H. destruct (load_pages _ _ _ _ _ _ _ _ _ _ _ _) as [[o s1]|]; [|done].
      by exists o, s1. }
  destruct Hwx as (Hwx & owned & s1 & H2).
  apply (sim_run _ _ _ _ _ (sim_assert _)) in H2 as (v & Hv & H2).
  destruct (bool_decide _) eqn:Hc; [|done]. apply bool_decide_eq_true in Hc.
  unfold bindM in H2. destruct (addM _ _ s1) as [[e s2]|] eqn:Hadd; [|done].
  apply addM_state in Hadd as [-> ->]. apply Ret_inj in H2 as [<- _]. by split_and!.
Qed.

(** The table of ranges after the segments [segs]. *)
Record ranges_of (segs : list Segment) (st : Loading) : Prop := {
  ro_len : length (lranges st) = MAX_SEGMENTS;
  ro_count : lcount st = length segs;
  ro_max : (length segs <= MAX_SEGMENTS)%nat;
  ro_take : take (lcount st) (lranges st) = seg_range <$> segs
}.

Lemma ranges_of_snoc segs seg st st' :
  ranges_of segs st -> (lcount st < MAX_SEGMENTS)%nat -> lcount st' = (lcount st + 1)%nat ->
  lranges st' = <[lcount st := seg_range seg]> (lranges st) -> ranges_of (segs ++ [seg]) st'.
Proof.
  intros [Hl Hc Hm Ht] Hlt Hc' Hr. split.
  - by rewrite Hr, length_insert.
  - rewrite length_app. cbn. lia.
  - rewrite length_app. cbn. lia.
  - rewrite Hc', Hr, Nat.add_1_r, fmap_app, <-Ht.
    erewrite take_S_r by (apply list_lookup_insert_eq; lia). by rewrite take_insert_ge by lia.
Qed.

Lemma load_headers_checked image l0 phoff phe idx done st s st' s' :
  ranges_of done st -> load_headers image l0 phoff phe idx st s = Ret (st', s') ->
  exists segs, headers image phoff phe idx tt = Ret (segs, tt) /\ Forall seg_checked segs /\
    ranges_of (done ++ segs) st'.
Proof.
  revert done st s. induction idx as [|i idx IH]; intros done st s Hro H; cbn [load_headers headers] in *.
  { apply Ret_inj in H as [<- _]. exists []. rewrite app_nil_r. by split_and!. }
  apply (sim_run _ _ _ _ _ (sim_add _ _)) in H as (ph & Hph & H).
  apply (sim_run _ _ _ _ _ (sim_read_segment _ _)) in H as (o & Ho & H).
  unfold bindM. rewrite Hph, Ho. destruct o as [seg|].
  - unfold bindM at 1 in H. destruct (load_segment _ _ _ _ _) as [[st1 s1]|] eqn:E; [|done].
    destruct (load_segment_checked _ _ _ _ _ _ _ E) as (Hck & Hlt & Hc & Hr).
    destruct (IH (done ++ [seg]) st1 s1 (ranges_of_snoc _ _ _ _ Hro Hlt Hc Hr) H) as (segs & -> & Hf & Hro').
    exists (seg :: segs). rewrite <-app_assoc in Hro'. split; [done|]. split; [by constructor|done].
  - destruct (IH done st s Hro H) as (segs & -> & ?). by exists segs.
Qed.

(** *** The format, apart from the code that reads it *)

(** The [n]-byte little-endian field at [off]. *)
Fixpoint le_value (bs : list Z) : Z := match bs with [] => 0 | b :: bs' => b + 256 * le_value bs' end.
Definition field (image : list Z) (off : Z) (n : nat) : Z := le_value (take n (drop (Z.to_nat off) image)).

(** The ELF64 file header of an executable for AArch64. *)
Record elf_header (image : list Z) : Prop := {
  eh_size : 64 <= Z.of_nat (length image);
  eh_magic : take 4 image = [0x7f; 0x45; 0x4c; 0x46];
  eh_class : field image 4 1 = 2;
  eh_type : field image 16 2 = 2;
  eh_machine : field image 18 2 = 0xB7
}.

(** The program header at [ph], if it is of type PT_LOAD and takes memory. *)
Definition program_header (image : list Z) (ph : Z) : option Segment :=
  if (field image ph 4 =? 1) && negb (field image (ph + 40) 8 =? 0) then
    Some (mkSegment (field image (ph + 40) 8) (field image (ph + 32) 8) (field image (ph + 16) 8)
      (field image (ph + 8) 8) (field image (ph + 4) 4))
  else None.

(** The table of program headers: e_phoff, e_phentsize, e_phnum. *)
Definition loadable (image : list Z) : list Segment :=
  omap (fun i => program_header image (field image 32 8 + i * field image 54 2)) (zseq 0 (Z.to_nat (field image 56 2))).

Lemma byte_at_run (b : list Z) off x : byte_at b off tt = Ret (x, tt) -> 0 <= off /\ b !! Z.to_nat off = Some x.
Proof.
  unfold byte_at. destruct (Z.ltb_spec off 0); [done|]. destruct (b !! Z.to_nat off) as [y|]; [|done]. by intros [= ->].
Qed.

Lemma le_bytes_field n b off v : le_bytes n b off tt = Ret (v, tt) -> v = field b off n.
Proof.
  revert off v. induction n as [|n IH]; intros off v H; cbn [le_bytes] in H; [by injection H|].
  apply bind_run in H as (x & [] & [H0 Hx]%byte_at_run & H). apply bind_run in H as (r & [] & ->%IH & [= <-]).
  unfold field. rewrite (drop_S _ _ _ Hx). cbn [take le_value]. by replace (Z.to_nat (off + 1)) with (S (Z.to_nat off)) by lia.
Qed.

Lemma read_u64_field b off v : read_u64 b off tt = Ret (v, tt) -> v = field b off 8.
Proof. unfold read_u64. intros (x & [] & _ & H)%bind_run. by apply le_bytes_field. Qed.

Lemma add_run (a b v : Z) : addM a b tt = Ret (v, tt) -> v = a + b.
Proof. unfold addM, checked_add. case_match; [|done]. by intros [= <-]. Qed.

Lemma assert_run b : assertM b tt = Ret (tt, tt) -> b = true.
Proof. by destruct b. Qed.

Lemma validate_header image e : validate image tt = Ret (e, tt) -> elf_header image /\ e = field image 24 8.
Proof.
  unfold validate. intros ([] & [] & H1%assert_run & H)%bind_run. apply bind_run in H as ([] & [] & H2%assert_run & H).
  apply bind_run in H as (c & [] & [_ Hc]%byte_at_run & H). apply bind_run in H as ([] & [] & H3%assert_run & H).
  apply bind_run in H as (ty & [] & Ht%le_bytes_field & H). apply bind_run in H as ([] & [] & H4%assert_run & H).
  apply bind_run in H as (ma & [] & Hm%le_bytes_field & H). apply bind_run in H as ([] & [] & H5%assert_run & H).
  apply read_u64_field in H. apply Z.leb_le in H1. apply bool_decide_eq_true in H2. apply Z.eqb_eq in H3, H4, H5. subst.
  split; [|done]. split; try done. unfold field. change (Z.to_nat 4) with 4%nat in *. by rewrite (drop_S _ _ _ Hc).
Qed.

Lemma read_segment_header image ph o : read_segment image ph tt = Ret (o, tt) -> o = program_header image ph.
Proof.
  unfold read_segment, program_header. intros (a & [] & ->%add_run & H)%bind_run. rewrite Z.add_0_r in H.
  apply bind_run in H as (ty & [] & ->%le_bytes_field & H). change PT_LOAD with 1 in H.
  destruct (field image ph 4 =? 1); cbn [negb andb] in *; [|by injection H].
  apply bind_run in H as (a & [] & ->%add_run & H). apply bind_run in H as (m & [] & ->%read_u64_field & H).
  change (ph + P_MEMSZ) with (ph + 40) in H. destruct (field image (ph + 40) 8 =? 0); cbn [negb]; [by injection H|].
  apply bind_run in H as (a & [] & ->%add_run & H). apply bind_run in H as (x1 & [] & ->%read_u64_field & H).
  apply bind_run in H as (a & [] & ->%add_run & H). apply bind_run in H as (x2 & [] & ->%read_u64_field & H).
  apply bind_run in H as (a & [] & ->%add_run & H). apply bind_run in H as (x3 & [] & ->%read_u64_field & H).
  apply bind_run in H as (a & [] & ->%add_run & H). apply bind_run in H as (x4 & [] & ->%le_bytes_field & H).
  by injection H as <-.
Qed.

Lemma headers_loadable image phoff phe idx segs :
  headers image phoff phe idx tt = Ret (segs, tt) -> segs = omap (fun i => program_header image (phoff + i * phe)) idx.
Proof.
  revert segs. induction idx as [|i idx IH]; intros segs H; cbn [headers] in H; [by injection H|].
  apply bind_run in H as (ph & [] & ->%add_run & H). apply bind_run in H as (o & [] & ->%read_segment_header & H).
  apply bind_run in H as (rest & [] & ->%IH & H). injection H as <-. cbn. by destruct (program_header _ _).
Qed.

(** C31: An image the loader accepts was checked: its bytes hold the header of an
    ELF64 executable for AArch64, whose entry point is returned; the segments are
    those of the program header table, at most eight, each page aligned and none
    both writable and executable, and the recorded ranges are exactly those
    segments, in order. Any other image panics instead of returning. *)
Theorem load_checks image r s lo owned s' :
  load image r s = Ret ((lo, owned), s') ->
  let segs := loadable image in
  elf_header image /\ entry_va lo = field image 24 8 /\ Forall seg_checked segs /\
    count lo = length segs /\ (length segs <= MAX_SEGMENTS)%nat /\
    take (count lo) (ranges lo) = seg_range <$> segs.
Proof.
  unfold load. intros H. apply (sim_run _ _ _ _ _ (sim_validate _)) in H as (e & [Hh ->]%validate_header & H). cbv zeta in H.
  apply (sim_run _ _ _ _ _ (sim_read_u64 _ _)) in H as (phoff & ->%read_u64_field & H). unfold read_u16 in H.
  apply (sim_run _ _ _ _ _ (sim_le_bytes _ _ _)) in H as (phe & ->%le_bytes_field & H).
  apply (sim_run _ _ _ _ _ (sim_le_bytes _ _ _)) in H as (phn & ->%le_bytes_field & H).
  unfold bindM at 1 in H. destruct (load_headers _ _ _ _ _ _ _) as [[st s1]|] eqn:E; [|done].
  apply Ret_inj in H as [[= <- <-] _].
  assert (H0 : ranges_of [] (mkLoading (replicate MAX_SEGMENTS (mkRange 0 0 false)) 0 []))
    by (split; [done|done|unfold MAX_SEGMENTS; cbn; lia|done]).
  destruct (load_headers_checked _ _ _ _ _ _ _ _ _ _ H0 E) as (segs & ->%headers_loadable & Hf & [_ Hc Hm Ht]).
  by split_and!.
Qed.

(** ** A small image: a text segment holding the file and a page of zeros *)

Fixpoint bytes_le (n : nat) (v : Z) : list Z :=
  match n with O => [] | S n' => v mod 256 :: bytes_le n' (v / 256) end.

Definition demo_phdr (fl off va fsz msz : Z) : list Z :=
  bytes_le 4 PT_LOAD ++ bytes_le 4 fl ++ bytes_le 8 off ++ bytes_le 8 va ++ bytes_le 8 va ++
  bytes_le 8 fsz ++ bytes_le 8 msz ++ bytes_le 8 4096.

Definition demo_image : list Z :=
  [0x7f; 0x45; 0x4c; 0x46; 2; 1; 1; 0] ++ bytes_le 8 0 ++
  bytes_le 2 2 ++ bytes_le 2 0xB7 ++ bytes_le 4 1 ++ bytes_le 8 (USER_BASE + 176) ++
  bytes_le 8 64 ++ bytes_le 8 0 ++ bytes_le 4 0 ++
  bytes_le 2 64 ++ bytes_le 2 56 ++ bytes_le 2 2 ++ bytes_le 2 0 ++ bytes_le 2 0 ++ bytes_le 2 0 ++
  demo_phdr 5 0 USER_BASE 180 180 ++ demo_phdr 6 0 (USER_BASE + 4096) 0 24 ++
  bytes_le 4 0xD4000001.

Definition demo_text : Segment := mkSegment 180 180 USER_BASE 0 5.
Definition demo_bss : Segment := mkSegment 24 0 (USER_BASE + 4096) 0 6.

Lemma demo_segments : image_segments demo_image tt = Ret ((USER_BASE + 176, [demo_text; demo_bss]), tt).
Proof. vm_compute. reflexivity. Qed.

Lemma demo_bytes : Z.of_nat (length demo_image) < 2 ^ 64 /\ Forall (fun b => 0 <= b < 256) demo_image.
Proof. split; [by vm_compute|]. vm_compute. repeat constructor; done. Qed.

Lemma demo_ok : Forall (seg_ok demo_image) [demo_text; demo_bss] /\
  ForallOrdPairs segs_apart [demo_text; demo_bss].
Proof.
  split.
  - repeat constructor; vm_compute; done.
  - repeat constructor. intros i j Hi Hj.
    assert (i = O /\ j = O) as [-> ->] by (vm_compute in Hi, Hj; lia). by vm_compute.
Qed.

Lemma demo_space : exists r s1 K A T l, new_address_space booted = Ret (r, s1) /\
  vm_inv K A (mkVm s1 ({[r]} ∪ ∅) ∅) T l /\ (10 <= length l)%nat.
Proof.
  destruct demo_new as (r & s1 & l1 & Hnew & Hmm & Hlen & _).
  destruct (boot_vm_inv cold small_pool booted small_pool_inv eq_refl booted_run) as (K & T & Hv & _).
  destruct (new_step _ _ _ _ _ _ _ _ _ Hv Hnew) as (T' & l' & Hv').
  exists r, s1, K. eexists. exists T', l'. split; [exact Hnew|]. split; [exact Hv'|].
  by rewrite (free_inv_inj _ _ _ (mi_pool _ _ _ (vi_mm _ _ _ _ _ Hv')) (mi_pool _ _ _ Hmm)).
Qed.

Lemma load_correct_witness : exists r s1 lo owned s2,
  new_address_space booted = Ret (r, s1) /\ load demo_image r s1 = Ret ((lo, owned), s2) /\
  entry_va lo = USER_BASE + 176 /\
  el0_load (mem_of s2) r (vaddr demo_text + 1) = Some (seg_byte demo_image 0 180 1).
Proof.
  destruct demo_space as (r & s1 & K & A & T & l & Hnew & Hv & Hl).
  destruct demo_bytes as [Hlen Hby]. destruct demo_ok as [Hok Hap].
  assert (Hfr : (4 * total_pages [demo_text; demo_bss] <= length l)%nat).
  { replace (total_pages [demo_text; demo_bss]) with 2%nat by (vm_compute; reflexivity). lia. }
  destruct (load_correct K A _ _ r s1 T l demo_image _ _ Hv (elem_of_new r ∅) Hlen Hby demo_segments Hok Hap
    ltac:(unfold MAX_SEGMENTS; cbn [length]; lia) Hfr) as (lo & owned & s2 & Hrun & He & _ & Hs & _).
  exists r, s1, lo, owned, s2. split; [exact Hnew|]. split; [exact Hrun|]. split; [exact He|].
  apply (Hs demo_text 1); [apply list_elem_of_here|split; vm_compute; done].
Defined.

Lemma load_checks_witness : exists r s1 lo owned s2,
  load demo_image r s1 = Ret ((lo, owned), s2) /\ count lo = 2%nat /\ elf_header demo_image.
Proof.
  destruct demo_space as (r & s1 & K & A & T & l & _ & Hv & Hl).
  destruct demo_bytes as [Hlen Hby]. destruct demo_ok as [Hok Hap].
  assert (Hfr : (4 * total_pages [demo_text; demo_bss] <= length l)%nat).
  { replace (total_pages [demo_text; demo_bss]) with 2%nat by (vm_compute; reflexivity). lia. }
  destruct (wp_result _ _ _ (load_spec False K A _ _ r s1 T l demo_image (elem_of_new r ∅) Hlen Hby _ _ Hv
    demo_segments Hok Hap ltac:(unfold MAX_SEGMENTS; cbn [length]; lia) ltac:(lia))) as ([lo owned] & s2 & Hrun & _).
  destruct (load_checks demo_image r s1 lo owned s2 Hrun) as (Hh & _ & _ & Hc & _).
  exists r, s1, lo, owned, s2. split; [exact Hrun|]. split; [exact Hc|exact Hh].
Defined.
