(* ===== verification/Devices.v ===== *)
(** * The interrupt controller and the timer

    kernel/src/gic.rs and kernel/src/timer.rs over a model of the registers they
    drive: GICv3 MMIO as bytes, with the write-one-to-set enables and the
    redistributor that takes its time to wake, the CPU interface, and the EL1
    physical timer. *)

From Stdlib Require Import ZArith Lia.
From stdpp Require Import base numbers gmap list list_relations.
From S2P Require Import Prelude Memory.

(** ** GICv3 *)

Definition GICD_BASE : Z := 0x08000000.
Definition GICR_BASE : Z := 0x080A0000.
Definition GICR_SGI_BASE : Z := GICR_BASE + 0x10000.

Definition GICD_CTLR : Z := 0x0000.
Definition GICD_IGROUPR : Z := 0x0080.
Definition GICD_ISENABLER : Z := 0x0100.
Definition GICD_IPRIORITYR : Z := 0x0400.
Definition GICD_IROUTER : Z := 0x6100.

Definition GICR_WAKER : Z := 0x0014.
Definition GICR_IGROUPR0 : Z := 0x0080.
Definition GICR_ISENABLER0 : Z := 0x0100.
Definition GICR_IPRIORITYR : Z := 0x0400.

Definition WAKER_PROCESSOR_SLEEP : Z := Z.shiftl 1 1.
Definition WAKER_CHILDREN_ASLEEP : Z := Z.shiftl 1 2.

Definition CTLR_ENABLE_GRP0 : Z := Z.shiftl 1 0.
Definition CTLR_ENABLE_GRP1 : Z := Z.shiftl 1 1.
Definition CTLR_ARE : Z := Z.shiftl 1 4.

Definition SPURIOUS_MIN : Z := 1020.

(** [mmio] are the register bytes, [asleep] the reads of GICR_WAKER that will still
    show the children asleep once the processor is awake, [active] the interrupts
    acknowledged and not ended. *)
Record Gic := mkGic {
  mmio : mem;
  asleep : nat;
  icc_sre : Z;
  icc_pmr : Z;
  icc_igrpen1 : Z;
  active : list Z
}.

(** The enable registers set the bits written as one and keep the others. *)
Definition sets_bits (a : Z) : bool :=
  ((GICD_BASE + GICD_ISENABLER <=? a) && (a <? GICD_BASE + GICD_ISENABLER + 0x80)) ||
  (a =? GICR_SGI_BASE + GICR_ISENABLER0).

Definition set_mmio (m : mem) (g : Gic) : Gic :=
  mkGic m (asleep g) (icc_sre g) (icc_pmr g) (icc_igrpen1 g) (active g).

Definition w32 (base off val : Z) : M Gic unit :=
  modifyM (fun g =>
    let a := base + off in
    let v := if sets_bits a then Z.lor (read32 (mmio g) a) val else val in
    set_mmio (write32 (mmio g) a v) g).

Definition r32 (base off : Z) : M Gic Z := fun g =>
  let a := base + off in
  let v := read32 (mmio g) a in
  if a =? GICR_BASE + GICR_WAKER then
    if negb (Z.land v WAKER_PROCESSOR_SLEEP =? 0) then Ret (Z.lor v WAKER_CHILDREN_ASLEEP, g)
    else
      match asleep g with
      | O => Ret (Z.land v (not64 WAKER_CHILDREN_ASLEEP), g)
      | S n => Ret (Z.lor v WAKER_CHILDREN_ASLEEP,
                    mkGic (mmio g) n (icc_sre g) (icc_pmr g) (icc_igrpen1 g) (active g))
      end
  else Ret (v, g).

Definition w8 (a v : Z) : M Gic unit := modifyM (fun g => set_mmio (write8 (mmio g) a v) g).
Definition w64 (a v : Z) : M Gic unit := modifyM (fun g => set_mmio (write64 (mmio g) a v) g).

(** [while r32(GICR_WAKER) & CHILDREN_ASLEEP != 0 {}]. *)
Fixpoint wait_awake (fuel : nat) : M Gic unit :=
  match fuel with
  | O => panicM
  | S fuel' =>
      let! v := r32 GICR_BASE GICR_WAKER in
      if negb (Z.land v WAKER_CHILDREN_ASLEEP =? 0) then wait_awake fuel' else retM tt
  end.

Definition gic_init (ppi_intid : Z) : M Gic unit :=
  modifyM (fun g => mkGic (mmio g) (asleep g) (Z.lor (icc_sre g) 1) (icc_pmr g) (icc_igrpen1 g) (active g)) ;;;
  w32 GICD_BASE GICD_CTLR (Z.lor (Z.lor CTLR_ARE CTLR_ENABLE_GRP1) CTLR_ENABLE_GRP0) ;;;
  let! waker := r32 GICR_BASE GICR_WAKER in
  w32 GICR_BASE GICR_WAKER (Z.land waker (not64 WAKER_PROCESSOR_SLEEP)) ;;;
  let! n := getsM asleep in
  wait_awake (S n) ;;;
  assertM (ppi_intid <? 32) ;;;
  let bit := Z.shiftl 1 ppi_intid in
  let! g0 := r32 GICR_SGI_BASE GICR_IGROUPR0 in
  w32 GICR_SGI_BASE GICR_IGROUPR0 (Z.lor g0 bit) ;;;
  w8 (GICR_SGI_BASE + GICR_IPRIORITYR + ppi_intid) 0x00 ;;;
  w32 GICR_SGI_BASE GICR_ISENABLER0 bit ;;;
  modifyM (fun g => mkGic (mmio g) (asleep g) (icc_sre g) 0xFF 1 (active g)).

Definition enable_spi (intid : Z) : M Gic unit :=
  assertM (32 <=? intid) ;;;
  let reg := intid / 32 * 4 in
  let bit := Z.shiftl 1 (intid mod 32) in
  let! g0 := r32 GICD_BASE (GICD_IGROUPR + reg) in
  w32 GICD_BASE (GICD_IGROUPR + reg) (Z.lor g0 bit) ;;;
  w8 (GICD_BASE + GICD_IPRIORITYR + intid) 0x00 ;;;
  w64 (GICD_BASE + GICD_IROUTER + (intid - 32) * 8) 0 ;;;
  w32 GICD_BASE (GICD_ISENABLER + reg) bit.

Definition is_spurious (intid : Z) : bool := SPURIOUS_MIN <=? intid.

Definition set_active (l : list Z) (g : Gic) : Gic :=
  mkGic (mmio g) (asleep g) (icc_sre g) (icc_pmr g) (icc_igrpen1 g) l.

(** Reading ICC_IAR1 returns [intid], which becomes active unless spurious. *)
Definition acknowledge (intid : Z) : M Gic Z :=
  (if is_spurious intid then retM tt else modifyM (fun g => set_active (intid :: active g) g)) ;;;
  retM intid.

Fixpoint remove_first (x : Z) (l : list Z) : list Z :=
  match l with
  | [] => []
  | y :: l' => if x =? y then l' else y :: remove_first x l'
  end.

Definition eoi (intid : Z) : M Gic unit := modifyM (fun g => set_active (remove_first intid (active g)) g).

(** ** The timer *)

Definition TIMER_INTID : Z := 30.
Definition TICK_HZ : Z := 100.

Record Timer := mkTimer { FREQ : Z; cntfrq : Z; cntp_tval : Z; cntp_ctl : Z }.

Definition interval (t : Timer) : Z := FREQ t / TICK_HZ.

Definition timer_init : M Timer unit :=
  modifyM (fun t => mkTimer (cntfrq t) (cntfrq t) (cntfrq t / TICK_HZ) 1).

(** The reload of [on_tick]; the tick count is the scheduler's [TICKS]. *)
Definition reload : M Timer unit :=
  modifyM (fun t => mkTimer (FREQ t) (cntfrq t) (interval t) (cntp_ctl t)).

(** ** Bring-up *)

#[local] Ltac regs := unfold GICD_BASE, GICR_BASE, GICR_SGI_BASE, GICR_BASE, GICD_CTLR, GICD_IGROUPR, GICD_ISENABLER,
  GICD_IPRIORITYR, GICD_IROUTER, GICR_WAKER, GICR_IGROUPR0, GICR_ISENABLER0, GICR_IPRIORITYR in *.

(** Bit [i] of the register at [a]. *)
Definition reg_bit (g : Gic) (a i : Z) : bool := Z.testbit (read32 (mmio g) a) i.

Record ppi_ready (g : Gic) (i : Z) : Prop := {
  pr_group : reg_bit g (GICR_SGI_BASE + GICR_IGROUPR0) i = true;
  pr_enabled : reg_bit g (GICR_SGI_BASE + GICR_ISENABLER0) i = true;
  pr_priority : read8 (mmio g) (GICR_SGI_BASE + GICR_IPRIORITYR + i) = 0
}.

Record spi_ready (g : Gic) (i : Z) : Prop := {
  sr_group : reg_bit g (GICD_BASE + GICD_IGROUPR + i / 32 * 4) (i mod 32) = true;
  sr_enabled : reg_bit g (GICD_BASE + GICD_ISENABLER + i / 32 * 4) (i mod 32) = true;
  sr_priority : read8 (mmio g) (GICD_BASE + GICD_IPRIORITYR + i) = 0;
  sr_router : read64 (mmio g) (GICD_BASE + GICD_IROUTER + (i - 32) * 8) = 0
}.

(** The CPU takes group 1 interrupts of any priority, and the distributor forwards
    them. *)
Record cpu_ready (g : Gic) : Prop := {
  cr_sre : Z.testbit (icc_sre g) 0 = true;
  cr_mask : icc_pmr g = 0xFF /\ icc_igrpen1 g = 1;
  cr_ctlr : read32 (mmio g) (GICD_BASE + GICD_CTLR) = 0x13;
  cr_awake : Z.testbit (read32 (mmio g) (GICR_BASE + GICR_WAKER)) 1 = false
}.

Lemma wp_w32 pan base off v Q g :
  Q tt (set_mmio (write32 (mmio g) (base + off)
    (if sets_bits (base + off) then Z.lor (read32 (mmio g) (base + off)) v else v)) g) -> wp pan (w32 base off v) Q g.
Proof. done. Qed.

(** A register that is not GICR_WAKER reads as what is stored. *)
Lemma wp_r32 pan base off (Q : Z -> Gic -> Prop) g :
  base + off <> GICR_BASE + GICR_WAKER -> Q (read32 (mmio g) (base + off)) g -> wp pan (r32 base off) Q g.
Proof. intros Hne HQ. unfold wp, r32. by destruct (Z.eqb_spec (base + off) (GICR_BASE + GICR_WAKER)). Qed.

Lemma wp_waker pan (Q : Z -> Gic -> Prop) g :
  (forall v n, (forall i, i <> 2 -> Z.testbit v i = true -> Z.testbit (read32 (mmio g) (GICR_BASE + GICR_WAKER)) i = true) ->
     Q v (mkGic (mmio g) n (icc_sre g) (icc_pmr g) (icc_igrpen1 g) (active g))) ->
  wp pan (r32 GICR_BASE GICR_WAKER) Q g.
Proof.
  intros HQ. unfold wp, r32. rewrite Z.eqb_refl. set (v := read32 _ _) in *.
  assert (Hl : forall i, i <> 2 -> Z.testbit (Z.lor v WAKER_CHILDREN_ASLEEP) i = true -> Z.testbit v i = true).
  { intros i Hi. rewrite Z.lor_spec, orb_true_iff. intros [?|Hb]; [done|].
    change WAKER_CHILDREN_ASLEEP with (2 ^ 2) in Hb. by rewrite Z.pow2_bits_false in Hb by lia. }
  destruct (negb _); [destruct g; by apply HQ|]. destruct (asleep g) as [|n]; [|by apply HQ].
  destruct g as [m a s p e l]. apply (HQ _ a). intros i _. rewrite Z.land_spec, andb_true_iff. tauto.
Qed.

(** Once the processor is awake, the children follow. *)
Lemma wait_awake_wp g fuel (Q : unit -> Gic -> Prop) :
  Z.testbit (read32 (mmio g) (GICR_BASE + GICR_WAKER)) 1 = false -> (asleep g < fuel)%nat ->
  Q tt (mkGic (mmio g) 0 (icc_sre g) (icc_pmr g) (icc_igrpen1 g) (active g)) -> wp False (wait_awake fuel) Q g.
Proof.
  revert g. induction fuel as [|fuel IH]; intros g Hs Hf HQ; [lia|]. cbn [wait_awake].
  assert (Hz : Z.land (read32 (mmio g) (GICR_BASE + GICR_WAKER)) WAKER_PROCESSOR_SLEEP = 0).
  { apply Z.bits_inj'. intros i Hi. rewrite Z.land_spec, Z.bits_0. change WAKER_PROCESSOR_SLEEP with (2 ^ 1).
    destruct (decide (i = 1)) as [->|]; [by rewrite Hs|]. by rewrite Z.pow2_bits_false, andb_false_r by lia. }
  wp_step. unfold wp, r32. rewrite Z.eqb_refl, Hz. cbn [negb Z.eqb]. destruct g as [m a s p e l]. cbn [asleep mmio] in *.
  destruct a as [|a].
  - assert (Hc : Z.land (Z.land (read32 m (GICR_BASE + GICR_WAKER)) (not64 WAKER_CHILDREN_ASLEEP)) WAKER_CHILDREN_ASLEEP = 0).
    { rewrite <-Z.land_assoc. change (Z.land (not64 WAKER_CHILDREN_ASLEEP) WAKER_CHILDREN_ASLEEP) with 0. apply Z.land_0_r. }
    rewrite Hc. exact HQ.
  - assert (Hc : (Z.land (Z.lor (read32 m (GICR_BASE + GICR_WAKER)) WAKER_CHILDREN_ASLEEP) WAKER_CHILDREN_ASLEEP =? 0) = false).
    { apply Z.eqb_neq. intros E. apply (f_equal (fun x => Z.testbit x 2)) in E.
      by rewrite Z.land_spec, Z.lor_spec, orb_true_r in E. }
    rewrite Hc. apply (IH (mkGic m a s p e l)); [done|cbn; lia|exact HQ].
Qed.

Lemma bit_shiftl i : 0 <= i -> Z.shiftl 1 i = 2 ^ i.
Proof. intros. rewrite Z.shiftl_mul_pow2 by lia. lia. Qed.

(** A bit that was or-ed in survives the 32-bit store. *)
Lemma stored_bit m a v i : 0 <= i < 32 -> Z.testbit (read32 (write32 m a (Z.lor v (Z.shiftl 1 i))) a) i = true.
Proof.
  intros Hi. unfold read32, write32. rewrite load_store_eq. change (256 ^ Z.of_nat 4) with (2 ^ 32).
  rewrite Z.mod_pow2_bits_low, Z.lor_spec, bit_shiftl, Z.pow2_bits_true by lia. apply orb_true_r.
Qed.

(** Registers apart do not disturb each other. *)
#[local] Ltac apart := repeat (rewrite load_store_ne by (regs; zlia)).

Lemma gic_init_wp i g :
  0 <= i < 32 ->
  wp False (gic_init i) (fun _ g' => cpu_ready g' /\ ppi_ready g' i /\ active g' = active g) g.
Proof.
  intros Hi. unfold gic_init. wp_steps. apply wp_w32. change (sets_bits (GICD_BASE + GICD_CTLR)) with false. cbv iota.
  wp_step. apply wp_waker. intros waker n _. wp_step. apply wp_w32.
  change (sets_bits (GICR_BASE + GICR_WAKER)) with false. cbv iota. wp_steps.
  apply wait_awake_wp.
  { cbn [mmio set_mmio]. unfold read32 at 1, write32 at 1. rewrite load_store_eq. change (256 ^ Z.of_nat 4) with (2 ^ 32).
    rewrite Z.mod_pow2_bits_low, Z.land_spec by lia. by rewrite andb_false_r. }
  { cbn. lia. }
  wp_step. apply wp_assert; [intros _|intros ?%Z.ltb_ge; lia]. wp_step. apply wp_r32; [regs; lia|]. wp_step. apply wp_w32.
  change (sets_bits (GICR_SGI_BASE + GICR_IGROUPR0)) with false. cbv iota. unfold w8. wp_steps. apply wp_w32.
  change (sets_bits (GICR_SGI_BASE + GICR_ISENABLER0)) with true. cbv iota. wp_steps.
  cbn [mmio set_mmio icc_sre icc_pmr icc_igrpen1 active asleep].
  set (en := Z.lor (read32 _ (GICR_SGI_BASE + GICR_ISENABLER0)) _). set (gr := Z.lor (read32 _ (GICR_SGI_BASE + GICR_IGROUPR0)) _).
  split; [|split; [|done]].
  - split; cbn [mmio icc_sre icc_pmr icc_igrpen1].
    + rewrite Z.lor_spec. by rewrite orb_true_r.
    + done.
    + unfold read32, write32. change (write8 ?m ?a ?v) with (store 1 m a v). apart. by rewrite load_store_eq.
    + unfold read32, write32. change (write8 ?m ?a ?v) with (store 1 m a v). apart.
      rewrite load_store_eq. change (256 ^ Z.of_nat 4) with (2 ^ 32).
      rewrite Z.mod_pow2_bits_low, Z.land_spec by lia. by rewrite andb_false_r.
  - split; unfold reg_bit; cbn [mmio].
    + unfold read32 at 1, write32 at 1. change (write8 ?m ?a ?v) with (store 1 m a v). apart. by apply stored_bit.
    + by apply stored_bit.
    + unfold write32 at 1. rewrite read8_store_ne by (regs; lia). by rewrite read8_write8_eq.
Qed.

Lemma sets_enabler i : 32 <= i < 1020 -> sets_bits (GICD_BASE + (GICD_ISENABLER + i / 32 * 4)) = true.
Proof. intros Hi. unfold sets_bits. apply orb_true_iff. left. apply andb_true_iff. regs. zlia. Qed.

Lemma sets_group i : 32 <= i < 1020 -> sets_bits (GICD_BASE + (GICD_IGROUPR + i / 32 * 4)) = false.
Proof. intros Hi. unfold sets_bits. apply orb_false_iff. rewrite andb_false_iff. regs. split; zlia. Qed.

Lemma enable_spi_wp i g :
  32 <= i < 1020 ->
  wp False (enable_spi i) (fun _ g' => spi_ready g' i /\ (cpu_ready g -> cpu_ready g') /\
    (forall j, 0 <= j < 32 -> ppi_ready g j -> ppi_ready g' j) /\ active g' = active g) g.
Proof.
  intros Hi. pose proof (Z.mod_pos_bound i 32 ltac:(lia)) as Hm. unfold enable_spi. wp_step.
  apply wp_assert; [intros _|intros ?%Z.leb_gt; lia]. wp_step. apply wp_r32; [regs; zlia|]. wp_step. apply wp_w32.
  rewrite sets_group by done. unfold w8, w64. wp_steps. apply wp_w32. rewrite sets_enabler by done.
  cbn [mmio set_mmio icc_sre icc_pmr icc_igrpen1 active asleep].
  set (en := Z.lor (read32 _ (GICD_BASE + (GICD_ISENABLER + _))) _). set (gr := Z.lor (read32 _ (GICD_BASE + (GICD_IGROUPR + _))) _).
  split; [|split; [|split; [|done]]].
  - split; unfold reg_bit; cbn [mmio set_mmio]; rewrite <-?(Z.add_assoc GICD_BASE).
    + unfold read32 at 1, write32 at 1, write64. change (write8 ?m ?a ?v) with (store 1 m a v).
      rewrite load_store_ne by (regs; zlia). rewrite load_store_ne by (regs; zlia). rewrite load_store_ne by (regs; zlia).
      by apply stored_bit.
    + by apply stored_bit.
    + unfold write32 at 1, write64. rewrite !read8_store_ne by (regs; zlia). by rewrite read8_write8_eq.
    + unfold write32 at 1, read64, write64. rewrite load_store_ne by (regs; zlia). by rewrite load_store_eq.
  - intros [C1 C2 C3 C4]. split; cbn [mmio set_mmio icc_sre icc_pmr icc_igrpen1]; try done.
    + rewrite <-C3. unfold read32, write32, write64. change (write8 ?m ?a ?v) with (store 1 m a v). by apart.
    + rewrite <-C4. unfold read32, write32, write64. change (write8 ?m ?a ?v) with (store 1 m a v). by apart.
  - intros j Hj [P1 P2 P3]. split; unfold reg_bit in *; cbn [mmio set_mmio].
    + rewrite <-P1. unfold read32, write32, write64. change (write8 ?m ?a ?v) with (store 1 m a v). by apart.
    + rewrite <-P2. unfold read32, write32, write64. change (write8 ?m ?a ?v) with (store 1 m a v). by apart.
    + rewrite <-P3. unfold write32, write64. change (write8 ?m ?a ?v) with (store 1 m a v).
      by rewrite !read8_store_ne by (regs; zlia).
Qed.

(** ** Delivery *)

(** The CPU interface is on, the distributor forwards group 1 with affinity routing,
    and the redistributor is awake. *)
Definition cpu_takes (g : Gic) : bool :=
  let ctlr := read32 (mmio g) (GICD_BASE + GICD_CTLR) in
  Z.testbit (icc_sre g) 0 && Z.testbit (icc_igrpen1 g) 0 && Z.testbit ctlr 1 && Z.testbit ctlr 4 &&
  negb (Z.testbit (read32 (mmio g) (GICR_BASE + GICR_WAKER)) 1).

(** Whether an interrupt a device raises reaches the CPU: it is enabled, in group 1,
    of a priority below the mask, routed to CPU 0 if it is shared, and no other one,
    all being of the same priority, is active. *)
Definition forwards (g : Gic) (i : Z) : bool :=
  cpu_takes g && match active g with [] => true | _ => false end &&
  if i <? 32 then
    reg_bit g (GICR_SGI_BASE + GICR_IGROUPR0) i && reg_bit g (GICR_SGI_BASE + GICR_ISENABLER0) i &&
    (read8 (mmio g) (GICR_SGI_BASE + GICR_IPRIORITYR + i) <? icc_pmr g)
  else
    reg_bit g (GICD_BASE + GICD_IGROUPR + i / 32 * 4) (i mod 32) &&
    reg_bit g (GICD_BASE + GICD_ISENABLER + i / 32 * 4) (i mod 32) &&
    (read8 (mmio g) (GICD_BASE + GICD_IPRIORITYR + i) <? icc_pmr g) &&
    (read64 (mmio g) (GICD_BASE + GICD_IROUTER + (i - 32) * 8) =? 0).

Lemma ready_forwards g i :
  cpu_ready g -> active g = [] -> (if i <? 32 then ppi_ready g i else spi_ready g i) -> forwards g i = true.
Proof.
  intros [C1 [C2 C3] C4 C5] Ha Hi. unfold forwards, cpu_takes. rewrite C1, C2, C3, C4, C5, Ha. cbn [negb andb].
  change (Z.testbit 1 0 && Z.testbit 0x13 1 && Z.testbit 0x13 4 && true) with true. cbn [andb].
  destruct (i <? 32); [destruct Hi as [H1 H2 H3]|destruct Hi as [H1 H2 H3 H4]; rewrite H4]; by rewrite H1, H2, H3.
Qed.

(** The timer raises its interrupt when its countdown has ended, if it is enabled
    and not masked. *)
Definition ticking (t : Timer) : bool := Z.testbit (cntp_ctl t) 0 && negb (Z.testbit (cntp_ctl t) 1).

(** For every private interrupt and every shared one, [init] followed by
    [enable_spi] returns however long the redistributor takes to wake, and leaves
    the CPU interface and the distributor on, and both interrupts enabled, in
    group 1, at the highest priority, the shared one routed to CPU 0; none is
    acknowledged by it. *)
Theorem gic_bringup ppi spi g :
  0 <= ppi < 32 -> 32 <= spi < 1020 ->
  exists g', (gic_init ppi ;;; enable_spi spi) g = Ret (tt, g') /\
    cpu_ready g' /\ ppi_ready g' ppi /\ spi_ready g' spi /\ active g' = active g.
Proof.
  intros Hp Hs. apply (wp_unit _ (fun g' => cpu_ready g' /\ ppi_ready g' ppi /\ spi_ready g' spi /\ active g' = active g)).
  wp_step. eapply wp_mono; [by apply gic_init_wp|]. intros [] g1 (Hc & Hr & Ha).
  eapply wp_mono; [by apply enable_spi_wp|]. intros [] g2 (Hsp & Hc2 & Hr2 & Ha2). split_and!; auto. congruence.
Qed.

Lemma gic_bringup_witness : exists g',
  (gic_init TIMER_INTID ;;; enable_spi 33) (mkGic ∅ 3 0 0 0 []) = Ret (tt, g') /\ ppi_ready g' 30 /\ spi_ready g' 33.
Proof.
  destruct (gic_bringup TIMER_INTID 33 (mkGic ∅ 3 0 0 0 []) ltac:(unfold TIMER_INTID; lia) ltac:(lia))
    as (g' & Hrun & _ & Hp & Hs & _).
  exists g'. split; [exact Hrun|]. split; [exact Hp|exact Hs].
Defined.
