(* ===== verification/Process.v ===== *)
(** * Processes

    kernel/src/process.rs: the process table and every operation on it. The state
    is the whole kernel: scheduler (with the machine below it), process table,
    console, the poller's task index of ring.rs, and the interrupt devices. A lock taken and released
    within one operation leaves no trace in the state. *)

From Stdlib Require Import ZArith Lia.
From stdpp Require Import base numbers gmap list list_relations.
From S2P Require Import Prelude Memory Abi Frames Mmu Sched Console Elf Devices.

Definition USER_STACK_VA : Z := USER_BASE + 0x100000.
Definition USER_STACK_SIZE : Z := FRAME_SIZE.
Definition MAX_PENDING : nat := 8.

Record Pending := mkPending { pbuf : Z; plen : Z; puser_data : Z }.

Record Process := mkProcess {
  p_ttbr0 : Z;
  p_loaded : Loaded;
  p_frames : list (Z * Z);
  p_ring_pa : Z;
  p_pending : list (option Pending);
  p_ring_waiter : option nat;
  p_foreground : bool;
  p_parent : option nat;
  p_exit_code : option Z;
  p_exit_waiter : option Z
}.

(** The kernel's statics and the machine. *)
Record kernel := mkKernel {
  ks : ksched;
  PROCESSES : list Process;
  kcon : console;
  poller : option nat;
  kgic : Gic;
  ktimer : Timer
}.

Definition set_ks (s : ksched) (k : kernel) : kernel :=
  mkKernel s (PROCESSES k) (kcon k) (poller k) (kgic k) (ktimer k).
Definition set_procs (ps : list Process) (k : kernel) : kernel :=
  mkKernel (ks k) ps (kcon k) (poller k) (kgic k) (ktimer k).
Definition set_con (c : console) (k : kernel) : kernel :=
  mkKernel (ks k) (PROCESSES k) c (poller k) (kgic k) (ktimer k).
Definition set_poller (p : option nat) (k : kernel) : kernel :=
  mkKernel (ks k) (PROCESSES k) (kcon k) p (kgic k) (ktimer k).
Definition set_gic (g : Gic) (k : kernel) : kernel :=
  mkKernel (ks k) (PROCESSES k) (kcon k) (poller k) g (ktimer k).
Definition set_timer (t : Timer) (k : kernel) : kernel :=
  mkKernel (ks k) (PROCESSES k) (kcon k) (poller k) (kgic k) t.

Definition the_mmu (k : kernel) : mmu := kmmu (ks k).
Definition kernel_mem (k : kernel) : mem := mem_of (the_mmu k).
Definition put_mmu (m : mmu) (k : kernel) : kernel := set_ks (set_mmu m (ks k)) k.

Definition set_kernel_mem (m : mem) (k : kernel) : kernel :=
  put_mmu (set_ph (set_ram m (ph (the_mmu k))) (the_mmu k)) k.

(** Operations of the components, run on their part of the kernel. *)
Definition in_sched {A} : M ksched A -> M kernel A := zoomM ks set_ks.
Definition in_mmu {A} : M mmu A -> M kernel A := zoomM the_mmu put_mmu.
Definition in_con {A} : M console A -> M kernel A := zoomM kcon set_con.
Definition in_gic {A} : M Gic A -> M kernel A := zoomM kgic set_gic.
Definition in_timer {A} : M Timer A -> M kernel A := zoomM ktimer set_timer.

(** [PROCESSES.lock()[pid]], and assignment to its fields, when the lock is free;
    [Interrupts] has the lock, for the code that may find it held. *)
Definition proc (pid : nat) : M kernel Process :=
  let! k := getM in expectM (PROCESSES k !! pid).
Definition update_proc (pid : nat) (f : Process -> Process) : M kernel unit :=
  let! _ := proc pid in
  modifyM (fun k => set_procs (alter f pid (PROCESSES k)) k).

Definition set_frames (v : list (Z * Z)) (p : Process) : Process :=
  mkProcess (p_ttbr0 p) (p_loaded p) v (p_ring_pa p) (p_pending p) (p_ring_waiter p)
    (p_foreground p) (p_parent p) (p_exit_code p) (p_exit_waiter p).
Definition set_ring_pa (v : Z) (p : Process) : Process :=
  mkProcess (p_ttbr0 p) (p_loaded p) (p_frames p) v (p_pending p) (p_ring_waiter p)
    (p_foreground p) (p_parent p) (p_exit_code p) (p_exit_waiter p).
Definition set_pending (v : list (option Pending)) (p : Process) : Process :=
  mkProcess (p_ttbr0 p) (p_loaded p) (p_frames p) (p_ring_pa p) v (p_ring_waiter p)
    (p_foreground p) (p_parent p) (p_exit_code p) (p_exit_waiter p).
Definition set_ring_waiter (v : option nat) (p : Process) : Process :=
  mkProcess (p_ttbr0 p) (p_loaded p) (p_frames p) (p_ring_pa p) (p_pending p) v
    (p_foreground p) (p_parent p) (p_exit_code p) (p_exit_waiter p).
Definition set_fg (v : bool) (p : Process) : Process :=
  mkProcess (p_ttbr0 p) (p_loaded p) (p_frames p) (p_ring_pa p) (p_pending p) (p_ring_waiter p)
    v (p_parent p) (p_exit_code p) (p_exit_waiter p).
Definition set_parent_of (v : option nat) (p : Process) : Process :=
  mkProcess (p_ttbr0 p) (p_loaded p) (p_frames p) (p_ring_pa p) (p_pending p) (p_ring_waiter p)
    (p_foreground p) v (p_exit_code p) (p_exit_waiter p).
Definition set_code (v : option Z) (p : Process) : Process :=
  mkProcess (p_ttbr0 p) (p_loaded p) (p_frames p) (p_ring_pa p) (p_pending p) (p_ring_waiter p)
    (p_foreground p) (p_parent p) v (p_exit_waiter p).
Definition set_exit_waiter (v : option Z) (p : Process) : Process :=
  mkProcess (p_ttbr0 p) (p_loaded p) (p_frames p) (p_ring_pa p) (p_pending p) (p_ring_waiter p)
    (p_foreground p) (p_parent p) (p_exit_code p) v.

(** ** Creation *)

Definition create (image : list Z) (ttbr0 : Z) : M kernel nat :=
  let! lf := in_mmu (load image ttbr0) in
  let! o := in_mmu (in_phys alloc_frame) in
  let! stack := expectM o in
  in_mmu (map_page_in (l0_ptr ttbr0) USER_STACK_VA stack PAGE_USER_RW) ;;;
  let p := mkProcess ttbr0 lf.1 (lf.2 ++ [(USER_STACK_VA, stack)]) 0 (replicate MAX_PENDING None)
             None false None None None in
  modifyM (fun k => set_procs (PROCESSES k ++ [p]) k) ;;;
  getsM (fun k => (length (PROCESSES k) - 1)%nat).

(** ** The fields *)

Definition set_parent (pid parent : nat) : M kernel unit := update_proc pid (set_parent_of (Some parent)).
Definition parent (pid : nat) : M kernel (option nat) := let! p := proc pid in retM (p_parent p).
Definition exit_code (pid : nat) : M kernel (option Z) := let! p := proc pid in retM (p_exit_code p).
Definition register_wait (pid : nat) (tag : Z) : M kernel unit := update_proc pid (set_exit_waiter (Some tag)).

Definition on_exit (pid : nat) (code : Z) : M kernel (option (nat * Z)) :=
  update_proc pid (set_code (Some code)) ;;;
  let! p := proc pid in
  update_proc pid (set_exit_waiter None) ;;;
  match p_exit_waiter p with
  | None => retM None
  | Some tag =>
      let! p := proc pid in
      match p_parent p with
      | None => retM None
      | Some parent => retM (Some (parent, tag))
      end
  end.

Definition proc_count (k : kernel) : nat := length (PROCESSES k).
Definition proc_ttbr0 (pid : nat) : M kernel Z := let! p := proc pid in retM (p_ttbr0 p).
Definition entry (pid : nat) : M kernel Z := let! p := proc pid in retM (entry_va (p_loaded p)).
Definition ring_pa (pid : nat) : M kernel Z := let! p := proc pid in retM (p_ring_pa p).

Definition set_ring (pid : nat) (frame : Z) : M kernel unit :=
  update_proc pid (set_ring_pa frame) ;;;
  update_proc pid (fun p => set_frames (p_frames p ++ [(USER_RING_VA, frame)]) p).

Definition set_foreground (pid : nat) (on : bool) : M kernel unit := update_proc pid (set_fg on).

(** [iter().position(..)]. *)
Fixpoint position {A} (f : A -> bool) (l : list A) : option nat :=
  match l with
  | [] => None
  | x :: l' => if f x then Some O else S <$> position f l'
  end.

Definition foreground_pid (k : kernel) : option nat := position p_foreground (PROCESSES k).

Definition is_none {A} (o : option A) : bool := match o with None => true | Some _ => false end.

(** The first free slot is taken. *)
Definition park_read (pid : nat) (r : Pending) : M kernel bool :=
  let! p := proc pid in
  match position is_none (p_pending p) with
  | Some i => update_proc pid (fun p => set_pending (<[i := Some r]> (p_pending p)) p) ;;; retM true
  | None => retM false
  end.

Definition pending_snapshot (pid : nat) : M kernel (list (option Pending)) :=
  let! p := proc pid in retM (p_pending p).

Definition clear_pending (pid idx : nat) : M kernel unit :=
  let! p := proc pid in
  let! _ := expectM (p_pending p !! idx) in
  update_proc pid (fun p => set_pending (<[idx := None]> (p_pending p)) p).

Definition set_waiter (pid task : nat) : M kernel unit := update_proc pid (set_ring_waiter (Some task)).

Definition take_waiter (pid : nat) : M kernel (option nat) :=
  let! p := proc pid in
  update_proc pid (set_ring_waiter None) ;;;
  retM (p_ring_waiter p).

Definition clear_ring (pid : nat) : M kernel unit :=
  update_proc pid (set_pending (replicate MAX_PENDING None)) ;;;
  update_proc pid (set_ring_waiter None).

Definition take_frames (pid : nat) : M kernel (list (Z * Z)) :=
  let! p := proc pid in
  update_proc pid (set_frames []) ;;;
  retM (p_frames p).

Definition mark_exited (pid : nat) : M kernel unit :=
  update_proc pid (set_ring_pa 0) ;;;
  update_proc pid (set_fg false).

(** ** Validation of user pointers *)

(** The first range that contains the span decides. *)
Fixpoint in_ranges (rs : list Range) (ptr e : Z) (need_write : bool) : bool :=
  match rs with
  | [] => false
  | r :: rs' =>
      if (start r <=? ptr) && (e <=? end_ r) then negb need_write || writable r
      else in_ranges rs' ptr e need_write
  end.

Definition is_user_range (pid : nat) (ptr len : Z) (need_write : bool) : M kernel bool :=
  match checked_add ptr len with
  | None => retM false
  | Some e =>
      if (USER_STACK_VA <=? ptr) && (e <=? USER_STACK_VA + USER_STACK_SIZE) then retM true
      else
        let! p := proc pid in
        let lo := p_loaded p in
        assertM (Nat.leb (Elf.count lo) (length (ranges lo))) ;;;
        retM (in_ranges (take (Elf.count lo) (ranges lo)) ptr e need_write)
  end.

(** ** An empty machine

    Memory reads as zero, no frame is managed, no task or process exists, and the
    redistributor needs three polls to wake: a starting point for examples. *)

Definition cold_mmu : mmu := mkMmu {| ram := ∅; fa := FrameAllocator_new |} 0 0 0 0 0 0 0.
Definition cold_kernel : kernel :=
  mkKernel (mkKs (mkSched [] 0) 0 (mkRegs 0 0 0 0 0 0 0 0 0 0 0 0) 0 ∅ cold_mmu) []
    (mkConsole (mkPl011 [] [] 0 []) INPUT_new) None (mkGic ∅ 3 0 0 0 []) (mkTimer 0 62500000 0 0).
