(* ===== verification/Text.v ===== *)
(** * Text

    The part of Rust's [core::str] and [core::fmt] the kernel uses: strings as
    UTF-8 bytes, [from_utf8], and decimal and hexadecimal integers. *)

From Stdlib Require Import ZArith Lia String Ascii.
From stdpp Require Import base numbers list.
From S2P Require Import Prelude.

Fixpoint str (s : string) : list Z :=
  match s with
  | EmptyString => []
  | String c s' => Z.of_N (N_of_ascii c) :: str s'
  end.

Arguments str s%_string.

(** ** [core::str::from_utf8] *)

Definition in_rng (lo hi x : Z) : bool := (lo <=? x) && (x <=? hi).
Definition cont (x : Z) : bool := in_rng 0x80 0xBF x.

(** The second byte allowed after a lead byte of three or four. *)
Definition lead2 (a : Z) : bool := in_rng 0xC2 0xDF a.
Definition lead3 (a b : Z) : bool :=
  ((a =? 0xE0) && in_rng 0xA0 0xBF b) || (in_rng 0xE1 0xEC a && cont b) ||
  ((a =? 0xED) && in_rng 0x80 0x9F b) || (in_rng 0xEE 0xEF a && cont b).
Definition lead4 (a b : Z) : bool :=
  ((a =? 0xF0) && in_rng 0x90 0xBF b) || (in_rng 0xF1 0xF3 a && cont b) ||
  ((a =? 0xF4) && in_rng 0x80 0x8F b).

Fixpoint utf8_valid (l : list Z) : bool :=
  match l with
  | [] => true
  | a :: l1 =>
      if a <? 0x80 then utf8_valid l1
      else
        match l1 with
        | [] => false
        | b :: l2 =>
            if lead2 a && cont b then utf8_valid l2
            else
              match l2 with
              | [] => false
              | c :: l3 =>
                  if lead3 a b && cont c then utf8_valid l3
                  else
                    match l3 with
                    | [] => false
                    | d :: l4 => if lead4 a b && cont c && cont d then utf8_valid l4 else false
                    end
              end
        end
  end.

Definition from_utf8 (l : list Z) : option (list Z) := if utf8_valid l then Some l else None.

(** ** Integers *)

Definition digit (d : Z) : Z := if d <? 10 then 48 + d else 87 + d.

(** Digits of [n] in [base], most significant first, before [acc]; 20 decimal or 16
    hexadecimal digits hold any [u64]. *)
Fixpoint digits (fuel : nat) (base n : Z) (acc : list Z) : list Z :=
  match fuel with
  | O => acc
  | S f => let acc' := digit (n mod base) :: acc in
           if n / base =? 0 then acc' else digits f base (n / base) acc'
  end.

(** [{}] of an unsigned and of a signed integer, [{:#x}], [{:#04x}] and [{:#018x}]. *)
Definition fmt_u (n : Z) : list Z := digits 20 10 n [].
Definition fmt_i (n : Z) : list Z := if n <? 0 then 45 :: fmt_u (- n) else fmt_u n.
Definition fmt_x (n : Z) : list Z := str "0x" ++ digits 16 16 n [].
Definition padded (width : nat) (n : Z) : list Z :=
  let ds := digits 16 16 n [] in str "0x" ++ replicate (width - 2 - length ds) 48 ++ ds.
Definition fmt_04x : Z -> list Z := padded 4.
Definition fmt_018x : Z -> list Z := padded 18.
