(* ===== verification/Ring.v ===== *)
(** * The ring

    kernel/src/ring.rs: submissions and completions on the shared ring page, with
    the gate of user.rs for copies into user memory and the lookup of programs.rs.
    The page is reached at its physical address; payloads through the live TTBR0,
    where a faulting access at EL1 halts the kernel. *)

From Stdlib Require Import ZArith Lia String.
From stdpp Require Import base numbers gmap strings list list_relations.
From S2P Require Import Prelude Memory Abi Frames Mmu PageTables AddressSpaces.
From S2P Require Import Sched Console Elf Process Text.

Definition SQ_IDLE_TICKS : Z := 5.
Definition ERR : Z := -1.

(** ** Memory accesses *)

(** Atomic loads and stores of the ring page. *)
Definition ld32 (a : Z) : M kernel Z := getsM (fun k => read32 (kernel_mem k) a).
Definition ld64 (a : Z) : M kernel Z := getsM (fun k => read64 (kernel_mem k) a).
Definition st32 (a v : Z) : M kernel unit := modifyM (fun k => set_kernel_mem (write32 (kernel_mem k) a v) k).
Definition st64 (a v : Z) : M kernel unit := modifyM (fun k => set_kernel_mem (write64 (kernel_mem k) a v) k).

(** [kprintln!]. *)
Definition say (s : list Z) : M kernel unit := in_con (write_str (s ++ [NL])).

(** The bytes [from_raw_parts(ptr, len)] shows the kernel. *)
Fixpoint user_bytes (n : nat) (ptr : Z) : M kernel (list Z) :=
  match n with
  | O => retM []
  | S n' =>
      let! k := getM in
      let! b := expectM (el1_load (kernel_mem k) (live_l0 (the_mmu k)) ptr) in
      let! bs := user_bytes n' (ptr + 1) in
      retM (b :: bs)
  end.

(** [sttrb]: a store with EL0's rights. *)
Definition sttrb (va b : Z) : M kernel unit :=
  let! k := getM in
  let! m := expectM (el0_store (kernel_mem k) (live_l0 (the_mmu k)) va b) in
  modifyM (set_kernel_mem m).

Fixpoint copy_bytes (dst i : Z) (src : list Z) : M kernel unit :=
  match src with
  | [] => retM tt
  | b :: src' =>
      let! a := addM dst i in
      sttrb a b ;;;
      copy_bytes dst (i + 1) src'
  end.

Definition copy_to_user (pid : nat) (dst : Z) (src : list Z) : M kernel bool :=
  let! ok := is_user_range pid dst (Z.of_nat (length src)) true in
  if negb ok then retM false
  else copy_bytes dst 0 src ;;; retM true.

(** ** Completions *)

Definition slot (index : Z) : Z := Z.land index RING_MASK.
Definition sqe_at (page index : Z) : Z := page + SQ + SQE_SIZE * slot index.
Definition cqe_at (page index : Z) : Z := page + CQ + CQE_SIZE * slot index.

Definition complete (page user_data result : Z) : M kernel unit :=
  let! tail := ld32 (page + CQ_TAIL) in
  let! head := ld32 (page + CQ_HEAD) in
  if RING_ENTRIES <=? wrapping_sub 32 tail head then
    say (str "jring: completion queue overflow, dropping CQE")
  else
    st64 (cqe_at page tail) user_data ;;;
    st64 (cqe_at page tail + 8) (as_u64 result) ;;;
    st32 (page + CQ_TAIL) (wrapping_add 32 tail 1).

(** ** Input *)

(** [while count < len]: a round per buffered byte, so one round more than the
    buffer holds reaches the exit. *)
Fixpoint drain_bytes (fuel : nat) (pid : nat) (buf len count : Z) : M kernel Z :=
  match fuel with
  | O => panicM
  | S fuel' =>
      if count <? len then
        let! o := in_con input_pop in
        match o with
        | Some b =>
            let! a := addM buf count in
            let! ok := copy_to_user pid a [b] in
            if negb ok then retM count
            else drain_bytes fuel' pid buf len (count + 1)
        | None => retM count
        end
      else retM count
  end.

Definition drain_input (pid : nat) (buf len : Z) : M kernel Z :=
  let! k := getM in
  drain_bytes (S (Console.count (INPUT (kcon k)))) pid buf len 0.

(** ** Submissions *)

Section ring.
(** The table build.rs generates: names and images. *)
Context (PROGRAMS : list (list Z * list Z)).
(** Addresses of [task_trampoline] and [user_task], and the block the heap returns
    for a stack ([None]: out of memory). *)
Context (task_trampoline user_task : Z) (box_stack : kernel -> option Z).

(** programs.rs. *)
Fixpoint lookup_program (ps : list (list Z * list Z)) (name : list Z) : option (list Z) :=
  match ps with
  | [] => None
  | (n, bytes) :: ps' => if bool_decide (n = name) then Some bytes else lookup_program ps' name
  end.
Definition get (name : list Z) : option (list Z) := lookup_program PROGRAMS name.

(** The new process is recorded, checked not to share its parent's first page, and
    given a task. *)
Definition start_child (pid : nat) (page user_data : Z) (name : list Z) (ttbr0 : Z) (child : nat) :
    M kernel unit :=
  set_parent child pid ;;;
  let! parent_ttbr0 := proc_ttbr0 pid in
  let! k := getM in
  assertM (bool_decide (translate (kernel_mem k) ttbr0 USER_BASE <>
                        translate (kernel_mem k) parent_ttbr0 USER_BASE)) ;;;
  say (str "[spawn] " ++ name ++ str " -> pid " ++ fmt_u (Z.of_nat child)) ;;;
  let! k := getM in
  let! stack := expectM (box_stack k) in
  in_sched (spawn_user task_trampoline stack user_task 0 child ttbr0) ;;;
  complete page user_data (Z.of_nat child).

Definition spawn_op (pid : nat) (name_ptr name_len user_data : Z) : M kernel unit :=
  let! page := ring_pa pid in
  let! ok := is_user_range pid name_ptr name_len false in
  if negb ok then complete page user_data ERR
  else
    let! bytes := user_bytes (Z.to_nat name_len) name_ptr in
    match from_utf8 bytes with
    | None => complete page user_data ERR
    | Some name =>
        match get name with
        | None => complete page user_data ERR
        | Some image =>
            let! ttbr0 := in_mmu new_address_space in
            let! child := create image ttbr0 in
            start_child pid page user_data name ttbr0 child
        end
    end.

Definition wait_op (pid : nat) (handle user_data : Z) : M kernel unit :=
  let! page := ring_pa pid in
  let! k := getM in
  if Z.of_nat (proc_count k) <=? handle then complete page user_data ERR
  else
    let h := Z.to_nat handle in
    let! par := parent h in
    if negb (bool_decide (par = Some pid)) then complete page user_data ERR
    else
      let! code := exit_code h in
      match code with
      | Some c => complete page user_data c
      | None => register_wait h user_data
      end.

Definition print_op (pid : nat) (page ptr len user_data : Z) : M kernel unit :=
  let! ok := is_user_range pid ptr len false in
  if negb ok then complete page user_data ERR
  else
    let! bytes := user_bytes (Z.to_nat len) ptr in
    (match from_utf8 bytes with Some s => in_con (write_str s) | None => retM tt end) ;;;
    complete page user_data 0.

Definition read_op (pid : nat) (page ptr len user_data : Z) : M kernel unit :=
  let! ok := is_user_range pid ptr len true in
  if negb ok then complete page user_data ERR
  else if len =? 0 then complete page user_data 0
  else
    let! k := getM in
    let! count := (if bool_decide (foreground_pid k = Some pid) then drain_input pid ptr len else retM 0) in
    if 0 <? count then complete page user_data count
    else
      let! parked := park_read pid (mkPending ptr len user_data) in
      if negb parked then complete page user_data ERR else retM tt.

(** What a submission asks for. *)
Definition exec_sqe (pid : nat) (opcode arg0 arg1 user_data : Z) : M kernel unit :=
  let! page := ring_pa pid in
  if opcode =? OP_NOP then complete page user_data 0
  else if opcode =? OP_PRINT then print_op pid page arg0 arg1 user_data
  else if opcode =? OP_READ then read_op pid page arg0 arg1 user_data
  else if opcode =? OP_SPAWN then spawn_op pid arg0 arg1 user_data
  else if opcode =? OP_WAIT then wait_op pid arg0 user_data
  else complete page user_data ERR.

Definition process_sqe (pid : nat) (sqe : Z) : M kernel unit :=
  let! opcode := ld64 sqe in
  let! arg0 := ld64 (sqe + 8) in
  let! arg1 := ld64 (sqe + 16) in
  let! user_data := ld64 (sqe + 24) in
  exec_sqe pid opcode arg0 arg1 user_data.

(** [while head != tail]; indices wrap at 32 bits, so [tail - head] rounds reach
    the exit. *)
Fixpoint drain_sq (fuel : nat) (pid : nat) (page head tail : Z) : M kernel unit :=
  if head =? tail then retM tt
  else
    match fuel with
    | O => panicM
    | S fuel' =>
        process_sqe pid (sqe_at page head) ;;;
        let head' := wrapping_add 32 head 1 in
        st32 (page + SQ_HEAD) head' ;;;
        drain_sq fuel' pid page head' tail
    end.

Definition drain (pid : nat) : M kernel bool :=
  let! page := ring_pa pid in
  if page =? 0 then retM false
  else
    let! head := ld32 (page + SQ_HEAD) in
    let! tail := ld32 (page + SQ_TAIL) in
    drain_sq (Z.to_nat (wrapping_sub 32 tail head)) pid page head tail ;;;
    retM (negb (head =? tail)).

(** ** System calls *)

Definition setup : M kernel Z :=
  let! o := in_sched current_process in
  match o with
  | None => retM (2 ^ 64 - 1)
  | Some pid =>
      let! page := ring_pa pid in
      if negb (page =? 0) then retM USER_RING_VA
      else
        let! f := in_mmu (in_phys alloc_frame) in
        let! frame := expectM f in
        modifyM (fun k => set_kernel_mem (fill_up 4096 frame 0 0 (kernel_mem k)) k) ;;;
        let! root := proc_ttbr0 pid in
        in_mmu (map_page_in (l0_ptr root) USER_RING_VA frame PAGE_USER_RW) ;;;
        set_ring pid frame ;;;
        retM USER_RING_VA
  end.

(** [enter] returns a value, or its task blocks inside the wait loop. *)
Inductive entered :=
| Done (v : Z)
| Waiting (pid : nat) (page min_complete : Z).

(** One round of the wait loop; a task that blocked does another round when it
    next runs. *)
Definition enter_wait (pid : nat) (page min_complete : Z) : M kernel entered :=
  let! tail := ld32 (page + CQ_TAIL) in
  let! head := ld32 (page + CQ_HEAD) in
  if min_complete <=? wrapping_sub 32 tail head then retM (Done 0)
  else
    let! me := in_sched (getsM current_task) in
    set_waiter pid me ;;;
    in_sched block_current ;;;
    retM (Waiting pid page min_complete).

Definition revive_poller (page : Z) : M kernel unit :=
  let! fl := ld32 (page + FLAGS) in
  if negb (Z.land fl NEED_WAKEUP =? 0) then
    st32 (page + FLAGS) 0 ;;;
    let! p := getsM poller in
    match p with Some t => in_sched (wake t) | None => retM tt end
  else retM tt.

Definition enter (min_complete : Z) : M kernel entered :=
  let! o := in_sched current_process in
  match o with
  | None => retM (Done (2 ^ 64 - 1))
  | Some pid =>
      let! page := ring_pa pid in
      if page =? 0 then retM (Done (2 ^ 64 - 1))
      else
        revive_poller page ;;;
        let! _ := drain pid in
        enter_wait pid page min_complete
  end.
End ring.

(** ** Exits and the receive interrupt *)

Definition wake_waiter (pid : nat) : M kernel unit :=
  let! w := take_waiter pid in
  match w with Some t => in_sched (wake t) | None => retM tt end.

Definition notify_exit (pid : nat) (code : Z) : M kernel unit :=
  let! o := on_exit pid code in
  match o with
  | None => retM tt
  | Some (parent, tag) =>
      let! page := ring_pa parent in
      (if negb (page =? 0) then complete page tag code else retM tt) ;;;
      wake_waiter parent
  end.

(** The loop over the snapshot; the result is [completed]. *)
Fixpoint poll_slots (pid : nat) (page : Z) (i : nat) (slots : list (option Pending)) (completed : bool) :
    M kernel bool :=
  match slots with
  | [] => retM completed
  | None :: slots' => poll_slots pid page (S i) slots' completed
  | Some p :: slots' =>
      let! count := drain_input pid (pbuf p) (plen p) in
      if 0 <? count then
        complete page (puser_data p) count ;;;
        clear_pending pid i ;;;
        poll_slots pid page (S i) slots' true
      else poll_slots pid page (S i) slots' completed
  end.

Definition poll_pending : M kernel unit :=
  let! fg := getsM foreground_pid in
  match fg with
  | None => retM tt
  | Some pid =>
      let! page := ring_pa pid in
      if page =? 0 then retM tt
      else
        let! prev := getsM (fun k => current_ttbr0 (the_mmu k)) in
        let! fg := proc_ttbr0 pid in
        (if negb (prev =? fg) then in_mmu (activate fg) else retM tt) ;;;
        let! slots := pending_snapshot pid in
        let! completed := poll_slots pid page 0 slots false in
        (if negb (prev =? fg) then in_mmu (activate prev) else retM tt) ;;;
        if completed then wake_waiter pid else retM tt
  end.

Definition abort_user (pid : nat) : M kernel unit := clear_ring pid.
