(* ===== verification/User.v ===== *)
(** * Entering and leaving user mode

    kernel/src/user.rs ([enter_user], [teardown]), kernel/src/syscall.rs and
    kernel/src/exceptions.rs: what the kernel does between an exception and the
    ERET, or the switch to another task, that ends it. *)

From Stdlib Require Import ZArith Lia String.
From stdpp Require Import base numbers gmap strings list list_relations.
From S2P Require Import Prelude Memory Abi Frames Mmu PageTables AddressSpaces.
From S2P Require Import Sched Console Elf Devices Process Text Ring.

(** ** user.rs *)

(** The state [eret] leaves EL1 with. *)
Record Eret := mkEret { eret_elr : Z; eret_spsr : Z; eret_sp : Z }.

Definition enter_user : M kernel Eret :=
  let! o := in_sched current_process in
  let! pid := expectM o in
  let! e := Process.entry pid in
  let! user_sp := addM USER_STACK_VA USER_STACK_SIZE in
  retM (mkEret e 0 user_sp).

(** main.rs: where the task of a process starts. *)
Definition user_task : M kernel Eret :=
  in_con (write_str (str "entering user mode (EL0)..." ++ [NL])) ;;;
  enter_user.

(** [for (va, frame) in owned]. *)
Fixpoint release_pages (owned : list (Z * Z)) : M mmu unit :=
  match owned with
  | [] => retM tt
  | (va, frame) :: owned' =>
      unmap_page va ;;;
      in_phys (free_frame frame) ;;;
      release_pages owned'
  end.

Definition teardown (code : Z) : M kernel unit :=
  let! o := in_sched current_process in
  let! pid := expectM o in
  abort_user pid ;;;
  notify_exit pid code ;;;
  let! dead_ttbr0 := proc_ttbr0 pid in
  let! owned := take_frames pid in
  in_mmu (release_pages owned) ;;;
  let! kroot := getsM (fun k => kernel_ttbr0 (the_mmu k)) in
  in_mmu (activate kroot) ;;;
  in_mmu (free_address_space dead_ttbr0) ;;;
  mark_exited pid ;;;
  say (str "[user] freed " ++ fmt_u (Z.of_nat (length owned)) ++ str " frames").

(** ** syscall.rs *)

Record TrapFrame := mkFrame { regs : list Z; elr : Z; spsr : Z; sp_el0 : Z }.

(** [frame.x[i]]. *)
Definition reg (f : TrapFrame) (i : nat) : M kernel Z := expectM (regs f !! i).
Definition set_reg0 (v : Z) (f : TrapFrame) : TrapFrame := mkFrame (<[O := v]> (regs f)) (elr f) (spsr f) (sp_el0 f).

(** How a handler ends: by returning to the interrupted code with a frame, with the
    task parked inside [enter], or with the task gone. *)
Inductive ending :=
| Resume (f : TrapFrame)
| Parked (f : TrapFrame) (pid : nat) (page min_complete : Z)
| Retired.

Section traps.
Context (PROGRAMS : list (list Z * list Z)).
Context (task_trampoline user_task_pc : Z) (box_stack : kernel -> option Z).
Abbreviation enter := (enter PROGRAMS task_trampoline user_task_pc box_stack).

(** [teardown] and [exit_current]: the calling task never runs again. *)
Definition retire (code : Z) : M kernel ending :=
  teardown code ;;;
  in_sched task_exit ;;;
  retM Retired.

Definition resume_enter (f : TrapFrame) (r : entered) : ending :=
  match r with
  | Done v => Resume (set_reg0 v f)
  | Waiting pid page min_complete => Parked f pid page min_complete
  end.

Definition dispatch (f : TrapFrame) : M kernel ending :=
  let! num := reg f 8 in
  let! a0 := reg f 0 in
  if num =? SYS_ADD then
    let! a1 := reg f 1 in
    retM (Resume (set_reg0 (wrapping_add 64 a0 a1) f))
  else if num =? SYS_RING_SETUP then
    let! v := setup in
    retM (Resume (set_reg0 v f))
  else if num =? SYS_RING_ENTER then
    let! r := enter a0 in
    retM (resume_enter f r)
  else if num =? SYS_EXIT then
    let code := as_i64 a0 in
    say (str "[user] exited with code " ++ fmt_i code) ;;;
    retire code
  else
    say (str "unknown syscall " ++ fmt_u num) ;;;
    retM (Resume (set_reg0 (2 ^ 64 - 1) f)).

(** A task parked in [enter] is scheduled again. *)
Definition resume_parked (f : TrapFrame) (pid : nat) (page min_complete : Z) : M kernel ending :=
  let! r := enter_wait pid page min_complete in
  retM (resume_enter f r).

(** ** exceptions.rs *)

Definition EC_SVC : Z := 0x15.

Definition ec_name (ec : Z) : list Z :=
  if ec =? 0x00 then str "unknown"
  else if ec =? 0x07 then str "SIMD/FP access trapped"
  else if ec =? 0x15 then str "SVC (AArch64 syscall)"
  else if ec =? 0x20 then str "instruction abort (lower EL)"
  else if ec =? 0x21 then str "instruction abort (same EL)"
  else if ec =? 0x24 then str "data abort (lower EL)"
  else if ec =? 0x25 then str "data abort (same EL)"
  else if ec =? 0x3C then str "BRK (AArch64 breakpoint)"
  else str "other".

Definition exception_class (esr : Z) : Z := Z.land (Z.shiftr esr 26) 0x3F.

Definition kill_user (esr far : Z) (f : TrapFrame) : M kernel ending :=
  let ec := exception_class esr in
  say (str "[user] killed: " ++ ec_name ec ++ str " (EC " ++ fmt_04x ec ++ str "), ELR=" ++
       fmt_x (elr f) ++ str ", FAR=" ++ fmt_x far) ;;;
  retire (-1).

Definition vector_name (kind : Z) : list Z :=
  if kind <=? 3 then str "current EL, SP0"
  else if kind <=? 7 then str "current EL, SPx"
  else if kind <=? 11 then str "lower EL, AArch64"
  else str "lower EL, AArch32".

(** A diagnostic, then [wfe] for ever. *)
Definition report_and_halt (kind esr far : Z) (f : TrapFrame) : M kernel ending :=
  let ec := exception_class esr in
  say [] ;;;
  say (str "*** EXCEPTION (vector " ++ fmt_u kind ++ str ": " ++ vector_name kind ++ str ") ***") ;;;
  say (str "  ESR_EL1  = " ++ fmt_018x esr ++ str "  (EC = " ++ fmt_04x ec ++ str ": " ++ ec_name ec ++ str ")") ;;;
  say (str "  ELR_EL1  = " ++ fmt_018x (elr f)) ;;;
  say (str "  FAR_EL1  = " ++ fmt_018x far) ;;;
  say (str "  SPSR_EL1 = " ++ fmt_018x (spsr f)) ;;;
  say (str "halting.") ;;;
  panicM.

(** [intid] is what the interrupt controller answers. *)
Definition handle_irq (intid : Z) : M kernel unit :=
  let! i := in_gic (acknowledge intid) in
  if is_spurious i then retM tt
  else if i =? TIMER_INTID then
    in_sched count_tick ;;;
    in_timer reload ;;;
    in_gic (eoi i) ;;;
    in_sched tick
  else
    (if i =? UART_INTID then in_con drain_uart ;;; poll_pending else retM tt) ;;;
    in_gic (eoi i).

(** [kind] is the vector, [esr] and [far] the syndrome registers. *)
Definition exception_dispatch (kind esr far intid : Z) (f : TrapFrame) : M kernel ending :=
  if kind mod 4 =? 1 then
    handle_irq intid ;;;
    retM (Resume f)
  else if kind mod 4 =? 0 then
    if exception_class esr =? EC_SVC then dispatch f
    else if 8 <=? kind then kill_user esr far f
    else report_and_halt kind esr far f
  else report_and_halt kind esr far f.
End traps.
