(* ===== verification/Vectors.v ===== *)
(** * The exception vectors

    kernel/src/exceptions.s: each vector pushes a [TrapFrame], saves the registers
    into it, calls [exception_dispatch] with the vector's index and the frame, and
    restores what the frame then holds. Instructions are operations on the CPU's
    registers and kernel memory; the frame is read back through the layout of the
    struct in exceptions.rs. *)

From Stdlib Require Import ZArith Lia.
From stdpp Require Import base numbers gmap list list_relations.
From S2P Require Import Prelude Memory Abi Process User.

(** ** The CPU *)

Record cpu := mkCpu { xs : list Z; sp : Z; elr_el1 : Z; spsr_el1 : Z; sp_el0 : Z; cmem : mem }.

Definition set_xs (v : list Z) (c : cpu) : cpu := mkCpu v (sp c) (elr_el1 c) (spsr_el1 c) (sp_el0 c) (cmem c).
Definition set_sp (v : Z) (c : cpu) : cpu := mkCpu (xs c) v (elr_el1 c) (spsr_el1 c) (sp_el0 c) (cmem c).
Definition set_elr (v : Z) (c : cpu) : cpu := mkCpu (xs c) (sp c) v (spsr_el1 c) (sp_el0 c) (cmem c).
Definition set_spsr (v : Z) (c : cpu) : cpu := mkCpu (xs c) (sp c) (elr_el1 c) v (sp_el0 c) (cmem c).
Definition set_sp_el0 (v : Z) (c : cpu) : cpu := mkCpu (xs c) (sp c) (elr_el1 c) (spsr_el1 c) v (cmem c).
Definition set_cmem (v : mem) (c : cpu) : cpu := mkCpu (xs c) (sp c) (elr_el1 c) (spsr_el1 c) (sp_el0 c) v.

Definition x (i : nat) : M cpu Z := let! c := getM in expectM (xs c !! i).
Definition mov (i : nat) (v : Z) : M cpu unit := modifyM (fun c => set_xs (<[i := v]> (xs c)) c).

(** [str xi, \[sp, #off\]], [ldr], and the pairs. *)
Definition str_sp (i : nat) (off : Z) : M cpu unit :=
  let! v := x i in modifyM (fun c => set_cmem (write64 (cmem c) (sp c + off) v) c).
Definition ldr_sp (i : nat) (off : Z) : M cpu unit :=
  let! c := getM in mov i (read64 (cmem c) (sp c + off)).
Definition stp_sp (i j : nat) (off : Z) : M cpu unit := str_sp i off ;;; str_sp j (off + 8).
Definition ldp_sp (i j : nat) (off : Z) : M cpu unit := ldr_sp i off ;;; ldr_sp j (off + 8).

(** ** The vectors *)

Definition FRAME_BYTES : Z := 272.

Definition VENTRY (index : Z) : M cpu unit :=
  modifyM (fun c => set_sp (sp c - FRAME_BYTES) c) ;;;
  stp_sp 0 1 0 ;;;
  mov 0 index.

(** The first registers of the pairs [x2, x3] to [x28, x29]. *)
Definition pairs : list nat := [2; 4; 6; 8; 10; 12; 14; 16; 18; 20; 22; 24; 26; 28]%nat.

Definition common_save : M cpu unit :=
  forM pairs (fun i => stp_sp i (S i) (8 * Z.of_nat i)) ;;;
  str_sp 30 240 ;;;
  let! c := getM in
  mov 1 (elr_el1 c) ;;;
  mov 2 (spsr_el1 c) ;;;
  stp_sp 1 2 248 ;;;
  mov 3 (sp_el0 c) ;;;
  str_sp 3 264 ;;;
  mov 1 (sp c).

Definition common_restore : M cpu unit :=
  ldp_sp 1 2 248 ;;;
  (let! v := x 1 in modifyM (set_elr v)) ;;;
  (let! v := x 2 in modifyM (set_spsr v)) ;;;
  ldr_sp 3 264 ;;;
  (let! v := x 3 in modifyM (set_sp_el0 v)) ;;;
  ldp_sp 0 1 0 ;;;
  forM pairs (fun i => ldp_sp i (S i) (8 * Z.of_nat i)) ;;;
  ldr_sp 30 240 ;;;
  modifyM (fun c => set_sp (sp c + FRAME_BYTES) c).

(** The whole vector; [handler] is [exception_dispatch], a function of the kind and
    the frame's address on memory, and the calling convention lets it change the
    registers. *)
Definition vector (index : Z) (handler : Z -> Z -> M cpu unit) : M cpu unit :=
  VENTRY index ;;;
  common_save ;;;
  let! kind := x 0 in
  let! frame := x 1 in
  handler kind frame ;;;
  common_restore.

(** The struct at [a]: [x: \[u64; 31\]], [elr], [spsr], [sp_el0]. *)
Definition frame_at (m : mem) (a : Z) : TrapFrame :=
  mkFrame ((fun i => read64 m (a + 8 * Z.of_nat i)) <$> seq 0 31) (read64 m (a + 248)) (read64 m (a + 256)) (read64 m (a + 264)).

(** ** Saving *)

Definition cpu_ok (c : cpu) : Prop :=
  length (xs c) = 31%nat /\ Forall (fun v => 0 <= v < 2 ^ 64) (xs c) /\
  0 <= elr_el1 c < 2 ^ 64 /\ 0 <= spsr_el1 c < 2 ^ 64 /\ 0 <= sp_el0 c < 2 ^ 64.

(** Memory with the registers [i], [i + 1] of each pair stored. *)
Fixpoint saved (vs : list Z) (a : Z) (ps : list nat) (m : mem) : mem :=
  match ps with
  | [] => m
  | i :: ps' =>
      saved vs a ps' (write64 (write64 m (a + 8 * Z.of_nat i) (nth i vs 0)) (a + (8 * Z.of_nat i + 8)) (nth (S i) vs 0))
  end.

Lemma wp_x i (Q : Z -> cpu -> Prop) c : length (xs c) = 31%nat -> (i < 31)%nat -> Q (nth i (xs c) 0) c -> wp False (x i) Q c.
Proof.
  intros Hl Hi HQ. unfold x. wp_steps. destruct (lookup_lt_is_Some_2 (xs c) i ltac:(lia)) as [v Hv]. rewrite Hv.
  cbn. replace v with (nth i (xs c) 0); [done|]. rewrite nth_lookup. by rewrite Hv.
Qed.

Lemma wp_str_sp i off (Q : unit -> cpu -> Prop) c :
  length (xs c) = 31%nat -> (i < 31)%nat -> Q tt (set_cmem (write64 (cmem c) (sp c + off) (nth i (xs c) 0)) c) ->
  wp False (str_sp i off) Q c.
Proof. intros Hl Hi HQ. unfold str_sp. wp_step. apply wp_x; [done|done|]. by wp_steps. Qed.

Lemma save_pairs ps (Q : unit -> cpu -> Prop) c :
  length (xs c) = 31%nat -> Forall (fun i => i < 30)%nat ps -> Q tt (set_cmem (saved (xs c) (sp c) ps (cmem c)) c) ->
  wp False (forM ps (fun i => stp_sp i (S i) (8 * Z.of_nat i))) Q c.
Proof.
  intros Hl Hi. revert c Hl. induction Hi as [|i ps Hi _ IH]; intros c Hl HQ; cbn [forM saved] in *.
  { wp_steps. by destruct c. }
  unfold stp_sp. wp_step. wp_step. apply wp_str_sp; [done|lia|]. apply wp_str_sp; [done|lia|]. by apply IH.
Qed.

Lemma nth_range vs i : Forall (fun v => 0 <= v < 2 ^ 64) vs -> 0 <= nth i vs 0 < 2 ^ 64.
Proof.
  intros H. rewrite nth_lookup. destruct (vs !! i) as [v|] eqn:E; [|cbn; lia]. cbn.
  exact (proj1 (Forall_lookup _ _) H i v E).
Qed.

(** The slot of register [j] holds it if its pair was stored. *)
Lemma saved_read vs a ps m j :
  Forall (fun v => 0 <= v < 2 ^ 64) vs -> Forall Nat.Even ps ->
  read64 (saved vs a ps m) (a + 8 * Z.of_nat j) =
    if bool_decide ((2 * (j / 2))%nat ∈ ps) then nth j vs 0 else read64 m (a + 8 * Z.of_nat j).
Proof.
  intros Hv He. revert m. induction He as [|i ps [h Hh] _ IH]; intros m; cbn [saved].
  { by rewrite bool_decide_eq_false_2 by apply not_elem_of_nil. }
  rewrite IH. destruct (decide ((2 * (j / 2))%nat ∈ ps)) as [Hin|Hn].
  { by rewrite !bool_decide_eq_true_2 by (done || by right). }
  rewrite (bool_decide_eq_false_2 _ Hn). pose proof (Nat.div_mod_eq j 2) as Hj. pose proof (Nat.mod_upper_bound j 2).
  unfold read64, write64. destruct (decide (i = (2 * (j / 2))%nat)) as [E|E].
  - rewrite bool_decide_eq_true_2 by (rewrite <-E; by left). destruct (j mod 2)%nat as [|[|n]] eqn:Em; [| |lia].
    + replace j with i by lia. rewrite load_store_ne, load_store_eq by lia. apply Z.mod_small. by apply nth_range.
    + replace j with (S i) by lia. replace (a + 8 * Z.of_nat (S i)) with (a + (8 * Z.of_nat i + 8)) by lia.
      rewrite load_store_eq. apply Z.mod_small. by apply nth_range.
  - rewrite bool_decide_eq_false_2; [|intros [?|?]%elem_of_cons; congruence]. by rewrite !load_store_ne by lia.
Qed.

Definition all_pairs : list nat := O :: pairs.

Lemma pairs_even : Forall Nat.Even all_pairs.
Proof. repeat (apply Forall_cons_2; [by apply Nat.even_spec|]). apply Forall_nil_2. Qed.

Lemma pair_stored j : (j < 30)%nat -> (2 * (j / 2))%nat ∈ all_pairs.
Proof. intros Hj. do 30 (destruct j as [|j]; [vm_compute; set_solver|]). lia. Qed.

Lemma pair_not_stored j : (30 <= j)%nat -> (2 * (j / 2))%nat ∉ all_pairs.
Proof.
  intros Hj. pose proof (Nat.div_mod_eq j 2). pose proof (Nat.mod_upper_bound j 2). unfold all_pairs, pairs.
  rewrite !not_elem_of_cons. split_and!; try lia. apply not_elem_of_nil.
Qed.

(** What the vector leaves in memory. *)
Definition framed (c : cpu) (a : Z) : mem :=
  write64 (write64 (write64 (write64 (saved (xs c) a all_pairs (cmem c)) (a + 240) (nth 30 (xs c) 0)) (a + 248) (elr_el1 c))
    (a + 256) (spsr_el1 c)) (a + 264) (sp_el0 c).

Definition frame_of (c : cpu) : TrapFrame := mkFrame (xs c) (elr_el1 c) (spsr_el1 c) (sp_el0 c).

Lemma framed_frame c a : cpu_ok c -> frame_at (framed c a) a = frame_of c.
Proof.
  intros (Hl & Hv & He & Hs & Hp). unfold frame_at, frame_of, framed, read64, write64. f_equal.
  - apply list_eq. intros i. rewrite list_lookup_fmap. destruct (decide (i < 31)%nat) as [Hi|Hi].
    + rewrite lookup_seq_lt by done. cbn [fmap option_fmap option_map]. destruct (lookup_lt_is_Some_2 (xs c) i ltac:(lia)) as [v Ev].
      rewrite Ev. f_equal. replace v with (nth i (xs c) 0) by (by rewrite nth_lookup, Ev). rewrite !(load_store_ne 8 8) by lia.
      destruct (decide (i = 30%nat)) as [->|Hn]; [rewrite load_store_eq; apply Z.mod_small; by apply nth_range|].
      rewrite (load_store_ne 8 8) by lia. change (load 8 ?m ?b) with (read64 m b).
      rewrite saved_read by (done || apply pairs_even). by rewrite bool_decide_eq_true_2 by (apply pair_stored; lia).
    + rewrite lookup_seq_ge, lookup_ge_None_2 by lia. done.
  - rewrite !(load_store_ne 8 8) by lia. rewrite load_store_eq. by apply Z.mod_small.
  - rewrite !(load_store_ne 8 8) by lia. rewrite load_store_eq. by apply Z.mod_small.
  - rewrite load_store_eq. by apply Z.mod_small.
Qed.

Ltac reg_step := cbv beta iota delta [set_xs set_sp set_cmem set_elr set_spsr set_sp_el0 xs sp cmem elr_el1 spsr_el1 sp_el0].

Lemma save_spec index c :
  cpu_ok c -> wp False (VENTRY index ;;; common_save) (fun _ c' => sp c' = sp c - FRAME_BYTES /\ length (xs c') = 31%nat /\
    xs c' !! 0%nat = Some index /\ xs c' !! 1%nat = Some (sp c') /\ cmem c' = framed c (sp c')) c.
Proof.
  intros (Hl & _). destruct c as [l a e1 e2 e3 m]. cbn [xs] in Hl.
  unfold VENTRY, common_save, stp_sp, mov. wp_step. wp_step. wp_step. wp_step. wp_step. reg_step.
  apply wp_str_sp; [done|lia|]. reg_step. apply wp_str_sp; [done|lia|]. reg_step. wp_steps. reg_step.
  apply save_pairs; [cbn; by rewrite length_insert|repeat constructor; lia|]. reg_step. wp_step.
  apply wp_str_sp; [cbn; by rewrite length_insert|lia|]. reg_step. do 6 wp_step. reg_step. do 2 wp_step.
  apply wp_str_sp; [cbn; by rewrite !length_insert|lia|]. reg_step. apply wp_str_sp; [cbn; by rewrite !length_insert|lia|].
  reg_step. do 3 wp_step. reg_step. apply wp_str_sp; [cbn; by rewrite !length_insert|lia|]. reg_step. wp_steps. reg_step.
  do 31 (destruct l as [|? l]; [done|]). destruct l; [|done]. split_and!; reflexivity.
Qed.

(** ** Restoring *)

(** The registers of the pairs, loaded. *)
Fixpoint loaded (m : mem) (a : Z) (ps : list nat) (vs : list Z) : list Z :=
  match ps with
  | [] => vs
  | i :: ps' =>
      loaded m a ps' (<[S i := read64 m (a + (8 * Z.of_nat i + 8))]> (<[i := read64 m (a + 8 * Z.of_nat i)]> vs))
  end.

Lemma load_pairs ps (Q : unit -> cpu -> Prop) c :
  Q tt (set_xs (loaded (cmem c) (sp c) ps (xs c)) c) ->
  wp False (forM ps (fun i => ldp_sp i (S i) (8 * Z.of_nat i))) Q c.
Proof.
  revert c. induction ps as [|i ps IH]; intros c HQ; cbn [forM loaded] in *; [wp_steps; by destruct c|].
  unfold ldp_sp, ldr_sp, mov. wp_steps. by apply IH.
Qed.

Lemma wp_ldr_sp i off (Q : unit -> cpu -> Prop) c :
  Q tt (set_xs (<[i := read64 (cmem c) (sp c + off)]> (xs c)) c) -> wp False (ldr_sp i off) Q c.
Proof. intros HQ. unfold ldr_sp, mov. by wp_steps. Qed.

Lemma restore_spec c :
  length (xs c) = 31%nat ->
  wp False common_restore (fun _ c' => let f := frame_at (cmem c) (sp c) in
    c' = mkCpu (regs f) (sp c + FRAME_BYTES) (elr f) (spsr f) (User.sp_el0 f) (cmem c)) c.
Proof.
  intros Hl. destruct c as [l a e1 e2 e3 m]. cbn [xs] in Hl. unfold common_restore, ldp_sp.
  wp_step. wp_step. apply wp_ldr_sp. reg_step. apply wp_ldr_sp. reg_step.
  do 2 wp_step. apply wp_x; [cbn; by rewrite !length_insert|lia|]. reg_step. wp_step. reg_step.
  do 2 wp_step. apply wp_x; [cbn; by rewrite !length_insert|lia|]. reg_step. wp_step. reg_step.
  wp_step. apply wp_ldr_sp. reg_step. do 2 wp_step. apply wp_x; [cbn; by rewrite !length_insert|lia|]. reg_step. wp_step. reg_step.
  do 2 wp_step. apply wp_ldr_sp. reg_step. apply wp_ldr_sp. reg_step. wp_step. apply load_pairs. reg_step.
  wp_step. apply wp_ldr_sp. reg_step. wp_step. reg_step.
  do 31 (destruct l as [|? l]; [done|]). destruct l; [|done]. reflexivity.
Qed.

(** C20: A vector hands the handler its own index and a frame that shows, through the
    struct the Rust code declares, every general register, ELR, SPSR and SP_EL0 of
    the interrupted context; and whatever the handler leaves in that frame is what
    the context resumes with, on the stack pointer it had. Any handler that keeps the
    stack pointer may use all registers; [P] relates the two frames. *)
Theorem vector_frames index (handler : Z -> Z -> M cpu unit) (P : TrapFrame -> TrapFrame -> Prop) c :
  cpu_ok c ->
  (forall a c1, sp c1 = a -> length (xs c1) = 31%nat ->
    wp False (handler index a) (fun _ c2 => sp c2 = a /\ length (xs c2) = 31%nat /\
      P (frame_at (cmem c1) a) (frame_at (cmem c2) a)) c1) ->
  exists f' m', P (frame_of c) f' /\
    vector index handler c = Ret (tt, mkCpu (regs f') (sp c) (elr f') (spsr f') (User.sp_el0 f') m').
Proof.
  intros Hok Hh.
  assert (H : wp False (vector index handler) (fun _ c' => exists f' m', P (frame_of c) f' /\
    c' = mkCpu (regs f') (sp c) (elr f') (spsr f') (User.sp_el0 f') m') c).
  { pose proof (save_spec index c Hok) as Hs. unfold vector, wp, bindM in *.
    destruct (VENTRY index c) as [[[] c0]|]; [|done]. destruct (common_save c0) as [[[] c1]|]; [|done].
    destruct Hs as (Hsp & Hl & H0 & H1 & Hm). unfold x, bindM, getM, expectM. rewrite H0. cbn [retM]. rewrite H1. cbn [retM].
    specialize (Hh (sp c1) c1 eq_refl Hl). unfold wp in Hh. destruct (handler index (sp c1) c1) as [[[] c2]|]; [|done].
    destruct Hh as (Hsp2 & Hl2 & HP). pose proof (restore_spec c2 Hl2) as Hr. unfold wp in Hr.
    destruct (common_restore c2) as [[[] c3]|]; [|done]. cbv zeta in Hr. rewrite Hm, framed_frame, <-Hsp2 in HP by done.
    exists (frame_at (cmem c2) (sp c2)), (cmem c2). split; [by rewrite Hsp2 in *|]. rewrite Hr. f_equal. unfold FRAME_BYTES in *. lia. }
  destruct (wp_unit _ _ _ H) as (c' & Hrun & f' & m' & HP & ->). by exists f', m'.
Qed.

Lemma vector_frames_witness : exists m',
  let c := mkCpu (Z.of_nat <$> seq 0 31) 0x1000 0x80000 0x3c5 0x9000 ∅ in
  vector 9 (fun _ _ => retM tt) c = Ret (tt, set_cmem m' c).
Proof.
  destruct (vector_frames 9 (fun _ _ => retM tt) eq (mkCpu (Z.of_nat <$> seq 0 31) 0x1000 0x80000 0x3c5 0x9000 ∅))
    as (f' & m' & <- & Hrun).
  - split; [reflexivity|]. split; [|cbn; lia].
    apply Forall_fmap, Forall_forall. intros i Hi%elem_of_seq. cbn. lia.
  - intros a c1 Ha Hl. cbn. done.
  - exists m'. exact Hrun.
Defined.
