(* ===== verification/Uring.v ===== *)
(** * The ring from the program's side

    user/src/uring.rs: publishing submissions and reaping completions on the
    shared page, and how the two sides compose: the completion queue is a bounded
    FIFO between [complete] of the kernel and [reap] of the program, and the kernel
    finds a submission as the program published it. *)

From Stdlib Require Import ZArith Lia String.
From stdpp Require Import base numbers gmap strings list list_relations.
From S2P Require Import Prelude Memory Abi Frames Mmu PageTables AddressSpaces.
From S2P Require Import Sched Console Elf Process Text Ring.

(** ** Accesses to the page *)

(** Atomic loads and stores of the program; [page] is where its ring is. *)
Definition load32 (a : Z) : M mem Z := getsM (fun m => read32 m a).
Definition load64 (a : Z) : M mem Z := getsM (fun m => read64 m a).
Definition store32 (a v : Z) : M mem unit := modifyM (fun m => write32 m a v).
Definition store64 (a v : Z) : M mem unit := modifyM (fun m => write64 m a v).

Definition sqe (page op a0 a1 tag : Z) : M mem unit :=
  let! tail := load32 (page + SQ_TAIL) in
  let e := page + SQ + SQE_SIZE * Z.land tail RING_MASK in
  store64 e op ;;;
  store64 (e + 8) a0 ;;;
  store64 (e + 16) a1 ;;;
  store64 (e + 24) tag ;;;
  store32 (page + SQ_TAIL) (wrapping_add 32 tail 1).

(** Whether [submit] traps with [enter(0)]. *)
Definition submit (page : Z) : M mem bool :=
  let! flags := load32 (page + FLAGS) in
  retM (negb (Z.land flags NEED_WAKEUP =? 0)).

(** The next completion, if there is one. *)
Definition next_cqe (page : Z) : M mem (option (Z * Z)) :=
  let! head := load32 (page + CQ_HEAD) in
  let! tail := load32 (page + CQ_TAIL) in
  if head =? tail then retM None
  else
    let cqe := page + CQ + CQE_SIZE * Z.land head RING_MASK in
    let! got := load64 cqe in
    let! res := load64 (cqe + 8) in
    store32 (page + CQ_HEAD) (wrapping_add 32 head 1) ;;;
    retM (Some (got, as_i64 res)).

(** ** Waiting for a tag *)

(** The library's statics: memory, the page's address, the completions reaped
    for other tags (tag 0 marks a free slot), and the next tag. *)
Record libu := mkLibu { umem : mem; RING_VA : Z; STASH : list (Z * Z); NEXT_TAG : Z }.
Definition set_umem (m : mem) (u : libu) : libu := mkLibu m (RING_VA u) (STASH u) (NEXT_TAG u).
Definition set_stash (s : list (Z * Z)) (u : libu) : libu := mkLibu (umem u) (RING_VA u) s (NEXT_TAG u).
Definition STASH_new : list (Z * Z) := replicate 4 (0, 0).

Definition on_page {A} (f : Z -> M mem A) : M libu A :=
  let! u := getM in zoomM umem set_umem (f (RING_VA u)).

(** The first slot that holds [tag] is freed. *)
Fixpoint stash_take (tag : Z) (s : list (Z * Z)) : option (Z * list (Z * Z)) :=
  match s with
  | [] => None
  | (t, r) :: s' =>
      if negb (tag =? 0) && (t =? tag) then Some (as_i64 r, (0, r) :: s')
      else match stash_take tag s' with Some (x, s1) => Some (x, (t, r) :: s1) | None => None end
  end.

(** The first free slot takes the completion; without one it is dropped. *)
Fixpoint stash_put (got res : Z) (s : list (Z * Z)) : list (Z * Z) :=
  match s with
  | [] => []
  | (t, r) :: s' => if t =? 0 then (got, as_u64 res) :: s' else (t, r) :: stash_put got res s'
  end.

(** The loop of [reap] up to the point where the queue is empty and the program
    sleeps in [enter(1)], or spins: [None]. There are at most [RING_ENTRIES]
    completions to go through. *)
Fixpoint reap_loop (fuel : nat) (tag : Z) : M libu (option Z) :=
  let! o := on_page next_cqe in
  match o with
  | None => retM None
  | Some (got, res) =>
      if got =? tag then retM (Some res)
      else
        modifyM (fun u => set_stash (stash_put got res (STASH u)) u) ;;;
        match fuel with O => panicM | S fuel' => reap_loop fuel' tag end
  end.

Definition reap (tag : Z) : M libu (option Z) :=
  let! u := getM in
  match stash_take tag (STASH u) with
  | Some (r, s) => modifyM (set_stash s) ;;; retM (Some r)
  | None => reap_loop (Z.to_nat RING_ENTRIES) tag
  end.

(** ** The completion queue as a FIFO *)

(** The page at [p] holds the completions [q], oldest first. *)
Record cq (m : mem) (p : Z) (q : list (Z * Z)) : Prop := {
  cq_mem : mem_ok m;
  cq_len : wrapping_sub 32 (read32 m (p + CQ_TAIL)) (read32 m (p + CQ_HEAD)) = Z.of_nat (length q);
  cq_cap : Z.of_nat (length q) <= RING_ENTRIES;
  cq_ent : forall i e, q !! i = Some e ->
    let a := cqe_at p (read32 m (p + CQ_HEAD) + Z.of_nat i) in (read64 m a, as_i64 (read64 m (a + 8))) = e
}.

Lemma slot_mod i : slot i = i mod 16.
Proof. unfold slot. change RING_MASK with (Z.ones 4). by rewrite Z.land_ones. Qed.

Lemma cqe_span p i : exists o, cqe_at p i = p + 0x280 + 16 * o /\ 0 <= o < 16 /\ o = i mod 16.
Proof. exists (slot i). rewrite slot_mod. pose proof (Z.mod_pos_bound i 16). unfold cqe_at, CQ, CQE_SIZE. rewrite slot_mod. lia. Qed.

Lemma read32_range m a : mem_ok m -> 0 <= read32 m a < 2 ^ 32.
Proof. intros Hm. pose proof (load_range 4 m a Hm). by cbn in *. Qed.

Lemma read32_write32_eq m a v : 0 <= v < 2 ^ 32 -> read32 (write32 m a v) a = v.
Proof. intros. unfold read32, write32. rewrite load_store_eq. apply Z.mod_small. done. Qed.

Lemma as_i64_u64 r : - 2 ^ 63 <= r < 2 ^ 63 -> as_i64 (as_u64 r) = r.
Proof. intros. unfold as_i64, as_u64, wrap. destruct (Z.ltb_spec (r mod 2 ^ 64) (2 ^ 63)); zlia. Qed.

(** Stores of the program and the kernel, away from what is read. *)
Ltac elsewhere := repeat first [rewrite (load_store_ne 4 8) by lia | rewrite (load_store_ne 8 8) by lia |
  rewrite (load_store_ne 8 4) by lia | rewrite (load_store_ne 4 4) by lia].

(** The memory [complete] leaves. *)
Definition posted (m : mem) (p ud r : Z) : mem :=
  let t := read32 m (p + CQ_TAIL) in
  write32 (write64 (write64 m (cqe_at p t) ud) (cqe_at p t + 8) (as_u64 r)) (p + CQ_TAIL) (wrapping_add 32 t 1).

Lemma cq_post m p q ud r :
  cq m p q -> (length q < 16)%nat -> 0 <= ud < 2 ^ 64 -> - 2 ^ 63 <= r < 2 ^ 63 -> cq (posted m p ud r) p (q ++ [(ud, r)]).
Proof.
  intros [Hm Hl Hc He] Hq Hud Hr. unfold posted. set (t := read32 m (p + CQ_TAIL)). pose proof (read32_range m (p + CQ_TAIL) Hm) as Ht. fold t in Ht, Hl.
  pose proof (read32_range m (p + CQ_HEAD) Hm) as Hh. set (h := read32 m (p + CQ_HEAD)) in *.
  assert (Hru : 0 <= as_u64 r < 2 ^ 64) by (unfold as_u64, wrap; apply Z.mod_pos_bound; lia).
  assert (Ht' : 0 <= wrapping_add 32 t 1 < 2 ^ 32) by (unfold wrapping_add, wrap; apply Z.mod_pos_bound; lia).
  set (m' := write32 _ _ _). destruct (cqe_span p t) as (o & Eo & Ho & Eo').
  assert (Eh : read32 m' (p + CQ_HEAD) = h).
  { unfold m', h, read32, write32, write64, CQ_HEAD, CQ_TAIL. rewrite Eo. by elsewhere. }
  assert (Et : read32 m' (p + CQ_TAIL) = wrapping_add 32 t 1) by (by apply read32_write32_eq).
  split.
  - unfold m', write32, write64. by repeat apply mem_ok_store.
  - rewrite Et, Eh, length_app. cbn [length]. unfold wrapping_add, wrapping_sub, wrap in *. zlia.
  - rewrite length_app. cbn [length]. unfold RING_ENTRIES in *. lia.
  - intros i e Hi. rewrite Eh. cbv zeta. destruct (cqe_span p (h + Z.of_nat i)) as (o' & Eo2 & Ho2 & Eo2'). rewrite Eo2.
    unfold m', read64, write32, write64, CQ_TAIL. rewrite Eo.
    apply lookup_app_Some in Hi as [Hi|[Hge Hi]].
    + pose proof (lookup_lt_Some _ _ _ Hi) as Hlt. specialize (He i e Hi). cbv zeta in He. rewrite Eo2 in He.
      unfold read64 in He. assert (o <> o') by (unfold wrapping_sub, wrap in Hl; zlia). by elsewhere.
    + apply list_lookup_singleton_Some in Hi as [Hi <-].
      assert (o' = o) as -> by (unfold wrapping_sub, wrap in Hl; zlia).
      elsewhere. rewrite !load_store_eq. change (256 ^ Z.of_nat 8) with (2 ^ 64).
      by rewrite !Z.mod_small, as_i64_u64 by done.
Qed.

Lemma cq_pop p q m : cq m p q -> wp False (next_cqe p) (fun o m' => o = hd_error q /\ cq m' p (tl q)) m.
Proof.
  intros [Hm Hl Hc He]. unfold next_cqe, load32, load64, store32. wp_steps.
  pose proof (read32_range m (p + CQ_TAIL) Hm) as Ht. set (t := read32 m (p + CQ_TAIL)) in *.
  pose proof (read32_range m (p + CQ_HEAD) Hm) as Hh. set (h := read32 m (p + CQ_HEAD)) in *.
  unfold wrapping_sub, wrap in Hl. destruct (Z.eqb_spec h t) as [E|Hne]; wp_steps.
  { destruct q; [|cbn in Hl; zlia]. split; [done|]. split; [done|by fold t h|done|done]. }
  destruct q as [|e q]; [cbn in Hl; zlia|]. cbn [hd_error tl length] in *. split.
  { specialize (He O e eq_refl). cbv zeta in He. rewrite Z.add_0_r in He. by rewrite <-He. }
  set (m' := write32 _ _ _). assert (Hh' : 0 <= wrapping_add 32 h 1 < 2 ^ 32) by (apply Z.mod_pos_bound; lia).
  assert (Eh : read32 m' (p + CQ_HEAD) = wrapping_add 32 h 1) by (by apply read32_write32_eq).
  assert (Et : read32 m' (p + CQ_TAIL) = t)
    by (unfold m', t, read32, write32, CQ_HEAD, CQ_TAIL; by elsewhere).
  split.
  - by apply mem_ok_store.
  - rewrite Eh, Et. unfold wrapping_sub, wrapping_add, wrap. zlia.
  - lia.
  - intros i x Hi. specialize (He (S i) x Hi). cbv zeta in *. rewrite Eh.
    replace (cqe_at p (wrapping_add 32 h 1 + Z.of_nat i)) with (cqe_at p (h + Z.of_nat (S i)))
      by (unfold cqe_at; do 2 f_equal; rewrite !slot_mod; unfold wrapping_add, wrap; zlia).
    destruct (cqe_span p (h + Z.of_nat (S i))) as (o & Eo & Ho & _). rewrite Eo in *.
    unfold m', read64, write32, CQ_HEAD in *. by elsewhere.
Qed.

(** A completion is queued, or dropped when the queue is full. *)
Definition post (q : list (Z * Z)) (x : Z * Z) : list (Z * Z) := if (length q <? 16)%nat then q ++ [x] else q.

Lemma complete_posts page ud r q k :
  cq (kernel_mem k) page q -> 0 <= ud < 2 ^ 64 -> - 2 ^ 63 <= r < 2 ^ 63 ->
  wp False (complete page ud r) (fun _ k' => cq (kernel_mem k') page (post q (ud, r)) /\
    PROCESSES k' = PROCESSES k /\ SCHEDULER (ks k') = SCHEDULER (ks k)) k.
Proof.
  intros Hq Hud Hr. unfold complete, ld32, st64, st32, post. wp_steps. rewrite (cq_len _ _ _ Hq).
  destruct (Z.leb_spec RING_ENTRIES (Z.of_nat (length q))) as [Hf|Hf], (Nat.ltb_spec (length q) 16);
    try (unfold RING_ENTRIES in *; lia).
  - unfold say, in_con. apply wp_zoom. eapply wp_mono; [apply write_str_spec|]. by intros [] c _.
  - wp_steps. split; [by apply cq_post|done].
Qed.

(** Both sides in any order: the kernel completes operations, the program takes the
    next completion. *)
Inductive ring_op :=
| Complete (user_data result : Z)
| Take.

Definition on_kernel_mem {A} : M mem A -> M kernel A := zoomM kernel_mem set_kernel_mem.

Fixpoint run_ops (page : Z) (ops : list ring_op) : M kernel (list (option (Z * Z))) :=
  match ops with
  | [] => retM []
  | Complete ud r :: ops' => complete page ud r ;;; run_ops page ops'
  | Take :: ops' =>
      let! o := on_kernel_mem (next_cqe page) in
      let! os := run_ops page ops' in
      retM (o :: os)
  end.

Fixpoint fifo (ops : list ring_op) (q : list (Z * Z)) : list (option (Z * Z)) :=
  match ops with
  | [] => []
  | Complete ud r :: ops' => fifo ops' (post q (ud, r))
  | Take :: ops' => hd_error q :: fifo ops' (tl q)
  end.

(** The operands are a [u64] and an [i64]. *)
Definition op_ok (o : ring_op) : Prop :=
  match o with Complete ud r => 0 <= ud < 2 ^ 64 /\ - 2 ^ 63 <= r < 2 ^ 63 | Take => True end.

(** C17: The completion queue refines a FIFO of sixteen entries that drops what does
    not fit: however the kernel's completions and the program's reaps interleave,
    and wherever the 32-bit indices stand, the program takes exactly what the
    abstract queue gives, with the tags and signed results the kernel posted, and
    neither side panics. *)
Theorem cq_refines_fifo page ops q k :
  cq (kernel_mem k) page q -> Forall op_ok ops -> exists k', run_ops page ops k = Ret (fifo ops q, k').
Proof.
  intros Hq Hops. cut (wp False (run_ops page ops) (fun os _ => os = fifo ops q) k).
  { intros (os & k' & Hrun & ->)%wp_result. by exists k'. }
  revert k q Hq. induction Hops as [|[ud r|] ops Ho _ IH]; intros k q Hq; cbn [run_ops fifo].
  - by wp_steps.
  - wp_step. destruct Ho. eapply wp_mono; [by apply complete_posts|]. intros [] k1 [Hq1 _]. by apply IH.
  - wp_step. unfold on_kernel_mem at 1. apply wp_zoom. eapply wp_mono; [by apply cq_pop|]. intros o m [-> Hq1].
    wp_step. eapply wp_mono; [by apply IH|]. intros os k1 ->. by wp_steps.
Qed.

Lemma cq_cold page : cq (kernel_mem cold_kernel) page [].
Proof. by split. Qed.

(** Eighteen completions with one reap after the first two: the last one finds
    the queue full. *)
Definition demo_ops : list ring_op :=
  Complete 7 (-1) :: Complete 8 5 :: Take :: repeat (Complete 9 0) 16 ++ repeat Take 2.

Lemma cq_refines_fifo_witness : exists k',
  run_ops 0x40000000 demo_ops cold_kernel = Ret ([Some (7, -1); Some (8, 5); Some (9, 0)], k').
Proof.
  apply (cq_refines_fifo 0x40000000 demo_ops [] cold_kernel (cq_cold _)).
  repeat first [apply Forall_cons_2|apply Forall_nil_2]; cbn; lia.
Defined.

(** ** The submission queue *)

Record Sqe := mkSqe { opcode : Z; arg0 : Z; arg1 : Z; user_data : Z }.

(** The entry in the slot at [a]. *)
Definition sqe_in (m : mem) (a : Z) : Sqe :=
  mkSqe (read64 m a) (read64 m (a + 8)) (read64 m (a + 16)) (read64 m (a + 24)).

(** The page at [p] holds the submissions [q], oldest first. *)
Record sq (m : mem) (p : Z) (q : list Sqe) : Prop := {
  sq_mem : mem_ok m;
  sq_len : wrapping_sub 32 (read32 m (p + SQ_TAIL)) (read32 m (p + SQ_HEAD)) = Z.of_nat (length q);
  sq_ent : forall i e, q !! i = Some e -> sqe_in m (sqe_at p (read32 m (p + SQ_HEAD) + Z.of_nat i)) = e
}.

Definition sqe_ok (e : Sqe) : Prop :=
  0 <= opcode e < 2 ^ 64 /\ 0 <= arg0 e < 2 ^ 64 /\ 0 <= arg1 e < 2 ^ 64 /\ 0 <= user_data e < 2 ^ 64.

Lemma sqe_span p i : exists o, sqe_at p i = p + 0x40 + 32 * o /\ 0 <= o < 16 /\ o = i mod 16.
Proof. exists (slot i). rewrite slot_mod. pose proof (Z.mod_pos_bound i 16). unfold sqe_at, SQ, SQE_SIZE. rewrite slot_mod. lia. Qed.

(** The memory [sqe] leaves. *)
Definition published (m : mem) (p : Z) (e : Sqe) : mem :=
  let t := read32 m (p + SQ_TAIL) in
  let a := sqe_at p t in
  write32 (write64 (write64 (write64 (write64 m a (opcode e)) (a + 8) (arg0 e)) (a + 16) (arg1 e)) (a + 24) (user_data e))
    (p + SQ_TAIL) (wrapping_add 32 t 1).

Lemma sqe_publishes p e m :
  wp False (sqe p (opcode e) (arg0 e) (arg1 e) (user_data e)) (fun _ m' => m' = published m p e) m.
Proof. unfold sqe, load32, store64, store32. by wp_steps. Qed.

Lemma published_head m p e : read32 (published m p e) (p + SQ_HEAD) = read32 m (p + SQ_HEAD).
Proof.
  unfold published. destruct (sqe_span p (read32 m (p + SQ_TAIL))) as (o & -> & Ho & _).
  unfold read32, write32, write64, SQ_HEAD, SQ_TAIL. by elsewhere.
Qed.

(** The slot of index [i] holds the new entry if it is the tail's, and its old
    content otherwise. *)
Lemma published_slot m p e i :
  sqe_ok e -> sqe_in (published m p e) (sqe_at p i) =
    if slot i =? slot (read32 m (p + SQ_TAIL)) then e else sqe_in m (sqe_at p i).
Proof.
  intros (H1 & H2 & H3 & H4). unfold published. set (t := read32 m _).
  destruct (sqe_span p t) as (o & Eo & Ho & Eo'), (sqe_span p i) as (o' & Eo2 & Ho2 & Eo2'). rewrite Eo, Eo2, !slot_mod.
  rewrite <-Eo', <-Eo2'. unfold sqe_in, read64, write32, write64, SQ_TAIL. destruct (Z.eqb_spec o' o) as [->|Hne].
  - destruct e as [w x y z]. cbn [opcode arg0 arg1 user_data] in *. f_equal; elsewhere; rewrite load_store_eq; by apply Z.mod_small.
  - by elsewhere.
Qed.

Lemma sq_publish m p q e :
  sq m p q -> (length q < 16)%nat -> sqe_ok e -> sq (published m p e) p (q ++ [e]).
Proof.
  intros [Hm Hl He] Hq Hok. pose proof (read32_range m (p + SQ_TAIL) Hm) as Ht.
  pose proof (read32_range m (p + SQ_HEAD) Hm) as Hh. split.
  - unfold published, write32, write64. by repeat apply mem_ok_store.
  - rewrite published_head, length_app. cbn [length]. unfold published. cbv zeta.
    rewrite read32_write32_eq by (apply Z.mod_pos_bound; lia). unfold wrapping_sub, wrapping_add, wrap in *. zlia.
  - intros i x Hi. rewrite published_head, published_slot, !slot_mod by done. unfold wrapping_sub, wrap in Hl.
    apply lookup_app_Some in Hi as [Hi|[Hge Hi]].
    + pose proof (lookup_lt_Some _ _ _ Hi). rewrite (proj2 (Z.eqb_neq _ _)) by zlia. by apply He.
    + apply list_lookup_singleton_Some in Hi as [Hi <-]. by rewrite (proj2 (Z.eqb_eq _ _)) by zlia.
Qed.

Lemma sq_consume m p q :
  sq m p q -> q <> [] -> sq (write32 m (p + SQ_HEAD) (wrapping_add 32 (read32 m (p + SQ_HEAD)) 1)) p (tl q).
Proof.
  intros [Hm Hl He] Hq. destruct q as [|e q]; [done|]. cbn [tl length] in *.
  pose proof (read32_range m (p + SQ_TAIL) Hm) as Ht. pose proof (read32_range m (p + SQ_HEAD) Hm) as Hh.
  set (h := read32 m (p + SQ_HEAD)) in *. set (m' := write32 _ _ _).
  assert (Eh : read32 m' (p + SQ_HEAD) = wrapping_add 32 h 1) by (apply read32_write32_eq, Z.mod_pos_bound; lia).
  assert (Et : read32 m' (p + SQ_TAIL) = read32 m (p + SQ_TAIL))
    by (unfold m', read32, write32, SQ_HEAD, SQ_TAIL; by elsewhere).
  split.
  - by apply mem_ok_store.
  - rewrite Eh, Et. unfold wrapping_sub, wrapping_add, wrap in *. zlia.
  - intros i x Hi. rewrite Eh, <-(He (S i) x Hi).
    replace (sqe_at p (wrapping_add 32 h 1 + Z.of_nat i)) with (sqe_at p (h + Z.of_nat (S i)))
      by (unfold sqe_at; do 2 f_equal; rewrite !slot_mod; unfold wrapping_add, wrap; zlia).
    destruct (sqe_span p (h + Z.of_nat (S i))) as (o & Eo & Ho & _). rewrite Eo.
    unfold sqe_in, m', read64, write32, SQ_HEAD. f_equal; by elsewhere.
Qed.

Section submissions.
Context (PROGRAMS : list (list Z * list Z)) (tr ut : Z) (box : kernel -> option Z).

(** The kernel reads the entry in the slot. *)
Lemma process_sqe_reads pid a e k :
  sqe_in (kernel_mem k) a = e ->
  process_sqe PROGRAMS tr ut box pid a k =
    exec_sqe PROGRAMS tr ut box pid (opcode e) (arg0 e) (arg1 e) (user_data e) k.
Proof. by intros <-. Qed.

(** C18: A submission crosses the page unchanged: published with fewer than sixteen
    in flight it joins the end of the queue, the kernel executes the oldest entry
    with exactly the operands the program gave it, and advancing the head leaves the
    others in order; the 32-bit indices may wrap. *)
Theorem sq_roundtrip pid page q e first rest k :
  sq (kernel_mem k) page q -> (length q < 16)%nat -> sqe_ok e -> q ++ [e] = first :: rest ->
  exists k', on_kernel_mem (sqe page (opcode e) (arg0 e) (arg1 e) (user_data e)) k = Ret (tt, k') /\
    sq (kernel_mem k') page (first :: rest) /\
    let head := read32 (kernel_mem k') (page + SQ_HEAD) in
    process_sqe PROGRAMS tr ut box pid (sqe_at page head) k' =
      exec_sqe PROGRAMS tr ut box pid (opcode first) (arg0 first) (arg1 first) (user_data first) k' /\
    sq (write32 (kernel_mem k') (page + SQ_HEAD) (wrapping_add 32 head 1)) page rest.
Proof.
  intros Hq Hlen Hok E.
  destruct (wp_unit _ _ _ (sqe_publishes page e (kernel_mem k))) as (m' & Hrun & ->).
  exists (set_kernel_mem (published (kernel_mem k) page e) k).
  split; [unfold on_kernel_mem, zoomM; by rewrite Hrun|].
  pose proof (sq_publish _ _ _ _ Hq Hlen Hok) as Hq'. rewrite E in Hq'.
  change (kernel_mem (set_kernel_mem ?m k)) with m. split; [done|]. cbv zeta. split.
  - apply process_sqe_reads. pose proof (sq_ent _ _ _ Hq' O first eq_refl) as H. by rewrite Z.add_0_r in H.
  - exact (sq_consume _ _ _ Hq' ltac:(done)).
Qed.
End submissions.

Lemma sq_roundtrip_witness : exists k',
  on_kernel_mem (sqe 0x40000000 OP_PRINT USER_BASE 5 1) cold_kernel = Ret (tt, k') /\
  process_sqe [] 0 0 (fun _ => None) 0 (sqe_at 0x40000000 (read32 (kernel_mem k') (0x40000000 + SQ_HEAD))) k' =
    exec_sqe [] 0 0 (fun _ => None) 0 OP_PRINT USER_BASE 5 1 k'.
Proof.
  destruct (sq_roundtrip [] 0 0 (fun _ => None) 0 0x40000000 [] (mkSqe OP_PRINT USER_BASE 5 1) (mkSqe OP_PRINT USER_BASE 5 1) []
    cold_kernel) as (k' & Hrun & _ & Hx & _).
  - by split.
  - cbn. lia.
  - by vm_compute.
  - reflexivity.
  - exists k'. exact (conj Hrun Hx).
Defined.

(** [sqe] does not look at the head: the seventeenth submission in flight
    overwrites the oldest. *)
Theorem sqe_overrun p q e m :
  sq m p q -> length q = 16%nat -> sqe_ok e ->
  sqe_in (published m p e) (sqe_at p (read32 (published m p e) (p + SQ_HEAD))) = e.
Proof.
  intros [Hm Hl He] Hq Hok. pose proof (read32_range m (p + SQ_TAIL) Hm) as Ht.
  pose proof (read32_range m (p + SQ_HEAD) Hm) as Hh. rewrite published_head, published_slot, !slot_mod by done.
  unfold wrapping_sub, wrap in Hl. by rewrite (proj2 (Z.eqb_eq _ _)) by zlia.
Qed.

(** ** Waiting *)

(** The completions kept for later waits. *)
Definition kept (s : list (Z * Z)) : list (Z * Z) := (fun x => (x.1, as_i64 x.2)) <$> filter (fun x => x.1 <> 0) s.
Definition room (s : list (Z * Z)) : nat := length (filter (fun x => x.1 = 0) s).

Lemma stash_take_none tag s : (forall r, (tag, r) ∉ s) -> stash_take tag s = None.
Proof.
  induction s as [|[t r] s IH]; intros H; [done|]. cbn [stash_take].
  destruct (Z.eqb_spec t tag) as [->|]; [destruct (H r); by left|]. rewrite andb_false_r, IH; [done|].
  intros r' Hr. apply (H r'). by right.
Qed.

Lemma stash_put_keeps got res s :
  (0 < room s)%nat -> got <> 0 -> - 2 ^ 63 <= res < 2 ^ 63 ->
  kept (stash_put got res s) ≡ₚ (got, res) :: kept s /\ S (room (stash_put got res s)) = room s.
Proof.
  intros Hr Hg Hres. induction s as [|[t r] s IH]; [cbn in Hr; lia|]. cbn [stash_put]. unfold kept, room in *.
  destruct (Z.eqb_spec t 0) as [->|Ht].
  - rewrite !filter_cons. cbn [fst]. rewrite decide_True, (decide_False (P := 0 <> 0)) by auto.
    rewrite (decide_False (P := got = 0)), (decide_True (P := 0 = 0)) by done. cbn [fmap list_fmap length fst snd].
    by rewrite as_i64_u64.
  - rewrite !filter_cons in *. cbn [fst] in *. rewrite !(decide_True (P := t <> 0)) by done.
    rewrite !(decide_False (P := t = 0)) in * by done. destruct (IH Hr) as [IH1 IH2]. split; [|done].
    cbn [fmap list_fmap]. rewrite IH1. apply Permutation_swap.
Qed.

(** The state of the library: the page holds [q]. *)
Definition ring_holds (u : libu) (q : list (Z * Z)) : Prop := cq (umem u) (RING_VA u) q.

Lemma next_cqe_on q u :
  ring_holds u q ->
  wp False (on_page next_cqe) (fun o u' => o = hd_error q /\ ring_holds u' (tl q) /\ STASH u' = STASH u /\ RING_VA u' = RING_VA u) u.
Proof.
  intros Hq. unfold on_page. wp_steps. eapply wp_mono; [by apply cq_pop|]. by intros o m [-> Hq'].
Qed.

(** Results the kernel posts are 64-bit signed; tags of other waits are nonzero. *)
Definition foreign (tag : Z) (x : Z * Z) : Prop := x.1 <> 0 /\ x.1 <> tag /\ - 2 ^ 63 <= x.2 < 2 ^ 63.

(** Completions of other waits are stashed up to the first one of [tag], if any. *)
Lemma reap_loop_spec fuel tag before rest u :
  ring_holds u (before ++ rest) -> Forall (foreign tag) before -> (forall x, hd_error rest = Some x -> x.1 = tag) ->
  (length before <= room (STASH u))%nat -> (length before <= fuel)%nat ->
  wp False (reap_loop fuel tag) (fun o u' => o = snd <$> hd_error rest /\ ring_holds u' (tl rest) /\
    kept (STASH u') ≡ₚ kept (STASH u) ++ before) u.
Proof.
  intros Hq Hf Hrest. revert fuel u Hq. induction Hf as [|[got r] before (H0 & Ht & Hrr) Hf IH]; intros fuel u Hq Hr Hfu.
  - cbn [app length] in *. destruct fuel as [|fuel]; cbn [reap_loop]; wp_step; (eapply wp_mono; [by apply next_cqe_on|]);
      intros o u1 (-> & Hq1 & Es & _); rewrite app_nil_r, <-Es;
      (destruct rest as [|[got r] rest]; cbn [hd_error tl] in *; [by wp_steps|]);
      specialize (Hrest (got, r) eq_refl); cbn in Hrest; subst got; rewrite Z.eqb_refl; by wp_steps.
  - destruct fuel as [|fuel]; [cbn in Hfu; lia|]. cbn [reap_loop]. wp_step. eapply wp_mono; [by apply next_cqe_on|].
    cbn [app hd_error tl length fst snd] in *. intros o u1 (-> & Hq1 & Es & _).
    rewrite (proj2 (Z.eqb_neq _ _) Ht). wp_steps. rewrite <-Es in *.
    destruct (stash_put_keeps got r (STASH u1) ltac:(lia) H0 Hrr) as [Hk Hro].
    eapply wp_mono; [apply IH; [exact Hq1|cbn [STASH set_stash]; lia|lia]|].
    intros o u2 (-> & Hq2 & Hp). split; [done|]. split; [done|]. rewrite Hp. cbn [STASH set_stash]. rewrite Hk.
    by rewrite <-Permutation_middle.
Qed.

Lemma stash_take_some tag s r s' :
  tag <> 0 -> stash_take tag s = Some (r, s') -> kept s ≡ₚ (tag, r) :: kept s' /\ room s' = S (room s).
Proof.
  intros Ht. revert s'. induction s as [|[t x] s IH]; intros s' H; [done|]. cbn [stash_take] in H.
  rewrite (proj2 (Z.eqb_neq _ _) Ht) in H. unfold kept, room in *. cbn [negb andb] in H. rewrite !filter_cons. cbn [fst].
  destruct (Z.eqb_spec t tag) as [->|Hne].
  - injection H as <- <-. rewrite !filter_cons. cbn [fst]. rewrite (decide_True (P := tag <> 0)) by done.
    rewrite (decide_False (P := tag = 0)), (decide_False (P := 0 <> 0)), (decide_True (P := 0 = 0)) by auto. done.
  - destruct (stash_take tag s) as [[y s1]|]; [|done]. injection H as -> <-. destruct (IH s1 eq_refl) as [H1 H2].
    rewrite !filter_cons. cbn [fst]. destruct (decide (t = 0)) as [->|].
    + rewrite !(decide_False (P := 0 <> 0)) by auto. cbn [length]. auto.
    + rewrite !(decide_True (P := t <> 0)) by done. cbn [fmap list_fmap fst snd]. rewrite H1. by split; [apply Permutation_swap|].
Qed.

Lemma stash_take_lacks tag s : tag <> 0 -> stash_take tag s = None -> tag ∉ (kept s).*1.
Proof.
  intros Ht. unfold kept. induction s as [|[t x] s IH]; intros H; [apply not_elem_of_nil|]. cbn [stash_take] in H.
  rewrite (proj2 (Z.eqb_neq _ _) Ht) in H. cbn [negb andb] in H. destruct (Z.eqb_spec t tag) as [|Hne]; [done|].
  rewrite filter_cons. cbn [fst]. destruct (stash_take tag s) as [[]|]; [done|]. case_decide; [|auto].
  cbn [fmap list_fmap fst snd]. apply not_elem_of_cons. auto.
Qed.

Lemma split_at_tag tag (q : list (Z * Z)) : exists before rest, q = before ++ rest /\
  Forall (fun x => x.1 <> tag) before /\ forall x, hd_error rest = Some x -> x.1 = tag.
Proof.
  induction q as [|x q (before & rest & -> & Hb & Hr)]; [by exists [], []|].
  destruct (decide (x.1 = tag)) as [E|E].
  - exists [], (x :: before ++ rest). split_and!; [done|done|]. by intros y [= <-].
  - exists (x :: before), rest. split_and!; [done|by constructor|done].
Qed.

(** C19: Waiting for a tag loses no completion while the stash has room for what is
    queued: [reap] returns; its answer is a completion of that tag that was queued
    or kept, and every other one is still queued or kept; it goes to sleep only if
    none of that tag had arrived. *)
Theorem reap_loses_nothing tag q u :
  ring_holds u q -> tag <> 0 -> Forall (fun x => x.1 <> 0 /\ - 2 ^ 63 <= x.2 < 2 ^ 63) q ->
  (length q <= room (STASH u))%nat ->
  exists o u' q', reap tag u = Ret (o, u') /\ ring_holds u' q' /\
    match o with
    | Some res => kept (STASH u) ++ q ≡ₚ (tag, res) :: kept (STASH u') ++ q'
    | None => q' = [] /\ kept (STASH u') ≡ₚ kept (STASH u) ++ q /\ tag ∉ (kept (STASH u) ++ q).*1
    end.
Proof.
  intros Hq Ht Hok Hr. unfold reap. unfold bindM at 1, getM at 1. cbv beta iota.
  destruct (stash_take tag (STASH u)) as [[r s]|] eqn:E.
  { exists (Some r), (set_stash s u), q. split; [done|]. split; [done|]. cbn [STASH set_stash].
    by rewrite (proj1 (stash_take_some _ _ _ _ Ht E)). }
  destruct (split_at_tag tag q) as (before & rest & -> & Hb & Hrest). rewrite length_app in Hr.
  pose proof (cq_cap _ _ _ Hq) as Hcap. rewrite length_app in Hcap. apply Forall_app in Hok as [Hok _].
  assert (Hf : Forall (foreign tag) before).
  { apply (Forall_impl (fun x => (x.1 <> 0 /\ - 2 ^ 63 <= x.2 < 2 ^ 63) /\ x.1 <> tag)); [by apply Forall_and|].
    intros x [[? ?] ?]. by split. }
  destruct (wp_result _ _ _ (reap_loop_spec (Z.to_nat RING_ENTRIES) tag before rest u Hq Hf Hrest ltac:(lia) ltac:(lia)))
    as (o & u' & Hrun & -> & Hq' & Hk).
  exists (snd <$> hd_error rest), u', (tl rest). split; [exact Hrun|]. split; [done|].
  destruct rest as [|[t r] rest]; cbn [hd_error tl fmap option_fmap option_map snd].
  - rewrite app_nil_r in *. split_and!; [done|done|]. rewrite fmap_app, elem_of_app. intros [Hin|Hin].
    + by apply (stash_take_lacks _ _ Ht E).
    + apply list_elem_of_fmap in Hin as (x & -> & Hin). by apply (proj1 (Forall_forall _ _) Hb x Hin).
  - pose proof (Hrest (t, r) eq_refl) as Et. cbn in Et. subst t. rewrite Hk, <-app_assoc. by rewrite <-!Permutation_middle, (assoc_L (++)).
Qed.

Lemma reap_loses_nothing_witness : exists u u' q', ring_holds u [(9, 5); (7, -1)] /\
  reap 7 u = Ret (Some (-1), u') /\ ring_holds u' q' /\ kept (STASH u') ++ q' ≡ₚ [(9, 5)].
Proof.
  destruct (wp_unit _ _ _ (complete_posts 0x40000000 9 5 [] cold_kernel (cq_cold _) ltac:(lia) ltac:(lia))) as (k1 & _ & H1 & _).
  destruct (wp_unit _ _ _ (complete_posts 0x40000000 7 (-1) _ k1 H1 ltac:(lia) ltac:(lia))) as (k2 & _ & H2 & _).
  pose (u := mkLibu (kernel_mem k2) 0x40000000 STASH_new 10).
  destruct (reap_loses_nothing 7 [(9, 5); (7, -1)] u H2 ltac:(lia)) as (o & u' & q' & Hrun & Hq & Ho).
  - repeat constructor; cbn; lia.
  - vm_compute. lia.
  - exists u, u', q'. change (kept (STASH u) ++ [(9, 5); (7, -1)]) with [(9, 5); (7, -1)] in Ho. destruct o as [r|].
    + assert (Hin : (7, r) ∈ [(9, 5); (7, -1)]) by (rewrite Ho; apply list_elem_of_here).
      assert (r = -1) as -> by (apply elem_of_cons in Hin as [|Hin]; [done|]; apply list_elem_of_singleton in Hin; congruence).
      split; [exact H2|]. split; [exact Hrun|]. split; [exact Hq|].
      rewrite (Permutation_swap (7, -1) (9, 5)) in Ho. symmetry. exact (Permutation_cons_inv Ho).
    + destruct Ho as (_ & _ & Hn). destruct Hn. cbn. right. left.
Defined.

(** Without room, a completion of another tag is dropped. *)
Theorem stash_overflow got res s : room s = O -> stash_put got res s = s.
Proof.
  induction s as [|[t r] s IH]; intros H; [done|]. unfold room in *. cbn [stash_put]. rewrite filter_cons in H. cbn [fst] in H.
  destruct (Z.eqb_spec t 0) as [->|Ht]; [by rewrite decide_True in H|]. rewrite decide_False in H by done. by rewrite IH.
Qed.
