(* ===== verification/Libu.v ===== *)
(** * The user library and the shell

    user/src/lib.rs: calls through the ring, decimal output and line editing; and
    the command interpreter of user/src/bin/jsh.rs with user/src/bin/echo.rs. *)

From Stdlib Require Import ZArith Lia String.
From stdpp Require Import base numbers gmap strings list list_relations.
From S2P Require Import Prelude Memory Abi Console Process Text Ring Uring.

(** ** Calls through the ring *)

Definition tag : M libu Z :=
  let! u := getM in
  modifyM (fun u => mkLibu (umem u) (RING_VA u) (STASH u) (wrapping_add 64 (NEXT_TAG u) 1)) ;;;
  retM (NEXT_TAG u).

(** What [print_bytes], [read_byte], [spawn] and [wait_child] do before they wait:
    the tag to wait for, and whether [submit] traps. *)
Definition begin_call (op a0 a1 : Z) : M libu (Z * bool) :=
  let! t := tag in
  on_page (fun page => sqe page op a0 a1 t) ;;;
  let! traps := on_page submit in
  retM (t, traps).

Definition print_bytes (ptr len : Z) : M libu (Z * bool) := begin_call OP_PRINT ptr len.
Definition read_byte (byte : Z) : M libu (Z * bool) := begin_call OP_READ byte 1.
Definition spawn_child (ptr len : Z) : M libu (Z * bool) := begin_call OP_SPAWN ptr len.
Definition wait_child (handle : Z) : M libu (Z * bool) := begin_call OP_WAIT (as_u64 handle) 0.

(** ** Decimal output *)

(** The digits are written from the end of [buf] down; a [u64] has at most twenty,
    so the loop ends within twenty rounds. *)
Fixpoint dec_loop {S} (fuel : nat) (buf : list Z) (i v : Z) : M S (list Z * Z) :=
  match fuel with
  | O => panicM
  | S fuel' =>
      let! i := subM i 1 in
      assertM (i <? Z.of_nat (length buf)) ;;;
      let buf := <[Z.to_nat i := 48 + v mod 10]> buf in
      let v := v / 10 in
      if v =? 0 then retM (buf, i) else dec_loop fuel' buf i v
  end.

(** The bytes [print_dec] prints. *)
Definition print_dec {S} (n : Z) : M S (list Z) :=
  let buf := replicate 20 0 in
  let negative := n <? 0 in
  let v := if negative then wrapping_add 64 (2 ^ 64 - 1 - as_u64 n) 1 else as_u64 n in
  let! x := dec_loop 20 buf 20 v in
  let '(buf, i) := x in
  if negative then
    let! i := subM i 1 in
    assertM (i <? Z.of_nat (length buf)) ;;;
    retM (drop (Z.to_nat i) (<[Z.to_nat i := 45]> buf))
  else retM (drop (Z.to_nat i) buf).

(** ** Line editing *)

Definition MAX_LINE : nat := 128.

Definition CR : Z := 13.
Definition BS : Z := 8.
Definition DEL : Z := 127.
Definition rub_out : list Z := [BS; 32; BS].

(** One byte: the line, its length, what is echoed, and whether the line ended. *)
Definition edit_byte {S} (line : list Z) (len : nat) (byte : Z) : M S (list Z * nat * list Z * bool) :=
  if (byte =? CR) || (byte =? NL) then retM (line, len, [NL], true)
  else if (byte =? DEL) || (byte =? BS) then
    if (0 <? len)%nat then retM (line, (len - 1)%nat, rub_out, false) else retM (line, len, [], false)
  else if in_rng 0x20 0x7e byte then
    if (len <? MAX_LINE)%nat then
      assertM (len <? length line)%nat ;;;
      retM (<[len := byte]> line, (len + 1)%nat, [byte], false)
    else retM (line, len, [], false)
  else retM (line, len, [], false).

(** [input] are the bytes [read_byte] returns; [None] while the line is not ended.
    The result holds the line, its length and the echo. *)
Fixpoint read_line {S} (input : list Z) (line : list Z) (len : nat) (echo : list Z) : M S (option (list Z * nat * list Z)) :=
  match input with
  | [] => retM None
  | byte :: input' =>
      let! x := edit_byte line len byte in
      let '(line, len, out, ended) := x in
      if ended then retM (Some (line, len, echo ++ out)) else read_line input' line len (echo ++ out)
  end.

(** ** [print_dec] prints the decimal *)

(** One digit. *)
Lemma dec_digit {A} (buf : list A) i x :
  length buf = 20%nat -> 1 <= i <= 20 ->
  length (<[Z.to_nat (i - 1) := x]> buf) = 20%nat /\
  drop (Z.to_nat (i - 1)) (<[Z.to_nat (i - 1) := x]> buf) = x :: drop (Z.to_nat i) buf.
Proof.
  intros Hb Hi. split; [by rewrite length_insert|]. erewrite drop_S by (apply list_lookup_insert_eq; lia).
  f_equal. replace (S (Z.to_nat (i - 1))) with (Z.to_nat i) by lia. by rewrite drop_insert_lt by lia.
Qed.

Lemma dec_loop_spec {St} d fuel buf i v (s : St) :
  length buf = 20%nat -> (d < fuel)%nat -> Z.of_nat d < i <= 20 -> 0 <= v < 10 ^ (Z.of_nat d + 1) ->
  wp False (dec_loop fuel buf i v) (fun x s' => s' = s /\ length x.1 = 20%nat /\ i - Z.of_nat d - 1 <= x.2 < i /\
    drop (Z.to_nat x.2) x.1 = digits fuel 10 v (drop (Z.to_nat i) buf)) s.
Proof.
  revert fuel buf i v. induction d as [|d IH]; intros fuel buf i v Hb Hf Hi Hv; (destruct fuel as [|fuel]; [lia|]);
    cbn [dec_loop digits]; wp_step; (apply wp_sub; [lia|]); wp_step;
    (apply wp_assert; [intros _|intros ?%Z.ltb_ge; lia]); cbv zeta;
    destruct (dec_digit buf i (48 + v mod 10) Hb ltac:(lia)) as [Hl Hd];
    unfold digit; rewrite (proj2 (Z.ltb_lt (v mod 10) 10)) by (apply Z.mod_pos_bound; lia).
  - rewrite (Z.div_small v 10) by (cbn in Hv; lia). wp_steps. split_and!; try done; cbn [fst snd]; lia.
  - destruct (Z.eqb_spec (v / 10) 0) as [E|E]; wp_steps; [split_and!; try done; cbn [fst snd]; lia|].
    eapply wp_mono; [apply IH; [exact Hl|lia|lia|]|].
    + replace (Z.of_nat (S d) + 1) with (Z.succ (Z.of_nat d + 1)) in Hv by lia. rewrite Z.pow_succ_r in Hv by lia. zlia.
    + intros [b j] s' (-> & Hb' & Hj & Hdr). cbn [fst snd] in *. rewrite Hdr, Hd. split_and!; [done|done|lia|lia|done].
Qed.

(** C39: [print_dec] prints every [i64], the most negative one included, as
    [core::fmt] would, without running out of its twenty bytes. *)
Theorem print_dec_decimal {St} n (s : St) : - 2 ^ 63 <= n < 2 ^ 63 -> print_dec n s = Ret (fmt_i n, s).
Proof.
  intros Hn. unfold print_dec, fmt_i, fmt_u. set (v := if n <? 0 then _ else _).
  assert (Ev : v = Z.abs n /\ 0 <= v < 10 ^ (Z.of_nat 18 + 1)).
  { unfold v, wrapping_add, as_u64, wrap. destruct (Z.ltb_spec n 0); zlia. }
  destruct Ev as [Ev Hv].
  pose proof (dec_loop_spec 18 20 (replicate 20 0) 20 v s (length_replicate _ _) ltac:(lia) ltac:(lia) Hv) as H.
  unfold bindM at 1. unfold wp in H. destruct (dec_loop 20 _ _ _ s) as [[[b j] s']|]; [|done].
  destruct H as (-> & Hb & Hj & Hd). cbn [fst snd] in *. change (drop (Z.to_nat 20) _) with (@nil Z) in Hd.
  destruct (Z.ltb_spec n 0) as [Hneg|Hpos].
  - unfold bindM, subM. rewrite (proj2 (Z.ltb_ge j 1)) by lia. unfold retM at 1, assertM. cbv beta iota.
    rewrite Hb, (proj2 (Z.ltb_lt (j - 1) _)) by lia. unfold retM. rewrite (proj2 (dec_digit b j 45 Hb ltac:(lia))), Hd, Ev.
    by rewrite Z.abs_neq by lia.
  - unfold retM. by rewrite Hd, Ev, Z.abs_eq.
Qed.

Lemma print_dec_decimal_witness : print_dec (- 2 ^ 63) tt = Ret (str "-9223372036854775808", tt).
Proof. exact (print_dec_decimal (- 2 ^ 63) tt ltac:(lia)). Defined.

(** ** The line is what was typed, and what the terminal shows *)

(** Typing into a line that holds [l]. *)
Definition typed (l : list Z) (byte : Z) : list Z :=
  if (byte =? DEL) || (byte =? BS) then take (length l - 1) l
  else if in_rng 0x20 0x7e byte && (length l <? MAX_LINE)%nat then l ++ [byte]
  else l.

(** A terminal's line: what is left of the cursor, last glyph first, and what is
    right of it. *)
Definition shown (z : list Z * list Z) (byte : Z) : list Z * list Z :=
  if byte =? BS then match z.1 with [] => z | g :: l => (l, g :: z.2) end
  else (byte :: z.1, tl z.2).
Definition screen (echo : list Z) : list Z := (fold_left shown echo ([], [])).1.

Definition ends_line (byte : Z) : Prop := byte = CR \/ byte = NL.

(** The first [len] bytes of the buffer are [l]. *)
Record holds (line : list Z) (len : nat) (l : list Z) : Prop := {
  ho_size : length line = MAX_LINE;
  ho_len : len = length l;
  ho_max : (len <= MAX_LINE)%nat;
  ho_text : take len line = l
}.

Lemma screen_app e1 e2 l r : fold_left shown e1 ([], []) = (l, r) -> screen (e1 ++ e2) = (fold_left shown e2 (l, r)).1.
Proof. intros H. unfold screen. by rewrite fold_left_app, H. Qed.

Lemma edit_byte_spec {St} line len l byte (s : St) :
  holds line len l -> ~ ends_line byte ->
  wp False (edit_byte line len byte) (fun x s' => s' = s /\ x.2 = false /\ holds x.1.1.1 x.1.1.2 (typed l byte) /\
    forall e, screen e = reverse l -> screen (e ++ x.1.2) = reverse (typed l byte)) s.
Proof.
  intros [Hs Hn Hm Ht] He. unfold edit_byte, typed, ends_line in *. rewrite <-Hn.
  rewrite (proj2 (Z.eqb_neq byte CR)), (proj2 (Z.eqb_neq byte NL)) by tauto. cbn [orb].
  destruct ((byte =? DEL) || (byte =? BS)) eqn:Hb.
  { destruct (Nat.ltb_spec 0 len) as [Hp|Hz]; wp_steps; cbn [fst snd].
    - split_and!; [done|done| |].
      + split; [done| |lia|]; rewrite <-?Ht; [rewrite !length_take; lia|]. rewrite take_take. f_equal. lia.
      + intros e E. assert (Hl : exists x l1, l = l1 ++ [x] /\ take (len - 1) l = l1).
        { destruct (exists_last (l := l)) as (l1 & x & ->); [intros ->; cbn in Hn; lia|]. exists x, l1.
          rewrite length_app in Hn. cbn in Hn. split; [done|]. by rewrite take_app_length' by lia. }
        destruct Hl as (x & l1 & -> & ->). rewrite reverse_snoc in E. unfold screen in E.
        destruct (fold_left shown e _) as [a b] eqn:Ee. cbn in E. subst a. rewrite (screen_app _ _ _ _ Ee). done.
    - assert (l = []) as -> by (apply nil_length_inv; lia). assert (len = O) as -> by lia. cbn [take].
      split_and!; [done|done|by split|]. intros e E. by rewrite app_nil_r. }
  destruct (in_rng 0x20 0x7e byte) eqn:Hp; cbn [andb]; [|wp_steps; split_and!; [done|done|by split|intros e E; by rewrite app_nil_r]].
  destruct (Nat.ltb_spec len MAX_LINE); [|wp_steps; split_and!; [done|done|by split|intros e E; by rewrite app_nil_r]].
  wp_step. apply wp_assert; [intros _|intros ?%Nat.ltb_ge; lia]. wp_steps. cbn [fst snd]. split_and!; [done|done| |].
  - split; [by rewrite length_insert|rewrite length_app; cbn; lia|lia|].
    rewrite Nat.add_1_r, (take_S_r _ _ byte) by (apply list_lookup_insert_eq; lia). by rewrite take_insert_ge, Ht by lia.
  - intros e E. unfold screen in E. destruct (fold_left shown e _) as [a b] eqn:Ee. cbn in E. subst a.
    rewrite (screen_app _ _ _ _ Ee), reverse_snoc. cbn. unfold shown. by destruct (byte =? BS); [rewrite orb_true_r in Hb|].
Qed.

(** C40: [read_line] returns at the first carriage return or line feed, within the
    bounds of its buffer whatever is typed: the bytes before the returned length are
    what the typed bytes edit to, at most 128 of them, and a terminal that shows the
    echo shows exactly that line. *)
Theorem read_line_edits {St} keys ending rest line (s : St) :
  Forall (fun b => ~ ends_line b) keys -> ends_line ending -> length line = MAX_LINE ->
  let text := fold_left typed keys [] in
  exists line' echo, read_line (keys ++ ending :: rest) line 0 [] s = Ret (Some (line', length text, echo ++ [NL]), s) /\
    length line' = MAX_LINE /\ (length text <= MAX_LINE)%nat /\ take (length text) line' = text /\
    screen echo = reverse text.
Proof.
  intros Hk He Hs text.
  assert (H : forall len l echo line, holds line len l -> screen echo = reverse l ->
    wp False (read_line (keys ++ ending :: rest) line len echo) (fun x s' => s' = s /\
      exists line' echo', x = Some (line', length (fold_left typed keys l), echo' ++ [NL]) /\
        holds line' (length (fold_left typed keys l)) (fold_left typed keys l) /\
        screen echo' = reverse (fold_left typed keys l)) s).
  { clear text Hs line. induction Hk as [|b keys Hb _ IH]; intros len l echo line Hh Hsc; cbn [app read_line fold_left].
    - assert (E : edit_byte (S := St) line len ending = retM (line, len, [NL], true))
        by (destruct He as [-> | ->]; reflexivity). rewrite E. wp_steps. split; [done|].
      exists line, echo. rewrite <-(ho_len _ _ _ Hh). done.
    - wp_step. eapply wp_mono; [by apply (edit_byte_spec line len l b s)|].
      intros [[[line1 len1] out] ended] s' (-> & Hend & Hh1 & Hsc1). cbn [fst snd] in *. subst ended. by apply IH; auto. }
  destruct (wp_result _ _ _ (H O [] [] line ltac:(split; [done|done|unfold MAX_LINE; lia|done]) eq_refl))
    as (x & s' & Hrun & -> & line' & echo & -> & [H1 H2 H3 H4] & H5).
  exists line', echo. done.
Qed.

(** "hx" with the x rubbed out, then "i". *)
Lemma read_line_edits_witness : exists line' echo,
  read_line ([104; 120; 127; 105] ++ CR :: []) (replicate 128 0) 0 [] tt = Ret (Some (line', 2%nat, echo ++ [NL]), tt) /\
  take 2 line' = [104; 105] /\ screen echo = [105; 104].
Proof.
  destruct (read_line_edits [104; 120; 127; 105] CR [] (replicate 128 0) tt) as (line' & echo & Hrun & _ & _ & Ht & Hsc).
  - repeat (apply Forall_cons_2; [intros [E|E]; discriminate E|]). apply Forall_nil_2.
  - by left.
  - reflexivity.
  - exists line', echo. split; [exact Hrun|]. split; [exact Ht|exact Hsc].
Defined.

(** ** The shell *)

(** Submissions of a batch. *)
Inductive batch_op :=
| Nop
| PrintOp (bytes : list Z).

(** What a program asks of the library; the answer of a call is passed on. A batch
    is published as a whole and then waited for, sleeping or spinning. *)
Inductive prog :=
| Finish
| Print (bytes : list Z) (k : prog)
| PrintDec (n : Z) (k : prog)
| ReadLine (k : list Z -> prog)
| Spawn (name : list Z) (k : Z -> prog)
| WaitChild (handle : Z) (k : Z -> prog)
| Batch (ops : list batch_op) (block : bool) (k : prog)
| Store (addr byte : Z) (k : prog)
| Exit (code : Z).

Definition spam : prog :=
  Batch [PrintOp (str "spam 1" ++ [NL]); PrintOp (str "spam 2" ++ [NL]); PrintOp (str "spam 3" ++ [NL])] false Finish.

Definition run_line (line : list Z) : prog :=
  if bool_decide (line = []) then Finish
  else if bool_decide (line = str "exit") then Exit 0
  else if bool_decide (line = str "help") then Print (str "commands: help spam spawn crash exit" ++ [NL]) Finish
  else if bool_decide (line = str "spam") then spam
  else if bool_decide (line = str "spawn") then
    Spawn (str "echo") (fun handle =>
      if handle <? 0 then Print (str "spawn failed" ++ [NL]) Finish
      else WaitChild handle (fun code =>
        Print (str "echo exited: ") (PrintDec code (Print [NL] Finish))))
  else if bool_decide (line = str "crash") then Store USER_BASE 0 Finish
  else Print (str "unknown command: ") (Print line (Print [NL] Finish)).

(** [_start] of jsh, after [setup]: the banner, and one round of its loop. *)
Definition banner : prog := Batch [Nop; PrintOp (str "jsh: type 'help'" ++ [NL])] true Finish.
Definition shell_round : prog := Print (str "jsh> ") (ReadLine run_line).

(** echo.rs, after [setup]. *)
Definition echo_main : prog := Print (str "echo: hello from a second program" ++ [NL]) (Exit 0).

(** The effects of a program whose calls are answered by [answer] and whose user
    types [typed_line]. *)
Inductive effect :=
| Printed (bytes : list Z)
| Spawned (name : list Z)
| Waited (handle : Z)
| Stored (addr byte : Z)
| Exited (code : Z).

Definition op_effects (o : batch_op) : list effect := match o with Nop => [] | PrintOp bs => [Printed bs] end.

Fixpoint effects (answer : effect -> Z) (typed_line : list Z) (p : prog) : list effect :=
  match p with
  | Finish => []
  | Print bs k => Printed bs :: effects answer typed_line k
  | PrintDec n k => Printed (fmt_i n) :: effects answer typed_line k
  | ReadLine k => effects answer typed_line (k typed_line)
  | Spawn name k => Spawned name :: effects answer typed_line (k (answer (Spawned name)))
  | WaitChild h k => Waited h :: effects answer typed_line (k (answer (Waited h)))
  | Batch ops _ k => concat (op_effects <$> ops) ++ effects answer typed_line k
  | Store a b k => Stored a b :: effects answer typed_line k
  | Exit c => [Exited c]
  end.

(** Case analysis on the line and on which effect it is. *)
Ltac which_effect :=
  unfold shell_round, run_line, spam; cbn [effects]; intros Hin;
  (apply elem_of_cons in Hin as [Hin|Hin]; [discriminate Hin|]); revert Hin;
  repeat case_bool_decide; cbn; try (destruct (_ <? 0); cbn); intros Hin;
  repeat (apply elem_of_cons in Hin as [Hin|Hin]; [try discriminate Hin|]); try (by apply elem_of_nil in Hin).

(** In a round of the shell, only [exit] ends it, and only [crash] stores outside
    the library. *)
Lemma only_exit_exits answer line c : Exited c ∈ effects answer line shell_round -> line = str "exit" /\ c = 0.
Proof. which_effect. by injection Hin as ->. Qed.

Lemma only_crash_stores answer line a b :
  Stored a b ∈ effects answer line shell_round -> line = str "crash" /\ a = USER_BASE.
Proof. which_effect. by injection Hin as -> _. Qed.
