(* ===== verification/Main.v ===== *)
(** * Boot

    kernel/src/main.rs: the order in which [kmain] brings the parts up, with the
    self-checks it runs on the way, and the first tasks. *)

From Stdlib Require Import ZArith Lia String.
From stdpp Require Import base numbers gmap strings list list_relations.
From S2P Require Import Prelude Sync Memory Abi Frames Mmu PageTables AddressSpaces Heap.
From S2P Require Import Sched Console Elf Devices Process Text Ring User.

(** The statics of the kernel with the allocator's, and the CPU's registers for
    exceptions. *)
Record boot := mkBoot { bk : kernel; bheap : BumpAllocator; vbar_el1 : Z; daif : Z }.
Definition set_bk (k : kernel) (b : boot) : boot := mkBoot k (bheap b) (vbar_el1 b) (daif b).
Definition set_bheap (a : BumpAllocator) (b : boot) : boot := mkBoot (bk b) a (vbar_el1 b) (daif b).
Definition set_vbar (v : Z) (b : boot) : boot := mkBoot (bk b) (bheap b) v (daif b).
Definition set_daif (d : Z) (b : boot) : boot := mkBoot (bk b) (bheap b) (vbar_el1 b) d.
Definition heap_of (b : boot) : heap := mkHeap (the_mmu (bk b)) (bheap b).
Definition set_heap (h : heap) (b : boot) : boot :=
  mkBoot (put_mmu (hmm h) (bk b)) (ALLOCATOR h) (vbar_el1 b) (daif b).

Definition in_kernel {A} : M kernel A -> M boot A := zoomM bk set_bk.
Definition in_bump {A} : M BumpAllocator A -> M boot A := zoomM bheap set_bheap.
Definition in_heap {A} : M heap A -> M boot A := zoomM heap_of set_heap.
Definition in_daif {A} : M Z A -> M boot A := zoomM daif set_daif.

(** [timer::ticks]. *)
Definition ticks : M kernel Z := getsM (fun k => TICKS (ks k)).

Definition println (s : string) : M kernel unit := in_con (write_str (str s ++ [NL])).

(** ** Self-checks *)

Definition count_free : M kernel Z := in_mmu (in_phys (getsM free_frame_count)).
Definition take_frame : M kernel Z :=
  let! o := in_mmu (in_phys alloc_frame) in expectM o.
Definition give_frame (f : Z) : M kernel unit := in_mmu (in_phys (free_frame f)).

Definition frame_self_check : M kernel unit :=
  let! initial := count_free in
  assertM (1000 <? initial) ;;;
  let! f1 := take_frame in
  let! f2 := take_frame in
  assertM (negb (f1 =? f2)) ;;;
  assertM (f1 mod FRAME_SIZE =? 0) ;;;
  assertM (f2 mod FRAME_SIZE =? 0) ;;;
  let! n := count_free in
  let! expected := subM initial 2 in
  assertM (n =? expected) ;;;
  give_frame f1 ;;;
  give_frame f2 ;;;
  let! n := count_free in
  assertM (n =? initial) ;;;
  let! f3 := take_frame in
  assertM (f3 =? f2) ;;;
  give_frame f3 ;;;
  println "frame self-check passed".

Definition mmu_self_check : M kernel unit :=
  println "mmu enabled" ;;;
  let! f := take_frame in
  st32 f 0x12345678 ;;;
  let! v := ld32 f in
  assertM (v =? 0x12345678) ;;;
  give_frame f ;;;
  println "mmu self-check passed".

(** A block for [Vec<u32>] (four elements at first), one for a [String] of the
    greeting's length and one for [Box<u32>]; they are dropped in reverse order. *)
Definition take_block (l : Layout) : M boot Z :=
  let! p := in_bump (alloc l) in
  assertM (negb (p =? 0)) ;;;
  retM p.

(** Accesses to a block, through the kernel's own mapping. *)
Definition on_kmem (f : mem -> mem) : M kernel unit :=
  modifyM (fun k => set_ks (set_cpu (cpu_regs (ks k)) (cpu_sp (ks k)) (f (kmem (ks k))) (ks k)) k).
Definition poke32 (a v : Z) : M kernel unit := on_kmem (fun m => write32 m a v).
Definition peek32 (a : Z) : M kernel Z := getsM (fun k => read32 (kmem (ks k)) a).

Fixpoint put_bytes (m : mem) (a : Z) (bs : list Z) : mem :=
  match bs with
  | [] => m
  | b :: bs' => put_bytes (write8 m a b) (a + 1) bs'
  end.
Definition get_bytes (m : mem) (a : Z) (n : nat) : list Z := (fun i => read8 m (a + i)) <$> zseq 0 n.

(** Three elements are pushed and summed. *)
Definition sum_numbers (v : Z) : M kernel Z :=
  poke32 v 1 ;;;
  poke32 (v + 4) 2 ;;;
  poke32 (v + 8) 3 ;;;
  let! x := peek32 v in
  let! y := peek32 (v + 4) in
  let! z := peek32 (v + 8) in
  let sum := x + y + z in
  assertM (sum <? 2 ^ 32) ;;;
  retM sum.

Definition greeting : list Z := str "Hello from the heap!".

Definition heap_self_check : M boot unit :=
  let numbers := mkLayout 16 4 in
  let text := mkLayout (Z.of_nat (length greeting)) 1 in
  let word := mkLayout 4 4 in
  let! v := take_block numbers in
  let! sum := in_kernel (sum_numbers v) in
  assertM (sum =? 6) ;;;
  let! s := take_block text in
  in_kernel (on_kmem (fun m => put_bytes m s greeting)) ;;;
  let! bytes := in_kernel (getsM (fun k => get_bytes (kmem (ks k)) s (length greeting))) in
  in_kernel (in_con (write_str bytes)) ;;;
  in_kernel (in_con (write_str [NL])) ;;;
  let! b := take_block word in
  in_kernel (poke32 b 0xCAFE) ;;;
  let! x := in_kernel (peek32 b) in
  assertM (x =? 0xCAFE) ;;;
  assertM ((HEAP_VBASE <=? b) && (b <? HEAP_VBASE + HEAP_SIZE)) ;;;
  in_kernel (println "heap self-check passed") ;;;
  in_bump (dealloc b word) ;;;
  in_bump (dealloc s text) ;;;
  in_bump (dealloc v numbers).

(** ** Exceptions at EL1 *)

Section syscall.
Context (PROGRAMS : list (list Z * list Z)).
Context (task_trampoline user_task_pc : Z) (box_stack : kernel -> option Z).
(** Where the linker put the table of exceptions.s. *)
Context (exception_vector_table : Z).

(** VBAR_EL1 has no bits below 11. *)
Definition init_exceptions : M boot unit := modifyM (set_vbar (Z.ldiff exception_vector_table 0x7FF)).

(** The CPU goes to the vector in the table of VBAR_EL1. The table of exceptions.s
    leads to [exception_dispatch]; there is none at any other address. The I bit is
    set while the handler runs, and [eret] restores it. *)
Definition take_exception (kind esr intid : Z) (f : TrapFrame) : M boot ending :=
  let! b := getM in
  assertM (vbar_el1 b =? exception_vector_table) ;;;
  in_kernel (exception_dispatch PROGRAMS task_trampoline user_task_pc box_stack kind esr 0 intid f).

(** [svc #0] at EL1: vector 4, a full frame, and the result in [x0]. *)
Definition svc_frame (num arg0 arg1 : Z) (others : list Z) : TrapFrame :=
  mkFrame (arg0 :: arg1 :: take 6 others ++ num :: drop 6 others) 0 0 0.

Definition syscall (num arg0 arg1 : Z) : M boot Z :=
  let! e := take_exception 4 (Z.shiftl EC_SVC 26) 0 (svc_frame num arg0 arg1 (replicate 28 0)) in
  match e with
  | Resume f' => in_kernel (reg f' 0)
  | _ => panicM
  end.

Definition syscall_self_check : M boot unit :=
  let! sum := syscall SYS_ADD 3 4 in
  assertM (sum =? 7) ;;;
  in_kernel (println "syscall self-check passed").

(** Whether the device of [intid] raises its interrupt: the timer at the end of its
    countdown, the UART when a byte is in its receiver. No other one is in use. *)
Definition raised (intid : Z) (k : kernel) : bool :=
  if intid =? TIMER_INTID then ticking (ktimer k)
  else if intid =? UART_INTID then
    negb (Z.land (imsc (uart (kcon k))) RXIM =? 0) && match rx (uart (kcon k)) with [] => false | _ => true end
  else false.

(** It interrupts the CPU if the controller forwards it and the CPU does not mask
    it. *)
Definition interrupts (intid : Z) (b : boot) : bool :=
  raised intid (bk b) && forwards (kgic (bk b)) intid && negb (masked (daif b)).

(** [wfi], until the moment when the device of [intid] has a reason to interrupt:
    through vector 5, or not at all. *)
Definition wfi (intid : Z) : M boot unit :=
  let! b := getM in
  if interrupts intid b then
    let! _ := take_exception 5 0 intid (mkFrame (replicate 31 0) 0 0 0) in retM tt
  else retM tt.

(** [wfi] until five ticks were counted; [irqs] are the moments at which it may end.
    When there are no more, it waits for ever. *)
Fixpoint irq_self_check (irqs : list Z) : M boot unit :=
  let! now := in_kernel ticks in
  if now <? 5 then
    match irqs with
    | [] => panicM
    | i :: irqs' => wfi i ;;; irq_self_check irqs'
    end
  else
    in_kernel (say (str "timer fired " ++ fmt_u now ++ str " times")) ;;;
    in_kernel (println "irq self-check passed").

(** ** [kmain], up to the scheduler *)

Definition kmain_early (kernel_end : Z) (irqs : list Z) : M boot unit :=
  in_kernel (println "Hello, World!") ;;;
  init_exceptions ;;;
  in_kernel (in_mmu (in_phys (init_frames kernel_end))) ;;;
  in_kernel frame_self_check ;;;
  in_kernel (in_mmu init_mmu) ;;;
  in_kernel mmu_self_check ;;;
  in_heap init_heap ;;;
  heap_self_check ;;;
  syscall_self_check ;;;
  in_kernel (in_gic (gic_init TIMER_INTID)) ;;;
  in_kernel (in_gic (enable_spi UART_INTID)) ;;;
  in_kernel (in_con (set_rx_irq true)) ;;;
  in_kernel (in_timer timer_init) ;;;
  in_daif enable ;;;
  irq_self_check irqs.

(** The first call of [sched_self_check]: [kmain] becomes task 0. *)
Definition kmain_to_sched (kernel_end : Z) (irqs : list Z) : M boot unit :=
  kmain_early kernel_end irqs ;;;
  in_kernel (in_sched Sched.init).
End syscall.

(** ** New tasks *)

Section tasks.
Context (PROGRAMS : list (list Z * list Z)).
Context (task_trampoline user_task_pc : Z) (box_stack : kernel -> option Z).

(** [sched::spawn(entry, 0)], with a stack from the heap. *)
Definition spawn_thread (entry : Z) : M kernel unit :=
  let! k := getM in
  let! stack := expectM (box_stack k) in
  in_sched (spawn task_trampoline stack entry 0).

Definition spawn_shell : M kernel unit :=
  let! jsh := expectM (get PROGRAMS (str "jsh")) in
  let! root := in_mmu new_address_space in
  let! p0 := create jsh root in
  set_foreground p0 true ;;;
  let! r := proc_ttbr0 p0 in
  let! k := getM in
  let! stack := expectM (box_stack k) in
  in_sched (spawn_user task_trampoline stack user_task_pc 0 p0 r).
End tasks.
