(* ===== verification/Threads.v ===== *)
(** * Kernel threads

    The code that runs in the kernel with interrupts on: the poller of
    kernel/src/ring.rs, and [kmain] and the threads of its scheduler check in
    kernel/src/main.rs. A thread is a tree of the operations it performs; an
    operation runs with interrupts masked, under a lock or as one atomic access, and
    between two of them the thread can be preempted. *)

From Stdlib Require Import ZArith Lia String.
From stdpp Require Import base numbers gmap strings list list_relations.
From S2P Require Import Prelude Memory Abi Frames Mmu.
From S2P Require Import Sched Console Elf Process Text Ring User Main.

(** ** Operations *)

Inductive op : Type -> Type :=
(** [process::count], [process::ring_pa], [process::ttbr0]. *)
| CountProcs : op nat
| RingPa (pid : nat) : op Z
| RootOf (pid : nat) : op Z
(** Atomics of a ring page. *)
| LoadRing (a : Z) : op Z
| StoreRing (a v : Z) : op unit
(** [mmu::activate], [drain], [timer::ticks]. *)
| Activate (root : Z) : op unit
| Drain (pid : nat) : op bool
| Ticks : op Z
(** [RING.lock().poller = Some(sched::current())]. *)
| Register : op unit
(** [kprintln!], [uart::write_str]. *)
| Say (s : list Z) : op unit
| Write (s : list Z) : op unit
(** The scheduler. *)
| Yield : op unit
| Block : op unit
| Sleep (n : Z) : op unit
| Exit : op unit
| AnyAlive : op bool
| Spawn (entry : Z) : op unit
(** Checked arithmetic, assertions, [elf::validate]. *)
| Add (a b : Z) : op Z
| Assert (b : bool) : op unit
| Validate (image : list Z) : op Z
(** The first process, at the end of [kmain]. *)
| Shell : op unit.

(** ** Threads *)

(** [Loop s body next] is a [loop] or [while] with the state [s]: [body] gives the
    next state, or the value [next] goes on with. *)
Inductive thread (C : Type) : Type :=
| Stop (c : C)
| Do {X : Type} (o : op X) (next : X -> thread C)
| Loop {B St : Type} (s : St) (body : St -> thread (St + B)) (next : B -> thread C).
Arguments Stop {C} c.
Arguments Do {C X} o next.
Arguments Loop {C B St} s body next.

Fixpoint tbind {B C} (t : thread B) (f : B -> thread C) : thread C :=
  match t with
  | Stop b => f b
  | Do o next => Do o (fun x => tbind (next x) f)
  | Loop s body next => Loop s body (fun b => tbind (next b) f)
  end.

Definition call {X} (o : op X) : thread X := Do o Stop.

Declare Scope thread_scope.
Delimit Scope thread_scope with thread.
Notation "'let*' x ':=' t 'in' u" := (tbind t (fun x => u))
  (at level 200, x name, t at level 100, u at level 200, right associativity) : thread_scope.
Notation "t ;* u" := (tbind t (fun _ => u)) (at level 100, u at level 200, right associativity) : thread_scope.
Open Scope thread_scope.

(** [for x in l { body }]. *)
Fixpoint forT {B} (l : list B) (body : B -> thread unit) : thread unit :=
  match l with
  | [] => Stop tt
  | x :: l' => body x ;* forT l' body
  end.

(** The loop's next round. *)
Definition unroll {C B St} (s : St) (body : St -> thread (St + B)) (next : B -> thread C) : thread C :=
  let* r := body s in match r with inl s' => Loop s' body next | inr b => next b end.

(** ** The poller *)

Record Poll := mkPoll { announced : bool; last_work : Z }.

Definition has_submissions (pid : nat) : thread bool :=
  let* page := call (RingPa pid) in
  if page =? 0 then Stop false
  else
    let* head := call (LoadRing (page + SQ_HEAD)) in
    let* tail := call (LoadRing (page + SQ_TAIL)) in
    Stop (negb (head =? tail)).

Definition set_wakeup (flag : Z) (pid : nat) : thread unit :=
  let* page := call (RingPa pid) in
  if negb (page =? 0) then call (StoreRing (page + FLAGS) flag) else Stop tt.

Definition set_all_wakeup (on : bool) : thread unit :=
  let flag := if on then NEED_WAKEUP else 0 in
  let* n := call CountProcs in
  forT (seq 0 n) (set_wakeup flag).

(** [(0..process::count()).any(has_submissions)], after [count]. *)
Fixpoint any_submissions (pids : list nat) : thread bool :=
  match pids with
  | [] => Stop false
  | pid :: pids' => let* b := has_submissions pid in if b then Stop true else any_submissions pids'
  end.

(** [for pid in 0..process::count()]; the result is [worked]. *)
Fixpoint poll_all (pids : list nat) (worked : bool) : thread bool :=
  match pids with
  | [] => Stop worked
  | pid :: pids' =>
      let* b := has_submissions pid in
      if b then
        let* root := call (RootOf pid) in
        call (Activate root) ;*
        let* _ := call (Drain pid) in
        poll_all pids' true
      else poll_all pids' worked
  end.

Definition sqpoll_round (p : Poll) : thread Poll :=
  let* n := call CountProcs in
  let* worked := poll_all (seq 0 n) false in
  let* p' :=
    if worked then
      (if negb (announced p) then call (Say (str "[sqpoll] picked up work")) else Stop tt) ;*
      set_all_wakeup false ;*
      let* now := call Ticks in
      Stop (mkPoll true now)
    else
      let* now := call Ticks in
      if SQ_IDLE_TICKS <=? wrapping_sub 64 now (last_work p) then
        set_all_wakeup true ;*
        let* n := call CountProcs in
        let* late := any_submissions (seq 0 n) in
        (if late then set_all_wakeup false else call Block ;* set_all_wakeup false) ;*
        let* now := call Ticks in
        Stop (mkPoll (announced p) now)
      else Stop p in
  call Yield ;*
  Stop p'.

(** [loop { .. }] without a [break]. *)
Definition forever {St} (s : St) (body : St -> thread St) : thread Empty_set :=
  Loop s (fun s => let* s' := body s in Stop (inl s')) Stop.

Definition sqpoll_main : thread Empty_set :=
  call Register ;*
  let* now := call Ticks in
  forever (mkPoll false now) sqpoll_round.

(** ** [kmain] from its scheduler check on *)

(** A thread that sleeps between its lines. *)
Definition sleeper : thread unit :=
  forT [1; 2; 3] (fun i =>
    call (Say (str "[sleeper] woke " ++ fmt_u i)) ;*
    call (Sleep 3)).

Definition spin_ticks (n : Z) : thread unit :=
  let* now := call Ticks in
  let* target := call (Add now n) in
  Loop tt (fun _ => let* now := call Ticks in Stop (if now <? target then inl tt else inr tt)) Stop.

(** A thread that never gives up the CPU. *)
Definition busy : thread unit :=
  forT [1; 2; 3] (fun round =>
    call (Say (str "[busy] round " ++ fmt_u round)) ;*
    spin_ticks 3) ;*
  call (Write (str "busy thread done" ++ [NL])).

(** The entry of a task, called by the trampoline, which ends the task after it. *)
Definition trampoline (entry : thread unit) : thread unit := entry ;* call Exit.

Fixpoint elf_self_check (ps : list (list Z * list Z)) : thread unit :=
  match ps with
  | [] => call (Write (str "elf self-check passed" ++ [NL]))
  | (name, image) :: ps' =>
      let* entry := call (Validate image) in
      call (Assert (Z.shiftr entry 39 =? USER_L0_IDX)) ;*
      call (Say (str "program " ++ name ++ str ": " ++ fmt_u (Z.of_nat (length image)) ++
                 str " bytes, entry " ++ fmt_x entry)) ;*
      elf_self_check ps'
  end.

Section kmain.
Context (PROGRAMS : list (list Z * list Z)).
Context (task_trampoline user_task_pc sleeper_pc busy_pc sqpoll_pc : Z) (box_stack : kernel -> option Z).

(** [sched_self_check] after [sched::init]. *)
Definition sched_self_check : thread unit :=
  call (Spawn sleeper_pc) ;*
  call (Spawn busy_pc) ;*
  Loop tt (fun _ => let* alive := call AnyAlive in if alive then call Yield ;* Stop (inl tt) else Stop (inr tt)) (fun _ =>
  call (Write (str "preempt+sleep self-check passed" ++ [NL]))).

Definition kmain_rest : thread Empty_set :=
  sched_self_check ;*
  elf_self_check PROGRAMS ;*
  call (Spawn sqpoll_pc) ;*
  call Shell ;*
  forever tt (fun _ => call Yield).

(** ** What the operations do *)

Definition exec_op {X} (o : op X) : M kernel X :=
  match o with
  | CountProcs => getsM proc_count
  | RingPa pid => ring_pa pid
  | RootOf pid => proc_ttbr0 pid
  | LoadRing a => ld32 a
  | StoreRing a v => st32 a v
  | Activate root => in_mmu (activate root)
  | Drain pid => drain PROGRAMS task_trampoline user_task_pc box_stack pid
  | Ticks => ticks
  | Register => let! me := in_sched (getsM current_task) in modifyM (set_poller (Some me))
  | Say s => say s
  | Write s => in_con (write_str s)
  | Yield => in_sched yield_now
  | Block => in_sched block_current
  | Sleep n => in_sched (sleep_ticks n)
  | Exit => in_sched task_exit
  | AnyAlive => getsM (fun k => any_worker_alive (ks k))
  | Spawn entry => spawn_thread task_trampoline box_stack entry
  | Add a b => addM a b
  | Assert b => assertM b
  | Validate image => validate image
  | Shell => spawn_shell PROGRAMS task_trampoline user_task_pc box_stack
  end.

(** One step of a thread: the next operation, or the next round of a loop. *)
Definition advances {C} (t : thread C) (k : kernel) (t' : thread C) (k' : kernel) : Prop :=
  match t with
  | Stop _ => False
  | Do o next => exists x, exec_op o k = Ret (x, k') /\ t' = next x
  | Loop s body next => t' = unroll s body next /\ k' = k
  end.
End kmain.
