(* ===== verification/KernelInv.v ===== *)
(** * The invariant of the running kernel

    What ties the process table to the page tables, the frame pool and the
    scheduler: every live process owns its frames alone, its address space shows
    EL0 exactly these, its recorded ranges are really mapped, and the task that
    runs has its own space installed. The lemmas say which updates keep it. *)

From Stdlib Require Import ZArith Lia.
From stdpp Require Import base numbers gmap list list_relations.
From S2P Require Import Prelude Memory Abi Frames Mmu PageTables AddressSpaces Reclaim Ownership.
From S2P Require Import VirtualMemory Isolation Sched Console Elf Loader Devices Process.

(** ** What the table owns *)

(** Teardown leaves a husk that owns nothing; a live process owns at least its
    stack. *)
Definition alive (p : Process) : Prop := p_frames p <> [].
#[export] Instance alive_dec p : Decision (alive p).
Proof. unfold alive. apply _. Defined.

Definition roots_of (ps : list Process) : gset Z := list_to_set (p_ttbr0 <$> filter alive ps).
Definition data_of (ps : list Process) : gset Z := list_to_set (concat ((fun p => (p_frames p).*2) <$> ps)).

Lemma elem_of_roots_of ps r :
  r ∈ roots_of ps <-> exists pid p, ps !! pid = Some p /\ alive p /\ p_ttbr0 p = r.
Proof.
  unfold roots_of. rewrite elem_of_list_to_set, list_elem_of_fmap. split.
  - intros (p & -> & [Ha Hp]%list_elem_of_filter). apply list_elem_of_lookup in Hp as [pid Hp]. eauto 6.
  - intros (pid & p & Hp & Ha & <-). exists p. split; [done|]. apply list_elem_of_filter.
    split; [done|]. by eapply list_elem_of_lookup_2.
Qed.

Lemma elem_of_data_of ps f :
  f ∈ data_of ps <-> exists pid p, ps !! pid = Some p /\ f ∈ (p_frames p).*2.
Proof.
  unfold data_of. rewrite elem_of_list_to_set, list_elem_of_In, in_concat. split.
  - intros (x & Hx & Hf). apply list_elem_of_In, list_elem_of_fmap in Hx as (p & -> & Hp).
    apply list_elem_of_lookup in Hp as [pid Hp]. exists pid, p. split; [done|]. by apply list_elem_of_In.
  - intros (pid & p & Hp & Hf). exists ((p_frames p).*2). split; [|by apply list_elem_of_In].
    apply list_elem_of_In, list_elem_of_fmap. exists p. split; [done|]. by eapply list_elem_of_lookup_2.
Qed.

(** The fields the memory system depends on. *)
Definition core (p : Process) := (p_ttbr0 p, p_loaded p, p_frames p, p_ring_pa p).

Lemma core_alive p q : core p = core q -> alive p -> alive q.
Proof. unfold core, alive. intros [= ? ? Hf ?]. by rewrite Hf. Qed.

(** ** A process *)

(** The page of [va] is mapped to [f] with [perms] in the space [r]. *)
Definition maps (m : mem) (r va f perms : Z) : Prop :=
  forall va', canonical va' -> va' / 4096 = va / 4096 -> hw_walk m 3 r va' = Some (O, Z.lor f perms).

(** [va] lies on a page of the process, writable if [w]. *)
Definition reachable (m : mem) (p : Process) (w : bool) (va : Z) : Prop :=
  2 ^ 39 <= va < 2 ^ 40 /\
  exists va0 f perms, (va0, f) ∈ p_frames p /\ va0 / 4096 = va / 4096 /\ user_perms perms /\
    maps m (p_ttbr0 p) va f perms /\ (w = true -> perms = PAGE_USER_RW).

Record proc_wf (m : mem) (p : Process) : Prop := {
  pw_pages : forall va f, (va, f) ∈ p_frames p ->
    2 ^ 39 <= va < 2 ^ 40 /\ exists perms, user_perms perms /\ maps m (p_ttbr0 p) va f perms;
  pw_only : forall va n e, canonical va -> hw_walk m 3 (p_ttbr0 p) va = Some (n, e) ->
    el0_access e = true -> exists va0 f, (va0, f) ∈ p_frames p /\ va0 / 4096 = va / 4096;
  pw_vas : NoDup ((fun x => x.1 / 4096) <$> p_frames p);
  pw_nodup : NoDup (p_frames p).*2;
  pw_stack : forall va, USER_STACK_VA <= va < USER_STACK_VA + USER_STACK_SIZE -> reachable m p true va;
  pw_count : (Elf.count (p_loaded p) <= length (ranges (p_loaded p)))%nat;
  pw_ranges : forall r va, r ∈ take (Elf.count (p_loaded p)) (ranges (p_loaded p)) ->
    start r <= va < end_ r -> reachable m p (writable r) va;
  pw_ring : p_ring_pa p = 0 /\ (forall va f, (va, f) ∈ p_frames p -> va / 4096 <> USER_RING_VA / 4096) \/
            (USER_RING_VA, p_ring_pa p) ∈ p_frames p
}.

(** ** The kernel *)

(** The task's address space is its process's. *)
Definition task_ok (ps : list Process) (t : Task) : Prop :=
  match process t with
  | Some pid => exists p, ps !! pid = Some p /\ alive p /\ ttbr0 t = Some (p_ttbr0 p)
  | None => ttbr0 t = None
  end.

(** References from the process table to other objects. *)
Record refs_ok (nprocs ntasks : nat) (p : Process) : Prop := {
  rf_husk : ~ alive p -> p_ring_pa p = 0 /\ p_foreground p = false;
  rf_waiter : forall t, p_ring_waiter p = Some t -> (t < ntasks)%nat;
  rf_parent : forall q, p_parent p = Some q -> (q < nprocs)%nat;
  rf_pending : length (p_pending p) = MAX_PENDING;
  rf_reads : forall r, Some r ∈ p_pending p -> 0 <= pbuf r /\ 0 <= plen r /\ pbuf r + plen r < 2 ^ 64
}.

(** What holds between any two steps of the kernel, but for the running task. *)
Record kbase (K A : gset Z) (k : kernel) (T : gmap Z nat) (l : list Z) : Prop := {
  ki_vm : vm_inv K A (mkVm (the_mmu k) (roots_of (PROCESSES k)) (data_of (PROCESSES k))) T l;
  ki_kroot : forall va n e, canonical va ->
    hw_walk (kernel_mem k) 3 (KERNEL_TTBR0 (the_mmu k)) va = Some (n, e) -> el0_access e = false;
  ki_procs : forall pid p, PROCESSES k !! pid = Some p -> alive p -> proc_wf (kernel_mem k) p;
  ki_disj : forall i j p q f, PROCESSES k !! i = Some p -> PROCESSES k !! j = Some q ->
    f ∈ (p_frames p).*2 -> f ∈ (p_frames q).*2 -> i = j;
  ki_roots : forall i j p q, PROCESSES k !! i = Some p -> PROCESSES k !! j = Some q ->
    alive p -> alive q -> p_ttbr0 p = p_ttbr0 q -> i = j;
  ki_refs : forall pid p, PROCESSES k !! pid = Some p ->
    refs_ok (length (PROCESSES k)) (length (tasks (SCHEDULER (ks k)))) p;
  ki_tasks : forall i t, tasks (SCHEDULER (ks k)) !! i = Some t -> state t <> Exited ->
    task_ok (PROCESSES k) t;
  ki_one : forall i j t u pid, tasks (SCHEDULER (ks k)) !! i = Some t -> tasks (SCHEDULER (ks k)) !! j = Some u ->
    state t <> Exited -> state u <> Exited -> process t = Some pid -> process u = Some pid -> i = j;
  ki_sched : swf (ks k) /\ runnable_at (tasks (SCHEDULER (ks k))) 0 = true;
  ki_idle : forall t, tasks (SCHEDULER (ks k)) !! 0%nat = Some t -> process t = None;
  ki_poller : forall t, poller k = Some t -> (t < length (tasks (SCHEDULER (ks k))))%nat;
  ki_con : cwf (kcon k)
}.

(** The running task is runnable and has its own address space installed. *)
Record running (k : kernel) : Prop := {
  ru_runnable : runnable_at (tasks (SCHEDULER (ks k))) (current (SCHEDULER (ks k))) = true;
  ru_space : forall t r, tasks (SCHEDULER (ks k)) !! current (SCHEDULER (ks k)) = Some t ->
    ttbr0 t = Some r -> ttbr0_el1 (the_mmu k) = r
}.

Record kinv (K A : gset Z) (k : kernel) (T : gmap Z nat) (l : list Z) : Prop := {
  ki_base :> kbase K A k T l;
  ki_running : running k
}.

Definition Kbase (K A : gset Z) (k : kernel) : Prop := exists T l, kbase K A k T l.
Definition Kinv (K A : gset Z) (k : kernel) : Prop := exists T l, kinv K A k T l.

Lemma Kinv_split K A k : Kinv K A k <-> Kbase K A k /\ running k.
Proof. split; [intros (T & l & Hk & Hr); split; [by exists T, l|done]|]. intros [(T & l & Hk) Hr]. by exists T, l. Qed.

(** ** Updates of data frames *)

Lemma vm_inv_data K A s R D f m' T l :
  vm_inv K A (mkVm s R D) T l -> f ∈ D -> only_frame f (mem_of s) m' -> mem_ok m' ->
  vm_inv K A (mkVm (set_ph (set_ram m' (ph s)) s) R D) T l /\
  (forall r va, T !! r = Some O -> hw_walk m' 3 r va = hw_walk (mem_of s) 3 r va).
Proof.
  intros Hv Hf Hof Hok. pose proof (vi_mm _ _ _ _ _ Hv) as Hmm. cbn [vs] in Hmm.
  destruct (vi_data _ _ _ _ _ Hv f Hf) as (Hfv & HfT & Hfl).
  assert (He : forall t lv i, T !! t = Some lv -> 0 <= i < ENTRIES -> Mmu.entry m' t i = Mmu.entry (mem_of s) t i).
  { intros t lv i Ht Hi. apply entry_same_frame; [|done].
    apply (only_frame_other f); [done|done|by eapply table_valid|congruence]. }
  split; [|by apply (same_tables s T l m' Hmm)].
  eapply vm_inv_retag; [exact Hv|done| |exact He|done| |done]; cbn [ph set_ph ram set_ram].
  - eapply free_inv_only_frame; [apply Hmm|done|done|done|exact Hof].
  - intros x Hx. destruct (vi_data _ _ _ _ _ Hv x Hx) as (? & _ & ?). done.
Qed.

Lemma proc_wf_ext m m' p :
  (forall va, canonical va -> hw_walk m' 3 (p_ttbr0 p) va = hw_walk m 3 (p_ttbr0 p) va) -> proc_wf m p -> proc_wf m' p.
Proof.
  intros He [H1 H2 H3 H4 H5 H6 H7 H8].
  assert (Hm : forall va f perms, maps m (p_ttbr0 p) va f perms -> maps m' (p_ttbr0 p) va f perms)
    by (intros va f perms H va' ? ?; rewrite He by done; auto).
  assert (Hr : forall w va, reachable m p w va -> reachable m' p w va).
  { intros w va (? & va0 & f & perms & ? & ? & ? & ? & ?). split; [done|]. exists va0, f, perms. auto 6. }
  split; try done.
  - intros va f (? & perms & ? & ?)%H1. eauto.
  - intros va n e Hc. rewrite He by done. eauto.
  - auto.
  - eauto.
Qed.

Lemma reachable_read m p w va : reachable m p w va -> reachable m p false va.
Proof. intros (? & va0 & f & perms & ? & ? & ? & ? & ?). split; [done|]. exists va0, f, perms. by split_and!. Qed.

(** A span [in_ranges] accepts is covered by one of the ranges. *)
Lemma in_ranges_sound m p (rs : list Range) ptr len w :
  (forall r va, r ∈ rs -> start r <= va < end_ r -> reachable m p (writable r) va) ->
  in_ranges rs ptr (ptr + len) w = true ->
  forall va, ptr <= va < ptr + len -> reachable m p w va.
Proof.
  induction rs as [|r rs IH]; cbn [in_ranges]; [done|]. intros HP Hr va Hva.
  destruct (Z.leb_spec (start r) ptr), (Z.leb_spec (ptr + len) (end_ r)); cbn [andb] in Hr;
    try (apply IH; [intros r' va' Hr'; apply HP; by right|done|done]).
  assert (Hw : reachable m p (writable r) va) by (apply HP; [by left|lia]).
  destruct w; cbn in Hr; [by rewrite Hr in Hw|]. by eapply reachable_read.
Qed.

Section invariant.
Context (K A : gset Z).
Implicit Types (k : kernel).

Lemma ki_root k T l pid p :
  kbase K A k T l -> PROCESSES k !! pid = Some p -> alive p -> T !! p_ttbr0 p = Some O.
Proof.
  intros Hk Hp Ha. apply (vi_roots _ _ _ _ _ (ki_vm _ _ _ _ _ Hk)). right. apply elem_of_roots_of. eauto.
Qed.

Lemma kbase_mem k T l f m' :
  kbase K A k T l -> f ∈ data_of (PROCESSES k) -> only_frame f (kernel_mem k) m' -> mem_ok m' ->
  kbase K A (set_kernel_mem m' k) T l.
Proof.
  intros Hk Hf Hof Hok. pose proof (ki_vm _ _ _ _ _ Hk) as Hv.
  destruct (vm_inv_data _ _ _ _ _ _ _ _ _ Hv Hf Hof Hok) as [Hv' Hw].
  destruct Hk as [_ H2 H3 H4 H5 H6 H7 H8 H9 H10 H11 H12].
  split; [exact Hv'| | |done..].
  - intros va n e Hc. change (hw_walk m' 3 (KERNEL_TTBR0 (the_mmu k)) va = Some (n, e) -> el0_access e = false).
    rewrite Hw; [by apply H2|]. apply (vi_roots _ _ _ _ _ Hv). by left.
  - intros pid p Hp Ha. change (proc_wf m' p). eapply proc_wf_ext; [|by apply (H3 pid)].
    intros va _. apply Hw. apply (vi_roots _ _ _ _ _ Hv). right. apply elem_of_roots_of. eauto.
Qed.

Lemma kinv_mem k T l f m' :
  kinv K A k T l -> f ∈ data_of (PROCESSES k) -> only_frame f (kernel_mem k) m' -> mem_ok m' ->
  kinv K A (set_kernel_mem m' k) T l.
Proof. intros [Hb [R1 R2]] Hf Hof Hok. split; [by eapply kbase_mem|by split]. Qed.

(** ** Updates of the table *)

Lemma core_lookup (ps ps' : list Process) pid p :
  core <$> ps' = core <$> ps -> ps' !! pid = Some p -> exists q, ps !! pid = Some q /\ core q = core p.
Proof.
  intros He Hp. apply (f_equal (fun l => l !! pid)) in He. rewrite !list_lookup_fmap, Hp in He.
  destruct (ps !! pid) as [q|]; [|done]. injection He as H1 H2 H3 H4. exists q. split; [done|].
  unfold core. congruence.
Qed.

Lemma core_subset ps ps' :
  core <$> ps' = core <$> ps -> roots_of ps' ⊆ roots_of ps /\ data_of ps' ⊆ data_of ps.
Proof.
  intros He. split; intros x; rewrite ?elem_of_roots_of, ?elem_of_data_of.
  - intros (pid & p & Hp & Ha & <-). destruct (core_lookup _ _ _ _ He Hp) as (q & Hq & Hc).
    exists pid, q. split; [done|]. split; [by eapply core_alive|]. unfold core in Hc. congruence.
  - intros (pid & p & Hp & Hf). destruct (core_lookup _ _ _ _ He Hp) as (q & Hq & Hc).
    exists pid, q. split; [done|]. unfold core in Hc. injection Hc as _ _ Hc _. by rewrite Hc.
Qed.

Lemma core_sets ps ps' :
  core <$> ps' = core <$> ps -> roots_of ps' = roots_of ps /\ data_of ps' = data_of ps.
Proof.
  intros He. destruct (core_subset _ _ He) as [H1 H2]. destruct (core_subset _ _ (eq_sym He)) as [H3 H4].
  split; apply (anti_symm (⊆)); done.
Qed.

Lemma proc_wf_core m p q : core q = core p -> proc_wf m p -> proc_wf m q.
Proof.
  unfold core. intros [= E1 E2 E3 E4] [H1 H2 H3 H4 H5 H6 H7 H8].
  split; unfold reachable in *; rewrite ?E1, ?E2, ?E3, ?E4; done.
Qed.

Lemma task_ok_core ps ps' t : core <$> ps' = core <$> ps -> task_ok ps t -> task_ok ps' t.
Proof.
  intros He. unfold task_ok. destruct (process t) as [pid|]; [|done]. intros (p & Hp & Ha & Ht).
  destruct (core_lookup _ _ _ _ (eq_sym He) Hp) as (q & Hq & Hc). exists q. split; [done|].
  split; [by eapply core_alive|]. unfold core in Hc. congruence.
Qed.

(** Process fields outside the core, the console, the poller's index and the
    interrupt devices may change. *)
Lemma kbase_tables k T l ps c pl g tm :
  kbase K A k T l -> core <$> ps = core <$> PROCESSES k ->
  (forall pid p, ps !! pid = Some p -> refs_ok (length ps) (length (tasks (SCHEDULER (ks k)))) p) ->
  (forall t, pl = Some t -> (t < length (tasks (SCHEDULER (ks k))))%nat) -> cwf c ->
  kbase K A (mkKernel (ks k) ps c pl g tm) T l.
Proof.
  intros [H1 H2 H3 H4 H5 H6 H7 H8 H9 H10 H11 H12] He Hr Hpl Hc.
  destruct (core_sets _ _ He) as [ER ED]. split; cbn [PROCESSES ks poller kcon]; try done.
  - by rewrite ER, ED.
  - intros pid p Hp Ha. destruct (core_lookup _ _ _ _ He Hp) as (q & Hq & Hcq).
    eapply proc_wf_core; [|apply (H3 pid q Hq)]; [done|]. by eapply core_alive.
  - intros i j p q f Hp Hq Hf Hf'. destruct (core_lookup _ _ _ _ He Hp) as (p0 & Hp0 & Ep).
    destruct (core_lookup _ _ _ _ He Hq) as (q0 & Hq0 & Eq). unfold core in Ep, Eq.
    injection Ep as _ _ Ep _. injection Eq as _ _ Eq _. rewrite <-Ep in Hf. rewrite <-Eq in Hf'. eauto.
  - intros i j p q Hp Hq Hap Haq Ht. destruct (core_lookup _ _ _ _ He Hp) as (p0 & Hp0 & Ep).
    destruct (core_lookup _ _ _ _ He Hq) as (q0 & Hq0 & Eq).
    apply (H5 i j p0 q0); [done|done|by eapply core_alive|by eapply core_alive|].
    unfold core in Ep, Eq. congruence.
  - intros i t Ht Hs. eapply task_ok_core; [exact He|]. by apply (H7 i).
Qed.

Lemma kinv_tables k T l ps c pl g tm :
  kinv K A k T l -> core <$> ps = core <$> PROCESSES k ->
  (forall pid p, ps !! pid = Some p -> refs_ok (length ps) (length (tasks (SCHEDULER (ks k)))) p) ->
  (forall t, pl = Some t -> (t < length (tasks (SCHEDULER (ks k))))%nat) -> cwf c ->
  kinv K A (mkKernel (ks k) ps c pl g tm) T l.
Proof. intros [Hb [R1 R2]] He Hr Hpl Hc. split; [by apply kbase_tables|by split]. Qed.

(** ** Updates of the scheduler *)

(** Tasks keep their processes and spaces; exited ones stay exited. *)
Record tasks_step (ts ts' : list Task) : Prop := {
  ts_view : (fun t => (process t, ttbr0 t)) <$> ts' = (fun t => (process t, ttbr0 t)) <$> ts;
  ts_exit : forall i t t', ts !! i = Some t -> ts' !! i = Some t' -> state t = Exited -> state t' = Exited
}.

Lemma tasks_step_lookup ts ts' i t' :
  tasks_step ts ts' -> ts' !! i = Some t' ->
  exists t, ts !! i = Some t /\ process t = process t' /\ ttbr0 t = ttbr0 t' /\ (state t' <> Exited -> state t <> Exited).
Proof.
  intros [Hv He] Ht'. pose proof (f_equal (fun l => l !! i) Hv) as H. cbn beta in H.
  rewrite !list_lookup_fmap, Ht' in H. destruct (ts !! i) as [t|] eqn:E; [|done]. injection H as H1 H2.
  exists t. split_and!; [done..|]. intros Hn Hx. by apply Hn, (He i t).
Qed.

Lemma tasks_step_length ts ts' : tasks_step ts ts' -> length ts' = length ts.
Proof. intros [Hv _]. apply (f_equal length) in Hv. by rewrite !length_fmap in Hv. Qed.

Lemma kbase_sched k T l s' :
  kbase K A k T l ->
  vm_inv K A (mkVm (kmmu s') (roots_of (PROCESSES k)) (data_of (PROCESSES k))) T l ->
  mem_of (kmmu s') = kernel_mem k -> KERNEL_TTBR0 (kmmu s') = KERNEL_TTBR0 (the_mmu k) ->
  tasks_step (tasks (SCHEDULER (ks k))) (tasks (SCHEDULER s')) ->
  swf s' -> runnable_at (tasks (SCHEDULER s')) 0 = true ->
  kbase K A (set_ks s' k) T l.
Proof.
  intros [H1 H2 H3 H4 H5 H6 H7 H8 H9 H10 H11 H12] Hv Hm Hk Ht Hw Hi.
  pose proof (tasks_step_length _ _ Ht) as Hlen.
  split; unfold kernel_mem, the_mmu in *; cbn [ks PROCESSES kcon poller set_ks]; rewrite ?Hm, ?Hk, ?Hlen; try done.
  - intros i t' Ht' Hs. destruct (tasks_step_lookup _ _ _ _ Ht Ht') as (t & Hti & Hp & Htt & Hx).
    pose proof (H7 i t Hti (Hx Hs)) as Hok. unfold task_ok in *. by rewrite <-Hp, <-Htt.
  - intros i j t u pid Hti Huj Hst Hsu Hp Hq.
    destruct (tasks_step_lookup _ _ _ _ Ht Hti) as (t0 & Ht0 & Hp0 & _ & Hx0).
    destruct (tasks_step_lookup _ _ _ _ Ht Huj) as (u0 & Hu0 & Hq0 & _ & Hy0).
    apply (H8 i j t0 u0 pid); auto; congruence.
  - intros t' Ht'. destruct (tasks_step_lookup _ _ _ _ Ht Ht') as (t & Ht0 & <- & _). eauto.
Qed.

Lemma view_tasks_step ts ts' : view <$> ts' = view <$> ts -> tasks_step ts ts'.
Proof.
  intros Hv. assert (H : forall i t t', ts !! i = Some t -> ts' !! i = Some t' -> view t' = view t).
  { intros i t t' Ht Ht'. apply (f_equal (fun l => l !! i)) in Hv. rewrite !list_lookup_fmap, Ht, Ht' in Hv.
    injection Hv as E1 E2 E3 E4. unfold view. congruence. }
  split.
  - apply list_eq. intros i. apply (f_equal (fun l => l !! i)) in Hv. rewrite !list_lookup_fmap in *.
    destruct (ts !! i) eqn:E, (ts' !! i) eqn:E'; try done. cbn in *. injection Hv as _ _ -> ->. done.
  - intros i t t' Ht Ht' Hx. pose proof (H i t t' Ht Ht') as E. unfold view in E. congruence.
Qed.

Lemma tasks_step_trans ts1 ts2 ts3 : tasks_step ts1 ts2 -> tasks_step ts2 ts3 -> tasks_step ts1 ts3.
Proof.
  intros H1 H2. split; [by rewrite (ts_view _ _ H2), (ts_view _ _ H1)|]. intros i t t' Ht Ht' Hx.
  destruct (tasks_step_lookup _ _ _ _ H2 Ht') as (u & Hu & _).
  apply (ts_exit _ _ H2 i u t'); [done|done|]. by apply (ts_exit _ _ H1 i t u).
Qed.

(** The root a runnable task asks for is one of a live process. *)
Lemma task_root k T l i t r :
  kbase K A k T l -> tasks (SCHEDULER (ks k)) !! i = Some t -> state t <> Exited -> ttbr0 t = Some r ->
  r ∈ roots_of (PROCESSES k).
Proof.
  intros Hk Ht Hs Hr. pose proof (ki_tasks _ _ _ _ _ Hk i t Ht Hs) as Hok. unfold task_ok in Hok.
  destruct (process t) as [pid|]; [|congruence]. destruct Hok as (p & Hp & Ha & Hpr).
  apply elem_of_roots_of. exists pid, p. split_and!; [done..|]. congruence.
Qed.

Lemma activate_exec r s : activate r s = Ret (tt, exec (activate r) s).
Proof. done. Qed.

Lemma activate_fields r s s' :
  activate r s = Ret (tt, s') -> mem_of s' = mem_of s /\ KERNEL_TTBR0 s' = KERNEL_TTBR0 s.
Proof. intros [= <-]. by destruct (negb _). Qed.

(** [activate] of a root leaves it in TTBR0. *)
Lemma activate_installs s R D T l r s' :
  vm_inv K A (mkVm s R D) T l -> root_of (mkVm s R D) r -> activate r s = Ret (tt, s') -> ttbr0_el1 s' = r.
Proof.
  intros Hv Hr [= <-]. destruct (Z.eqb_spec (INSTALLED s) r) as [E|]; [|done].
  pose proof (table_valid _ _ _ _ _ (vi_mm _ _ _ _ _ Hv) (vi_roots _ _ _ _ _ Hv r Hr)) as Hf.
  pose proof (valid_frame_range _ Hf). destruct (vi_installed _ _ _ _ _ Hv) as [E'|E']; cbn [vs negb] in *; lia.
Qed.

(** Only the scheduler's part changed, and memory did not. *)
Definition switched (k k' : kernel) : Prop := k' = set_ks (ks k') k /\ kernel_mem k' = kernel_mem k.

(** From any state but for the running task, [schedule] establishes the invariant. *)
Lemma schedule_kinv k T l :
  kbase K A k T l ->
  (runnable_at (tasks (SCHEDULER (ks k))) (current (SCHEDULER (ks k))) = true -> running k) ->
  wp False (in_sched schedule) (fun _ k' => kinv K A k' T l /\ switched k k') k.
Proof.
  intros Hk Hrun. unfold in_sched. apply wp_zoom. destruct (ki_sched _ _ _ _ _ Hk) as [Hwf Hi].
  pose proof (schedule_spec (ks k) Hwf) as Hs. cbv zeta in Hs.
  eapply wp_mono; [apply (wp_eq False), Hs|]. clear Hs. intros [] s' (Hrunning & Hc & _ & H).
  pose proof (schedule_safe _ _ Hwf Hi Hrunning) as Hsafe. pose proof (safe_swf _ Hsafe) as Hwf'.
  destruct (schedule_views _ _ Hwf Hrunning) as [_ Hv%view_tasks_step].
  set (next := pick (SCHEDULER (ks k))) in *.
  destruct (decide (next = current (SCHEDULER (ks k)))) as [E|E].
  { subst s'. replace (set_ks (ks k) k) with k by (by destruct k). split; [split; [done|]|by destruct k]. apply Hrun, Hsafe. }
  destruct H as (t & Ht & [St _ _ Sm]).
  assert (Hst : state t = Runnable).
  { pose proof (sf_current _ Hsafe) as Hr. rewrite Hc, (runnable_at_view _ (tasks (SCHEDULER (ks k)))) in Hr
      by (by apply (schedule_views _ _ Hwf Hrunning)).
    unfold runnable_at in Hr. rewrite Ht in Hr. by apply bool_decide_eq_true in Hr. }
  pose proof (ki_vm _ _ _ _ _ Hk) as Hvm.
  assert (Hm : vm_inv K A (mkVm (kmmu s') (roots_of (PROCESSES k)) (data_of (PROCESSES k))) T l /\
    mem_of (kmmu s') = kernel_mem k /\ KERNEL_TTBR0 (kmmu s') = KERNEL_TTBR0 (the_mmu k) /\
    (forall r, ttbr0 t = Some r -> ttbr0_el1 (kmmu s') = r)).
  { rewrite Sm. destruct (ttbr0 t) as [r|] eqn:Er; [|done].
    pose proof (task_root k T l next t r Hk Ht ltac:(by rewrite Hst) Er) as Hr.
    change (kmmu (ks k)) with (the_mmu k). split_and!.
    - eapply activate_step; [exact Hvm|by right|]. apply activate_exec.
    - by apply (activate_fields r (the_mmu k)).
    - by apply (activate_fields r (the_mmu k)).
    - intros r' [= <-]. eapply activate_installs; [exact Hvm|by right|]. apply activate_exec. }
  destruct Hm as (Hm1 & Hm2 & Hm3 & Hm4). split; [split|done].
  - apply (kbase_sched k); [done..|apply Hsafe].
  - split; cbn [ks set_ks]; [apply Hsafe|]. intros t' r Ht' Hr. rewrite Hc in Ht'.
    destruct (tasks_step_lookup _ _ _ _ Hv Ht') as (u & Hu & _ & Hur & _). apply Hm4. congruence.
Qed.

(** ** Operations that stay with the same task *)

(** Processes and tasks are only added, their core and translations stay, and
    neither the running task nor the live address space changes. *)
Record kext (k k' : kernel) : Prop := {
  kx_procs : forall pid p, PROCESSES k !! pid = Some p -> exists p', PROCESSES k' !! pid = Some p' /\ core p' = core p;
  kx_current : current (SCHEDULER (ks k')) = current (SCHEDULER (ks k));
  kx_tasks : forall i t, tasks (SCHEDULER (ks k)) !! i = Some t ->
    exists t', tasks (SCHEDULER (ks k')) !! i = Some t' /\ process t' = process t /\ ttbr0 t' = ttbr0 t;
  kx_run : forall i, runnable_at (tasks (SCHEDULER (ks k))) i = true -> runnable_at (tasks (SCHEDULER (ks k'))) i = true;
  kx_live : ttbr0_el1 (the_mmu k') = ttbr0_el1 (the_mmu k);
  kx_kroot : KERNEL_TTBR0 (the_mmu k') = KERNEL_TTBR0 (the_mmu k);
  kx_gic : kgic k' = kgic k;
  kx_walk : forall pid p va, PROCESSES k !! pid = Some p -> alive p -> canonical va ->
    hw_walk (kernel_mem k') 3 (p_ttbr0 p) va = hw_walk (kernel_mem k) 3 (p_ttbr0 p) va
}.

#[export] Instance kext_preorder : PreOrder kext.
Proof.
  split.
  - intros k. split; eauto.
  - intros k1 k2 k3 [P1 C1 T1 U1 L1 R1 G1 W1] [P2 C2 T2 U2 L2 R2 G2 W2]. split.
    + intros pid p (q & Hq & E1)%P1. destruct (P2 _ _ Hq) as (q' & ? & ?). exists q'. split; [done|congruence].
    + congruence.
    + intros i t (u & Hu & ? & ?)%T1. destruct (T2 _ _ Hu) as (u' & ? & ? & ?). exists u'. split; [done|]. split; congruence.
    + auto.
    + congruence.
    + congruence.
    + congruence.
    + intros pid p va Hp Ha Hva. rewrite <-(W1 pid) by done. destruct (P1 _ _ Hp) as (q & Hq & Hc).
      pose proof (core_alive _ _ (eq_sym Hc) Ha) as Ha'. unfold core in Hc. injection Hc as Hr _ _ _. rewrite <-Hr.
      by apply (W2 pid).
Qed.

Definition good (k k' : kernel) : Prop := Kbase K A k' /\ kext k k'.

Lemma kext_running k k' : running k -> kext k k' -> running k'.
Proof.
  intros [R1 R2] Hx. split; rewrite (kx_current _ _ Hx); [by apply (kx_run _ _ Hx)|].
  intros t' r Ht' Hr. unfold runnable_at in R1. destruct (tasks (SCHEDULER (ks k)) !! _) as [t|] eqn:Ht; [|done].
  destruct (kx_tasks _ _ Hx _ _ Ht) as (u & Hu & _ & Hur). rewrite (kx_live _ _ Hx). apply (R2 t r); congruence.
Qed.

Lemma good_Kinv k k' : running k -> good k k' -> Kinv K A k'.
Proof. intros Hr [Hk Hx]. apply Kinv_split. split; [done|]. by eapply kext_running. Qed.

(** Sequencing of such operations. *)
Lemma good_bind {B C} pan (m : M kernel B) (f : B -> M kernel C) (Q : B -> kernel -> Prop) (P : C -> kernel -> Prop) k :
  wp pan m (fun a k1 => good k k1 /\ Q a k1) k ->
  (forall a k1, Kbase K A k1 -> kext k k1 -> Q a k1 -> wp pan (f a) (fun b k2 => good k1 k2 /\ P b k2) k1) ->
  wp pan (bindM m f) (fun b k2 => good k k2 /\ P b k2) k.
Proof.
  intros Hm Hf. apply wp_bind. eapply wp_mono; [exact Hm|]. intros a k1 [[Hk1 Hx1] HQ].
  eapply wp_mono; [by apply Hf|]. intros b k2 [[Hk2 Hx2] HP]. split; [|done]. split; [done|]. by etransitivity.
Qed.

(** One task changes, keeping its process. *)
Definition with_task (f : Task -> Task) (i : nat) (k : kernel) : kernel :=
  set_ks (set_sched (alter_task f i (SCHEDULER (ks k))) (ks k)) k.

(** [f] keeps the process and space of [t], and does not revive it. *)
Definition keeps (f : Task -> Task) (t : Task) : Prop :=
  process (f t) = process t /\ ttbr0 (f t) = ttbr0 t /\ (state t = Exited -> state (f t) = Exited).

Lemma alter_tasks_step f i (ts : list Task) :
  (forall t, ts !! i = Some t -> keeps f t) -> tasks_step ts (alter f i ts).
Proof.
  intros Hf. split.
  - apply list_eq. intros j. rewrite !list_lookup_fmap. destruct (decide (i = j)) as [->|Hne].
    + rewrite list_lookup_alter_eq. destruct (ts !! j) as [t|]; [|done]. cbn.
      destruct (Hf t eq_refl) as (-> & -> & _). done.
    + by rewrite list_lookup_alter_ne.
  - intros j t t' Ht Ht' Hx. destruct (decide (i = j)) as [->|Hne].
    + rewrite list_lookup_alter_eq, Ht in Ht'. injection Ht' as <-. by apply Hf.
    + rewrite list_lookup_alter_ne in Ht' by done. congruence.
Qed.

Lemma kbase_task k T l f i :
  kbase K A k T l -> (forall t, tasks (SCHEDULER (ks k)) !! i = Some t -> keeps f t) ->
  (i = O -> forall t, state t = Runnable -> state (f t) = Runnable) ->
  kbase K A (with_task f i k) T l.
Proof.
  intros Hk Hf H0. pose proof (ki_sched _ _ _ _ _ Hk) as [Hwf Hi].
  apply (kbase_sched k); [done|apply Hk|done|done|by apply alter_tasks_step| |].
  - unfold swf in *. cbn. by rewrite length_alter.
  - cbn. destruct (decide (i = O)) as [->|Hne]; [|by rewrite runnable_alter_ne].
    apply alter_runnable; [by apply H0|done].
Qed.

Lemma update_task_kernel pan f i k :
  (i < length (tasks (SCHEDULER (ks k))))%nat ->
  wp pan (in_sched (update_task i f)) (fun _ k' => k' = with_task f i k) k.
Proof.
  intros Hi. unfold in_sched. apply wp_zoom, (wp_pan False); [done|].
  eapply wp_mono; [by apply update_task_spec|]. by intros [] s' ->.
Qed.

(** Blocking, sleeping and exiting. *)
Lemma leave_kinv k T l f :
  kbase K A (with_task f (current (SCHEDULER (ks k))) k) T l -> (forall t, state (f t) <> Runnable) ->
  (current (SCHEDULER (ks k)) < length (tasks (SCHEDULER (ks k))))%nat ->
  wp False (in_sched (update_task (current (SCHEDULER (ks k))) f ;;; schedule))
    (fun _ k' => kinv K A k' T l /\ switched k k') k.
Proof.
  intros Hk Hf Hc. unfold in_sched. apply wp_zoom. wp_step.
  eapply wp_mono; [by apply update_task_spec|]. intros [] s1 ->.
  pose proof (schedule_kinv _ _ _ Hk) as H. unfold in_sched, wp, zoomM in H. unfold wp.
  cbn [ks with_task set_ks] in H.
  assert (Hnr : forall P : Prop, runnable_at (tasks (alter_task f (current (SCHEDULER (ks k))) (SCHEDULER (ks k))))
    (current (SCHEDULER (ks k))) = true -> P).
  { intros P. unfold runnable_at. cbn [alter_task tasks].
    rewrite list_lookup_alter_eq. destruct (tasks _ !! _) as [t|]; [|done]. cbn.
    intros Hr%bool_decide_eq_true. by destruct (Hf t). }
  specialize (H (Hnr _)). by destruct (schedule _) as [[[] s2]|].
Qed.

Lemma running_task k : running k -> exists t, tasks (SCHEDULER (ks k)) !! current (SCHEDULER (ks k)) = Some t /\ state t = Runnable.
Proof.
  intros [Hr _]. unfold runnable_at in Hr. destruct (_ !! _) as [t|]; [|done].
  exists t. split; [done|]. by apply bool_decide_eq_true in Hr.
Qed.

Lemma block_kinv k T l :
  kinv K A k T l -> current (SCHEDULER (ks k)) <> O ->
  wp False (in_sched block_current) (fun _ k' => kinv K A k' T l /\ switched k k') k.
Proof.
  intros Hk Hne. apply (leave_kinv k T l (fun t => set_state Blocked (set_wake_at U64_MAX t))); [|done|].
  - apply kbase_task; [apply Hk| |done]. destruct (running_task _ (ki_running _ _ _ _ _ Hk)) as (t & Ht & Hs).
    intros t' Ht'. replace t' with t by congruence. split_and!; [done..|]. congruence.
  - apply (ki_sched _ _ _ _ _ (ki_base _ _ _ _ _ Hk)).
Qed.

Lemma yield_kinv k T l :
  kinv K A k T l ->
  wp False (in_sched yield_now) (fun _ k' => kinv K A k' T l /\ switched k k') k.
Proof. intros [Hb Hr]. by apply schedule_kinv. Qed.

(** The timer interrupt: count, wake the due, schedule. *)
Lemma count_tick_kinv k T l : kinv K A k T l -> wp False (in_sched count_tick) (fun _ k' => kinv K A k' T l /\ switched k k') k.
Proof.
  intros [Hb [R1 R2]]. pose proof (ki_sched _ _ _ _ _ Hb) as [Hwf Hi]. unfold in_sched, count_tick. wp_steps.
  split; [|done]. split; [|by split]. apply (kbase_sched k); try done; [apply Hb|by apply view_tasks_step].
Qed.

Lemma wake_due_keeps now t : keeps (wake_due now) t.
Proof. unfold keeps, wake_due. destruct (state t) eqn:E, (wake_at t <=? now); cbn; rewrite ?E; done. Qed.

Lemma fmap_tasks_step f (ts : list Task) : (forall t, keeps f t) -> tasks_step ts (f <$> ts).
Proof.
  intros Hf. split.
  - rewrite <-list_fmap_compose. apply list_fmap_ext. intros i t _. cbn. destruct (Hf t) as (-> & -> & _). done.
  - intros i t t' Ht Ht'. rewrite list_lookup_fmap, Ht in Ht'. injection Ht' as <-. apply Hf.
Qed.

Lemma tick_kinv k T l :
  kinv K A k T l -> wp False (in_sched tick) (fun _ k' => kinv K A k' T l /\ switched k k') k.
Proof.
  intros [Hb [R1 R2]]. pose proof (ki_sched _ _ _ _ _ Hb) as [Hwf Hi]. unfold in_sched. apply wp_zoom.
  unfold tick, wake_sleepers. wp_steps.
  set (s1 := set_sched _ _).
  assert (Hstep : tasks_step (tasks (SCHEDULER (ks k))) (tasks (SCHEDULER s1)))
    by (apply fmap_tasks_step, wake_due_keeps).
  assert (Hk1 : kbase K A (set_ks s1 k) T l).
  { apply (kbase_sched k); [done|apply Hb|done|done|done| |].
    - unfold swf in *. cbn. by rewrite length_fmap.
    - apply fmap_runnable; [apply wake_due_runnable|done]. }
  pose proof (schedule_kinv _ _ _ Hk1) as H. unfold in_sched, wp, zoomM in H. unfold wp. cbn [ks set_ks] in H.
  assert (Hr1 : running (set_ks s1 k)).
  { split; [apply fmap_runnable; [apply wake_due_runnable|done]|]. cbn [ks set_ks]. intros t' r Ht' Hr.
    destruct (tasks_step_lookup _ _ _ _ Hstep Ht') as (t & Ht & _ & Htr & _). apply (R2 t r); [done|congruence]. }
  specialize (H (fun _ => Hr1)). by destruct (schedule s1) as [[[] s2]|].
Qed.

Lemma good_refl k : Kbase K A k -> good k k.
Proof. intros. split; [done|reflexivity]. Qed.

(** The console, as long as it stays well formed. *)
Lemma good_con {B} pan (m : M console B) (Q : B -> console -> Prop) k :
  Kbase K A k -> (forall c, cwf c -> c = kcon k -> wp pan m (fun a c' => cwf c' /\ Q a c') c) ->
  wp pan (in_con m) (fun a k' => good k k' /\ k' = set_con (kcon k') k /\ Q a (kcon k')) k.
Proof.
  intros (T & l & Hk) Hm. unfold in_con. apply wp_zoom. eapply wp_mono; [apply Hm; [apply Hk|done]|].
  intros a c' [Hc HQ]. split; [|by split]. split.
  - exists T, l. apply (kbase_tables k); try done; apply Hk.
  - split; eauto.
Qed.

(** A store into a frame some process owns. *)
Lemma good_mem pan m' f k :
  Kbase K A k -> f ∈ data_of (PROCESSES k) -> only_frame f (kernel_mem k) m' -> mem_ok m' ->
  wp pan (modifyM (set_kernel_mem m')) (fun _ k' => good k k' /\ k' = set_kernel_mem m' k) k.
Proof.
  intros (T & l & Hk) Hf Hof Hok. apply wp_modify. split; [|done]. split.
  - exists T, l. by eapply kbase_mem.
  - split; eauto. intros pid p va Hp Ha _. pose proof (ki_vm _ _ _ _ _ Hk) as Hv.
    destruct (vm_inv_data _ _ _ _ _ _ _ _ _ Hv Hf Hof Hok) as [_ Hw]. apply Hw. eapply ki_root; [exact Hk|done|done].
Qed.

(** Fields of a process outside its core. *)
Lemma good_update pan pid (f : Process -> Process) p k :
  Kbase K A k -> PROCESSES k !! pid = Some p -> core (f p) = core p ->
  (forall n m, refs_ok n m p -> m = length (tasks (SCHEDULER (ks k))) -> n = length (PROCESSES k) -> refs_ok n m (f p)) ->
  wp pan (update_proc pid f) (fun _ k' => good k k' /\
    k' = set_procs (<[pid := f p]> (PROCESSES k)) k) k.
Proof.
  intros (T & l & Hk) Hp Hc Hr. unfold update_proc, proc. wp_steps. rewrite Hp. wp_steps.
  assert (Ea : alter f pid (PROCESSES k) = <[pid := f p]> (PROCESSES k)).
  { apply list_eq. intros i. destruct (decide (i = pid)) as [->|Hi].
    - rewrite list_lookup_alter_eq, Hp, list_lookup_insert_eq; [done|]. by eapply lookup_lt_Some.
    - by rewrite list_lookup_alter_ne, list_lookup_insert_ne. }
  rewrite Ea. assert (Ec : core <$> <[pid := f p]> (PROCESSES k) = core <$> PROCESSES k).
  { rewrite list_fmap_insert, Hc. apply list_insert_id. by rewrite list_lookup_fmap, Hp. }
  split; [|done]. split.
  - exists T, l. apply (kbase_tables k); [done|done| |apply Hk|apply Hk].
    intros i q Hq. rewrite length_insert. destruct (decide (i = pid)) as [->|Hi].
    + rewrite list_lookup_insert_eq in Hq by (by eapply lookup_lt_Some). injection Hq as <-.
      apply Hr; [|done|done]. by apply (ki_refs _ _ _ _ _ Hk pid).
    + rewrite list_lookup_insert_ne in Hq by done. by apply (ki_refs _ _ _ _ _ Hk i).
  - split; eauto. intros i q Hq. change (exists p', <[pid := f p]> (PROCESSES k) !! i = Some p' /\ core p' = core q).
    destruct (core_lookup _ _ _ _ (eq_sym Ec) Hq) as (q' & ? & ?). eauto.
Qed.

Lemma wake_keeps t : keeps wake_task t.
Proof. unfold keeps, wake_task. destruct (state t) eqn:E; cbn; rewrite ?E; done. Qed.

Lemma wake_good pan i k :
  Kbase K A k -> (i < length (tasks (SCHEDULER (ks k))))%nat ->
  wp pan (in_sched (wake i)) (fun _ k' => good k k' /\ PROCESSES k' = PROCESSES k) k.
Proof.
  intros (T & l & Hb) Hi. eapply wp_mono; [by apply update_task_kernel|]. intros [] k' ->.
  split; [|done]. split.
  - exists T, l. apply kbase_task; [done|by intros; apply wake_keeps|by intros; apply wake_task_runnable].
  - split; [eauto|done| |by intros; apply alter_runnable; [apply wake_task_runnable|]|done..]. intros j t Ht.
    change (exists t', alter wake_task i (tasks (SCHEDULER (ks k))) !! j = Some t' /\ process t' = process t /\ ttbr0 t' = ttbr0 t).
    destruct (decide (i = j)) as [->|Hne].
    + rewrite list_lookup_alter_eq, Ht. exists (wake_task t). destruct (wake_keeps t) as (? & ? & _). done.
    + rewrite list_lookup_alter_ne by done. eauto.
Qed.

(** ** Reading the table *)

Lemma proc_reads pan pid p k : PROCESSES k !! pid = Some p -> wp pan (proc pid) (fun q k' => q = p /\ k' = k) k.
Proof. intros Hp. unfold proc. wp_steps. rewrite Hp. by wp_steps. Qed.

Lemma ring_pa_reads pan pid p k :
  PROCESSES k !! pid = Some p -> wp pan (ring_pa pid) (fun v k' => v = p_ring_pa p /\ k' = k) k.
Proof.
  intros Hp. unfold ring_pa. wp_step. eapply wp_mono; [by apply proc_reads|]. intros q k' [-> ->]. by wp_steps.
Qed.

Lemma proc_ttbr0_reads pan pid p k :
  PROCESSES k !! pid = Some p -> wp pan (proc_ttbr0 pid) (fun v k' => v = p_ttbr0 p /\ k' = k) k.
Proof.
  intros Hp. unfold proc_ttbr0. wp_step. eapply wp_mono; [by apply proc_reads|]. intros q k' [-> ->]. by wp_steps.
Qed.

(** [is_user_range] reads only. *)
Lemma is_user_range_reads pan pid p ptr len w k :
  Kbase K A k -> PROCESSES k !! pid = Some p -> alive p -> 0 <= ptr -> 0 <= len ->
  wp pan (is_user_range pid ptr len w) (fun b k' => k' = k /\
    (b = true -> ptr + len < 2 ^ 64 /\
       forall va, ptr <= va < ptr + len -> reachable (kernel_mem k) p w va)) k.
Proof.
  intros (T & l & Hk) Hp Ha Hptr Hlen. pose proof (ki_procs _ _ _ _ _ Hk pid p Hp Ha) as Hw.
  unfold is_user_range, checked_add. destruct (Z.ltb_spec (ptr + len) (2 ^ 64)); [|by wp_steps].
  destruct (Z.leb_spec USER_STACK_VA ptr), (Z.leb_spec (ptr + len) (USER_STACK_VA + USER_STACK_SIZE)); cbn [andb].
  1: { wp_steps. split; [done|]. intros _. split; [done|]. intros va Hva.
       assert (Hr : reachable (kernel_mem k) p true va) by (apply (pw_stack _ _ Hw); lia).
       destruct w; [done|]. by eapply reachable_read. }
  all: wp_step; eapply wp_mono; [by apply proc_reads|]; intros q k' [-> ->]; wp_step;
    apply wp_assert; [|intros Hf; apply Nat.leb_gt in Hf; pose proof (pw_count _ _ Hw); lia];
    intros _; wp_steps; (split; [done|]); intros Hr; (split; [done|]);
    by apply (in_ranges_sound _ _ (take (Elf.count (p_loaded p)) (ranges (p_loaded p)))); [apply Hw|].
Qed.
End invariant.
