(* ===== verification/KernelRing.v ===== *)
(** * The ring operations and the kernel invariant

    Every operation of ring.rs keeps the invariant of KernelInv, whatever a program
    wrote to its ring page, and none of them but [OP_SPAWN] can panic while the
    submitting process's address space is live. *)

From Stdlib Require Import ZArith Lia.
From stdpp Require Import base numbers gmap list list_relations.
From S2P Require Import Prelude Memory Abi Frames Mmu PageTables AddressSpaces Reclaim Ownership.
From S2P Require Import VirtualMemory Isolation Sched Console Elf Loader Devices Process Text Ring KernelInv.

(** ** Memory *)

Lemma only_frame_store n f o m v :
  valid_frame f -> 0 <= o -> o + Z.of_nat n <= 4096 -> only_frame f m (store n m (f + o) v).
Proof. intros Hf Ho Hn a Ha. apply read8_store_ne. unfold FRAME_SIZE in *. lia. Qed.

(** A 4 KiB descriptor's output address. *)
Lemma hw_pa_page e va : hw_pa O e va = next_table e + va mod 4096.
Proof. reflexivity. Qed.

Lemma writable_access e : el0_writable e = true -> el0_access e = true.
Proof. unfold el0_writable, el0_access, el0_readable. by destruct (Z.testbit e 6). Qed.

Lemma user_data_range k T l K A a : kbase K A k T l -> 0 <= read64 (kernel_mem k) a < 2 ^ 64.
Proof. intros Hk. apply read64_range, (mi_pool _ _ _ (vi_mm _ _ _ _ _ (ki_vm _ _ _ _ _ Hk))). Qed.

Section ring.
Context (K A : gset Z).
Implicit Types (k : kernel) (pan : Prop).
Abbreviation Kbase := (Kbase K A).
Abbreviation good := (good K A).

Lemma kinv_mem_ok k : Kbase k -> mem_ok (kernel_mem k).
Proof. intros (T & l & Hk). apply (mi_pool _ _ _ (vi_mm _ _ _ _ _ (ki_vm _ _ _ _ _ Hk))). Qed.

Lemma data_valid k f : Kbase k -> f ∈ data_of (PROCESSES k) -> valid_frame f.
Proof. intros (T & l & Hk) Hf. by apply (vi_data _ _ _ _ _ (ki_vm _ _ _ _ _ Hk)). Qed.

(** The ring page of a process is a frame it owns. *)
Lemma ring_data k pid p :
  Kbase k -> PROCESSES k !! pid = Some p -> p_ring_pa p <> 0 ->
  alive p /\ p_ring_pa p ∈ data_of (PROCESSES k).
Proof.
  intros (T & l & Hk) Hp Hr. destruct (decide (alive p)) as [Ha|Ha].
  - split; [done|]. destruct (pw_ring _ _ (ki_procs _ _ _ _ _ Hk pid p Hp Ha)) as [[? _]|Hin]; [done|].
    apply elem_of_data_of. exists pid, p. split; [done|]. apply list_elem_of_fmap. by exists (USER_RING_VA, p_ring_pa p).
  - destruct (rf_husk _ _ _ (ki_refs _ _ _ _ _ Hk pid p Hp) Ha). done.
Qed.

(** A store into a ring page. *)
Lemma store_good pan n page o v k :
  Kbase k -> page ∈ data_of (PROCESSES k) -> 0 <= o -> o + Z.of_nat n <= 4096 ->
  wp pan (modifyM (fun k => set_kernel_mem (store n (kernel_mem k) (page + o) v) k))
    (fun _ k' => good k k' /\ k' = set_kernel_mem (store n (kernel_mem k) (page + o) v) k) k.
Proof.
  intros Hk Hd Ho Hn. apply wp_modify.
  pose proof (good_mem K A pan (store n (kernel_mem k) (page + o) v) page k Hk Hd) as H. apply H.
  - apply only_frame_store; [by eapply data_valid|done|done].
  - by apply mem_ok_store, kinv_mem_ok.
Qed.

Lemma slot_range i : 0 <= slot i < 16.
Proof. unfold slot, RING_MASK, RING_ENTRIES. change (16 - 1) with (Z.ones 4). rewrite Z.land_ones by lia. change (2 ^ 4) with 16. zlia. Qed.

Lemma write_str_good pan s k :
  Kbase k -> wp pan (in_con (write_str s)) (fun _ k' => good k k' /\ k' = set_con (kcon k') k) k.
Proof.
  intros Hk. eapply wp_mono.
  { apply (good_con K A pan _ (fun _ _ => True) k Hk). intros c Hc _. apply (wp_pan False); [done|].
    eapply wp_mono; [apply write_str_spec|]. intros [] c' (_ & Hrx & _ & Hin). split; [|done].
    split; rewrite ?Hin, ?Hrx; apply Hc. }
  by intros [] k' (? & ? & _).
Qed.

Lemma say_good pan s k : Kbase k -> wp pan (say s) (fun _ k' => good k k' /\ k' = set_con (kcon k') k) k.
Proof. intros Hk. by apply write_str_good. Qed.

Lemma kext_page k k' pid p :
  kext k k' -> PROCESSES k !! pid = Some p -> exists p', PROCESSES k' !! pid = Some p' /\ core p' = core p.
Proof. intros Hx. apply (kx_procs _ _ Hx). Qed.

Lemma reachable_ext k k' pid p p' w va :
  kext k k' -> PROCESSES k !! pid = Some p -> alive p -> core p' = core p ->
  reachable (kernel_mem k) p w va -> reachable (kernel_mem k') p' w va.
Proof.
  intros Hx Hp Ha Hc (Hva & va0 & f & perms & Hin & He & Hu & Hm & Hw). unfold core in Hc.
  injection Hc as Hr _ Hf _. split; [done|]. exists va0, f, perms. rewrite Hf, Hr. split_and!; try done.
  intros va' H1 H2. rewrite (kx_walk _ _ Hx pid) by done. by apply Hm.
Qed.

(** Completions go to a frame some process owns. *)
Lemma complete_good pan page ud res k :
  Kbase k -> page ∈ data_of (PROCESSES k) ->
  wp pan (complete page ud res) (fun _ k' => good k k' /\ PROCESSES k' = PROCESSES k) k.
Proof.
  intros Hk Hd. unfold complete, ld32. wp_steps. destruct (RING_ENTRIES <=? _).
  { eapply wp_mono; [by apply say_good|]. intros [] k' [? E]. split; [done|]. by rewrite E. }
  set (tail := read32 _ _). pose proof (slot_range tail) as Hs.
  assert (Hcqe : cqe_at page tail = page + (CQ + CQE_SIZE * slot tail)) by (unfold cqe_at; lia).
  rewrite Hcqe, <-Z.add_assoc. unfold st64, st32, write64, write32.
  eapply (good_bind K A pan _ _ (fun _ k' => PROCESSES k' = PROCESSES k)).
  { eapply wp_mono; [apply store_good; [done|done|unfold CQ, CQE_SIZE; lia..]|]. by intros [] k' [? ->]. }
  intros [] k1 Hk1 _ E1. eapply (good_bind K A pan _ _ (fun _ k' => PROCESSES k' = PROCESSES k)).
  { eapply wp_mono; [apply store_good; [done|by rewrite E1|unfold CQ, CQE_SIZE; lia..]|].
    intros [] k' [? ->]. split; [done|exact E1]. }
  intros [] k2 Hk2 _ E2. eapply wp_mono; [apply store_good; [done|by rewrite E2|unfold CQ_TAIL; lia..]|].
  intros [] k' [? ->]. split; [done|exact E2].
Qed.

(** ** User memory *)

(** Under its own address space, a process's reachable bytes load and, if
    writable, store. *)
Lemma reachable_walk m p w va :
  reachable m p w va -> exists f perms, user_perms perms /\ mmu_walk m (p_ttbr0 p) va = Some (O, Z.lor f perms) /\
    f ∈ (p_frames p).*2 /\ (w = true -> perms = PAGE_USER_RW).
Proof.
  intros (Hva & va0 & f & perms & Hin & _ & Hu & Hm & Hw). exists f, perms.
  assert (Hc : canonical va) by (unfold canonical; lia).
  split_and!; [done|by rewrite mmu_walk_canonical, Hm| |done]. apply list_elem_of_fmap. by exists (va0, f).
Qed.

Definition owns_live (k : kernel) (p : Process) : Prop := ttbr0_el1 (the_mmu k) = p_ttbr0 p.

Lemma live_root k : Kbase k -> live_l0 (the_mmu k) = ttbr0_el1 (the_mmu k).
Proof.
  intros (T & l & Hk). pose proof (ki_vm _ _ _ _ _ Hk) as Hv. apply l0_ptr_root.
  eapply table_valid; [apply (vi_mm _ _ _ _ _ Hv)|]. apply (vi_roots _ _ _ _ _ Hv), (vi_live _ _ _ _ _ Hv).
Qed.

Lemma user_bytes_good pan n ptr p k :
  Kbase k -> (~ owns_live k p -> pan) ->
  (forall va, ptr <= va < ptr + Z.of_nat n -> reachable (kernel_mem k) p false va) ->
  wp pan (user_bytes n ptr) (fun bs k' => k' = k /\ length bs = n) k.
Proof.
  intros Hk Hpan. revert ptr. induction n as [|n IH]; intros ptr Hr; cbn [user_bytes]; [by wp_steps|]. wp_steps.
  rewrite live_root by done. apply wp_expect.
  - intros b _. wp_step. eapply wp_mono; [apply IH; intros va Hva; apply Hr; lia|].
    intros bs k' [-> <-]. by wp_steps.
  - intros Hn. apply Hpan. intros Ho. unfold owns_live in Ho. rewrite Ho in Hn.
    destruct (reachable_walk _ _ _ _ (Hr ptr ltac:(lia))) as (f & perms & _ & Hw & _).
    unfold el1_load in Hn. by rewrite Hw in Hn.
Qed.

(** A store with EL0's rights only ever hits a frame of some process. *)
Lemma el0_store_data k va b m' :
  Kbase k -> el0_store (kernel_mem k) (ttbr0_el1 (the_mmu k)) va b = Some m' ->
  exists f, f ∈ data_of (PROCESSES k) /\ m' = write8 (kernel_mem k) (f + va mod 4096) b.
Proof.
  intros (T & l & Hk) Hs. pose proof (ki_vm _ _ _ _ _ Hk) as Hv. unfold el0_store, mmu_walk in Hs.
  destruct (Z.leb_spec 0 va), (Z.ltb_spec va (2 ^ 48)); cbn [andb] in Hs; try done.
  destruct (hw_walk _ _ _ _) as [[n e]|] eqn:Hw; [|done]. destruct (el0_writable e) eqn:He; [|done].
  injection Hs as <-.
  destruct (vi_el0 _ _ _ _ _ Hv _ va n e (vi_live _ _ _ _ _ Hv) ltac:(split; lia) Hw (writable_access _ He)) as [-> Hd].
  exists (next_table e). by rewrite hw_pa_page.
Qed.

(** Only memory changed. *)
Definition quiet (k k' : kernel) : Prop := PROCESSES k' = PROCESSES k /\ kcon k' = kcon k.

Lemma sttrb_good pan va b pid p k :
  Kbase k -> PROCESSES k !! pid = Some p -> (~ owns_live k p -> pan) -> reachable (kernel_mem k) p true va ->
  wp pan (sttrb va b) (fun _ k' => good k k' /\ quiet k k') k.
Proof.
  intros Hk Hpid Hpan Hr. unfold sttrb. wp_steps. rewrite live_root by done. apply wp_expect.
  - intros m' Hm. destruct (el0_store_data _ _ _ _ Hk Hm) as (f & Hf & ->).
    eapply wp_mono; [apply (good_mem K A pan _ f); [done|done| |by apply mem_ok_write8, kinv_mem_ok]|].
    + intros a Ha. apply read8_write8_ne. unfold FRAME_SIZE in *. zlia.
    + by intros [] k' [? ->].
  - intros Hn. apply Hpan. intros Ho. unfold owns_live in Ho. rewrite Ho in Hn.
    destruct (reachable_walk _ _ _ _ Hr) as (f & perms & _ & Hw & Hf & Hp). unfold el0_store in Hn.
    rewrite Hw, (Hp eq_refl) in Hn. unfold el0_writable in Hn.
    assert (Hfv : valid_frame f) by (eapply data_valid; [done|]; apply elem_of_data_of; eauto).
    by rewrite !testbit_page in Hn by (done || lia).
Qed.

(** Validated copies. The space must be the process's own for the copy not to
    fault, or to fault is excused. *)
Lemma copy_bytes_good pan pid p dst i src k :
  Kbase k -> PROCESSES k !! pid = Some p -> alive p -> (~ owns_live k p -> pan) ->
  dst + i + Z.of_nat (length src) < 2 ^ 64 ->
  (forall va, dst + i <= va < dst + i + Z.of_nat (length src) -> reachable (kernel_mem k) p true va) ->
  wp pan (copy_bytes dst i src) (fun _ k' => good k k' /\ quiet k k') k.
Proof.
  revert i k. induction src as [|b src IH]; intros i k Hk Hp Ha Hpan Hov Hr; cbn [copy_bytes length] in *.
  { wp_steps. split; [by apply good_refl|done]. }
  wp_step. apply wp_add; [lia|]. eapply (good_bind K A pan _ _ (fun _ k' => quiet k k')).
  { eapply sttrb_good; [done|exact Hp|done|]. apply Hr. lia. }
  intros [] k1 Hk1 Hx [E Ec]. eapply wp_mono; [apply IH; try done|].
  - by rewrite E.
  - unfold owns_live in *. by rewrite (kx_live _ _ Hx).
  - lia.
  - intros va Hva. eapply reachable_ext; [exact Hx|exact Hp|done|done|]. apply Hr. lia.
  - intros [] k' [? [E' Ec']]. split; [done|split; congruence].
Qed.

Lemma copy_to_user_good pan pid p dst src k :
  Kbase k -> PROCESSES k !! pid = Some p -> alive p -> (~ owns_live k p -> pan) -> 0 <= dst ->
  wp pan (copy_to_user pid dst src) (fun _ k' => good k k' /\ quiet k k') k.
Proof.
  intros Hk Hp Ha Hpan Hd. unfold copy_to_user. wp_step.
  eapply wp_mono; [by apply (is_user_range_reads K A pan pid p); [..|lia]|].
  intros [] k' [-> Hr]; cbn [negb]; [|wp_steps; split; [by apply good_refl|done]].
  destruct (Hr eq_refl) as [Hov Hre]. eapply (good_bind K A pan _ _ (fun _ k' => quiet k k')).
  { eapply copy_bytes_good; [done|exact Hp|done|done|lia|]. intros va Hva. apply Hre. lia. }
  intros [] k1 Hk1 _ E. wp_steps. split; [by apply good_refl|done].
Qed.

(** ** Input *)

Lemma pop_good pan k :
  Kbase k -> wp pan (in_con input_pop) (fun o k' => good k k' /\ PROCESSES k' = PROCESSES k /\
    match o with
    | Some b => Console.count (INPUT (kcon k)) = S (Console.count (INPUT (kcon k')))
    | None => True
    end) k.
Proof.
  intros Hk. eapply wp_mono.
  { apply (good_con K A pan _ (fun o c' => match o with
      | Some b => Console.count (INPUT (kcon k)) = S (Console.count (INPUT c')) | None => True end) k Hk).
    intros c Hc ->. apply (wp_pan False); [done|]. eapply wp_mono; [by apply input_pop_spec|].
    intros o c' (Hc' & _ & _ & H). split; [done|]. destruct o as [b|]; [|done].
    rewrite <-!length_contents. destruct (contents (INPUT (kcon k))) as [|b' q]; [by destruct H|].
    destruct H as (_ & -> & _). done. }
  intros o k' (? & E & ?). split; [done|]. split; [by rewrite E|done].
Qed.

Lemma drain_bytes_good pan fuel pid p buf len count k :
  Kbase k -> PROCESSES k !! pid = Some p -> alive p -> (~ owns_live k p -> pan) -> 0 <= buf -> 0 <= count ->
  buf + len < 2 ^ 64 -> (Console.count (INPUT (kcon k)) < fuel)%nat ->
  wp pan (drain_bytes fuel pid buf len count) (fun c k' => good k k' /\ PROCESSES k' = PROCESSES k) k.
Proof.
  revert count k. induction fuel as [|fuel IH]; intros count k Hk Hp Ha Hpan Hb Hc Hov Hf; [lia|].
  cbn [drain_bytes]. destruct (Z.ltb_spec count len); [|wp_steps; split; [by apply good_refl|done]].
  eapply (good_bind K A pan _ _ (fun o k' => PROCESSES k' = PROCESSES k /\
    match o with Some b => Console.count (INPUT (kcon k)) = S (Console.count (INPUT (kcon k'))) | None => True end)).
  { by apply pop_good. }
  intros [b|] k1 Hk1 Hx1 [E1 Hn]; [|wp_steps; split; [by apply good_refl|done]].
  wp_step. apply wp_add; [lia|].
  assert (Hpan1 : ~ owns_live k1 p -> pan) by (unfold owns_live in *; by rewrite (kx_live _ _ Hx1)).
  eapply (good_bind K A pan _ _ (fun o k' => PROCESSES k' = PROCESSES k1 /\ kcon k' = kcon k1)).
  { apply (copy_to_user_good pan pid p); [done|by rewrite E1|done|done|lia]. }
  intros [] k2 Hk2 Hx2 [E2 Ec2]; cbn [negb]; [|wp_steps; split; [by apply good_refl|congruence]].
  eapply wp_mono; [apply IH; try done; try lia|].
  - by rewrite E2, E1.
  - unfold owns_live in *. by rewrite (kx_live _ _ Hx2).
  - rewrite Ec2. lia.
  - intros c k3 [? E3]. split; [done|congruence].
Qed.

Lemma drain_input_good pan pid p buf len k :
  Kbase k -> PROCESSES k !! pid = Some p -> alive p -> (~ owns_live k p -> pan) -> 0 <= buf -> buf + len < 2 ^ 64 ->
  wp pan (drain_input pid buf len) (fun c k' => good k k' /\ PROCESSES k' = PROCESSES k) k.
Proof. intros. unfold drain_input. wp_steps. apply (drain_bytes_good pan _ pid p); auto; lia. Qed.

(** ** Opcodes *)

(** What every opcode handler promises. *)
Definition keeps_kernel {B} pan (m : M kernel B) (k : kernel) : Prop :=
  wp pan m (fun _ k' => good k k' /\ True) k.

Lemma keeps_of {B} pan (m : M kernel B) Q k : wp pan m (fun a k' => good k k' /\ Q a k') k -> keeps_kernel pan m k.
Proof. intros H. eapply wp_mono; [exact H|]. by intros a k' [? _]. Qed.

Lemma keeps_complete pan page ud res k :
  Kbase k -> page ∈ data_of (PROCESSES k) -> keeps_kernel pan (complete page ud res) k.
Proof. intros. by eapply keeps_of, complete_good. Qed.

Lemma keeps_ret {B} pan (a : B) k : Kbase k -> keeps_kernel pan (retM a) k.
Proof. intros. apply wp_ret. split; [by apply good_refl|done]. Qed.

Lemma position_lookup {B} (f : B -> bool) (l : list B) i : position f l = Some i -> exists x, l !! i = Some x /\ f x = true.
Proof.
  revert i. induction l as [|x l IH]; intros i; cbn [position]; [done|]. destruct (f x) eqn:E.
  - intros [= <-]. by exists x.
  - destruct (position f l) as [j|]; [|done]. intros [= <-]. by apply IH.
Qed.

Lemma park_good pan pid p r k :
  Kbase k -> PROCESSES k !! pid = Some p ->
  0 <= pbuf r -> 0 <= plen r -> pbuf r + plen r < 2 ^ 64 ->
  wp pan (park_read pid r) (fun _ k' => good k k' /\ data_of (PROCESSES k') = data_of (PROCESSES k)) k.
Proof.
  intros Hk Hp H1 H2 H3. unfold park_read. wp_step. eapply wp_mono; [by apply proc_reads|]. intros q k' [-> ->].
  destruct (position is_none (p_pending p)) as [i|] eqn:Hi; [|wp_steps; split; [by apply good_refl|done]].
  wp_step. eapply wp_mono; [apply (good_update K A pan pid _ p); [done|done|done|]|].
  - intros n m [R1 R2 R3 R4 R5] _ _. split; cbn [p_ring_pa p_foreground p_ring_waiter p_parent p_pending set_pending]; try done.
    + by rewrite length_insert.
    + intros r' Hr'. apply list_elem_of_lookup in Hr' as [j Hj].
      destruct (decide (j = i)) as [->|Hne].
      * destruct (position_lookup _ _ _ Hi) as (x & Hx & _).
        rewrite list_lookup_insert_eq in Hj by (by eapply lookup_lt_Some). by injection Hj as <-.
      * rewrite list_lookup_insert_ne in Hj by done. apply R5. by eapply list_elem_of_lookup_2.
  - intros [] k' [Hg ->]. wp_steps. split; [done|]. apply core_sets. cbn [PROCESSES set_procs].
    rewrite list_fmap_insert. apply list_insert_id. by rewrite list_lookup_fmap, Hp.
Qed.

(** An update of a field outside the core, as a step. *)
Lemma keeps_update pan pid f p k :
  Kbase k -> PROCESSES k !! pid = Some p -> core (f p) = core p ->
  (forall n m, refs_ok n m p -> m = length (tasks (SCHEDULER (ks k))) -> n = length (PROCESSES k) -> refs_ok n m (f p)) ->
  keeps_kernel pan (update_proc pid f) k.
Proof. intros. by eapply keeps_of, good_update. Qed.


Section opcodes.
Context (pan : Prop) (pid : nat) (p : Process) (k : kernel).
Hypothesis Hk : Kbase k.
Hypothesis Hp : PROCESSES k !! pid = Some p.
Hypothesis Hring : p_ring_pa p <> 0.
Hypothesis Hpan : ~ owns_live k p -> pan.

Lemma opcode_alive : alive p.
Proof. by apply (ring_data k pid p). Qed.

Lemma opcode_page : p_ring_pa p ∈ data_of (PROCESSES k).
Proof. by apply (ring_data k pid p). Qed.

Lemma print_keeps ptr len ud :
  0 <= ptr -> 0 <= len -> keeps_kernel pan (print_op pid (p_ring_pa p) ptr len ud) k.
Proof.
  intros Hptr Hlen. unfold print_op, keeps_kernel. wp_step.
  eapply wp_mono; [apply (is_user_range_reads K A pan pid p); try done; apply opcode_alive|].
  intros [] k' [-> Hr]; cbn [negb]; [|by apply keeps_complete, opcode_page].
  destruct (Hr eq_refl) as [_ Hre]. wp_step. eapply wp_mono.
  { apply (user_bytes_good pan _ _ p); [done|done|]. intros va Hva. apply Hre. lia. }
  intros bs k' [-> _]. eapply (good_bind K A pan _ _ (fun _ k' => PROCESSES k' = PROCESSES k)).
  { destruct (from_utf8 bs); [|wp_steps; split; [by apply good_refl|done]].
    eapply wp_mono; [by apply write_str_good|]. intros [] k' [? E]. split; [done|]. by rewrite E. }
  intros [] k1 Hk1 _ E. apply keeps_complete; [done|]. rewrite E. apply opcode_page.
Qed.

Lemma read_keeps ptr len ud :
  0 <= ptr -> 0 <= len -> keeps_kernel pan (read_op pid (p_ring_pa p) ptr len ud) k.
Proof.
  intros Hptr Hlen. unfold read_op, keeps_kernel. wp_step.
  eapply wp_mono; [apply (is_user_range_reads K A pan pid p); try done; apply opcode_alive|].
  intros [] k' [-> Hr]; cbn [negb]; [|by apply keeps_complete, opcode_page].
  destruct (Hr eq_refl) as [Hov _]. destruct (len =? 0); [by apply keeps_complete, opcode_page|]. wp_step. wp_step.
  eapply (good_bind K A pan _ _ (fun _ k' => PROCESSES k' = PROCESSES k)).
  { destruct (bool_decide _); [apply (drain_input_good pan pid p); try done; apply opcode_alive|].
    wp_steps. split; [by apply good_refl|done]. }
  intros c k1 Hk1 Hx1 E1. pose proof opcode_page as Hpg. rewrite <-E1 in Hpg.
  destruct (0 <? c); [by apply keeps_complete|].
  eapply (good_bind K A pan _ _ (fun _ k' => data_of (PROCESSES k') = data_of (PROCESSES k1))).
  { apply (park_good pan pid p); [done|by rewrite E1|done..]. }
  intros ok k2 Hk2 _ E2. destruct (negb ok); [apply keeps_complete; [done|by rewrite E2]|by apply keeps_ret].
Qed.

Lemma wait_keeps h ud : 0 <= h -> keeps_kernel pan (wait_op pid h ud) k.
Proof.
  intros Hh. unfold wait_op, keeps_kernel. wp_step. eapply wp_mono; [by apply ring_pa_reads|].
  intros page k' [-> ->]. wp_step. wp_step. unfold proc_count.
  destruct (Z.leb_spec (Z.of_nat (length (PROCESSES k))) h); [by apply keeps_complete, opcode_page|].
  destruct (lookup_lt_is_Some_2 (PROCESSES k) (Z.to_nat h)) as [q Hq]; [lia|].
  wp_step. unfold parent. wp_step. eapply wp_mono; [by apply proc_reads|]. intros q' k' [-> ->]. wp_steps.
  destruct (negb _); [by apply keeps_complete, opcode_page|].
  wp_step. unfold exit_code. wp_step. eapply wp_mono; [by apply proc_reads|]. intros q' k' [-> ->]. wp_steps.
  destruct (p_exit_code q); [by apply keeps_complete, opcode_page|].
  apply (keeps_update pan _ _ q); [done|done|done|]. intros n m [R1 R2 R3 R4 R5] _ _. by split.
Qed.
End opcodes.
End ring.
