(* ===== verification/KernelSpawn.v ===== *)
(** * Process creation and the kernel invariant

    A process made by [new_address_space] and [create] from a well-formed image
    joins the invariant of KernelInv, and nothing else changes. *)

From Stdlib Require Import ZArith Lia.
From stdpp Require Import base numbers gmap list list_relations.
From S2P Require Import Prelude Memory Abi Frames Mmu PageTables AddressSpaces Reclaim Ownership.
From S2P Require Import VirtualMemory Isolation Sched Console Elf Loader Devices Process Text Ring KernelInv.
From S2P Require Import KernelRing.

(** ** Images the kernel may run *)

(** No page of the segment is the stack's or the ring's. *)
Definition seg_private (seg : Segment) : Prop :=
  forall i, (i < npages seg)%nat ->
    (vaddr seg + FRAME_SIZE * Z.of_nat i) / 4096 <> USER_STACK_VA / 4096 /\
    (vaddr seg + FRAME_SIZE * Z.of_nat i) / 4096 <> USER_RING_VA / 4096.

(** What the linker script of the user programs provides. *)
Definition image_ok (image : list Z) : Prop :=
  Z.of_nat (length image) < 2 ^ 64 /\ Forall (fun b => 0 <= b < 256) image /\
  exists entry segs, image_segments image tt = Ret ((entry, segs), tt) /\
    Forall (seg_ok image) segs /\ ForallOrdPairs segs_apart segs /\
    (length segs <= MAX_SEGMENTS)%nat /\ Forall seg_private segs.

Section spawn.
Context (K A : gset Z).

(** ** The new space *)

Lemma new_space k T l r s1 :
  kbase K A k T l -> new_address_space (the_mmu k) = Ret (r, s1) ->
  let R := roots_of (PROCESSES k) in
  let D := data_of (PROCESSES k) in
  exists T1 l1, vm_inv K A (mkVm s1 ({[r]} ∪ R) D) T1 l1 /\ ~ root_of (mkVm (the_mmu k) R D) r /\
    (forall r' va, root_of (mkVm (the_mmu k) R D) r' ->
       hw_walk (mem_of s1) 3 r' va = hw_walk (kernel_mem k) 3 r' va) /\
    (forall va n e, canonical va -> hw_walk (mem_of s1) 3 r va = Some (n, e) -> el0_access e = false) /\
    s1 = set_ph (ph s1) (the_mmu k).
Proof.
  intros Hk Hrun R D. pose proof (ki_vm _ _ _ _ _ Hk) as Hv. fold R D in Hv.
  pose proof (vi_mm _ _ _ _ _ Hv) as Hmm. cbn [vs] in Hmm.
  destruct (new_step _ _ _ _ _ _ _ _ _ Hv Hrun) as (T1 & l1 & Hv1).
  destruct (wp_run True _ _ _ _ _ (new_address_space_spec True _ T l Hmm ltac:(done)) Hrun)
    as (l' & Hl & HrT & _ & Hw & Hwr & _ & _ & Hregs).
  assert (Hroots : forall r', root_of (mkVm (the_mmu k) R D) r' -> T !! r' = Some O) by apply Hv.
  exists T1, l1. split; [done|]. split.
  { intros Hr. by rewrite Hroots in HrT. }
  split; [intros r' va Hr'; apply Hw; auto|]. split; [|done].
  intros va n e Hc. rewrite Hwr by done. destruct (Z.ltb_spec va (2 ^ 39)); [|done].
  rewrite <-(root_walk_low _ _ _ (KERNEL_TTBR0 (the_mmu k)) _ (mi_pt _ _ _ Hmm)); [|by apply Hroots; left|done|done].
  by apply (ki_kroot _ _ _ _ _ Hk).
Qed.

(** ** The new process *)

Section loaded.
Context (D R : gset Z) (r : Z) (s0 : mmu) (T0 : gmap Z nat) (l0 : list Z) (image : list Z).
Context (s : mmu) (T : gmap Z nat) (l : list Z) (segs : list Segment) (chunks : list (list page)) (stk : page).
Hypothesis Hpages : pages_added K A R D r s0 T0 l0 (concat chunks ++ [stk]) s T l.
Hypothesis Hchunks : chunks_of image segs chunks.
Hypothesis Hok : Forall (seg_ok image) segs.
Hypothesis Hpriv : Forall seg_private segs.
Hypothesis Hstk : pva stk = USER_STACK_VA /\ pperms stk = PAGE_USER_RW.
Hypothesis Hempty : forall va n e, canonical va -> hw_walk (mem_of s0) 3 r va = Some (n, e) -> el0_access e = false.
Hypothesis Hr0 : T0 !! r = Some O.

Lemma chunk_seg pg :
  pg ∈ concat chunks -> exists seg i, seg ∈ segs /\ (i < npages seg)%nat /\ wanted image seg i pg.
Proof.
  intros Hpg. apply list_elem_of_In, in_concat in Hpg as (ch & Hch & Hpg). apply list_elem_of_In in Hch, Hpg.
  apply list_elem_of_lookup in Hch as [n Hn]. destruct (Forall2_lookup_r _ _ _ _ _ Hchunks Hn) as (seg & Hs & Hw).
  destruct (wanted_va _ _ _ _ Hw Hpg) as (i & Hi & Hwi). exists seg, i. split; [|done]. by eapply list_elem_of_lookup_2.
Qed.

Lemma page_facts pg :
  pg ∈ concat chunks ++ [stk] ->
  2 ^ 39 <= pva pg < 2 ^ 40 /\ user_perms (pperms pg) /\ maps (mem_of s) r (pva pg) (pframe pg) (pperms pg).
Proof.
  intros Hpg. assert (H : 2 ^ 39 <= pva pg < 2 ^ 40 /\ user_perms (pperms pg)).
  { apply elem_of_app in Hpg as [(seg & i & Hs & Hi & [Hva Hpe _])%chunk_seg| ->%list_elem_of_singleton].
    - pose proof (so_window _ _ (Forall_elem _ _ _ Hok Hs)). rewrite Hva, Hpe.
      split; [unfold FRAME_SIZE in *; lia|apply seg_perms_user].
    - destruct Hstk as [-> ->]. split; [split; vm_compute; done|by right]. }
  destruct H as [H1 H2]. do 2 (split; [done|]). intros va' Hc He.
  by apply (ps_hit _ _ _ _ _ _ _ _ _ _ _ _ Hpages).
Qed.

Definition new_proc (lo : Loaded) : Process :=
  mkProcess r lo (owned_pages (concat chunks ++ [stk])) 0 (replicate MAX_PENDING None) None false None None None.

Lemma owned_elem va f : (va, f) ∈ owned_pages (concat chunks ++ [stk]) ->
  exists pg, pg ∈ concat chunks ++ [stk] /\ pva pg = va /\ pframe pg = f.
Proof. unfold owned_pages. intros (pg & [= -> ->] & Hpg)%list_elem_of_fmap. eauto. Qed.

Lemma owned_in pg : pg ∈ concat chunks ++ [stk] -> (pva pg, pframe pg) ∈ owned_pages (concat chunks ++ [stk]).
Proof. intros Hpg. apply list_elem_of_fmap. by exists pg. Qed.

(** A byte on a page of the process is reachable. *)
Lemma page_reachable lo pg (w : bool) va :
  pg ∈ concat chunks ++ [stk] -> va / 4096 = pva pg / 4096 -> 2 ^ 39 <= va < 2 ^ 40 ->
  (w = true -> pperms pg = PAGE_USER_RW) -> reachable (mem_of s) (new_proc lo) w va.
Proof.
  intros Hpg He Hva Hw. destruct (page_facts pg Hpg) as (_ & Hu & Hm). split; [done|].
  exists (pva pg), (pframe pg), (pperms pg). split; [by apply owned_in|]. do 2 (split; [done|]). split; [|done].
  intros va' Hc Hp. apply Hm; [done|congruence].
Qed.

Lemma stack_elem : stk ∈ concat chunks ++ [stk].
Proof. apply elem_of_app. right. apply list_elem_of_here. Qed.

Lemma new_proc_wf lo :
  take (Elf.count lo) (ranges lo) = seg_range <$> segs -> (Elf.count lo <= length (ranges lo))%nat ->
  proc_wf (mem_of s) (new_proc lo).
Proof.
  intros Hra Hco. split; cbn [p_frames new_proc p_ttbr0 p_loaded p_ring_pa].
  - intros va f (pg & Hpg & <- & <-)%owned_elem. destruct (page_facts pg Hpg) as (? & ? & ?). eauto.
  - intros va n e Hc Hw Ha. destruct (decide (Exists (fun pg => va / 4096 = pva pg / 4096) (concat chunks ++ [stk]))) as [Hex|Hno].
    + apply Exists_exists in Hex as (pg & Hpg & He). exists (pva pg), (pframe pg). split; [by apply owned_in|done].
    + exfalso. rewrite (ps_miss _ _ _ _ _ _ _ _ _ _ _ _ Hpages) in Hw; [|done|done|].
      * by rewrite (Hempty _ _ _ Hc Hw) in Ha.
      * intros pg Hpg [_ He]. apply Hno, Exists_exists. by exists pg.
  - unfold owned_pages. rewrite <-list_fmap_compose. apply (ps_distinct _ _ _ _ _ _ _ _ _ _ _ _ Hpages).
  - unfold owned_pages. rewrite <-list_fmap_compose. apply (ps_fresh _ _ _ _ _ _ _ _ _ _ _ _ Hpages).
  - intros va Hva. destruct Hstk as [Hsv Hsp]. apply (page_reachable lo stk); [apply stack_elem| | |done].
    + rewrite Hsv. revert Hva. unfold USER_STACK_VA, USER_STACK_SIZE, USER_BASE, FRAME_SIZE. zlia.
    + revert Hva. unfold USER_STACK_VA, USER_STACK_SIZE, USER_BASE, FRAME_SIZE. lia.
  - done.
  - rewrite Hra. intros rg va (seg & -> & Hs)%list_elem_of_fmap Hva. cbn [seg_range start end_ writable] in *.
    pose proof (Forall_elem _ _ _ Hok Hs) as Hsok.
    destruct (chunk_page image segs chunks seg (va - vaddr seg) Hchunks Hs Hsok ltac:(lia)) as (pg & Hpg & Hpv & Hpp & _).
    pose proof (so_aligned _ _ Hsok) as Hal. pose proof (so_window _ _ Hsok) as Hwin.
    pose proof (npages_bounds _ _ Hsok) as Hnb. unfold FRAME_SIZE in *.
    apply (page_reachable lo pg); [apply elem_of_app; by left|rewrite Hpv; zlia|lia|].
    rewrite Hpp. unfold seg_perms. by destruct (seg_executable seg).
  - left. split; [done|]. intros va f (pg & Hpg & <- & _)%owned_elem.
    apply elem_of_app in Hpg as [(seg & i & Hs & Hi & [Hva _ _])%chunk_seg| ->%list_elem_of_singleton].
    + rewrite Hva. by apply (Forall_elem _ _ _ Hpriv Hs).
    + destruct Hstk as [-> _]. by vm_compute.
Qed.
End loaded.

(** ** The table with the new process *)

Lemma roots_of_snoc ps p : alive p -> roots_of (ps ++ [p]) = {[p_ttbr0 p]} ∪ roots_of ps.
Proof.
  intros Ha. apply set_eq. intros x. rewrite elem_of_union, elem_of_singleton, !elem_of_roots_of. split.
  - intros (pid & q & [Hq|(Hge & Hq)]%lookup_app_Some & Hqa & <-); [right; eauto|].
    apply list_lookup_singleton_Some in Hq as [_ ->]. by left.
  - intros [->|(pid & q & Hq & Hqa & <-)].
    + exists (length ps), p. by rewrite list_lookup_middle.
    + exists pid, q. split; [|done]. by apply lookup_app_l_Some.
Qed.

Lemma data_of_snoc ps p : data_of (ps ++ [p]) = list_to_set (p_frames p).*2 ∪ data_of ps.
Proof.
  unfold data_of. rewrite fmap_app, concat_app, list_to_set_app_L. cbn. rewrite app_nil_r. clear. set_solver.
Qed.

Definition with_proc (s : mmu) (p : Process) (k : kernel) : kernel :=
  mkKernel (set_mmu s (ks k)) (PROCESSES k ++ [p]) (kcon k) (poller k) (kgic k) (ktimer k).

Lemma refs_weaken n n' m m' p : refs_ok n m p -> (n <= n')%nat -> (m <= m')%nat -> refs_ok n' m' p.
Proof.
  intros [R1 R2 R3 R4 R5] Hn Hm. split; try done.
  - intros t Ht%R2. lia.
  - intros q Hq%R3. lia.
Qed.

Lemma task_ok_snoc ps p t : task_ok ps t -> task_ok (ps ++ [p]) t.
Proof.
  unfold task_ok. destruct (process t) as [pid|]; [|done]. intros (q & Hq & ?). exists q.
  split; [|done]. by apply lookup_app_l_Some.
Qed.

Section joined.
Context (k : kernel) (T : gmap Z nat) (l : list Z) (s : mmu) (p : Process) (T' : gmap Z nat) (l' : list Z).
Hypothesis Hk : kbase K A k T l.
Hypothesis Hregs : s = set_ph (ph s) (the_mmu k).
Hypothesis Hvm : vm_inv K A (mkVm s ({[p_ttbr0 p]} ∪ roots_of (PROCESSES k)) (list_to_set (p_frames p).*2 ∪ data_of (PROCESSES k))) T' l'.
Hypothesis Ha : alive p.
Hypothesis Hnew : p_ttbr0 p ∉ roots_of (PROCESSES k).
Hypothesis Hfresh : forall f, f ∈ (p_frames p).*2 -> f ∉ data_of (PROCESSES k).
Hypothesis Hwf : proc_wf (mem_of s) p.
Hypothesis Hrefs : refs_ok (length (PROCESSES k)) (length (tasks (SCHEDULER (ks k)))) p.
Hypothesis Hold : forall r va, root_of (mkVm (the_mmu k) (roots_of (PROCESSES k)) (data_of (PROCESSES k))) r ->
  canonical va -> hw_walk (mem_of s) 3 r va = hw_walk (kernel_mem k) 3 r va.

Lemma joined_lookup i q : (PROCESSES k ++ [p]) !! i = Some q ->
  PROCESSES k !! i = Some q \/ i = length (PROCESSES k) /\ q = p.
Proof.
  intros [?|(Hge & Hq)]%lookup_app_Some; [by left|right]. apply list_lookup_singleton_Some in Hq as [Hi <-].
  split; [lia|done].
Qed.

Lemma joined_kbase : kbase K A (with_proc s p k) T' l'.
Proof.
  destruct Hk as [H1 H2 H3 H4 H5 H6 H7 H8 H9 H10 H11 H12].
  split; unfold kernel_mem, the_mmu; cbn [with_proc ks PROCESSES kcon poller set_mmu kmmu SCHEDULER]; try done.
  - by rewrite roots_of_snoc, data_of_snoc by done.
  - intros va n e Hc. rewrite Hold; [|left; cbn [vs]; by rewrite Hregs|done]. rewrite Hregs. by apply H2.
  - intros pid q [Hq|[_ ->]]%joined_lookup Hqa; [|done].
    eapply proc_wf_ext; [|by apply (H3 pid)]. intros va Hc. apply Hold; [|done]. right.
    apply elem_of_roots_of. eauto.
  - intros i j q1 q2 f [Hi|[-> ->]]%joined_lookup [Hj|[-> ->]]%joined_lookup Hf1 Hf2; [by eapply H4| | |done].
    + exfalso. apply (Hfresh f Hf2). apply elem_of_data_of. eauto.
    + exfalso. apply (Hfresh f Hf1). apply elem_of_data_of. eauto.
  - intros i j q1 q2 [Hi|[-> ->]]%joined_lookup [Hj|[-> ->]]%joined_lookup Ha1 Ha2 He; [by eapply H5| | |done].
    + exfalso. apply Hnew, elem_of_roots_of. eauto.
    + exfalso. apply Hnew, elem_of_roots_of. eauto.
  - intros pid q Hq%joined_lookup. apply (refs_weaken (length (PROCESSES k)) _ (length (tasks (SCHEDULER (ks k)))));
      [|rewrite length_app; lia|lia]. destruct Hq as [Hq|[_ ->]]; [by apply (H6 pid)|done].
  - intros i t Ht Hs. by apply task_ok_snoc, (H7 i).
Qed.

Lemma joined_kext : kext k (with_proc s p k).
Proof.
  split; unfold kernel_mem, the_mmu; cbn [with_proc ks PROCESSES kcon poller set_mmu kmmu SCHEDULER]; eauto.
  - intros pid q Hq. exists q. split; [|done]. by apply lookup_app_l_Some.
  - by rewrite Hregs.
  - by rewrite Hregs.
  - intros pid q va Hq Hqa Hc. apply Hold; [|done]. right. apply elem_of_roots_of. eauto.
Qed.
End joined.

(** ** [create] in a new space *)

Lemma chunks_length image segs chunks :
  chunks_of image segs chunks -> length (concat chunks) = total_pages segs.
Proof.
  intros H. induction H as [|seg ch segs chs Hs _ IH]; cbn; [done|].
  rewrite length_app, IH, <-(Forall2_length _ _ _ Hs), length_seq. done.
Qed.


Lemma frame_filled_refl R D s f n : frame_filled R D s f (fun b => read8 (mem_of s) (f + b)) n s.
Proof. split; [apply rtc_refl|done|done|done|by destruct s]. Qed.

Definition pages_needed (image : list Z) : nat :=
  match image_segments image tt with Ret ((_, segs), _) => total_pages segs | Panic => O end.

(** What a new process looks like. *)
Record fresh_proc (r : Z) (p : Process) : Prop := {
  fp_root : p_ttbr0 p = r;
  fp_alive : alive p;
  fp_ring : p_ring_pa p = 0;
  fp_links : p_parent p = None /\ p_ring_waiter p = None /\ p_exit_code p = None /\ p_foreground p = false
}.

Lemma stack_page pan R D r s0 T0 l0 pgs s T l {B} (kk : Z -> M mmu B) Q :
  r ∈ R -> pages_added K A R D r s0 T0 l0 pgs s T l ->
  (forall q, q ∈ pgs -> pva q / 4096 <> USER_STACK_VA / 4096) -> ((length l < 4)%nat -> pan) ->
  (forall stk s' T' l', pva stk = USER_STACK_VA -> pperms stk = PAGE_USER_RW ->
     pages_added K A R D r s0 T0 l0 (pgs ++ [stk]) s' T' l' -> wp pan (kk (pframe stk)) Q s') ->
  wp pan (let! o := in_phys alloc_frame in let! f := expectM o in
          map_page_in r USER_STACK_VA f PAGE_USER_RW ;;; kk f) Q s.
Proof.
  intros Hr Hp Hcl Hpan Hk. pose proof (ps_inv _ _ _ _ _ _ _ _ _ _ _ _ Hp) as Hv.
  pose proof (vi_mm _ _ _ _ _ Hv) as Hmm. cbn [vs] in Hmm.
  eapply alloc_wp; [exact Hmm|intros ->; apply Hpan; cbn; lia|]. intros f l' s1 -> Halloc.
  destruct (alloc_step _ _ _ _ _ _ _ _ _ Hv Halloc) as (l1 & [= <-] & _ & Hv1).
  pose proof (vi_mm _ _ _ _ _ Hv1) as Hmm1. cbn [vs] in Hmm1.
  assert (Hf : valid_frame f) by (eapply free_inv_in_valid; [apply Hmm|apply list_elem_of_here]).
  assert (HrT : T !! r = Some O) by (apply (vi_roots _ _ _ _ _ Hv1); by right).
  assert (Hva : 2 ^ 39 <= USER_STACK_VA < 2 ^ 40) by (split; vm_compute; done).
  wp_step. eapply wp_mono.
  { apply wp_eq, (map_page_in_spec pan s1 T l' r USER_STACK_VA f PAGE_USER_RW Hmm1 HrT);
      [split; lia|apply page_ok_user; [done|by right]|intros Hn; apply Hpan; cbn [length]; lia]. }
  intros [] s2 [Hmap _].
  destruct (add_page _ _ _ _ _ _ _ _ _ _ _ _ _ _ _ Hv Hr (or_intror eq_refl) Hva Halloc (frame_filled_refl _ _ _ _ _) Hmap)
    as (T' & l2 & Hadd).
  apply (Hk (mkPage USER_STACK_VA f PAGE_USER_RW (fun b => read8 (mem_of s1) (f + b))) s2 T' l2); [done|done|].
  eapply pages_added_snoc; [exact Hr|exact Hp|exact Hadd|exact Hcl].
Qed.

(** The new process joins the invariant. *)
Lemma created_good k T l r s1 T1 l1 chunks stk s T' l' lo :
  let R := roots_of (PROCESSES k) in
  let D := data_of (PROCESSES k) in
  kbase K A k T l -> vm_inv K A (mkVm s1 ({[r]} ∪ R) D) T1 l1 -> ~ root_of (mkVm (the_mmu k) R D) r ->
  (forall r' va, root_of (mkVm (the_mmu k) R D) r' -> hw_walk (mem_of s1) 3 r' va = hw_walk (kernel_mem k) 3 r' va) ->
  s1 = set_ph (ph s1) (the_mmu k) ->
  pages_added K A ({[r]} ∪ R) D r s1 T1 l1 (concat chunks ++ [stk]) s T' l' ->
  proc_wf (mem_of s) (new_proc r chunks stk lo) ->
  good K A k (with_proc s (new_proc r chunks stk lo) k).
Proof.
  intros R D Hk Hv1 HrR Hold Hregs1 Hp Hwf. set (p := new_proc r chunks stk lo) in *.
  assert (Ef : (p_frames p).*2 = pframe <$> concat chunks ++ [stk])
    by (cbn [p new_proc p_frames]; unfold owned_pages; by rewrite <-list_fmap_compose).
  assert (Ha : alive p) by (unfold alive; cbn [p new_proc p_frames]; unfold owned_pages; rewrite fmap_app; by intros []%app_nil).
  assert (Hregs : s = set_ph (ph s) (the_mmu k)).
  { pose proof (ps_regs _ _ _ _ _ _ _ _ _ _ _ _ Hp) as E. rewrite Hregs1 in E. exact E. }
  assert (Hvm : vm_inv K A (mkVm s ({[p_ttbr0 p]} ∪ R) (list_to_set (p_frames p).*2 ∪ D)) T' l').
  { rewrite Ef. apply (ps_inv _ _ _ _ _ _ _ _ _ _ _ _ Hp). }
  assert (Hfresh : forall f, f ∈ (p_frames p).*2 -> f ∉ D).
  { rewrite Ef. intros f (pg & -> & Hpg)%list_elem_of_fmap. by apply (ps_fresh _ _ _ _ _ _ _ _ _ _ _ _ Hp). }
  assert (Hw : forall r' va, root_of (mkVm (the_mmu k) R D) r' -> canonical va ->
    hw_walk (mem_of s) 3 r' va = hw_walk (kernel_mem k) 3 r' va).
  { intros r' va Hr' Hc. rewrite <-Hold by done. pose proof (ki_vm _ _ _ _ _ Hk) as Hv0.
    apply (ps_miss _ _ _ _ _ _ _ _ _ _ _ _ Hp); [|done|].
    - apply (vi_roots _ _ _ _ _ Hv1). destruct Hr' as [->|Hr']; [left; by rewrite Hregs1|right].
      cbn [roots] in *. apply elem_of_union. by right.
    - by intros pg _ [-> _]. }
  assert (Hrefs : refs_ok (length (PROCESSES k)) (length (tasks (SCHEDULER (ks k)))) p).
  { split; try done. intros r0 [? _]%elem_of_replicate. done. }
  assert (HrR' : p_ttbr0 p ∉ R) by (intros Hr; apply HrR; by right).
  split.
  - exists T', l'. by eapply joined_kbase.
  - by eapply joined_kext.
Qed.

(** The same at the level of the kernel. *)
Lemma wp_alloc_map {B} pan (map : Z -> M mmu unit) (kk : Z -> M kernel B) Q k :
  wp pan (let! o := in_phys alloc_frame in let! f := expectM o in map f ;;; retM f)
    (fun f s' => wp pan (kk f) Q (put_mmu s' k)) (the_mmu k) ->
  wp pan (let! o := in_mmu (in_phys alloc_frame) in let! f := expectM o in in_mmu (map f) ;;; kk f) Q k.
Proof.
  unfold wp, bindM, in_mmu, zoomM. destruct (in_phys alloc_frame (the_mmu k)) as [[[f|] s1]|]; cbn; [|done..].
  by destruct (map f s1) as [[[] s2]|].
Qed.

Lemma new_process_wp {B} pan image (f : Z -> nat -> M kernel B) Q k :
  Kbase K A k -> image_ok image ->
  (free_count (fa (ph (the_mmu k))) < 5 + 4 * Z.of_nat (pages_needed image) -> pan) ->
  (forall p s, good K A k (with_proc s p k) -> fresh_proc (p_ttbr0 p) p ->
     wp pan (f (p_ttbr0 p) (length (PROCESSES k))) Q (with_proc s p k)) ->
  wp pan (let! r := in_mmu new_address_space in let! c := create image r in f r c) Q k.
Proof.
  intros (T & l & Hk) (Hlen & Hby & entry & segs & Him & Hok & Hap & Hmax & Hpriv) Hpan Hf.
  assert (Hneed : pages_needed image = total_pages segs) by (unfold pages_needed; by rewrite Him).
  pose proof (ki_vm _ _ _ _ _ Hk) as Hv0. pose proof (vi_mm _ _ _ _ _ Hv0) as Hmm. cbn [vs] in Hmm.
  pose proof (fi_count _ _ (mi_pool _ _ _ Hmm)) as Hcount. rewrite Hcount, Hneed in Hpan.
  wp_step. unfold in_mmu at 1. apply wp_zoom. eapply wp_mono.
  { apply wp_eq, (new_address_space_spec pan _ T l Hmm). intros ->. apply Hpan. cbn. lia. }
  intros r s1 (Hnew & l' & Hl & _ & Hmm1 & _). subst l.
  destruct (new_space _ _ _ _ _ Hk Hnew) as (T1 & l1 & Hv1 & HrR & Hold & Hempty & Hregs1).
  assert (E : l1 = l') by (eapply free_inv_inj; [apply (mi_pool _ _ _ (vi_mm _ _ _ _ _ Hv1))|apply Hmm1]). subst l'.
  set (R := roots_of (PROCESSES k)) in *. set (D := data_of (PROCESSES k)) in *.
  assert (Hr1 : T1 !! r = Some O) by (apply (vi_roots _ _ _ _ _ Hv1); right; apply elem_of_new).
  cbn [length] in Hpan. wp_step. unfold create. wp_step. unfold in_mmu at 1. apply wp_zoom.
  eapply wp_mono.
  { apply (load_spec pan K A ({[r]} ∪ R) D r s1 T1 l1 image (elem_of_new r R) Hlen Hby entry segs Hv1 Him Hok Hap Hmax).
    intros ?. apply Hpan. lia. }
  intros lo s2 (chunks & T2 & l2 & -> & Hch & Hp2). cbn [fst snd].
  rewrite l0_ptr_root by (eapply table_valid; [apply (vi_mm _ _ _ _ _ Hv1)|exact Hr1]).
  apply wp_alloc_map. eapply (stack_page pan ({[r]} ∪ R) D r s1 T1 l1 (concat chunks) s2 T2 l2);
    [apply elem_of_new|exact Hp2| | |].
  { intros q Hq. destruct (chunk_seg image segs chunks Hch q Hq) as (seg & i & Hs & Hi & [Hva _ _]). rewrite Hva.
    by apply (Forall_elem _ _ _ Hpriv Hs). }
  { intros ?. apply Hpan. pose proof (ps_pool _ _ _ _ _ _ _ _ _ _ _ _ Hp2) as Hpool.
    rewrite (chunks_length image segs) in Hpool by done. lia. }
  intros stk s4 T4 l4 Hsv Hsp Hp4. wp_steps. set (lo := mkLoaded _ _ _).
  replace (owned_pages (concat chunks) ++ [(USER_STACK_VA, pframe stk)]) with (owned_pages (concat chunks ++ [stk]))
    by (unfold owned_pages; rewrite fmap_app; cbn; by rewrite Hsv).
  assert (Hmax' : length (seg_range <$> segs) = length segs) by apply length_fmap.
  assert (Hwf : proc_wf (mem_of s4) (new_proc r chunks stk lo)).
  { eapply new_proc_wf; try done; cbn [Elf.count ranges lo].
    - by rewrite take_app_length' by done.
    - rewrite length_app, Hmax'. lia. }
  match goal with |- wp _ (f _ ?n) _ _ => replace n with (length (PROCESSES k)) end.
  2: { cbn [PROCESSES set_procs put_mmu set_ks]. rewrite length_app. cbn. lia. }
  apply (Hf (new_proc r chunks stk lo) s4).
  { by eapply created_good. }
  split; try done. unfold alive. cbn. unfold owned_pages. rewrite fmap_app. by intros []%app_nil.
Qed.

(** ** [OP_SPAWN] *)

(** A new task: of the kernel, or bound to a process that has none yet. *)
Lemma spawn_inner_good (pan : Prop) tr st e arg pr r k :
  pan -> Kbase K A k -> task_ok (PROCESSES k) (mkTask 0 Runnable 0 pr r) ->
  (forall c i t, pr = Some c -> tasks (SCHEDULER (ks k)) !! i = Some t -> state t <> Exited -> process t <> Some c) ->
  wp pan (in_sched (spawn_inner tr st e arg pr r)) (fun _ k' => good K A k k' /\ PROCESSES k' = PROCESSES k) k.
Proof.
  intros Hpan (T & l & Hk) Htok Hno. unfold in_sched. apply wp_zoom. unfold wp.
  destruct (spawn_inner tr st e arg pr r (ks k)) as [[[] s']|] eqn:Hrun; [|done].
  apply spawn_inner_run in Hrun as (_ & m0 & ->). split; [|done]. set (t0 := mkTask _ _ _ _ _).
  assert (Hlk : forall i t, (tasks (SCHEDULER (ks k)) ++ [t0]) !! i = Some t ->
    tasks (SCHEDULER (ks k)) !! i = Some t \/ i = length (tasks (SCHEDULER (ks k))) /\ t = t0).
  { intros i t [?|(Hge & Hq)]%lookup_app_Some; [by left|right]. apply list_lookup_singleton_Some in Hq as [? <-].
    split; [lia|done]. }
  destruct (ki_sched _ _ _ _ _ Hk) as [Hwf Hi]. split.
  - exists T, l. destruct Hk as [H1 H2 H3 H4 H5 H6 H7 H8 H9 H10 H11 H12].
    split; cbn [ks set_ks SCHEDULER tasks current kmmu PROCESSES kcon poller]; try done.
    + intros pid q Hq. eapply refs_weaken; [by apply (H6 pid)|done|rewrite length_app; lia].
    + intros i t [Ht|[-> ->]]%Hlk Hs; [by apply (H7 i)|]. exact Htok.
    + intros i j t u pid [Hti|[-> ->]]%Hlk [Huj|[-> ->]]%Hlk Hst Hsu Hpt Hpu; [by eapply H8| | |done].
      * by destruct (Hno pid i t Hpu Hti Hst).
      * by destruct (Hno pid j u Hpt Huj Hsu).
    + split; [unfold swf in *; cbn; rewrite length_app; lia|by apply app_runnable].
    + intros t [Ht|[E _]]%Hlk; [by apply H10|]. pose proof (runnable_at_lt _ _ Hi). lia.
    + intros t Ht%H11. rewrite length_app. lia.
  - split; cbn [ks set_ks SCHEDULER tasks current PROCESSES]; eauto using app_runnable.
    intros i t Ht. exists t. split; [|done]. by apply lookup_app_l_Some.
Qed.

Lemma lookup_program_elem ps name image :
  lookup_program ps name = Some image -> image ∈ ps.*2.
Proof.
  induction ps as [|[n b] ps IH]; cbn [lookup_program]; [done|]. case_bool_decide.
  - intros [= <-]. by left.
  - intros H1. right. by apply IH.
Qed.

Lemma start_child_keeps (pan : Prop) tr ut box pid q page ud name p s k :
  pan -> Kbase K A k -> good K A k (with_proc s p k) -> fresh_proc (p_ttbr0 p) p -> PROCESSES k !! pid = Some q ->
  page ∈ data_of (PROCESSES k) ->
  keeps_kernel K A pan (start_child tr ut box pid page ud name (p_ttbr0 p) (length (PROCESSES k))) (with_proc s p k).
Proof.
  intros Hpan (T & l & Hk) [Hk1 _] [_ Ha _ Hl] Hq Hpage. set (c := length (PROCESSES k)).
  assert (Hc : PROCESSES (with_proc s p k) !! c = Some p) by (by apply list_lookup_middle).
  assert (Hq1 : PROCESSES (with_proc s p k) !! pid = Some q) by (by apply lookup_app_l_Some).
  assert (Hlt : (pid < length (PROCESSES k))%nat) by (by eapply lookup_lt_Some).
  assert (Hpg1 : page ∈ data_of (PROCESSES (with_proc s p k))).
  { cbn [PROCESSES with_proc]. rewrite data_of_snoc. apply elem_of_union. by right. }
  set (k1 := with_proc s p k) in *. unfold start_child, keeps_kernel.
  eapply (good_bind K A pan _ _ (fun _ k' => k' = set_procs (<[c := set_parent_of (Some pid) p]> (PROCESSES k1)) k1)).
  { apply (good_update K A pan c _ p); [done|done|done|]. intros n m [R1 R2 R3 R4 R5] _ ->. split; try done.
    intros x [= <-]. cbn [PROCESSES k1 with_proc]. rewrite length_app. lia. }
  intros [] k2 Hk2 _ E2.
  assert (Hcore : core <$> PROCESSES k2 = core <$> PROCESSES k1).
  { rewrite E2. cbn [PROCESSES set_procs]. rewrite list_fmap_insert. apply list_insert_id.
    by rewrite list_lookup_fmap, Hc. }
  destruct (core_lookup _ _ _ _ (eq_sym Hcore) Hq1) as (q2 & Hq2 & _).
  destruct (core_lookup _ _ _ _ (eq_sym Hcore) Hc) as (p2 & Hp2 & Hcp).
  wp_step. eapply wp_mono; [by apply proc_ttbr0_reads|]. intros r k' [-> ->]. wp_step. wp_step. wp_step.
  apply wp_assert; [intros _|done].
  eapply (good_bind K A pan _ _ (fun _ k' => PROCESSES k' = PROCESSES k2 /\ SCHEDULER (ks k') = SCHEDULER (ks k))).
  { eapply wp_mono; [by apply say_good|]. intros [] k' [? E]. split; [done|]. split; [by rewrite E|].
    rewrite E. cbn [ks set_con]. rewrite E2. done. }
  intros [] k3 Hk3 Hx3 [E3 Es3]. wp_step. wp_step. wp_step. apply wp_expect; [intros st _|done].
  assert (Er : p_ttbr0 p2 = p_ttbr0 p) by (unfold core in Hcp; congruence).
  eapply (good_bind K A pan _ _ (fun _ k' => PROCESSES k' = PROCESSES k3)).
  { rewrite <-Er. apply spawn_inner_good; [done|done| |].
    { exists p2. rewrite E3. split_and!; [done|by eapply core_alive|done]. }
    intros ? i t [= <-] Ht Hs Hpr. rewrite Es3 in Ht.
    pose proof (ki_tasks _ _ _ _ _ Hk i t Ht Hs) as Hok. unfold task_ok in Hok.
    rewrite Hpr in Hok. destruct Hok as (p0 & Hp0%lookup_lt_Some & _). unfold c in Hp0. lia. }
  intros [] k4 Hk4 _ E4. apply keeps_complete; [done|]. rewrite E4, E3.
  by rewrite (proj2 (core_sets _ _ Hcore)).
Qed.

Section programs.
Context (PROGRAMS : list (list Z * list Z)) (tr ut : Z) (box : kernel -> option Z).
Hypothesis Hprogs : Forall image_ok PROGRAMS.*2.

Lemma spawn_keeps (pan : Prop) pid p ptr len ud k :
  pan -> Kbase K A k -> PROCESSES k !! pid = Some p -> p_ring_pa p <> 0 -> 0 <= ptr -> 0 <= len ->
  keeps_kernel K A pan (spawn_op PROGRAMS tr ut box pid ptr len ud) k.
Proof.
  intros Hpan Hk Hp Hr Hptr Hlen. destruct (ring_data K A k pid p Hk Hp Hr) as [Ha Hpg].
  unfold spawn_op, keeps_kernel. wp_step. eapply wp_mono; [by apply ring_pa_reads|]. intros page k' [-> ->].
  wp_step. eapply wp_mono; [by apply (is_user_range_reads K A pan pid p)|].
  intros [] k' [-> Hre]; cbn [negb]; [|by apply keeps_complete]. destruct (Hre eq_refl) as [_ Hreach].
  wp_step. eapply wp_mono.
  { apply (user_bytes_good K A pan _ _ p); [done|done|]. intros va Hva. apply Hreach. lia. }
  intros bs k' [-> _]. destruct (from_utf8 bs) as [name|]; [|by apply keeps_complete].
  destruct (get PROGRAMS name) as [image|] eqn:Hg; [|by apply keeps_complete].
  apply new_process_wp; [done|by apply (Forall_elem _ _ _ Hprogs), (lookup_program_elem _ name)|done|].
  intros q s Hgood Hfresh. eapply wp_mono; [by eapply start_child_keeps|].
  intros [] k2 [[Hk2 Hx2] _]. split; [|done]. split; [done|]. etransitivity; [apply Hgood|done].
Qed.

(** ** Submissions *)

Lemma process_sqe_keeps (pan : Prop) pid p a k :
  Kbase K A k -> PROCESSES k !! pid = Some p -> p_ring_pa p <> 0 -> (~ owns_live k p -> pan) ->
  (read64 (kernel_mem k) a = OP_SPAWN -> pan) ->
  keeps_kernel K A pan (process_sqe PROGRAMS tr ut box pid a) k.
Proof.
  intros Hk Hp Hr Hlive Hsp. destruct (ring_data K A k pid p Hk Hp Hr) as [Ha Hpg].
  assert (Hu : forall b, 0 <= read64 (kernel_mem k) b) by (intros b; apply read64_range, (kinv_mem_ok K A), Hk).
  unfold process_sqe, exec_sqe, keeps_kernel, ld64. wp_steps. eapply wp_mono; [by apply ring_pa_reads|]. intros page k' [-> ->].
  repeat match goal with |- context [if ?b then _ else _] => destruct b eqn:? end.
  - by apply keeps_complete.
  - by apply (print_keeps K A pan pid p).
  - by apply (read_keeps K A pan pid p).
  - apply (spawn_keeps pan pid p); try done. apply Hsp. by apply Z.eqb_eq.
  - by apply (wait_keeps K A pan pid p).
  - by apply keeps_complete.
Qed.
End programs.
End spawn.
