(* ===== verification/KernelSteps.v ===== *)
(** * Every kernel entry keeps the invariant

    System calls, faults, interrupts, the poller and process exit, composed from
    the operations of KernelRing and KernelSpawn. *)

From Stdlib Require Import ZArith Lia.
From stdpp Require Import base numbers gmap list list_relations.
From S2P Require Import Prelude Memory Abi Frames Mmu PageTables AddressSpaces Reclaim Ownership.
From S2P Require Import VirtualMemory Isolation Sched Console Elf Loader Devices Process Text Ring User.
From S2P Require Import KernelInv KernelRing KernelSpawn.

(** ** A zeroed page joins a process *)

Definition zeroed (f : Z) (s : mmu) : mmu := set_ph (set_ram (fill_up 4096 f 0 0 (mem_of s)) (ph s)) s.

Lemma fill_steps R D f n i s :
  f ∈ D -> 0 <= i -> i + Z.of_nat n <= 4096 ->
  let s' := set_ph (set_ram (fill_up n f 0 i (mem_of s)) (ph s)) s in
  rtc vm_step (mkVm s R D) (mkVm s' R D) /\
  (forall K A T l, vm_inv K A (mkVm s R D) T l -> vm_inv K A (mkVm s' R D) T l).
Proof.
  intros Hf. revert i s. induction n as [|n IH]; intros i s Hi Hn; cbn [fill_up].
  { replace (set_ph (set_ram (mem_of s) (ph s)) s) with s by (by destruct s as [[] ?]). split; [apply rtc_refl|done]. }
  set (s1 := set_ph (set_ram (write8 (mem_of s) (f + i) 0) (ph s)) s).
  destruct (IH (i + 1) s1) as [H1 H2]; [lia|lia|]. split.
  - eapply rtc_l; [|exact H1]. apply vs_store; [done|unfold FRAME_SIZE; lia].
  - intros K A T l Hv. apply H2. apply store_step; [done|done|unfold FRAME_SIZE; lia].
Qed.

Lemma zeroed_filled R D f s : f ∈ D -> valid_frame f -> frame_filled R D s f (fun _ => 0) FRAME_SIZE (zeroed f s).
Proof.
  intros Hf Hv. destruct (fill_steps R D f 4096 0 s Hf ltac:(lia) ltac:(lia)) as [H1 H2].
  split; [exact H1|exact H2| | |done].
  - intros b Hb. cbn [zeroed set_ph ph set_ram ram]. unfold FRAME_SIZE in Hb. by rewrite fill_up_in by lia.
  - intros a Ha. cbn [zeroed set_ph ph set_ram ram]. apply fill_up_out. unfold FRAME_SIZE in *. lia.
Qed.

Definition with_page (va f : Z) (p : Process) : Process :=
  set_frames (p_frames p ++ [(va, f)]) (set_ring_pa f p).

Lemma reachable_add m m' p f w va :
  (forall va', canonical va' -> va' / 4096 <> USER_RING_VA / 4096 ->
     hw_walk m' 3 (p_ttbr0 p) va' = hw_walk m 3 (p_ttbr0 p) va') ->
  (forall va0 f0, (va0, f0) ∈ p_frames p -> va0 / 4096 <> USER_RING_VA / 4096) ->
  reachable m p w va -> reachable m' (with_page USER_RING_VA f p) w va.
Proof.
  intros Hw Hno (Hva & va0 & f0 & perms & Hin & He & Hu & Hm & Hwr). split; [done|]. exists va0, f0, perms.
  split; [apply elem_of_app; by left|]. do 2 (split; [done|]). split; [|done].
  intros va' Hc Hp. cbn [with_page p_ttbr0 set_frames set_ring_pa].
  rewrite Hw; [by apply Hm|done|]. rewrite Hp, <-He. by eapply Hno.
Qed.

(** The ring page joins its process. *)
Lemma ring_proc_wf m m' p f :
  proc_wf m p -> p_ring_pa p = 0 -> 0 ∉ (p_frames p).*2 -> f ∉ (p_frames p).*2 ->
  (forall va', canonical va' -> hw_walk m' 3 (p_ttbr0 p) va' =
     if decide (va' / 4096 = USER_RING_VA / 4096) then Some (O, Z.lor f PAGE_USER_RW) else hw_walk m 3 (p_ttbr0 p) va') ->
  proc_wf m' (with_page USER_RING_VA f p).
Proof.
  intros [H1 H2 H3 H4 H5 H6 H7 H8] Hr0 Hf0 Hf Hw.
  assert (Hno : forall va0 f0, (va0, f0) ∈ p_frames p -> va0 / 4096 <> USER_RING_VA / 4096).
  { destruct H8 as [[_ H8]|H8]; [done|]. rewrite Hr0 in H8. exfalso. apply Hf0, list_elem_of_fmap.
    by exists (USER_RING_VA, 0). }
  assert (Hw' : forall va', canonical va' -> va' / 4096 <> USER_RING_VA / 4096 ->
    hw_walk m' 3 (p_ttbr0 p) va' = hw_walk m 3 (p_ttbr0 p) va').
  { intros va' Hc Hne. by rewrite Hw, decide_False by done. }
  split; cbn [with_page p_frames p_ttbr0 p_loaded p_ring_pa set_frames set_ring_pa]; try done.
  - intros va f0 [Hin|[= -> ->]%list_elem_of_singleton]%elem_of_app.
    + destruct (H1 _ _ Hin) as (Hva & perms & Hu & Hm). split; [done|]. exists perms. split; [done|].
      intros va' Hc Hp. rewrite Hw'; [by apply Hm|done|]. rewrite Hp. by eapply Hno.
    + split; [split; vm_compute; done|]. exists PAGE_USER_RW. split; [by right|].
      intros va' Hc Hp. by rewrite Hw, decide_True.
  - intros va n e Hc. rewrite Hw by done. case_decide as He.
    + intros _ _. exists USER_RING_VA, f. split; [apply elem_of_app; right; apply list_elem_of_here|done].
    + intros Hwk Ha. destruct (H2 va n e Hc Hwk Ha) as (va0 & f0 & Hin & ?). exists va0, f0.
      split; [apply elem_of_app; by left|done].
  - rewrite fmap_app. apply NoDup_app. split; [done|]. split; [|apply NoDup_singleton].
    intros x (y & -> & Hy)%list_elem_of_fmap E%list_elem_of_singleton. destruct y as [va0 f0]. by apply (Hno va0 f0).
  - rewrite fmap_app. apply NoDup_app. split; [done|]. split; [|apply NoDup_singleton].
    intros x Hx E%list_elem_of_singleton. by subst.
  - intros va Hva. apply (reachable_add m m' p f); auto.
  - intros r va Hr Hva. apply (reachable_add m m' p f); eauto.
  - right. apply elem_of_app. right. apply list_elem_of_here.
Qed.

(** No process has the kernel's own tables: these show EL0 nothing. *)
Lemma kernel_root_ne K A k T l pid p :
  kbase K A k T l -> PROCESSES k !! pid = Some p -> alive p -> KERNEL_TTBR0 (the_mmu k) <> p_ttbr0 p.
Proof.
  intros Hk Hp Ha E. pose proof (ki_procs _ _ _ _ _ Hk pid p Hp Ha) as Hw.
  destruct (pw_stack _ _ Hw USER_STACK_VA ltac:(split; vm_compute; done)) as (Hva & va0 & f & perms & Hin & _ & _ & Hm & Hrw).
  assert (Hc : canonical USER_STACK_VA) by (split; vm_compute; done).
  pose proof (ki_kroot _ _ _ _ _ Hk _ _ _ Hc (eq_trans (f_equal (fun r => hw_walk _ 3 r _) E) (Hm _ Hc eq_refl))) as He.
  assert (Hf : valid_frame f).
  { apply (vi_data _ _ _ _ _ (ki_vm _ _ _ _ _ Hk)), elem_of_data_of. exists pid, p. split; [done|].
    apply list_elem_of_fmap. by exists (va0, f). }
  rewrite (Hrw eq_refl) in He. unfold el0_access, el0_readable in He. by rewrite !testbit_page in He by (done || lia).
Qed.

Lemma wp_known {S B} pan (m : M S B) (Q : B -> S -> Prop) s a s' : m s = Ret (a, s') -> Q a s' -> wp pan m Q s.
Proof. unfold wp. by intros ->. Qed.

Section steps.
Context (K A : gset Z).
Abbreviation Kinv := (Kinv K A).
Abbreviation Kbase := (Kbase K A).
Abbreviation good := (good K A).
Abbreviation keeps_kernel := (keeps_kernel K A).

Lemma keeps_bind {B C} pan (m : M kernel B) (f : B -> M kernel C) k :
  keeps_kernel pan m k ->
  (forall a k1, Kbase k1 -> kext k k1 -> keeps_kernel pan (f a) k1) -> keeps_kernel pan (bindM m f) k.
Proof.
  intros Hm Hf. apply (good_bind K A pan _ _ (fun _ _ => True)); [exact Hm|]. intros a k1 ? ? _. by apply Hf.
Qed.

(** ** The current process *)

(** The task that runs belongs to [pid]. *)
Definition runs (k : kernel) (pid : nat) (p : Process) : Prop :=
  current (SCHEDULER (ks k)) <> O /\ PROCESSES k !! pid = Some p /\ alive p /\
  exists t, tasks (SCHEDULER (ks k)) !! current (SCHEDULER (ks k)) = Some t /\ state t = Runnable /\
    process t = Some pid /\ ttbr0_el1 (the_mmu k) = p_ttbr0 p.

Lemma current_process_reads (pan : Prop) k :
  Kinv k -> wp pan (in_sched current_process) (fun o k' => k' = k /\
    match o with Some pid => exists p, runs k pid p | None => forall pid p, ~ runs k pid p end) k.
Proof.
  intros (T & l & Hk & Hrun). destruct (running_task _ Hrun) as (t & Ht & Hs).
  unfold in_sched. apply wp_zoom. unfold current_process, task. wp_steps. rewrite Ht. wp_steps.
  split; [by destruct k|]. destruct (process t) as [pid|] eqn:Hp.
  2: { intros pid p (_ & _ & _ & t' & Ht' & _ & Hp' & _). congruence. }
  pose proof (ki_tasks _ _ _ _ _ Hk _ t Ht ltac:(by rewrite Hs)) as Hok. unfold task_ok in Hok. rewrite Hp in Hok.
  destruct Hok as (p & Hpp & Ha & Hr). exists p. split_and!; [|done|done|].
  - intros E. rewrite E in Ht. rewrite (ki_idle _ _ _ _ _ Hk t Ht) in Hp. done.
  - exists t. split_and!; [done..|]. by apply (ru_space _ Hrun t).
Qed.

Lemma runs_current k pid p : runs k pid p -> in_sched current_process k = Ret (Some pid, k).
Proof.
  intros (_ & _ & _ & t & Ht & _ & Hp & _). unfold in_sched, zoomM, current_process, task, bindM, getM, getsM, expectM, retM. cbn.
  rewrite Ht, Hp. by destruct k.
Qed.

(** A process that runs still does after an operation of its own. *)
Lemma runs_ext k k' pid p : runs k pid p -> kext k k' -> exists p', runs k' pid p' /\ core p' = core p.
Proof.
  intros (H0 & Hp & Ha & t & Ht & Hs & Hpr & Hl) Hx.
  destruct (kext_page _ _ _ _ Hx Hp) as (p' & Hp' & Hc). exists p'. split; [|done].
  destruct (kx_tasks _ _ Hx _ _ Ht) as (t' & Ht' & Hpr' & _). unfold runs. rewrite (kx_current _ _ Hx).
  split; [done|]. split; [done|]. split; [by eapply core_alive|]. exists t'. split_and!; [done| | |].
  - assert (Hr : runnable_at (tasks (SCHEDULER (ks k))) (current (SCHEDULER (ks k))) = true)
      by (unfold runnable_at; rewrite Ht; by apply bool_decide_eq_true).
    apply (kx_run _ _ Hx) in Hr. unfold runnable_at in Hr. rewrite Ht' in Hr. by apply bool_decide_eq_true in Hr.
  - congruence.
  - rewrite (kx_live _ _ Hx), Hl. unfold core in Hc. congruence.
Qed.

(** ** [SYS_RING_SETUP] *)

Definition with_ring (s : mmu) (pid : nat) (f : Z) (p : Process) (k : kernel) : kernel :=
  mkKernel (set_mmu s (ks k)) (<[pid := with_page USER_RING_VA f p]> (PROCESSES k)) (kcon k) (poller k) (kgic k) (ktimer k).

Section setup.
Context (k : kernel) (T : gmap Z nat) (l : list Z) (pid : nat) (p : Process) (pg : page).
Context (s : mmu) (T' : gmap Z nat) (l' : list Z).
Hypothesis Hk : kbase K A k T l.
Hypothesis Hp : PROCESSES k !! pid = Some p.
Hypothesis Ha : alive p.
Hypothesis Hr0 : p_ring_pa p = 0.
Hypothesis Hpg : pva pg = USER_RING_VA /\ pperms pg = PAGE_USER_RW.
Hypothesis Hadd : page_added K A (roots_of (PROCESSES k)) (data_of (PROCESSES k)) (p_ttbr0 p) (the_mmu k) T l pg s T' l'.

Lemma ring_lookup i q : <[pid := with_page USER_RING_VA (pframe pg) p]> (PROCESSES k) !! i = Some q ->
  i = pid /\ q = with_page USER_RING_VA (pframe pg) p \/ i <> pid /\ PROCESSES k !! i = Some q.
Proof.
  destruct (decide (i = pid)) as [->|Hne].
  - rewrite list_lookup_insert_eq by (by eapply lookup_lt_Some). intros [= <-]. by left.
  - rewrite list_lookup_insert_ne by done. by right.
Qed.

Lemma ring_lookup_old i q : PROCESSES k !! i = Some q -> exists q',
  <[pid := with_page USER_RING_VA (pframe pg) p]> (PROCESSES k) !! i = Some q' /\
  p_ttbr0 q' = p_ttbr0 q /\ (alive q -> alive q') /\ (forall f, f ∈ (p_frames q).*2 -> f ∈ (p_frames q').*2).
Proof.
  intros Hq. destruct (decide (i = pid)) as [->|Hne].
  - rewrite list_lookup_insert_eq by (by eapply lookup_lt_Some). eexists. split; [done|].
    replace q with p by congruence. split; [done|]. split.
    + intros _. unfold alive. cbn. by intros []%app_nil.
    + intros f Hf. cbn. rewrite fmap_app. apply elem_of_app. by left.
  - rewrite list_lookup_insert_ne by done. eauto 6.
Qed.

Lemma ring_sets :
  roots_of (<[pid := with_page USER_RING_VA (pframe pg) p]> (PROCESSES k)) = roots_of (PROCESSES k) /\
  data_of (<[pid := with_page USER_RING_VA (pframe pg) p]> (PROCESSES k)) = {[pframe pg]} ∪ data_of (PROCESSES k).
Proof.
  split; apply set_eq; intros x; rewrite ?elem_of_union, ?elem_of_singleton, ?elem_of_roots_of, ?elem_of_data_of; split.
  - intros (i & q & [[-> ->]|[_ Hq]]%ring_lookup & Hqa & <-); eauto 6.
  - intros (i & q & Hq & Hqa & <-). destruct (ring_lookup_old i q Hq) as (q' & ? & ? & ? & _). exists i, q'. auto.
  - intros (i & q & [[-> ->]|[_ Hq]]%ring_lookup & Hf); [|right; eauto].
    cbn in Hf. rewrite fmap_app in Hf. apply elem_of_app in Hf as [Hf| ->%list_elem_of_singleton]; [right; eauto|by left].
  - intros [->|(i & q & Hq & Hf)].
    + exists pid, (with_page USER_RING_VA (pframe pg) p). rewrite list_lookup_insert_eq by (by eapply lookup_lt_Some).
      split; [done|]. cbn. rewrite fmap_app. apply elem_of_app. right. apply list_elem_of_here.
    + destruct (ring_lookup_old i q Hq) as (q' & ? & _ & _ & Hf'). exists i, q'. auto.
Qed.

Lemma ring_kbase : kbase K A (with_ring s pid (pframe pg) p k) T' l'.
Proof.
  destruct ring_sets as [ER ED]. destruct Hpg as [Hpv Hpp].
  pose proof (ki_vm _ _ _ _ _ Hk) as Hv. pose proof Hadd as [Hv' _ Hfr _ _ _ _ Hhw Hregs].
  assert (Hown : forall i q f, PROCESSES k !! i = Some q -> f ∈ (p_frames q).*2 -> f ∈ data_of (PROCESSES k))
    by (intros i q f Hq Hf; apply elem_of_data_of; eauto).
  assert (Hroot : forall r va, root_of (mkVm (the_mmu k) (roots_of (PROCESSES k)) (data_of (PROCESSES k))) r ->
    canonical va -> r <> p_ttbr0 p -> hw_walk (mem_of s) 3 r va = hw_walk (kernel_mem k) 3 r va).
  { intros r va Hr Hc Hne. rewrite Hhw by (done || by apply Hv). by rewrite decide_False by (by intros [? _]). }
  pose proof (kernel_root_ne K A k T l pid p Hk Hp Ha) as Hkr.
  destruct Hk as [H1 H2 H3 H4 H5 H6 H7 H8 H9 H10 H11 H12].
  split; unfold kernel_mem, the_mmu; cbn [with_ring ks PROCESSES kcon poller set_mmu kmmu SCHEDULER]; try done.
  - by rewrite ER, ED.
  - intros va n e Hc. rewrite Hregs. cbn [KERNEL_TTBR0 set_ph ph]. rewrite Hroot; [by apply H2|by left|done|done].
  - intros i q [[-> ->]|[Hne Hq]]%ring_lookup Hqa.
    + apply (ring_proc_wf (kernel_mem k)); [by apply (H3 pid)|done| | |].
      * intros Hin%(Hown pid p 0 Hp). apply (vi_data _ _ _ _ _ Hv) in Hin as (Hfv & _). apply valid_frame_range in Hfv. lia.
      * intros Hin%(Hown pid p _ Hp). done.
      * intros va Hc. rewrite Hhw by (done || (apply Hv; right; apply elem_of_roots_of; eauto)).
        unfold on_page. rewrite Hpv, Hpp. apply decide_ext. tauto.
    + eapply proc_wf_ext; [|by apply (H3 i)]. intros va Hc.
      apply Hroot; [right; apply elem_of_roots_of; eauto|done|]. intros E. apply Hne. by eapply H5.
  - intros i j q1 q2 f [[-> ->]|[Hni Hi]]%ring_lookup [[-> ->]|[Hnj Hj]]%ring_lookup Hf1 Hf2; [done| | |by eapply H4].
    + cbn in Hf1. rewrite fmap_app in Hf1. apply elem_of_app in Hf1 as [Hf1| ->%list_elem_of_singleton]; [by eapply H4|].
      destruct Hfr. by eapply Hown.
    + cbn in Hf2. rewrite fmap_app in Hf2. apply elem_of_app in Hf2 as [Hf2| ->%list_elem_of_singleton]; [by eapply H4|].
      destruct Hfr. by eapply Hown.
  - intros i j q1 q2 [[-> ->]|[Hni Hi]]%ring_lookup [[-> ->]|[Hnj Hj]]%ring_lookup Ha1 Ha2 He; [done| | |by eapply H5].
    + by apply (H5 pid j p q2).
    + by apply (H5 i pid q1 p).
  - rewrite length_insert. intros i q [[-> ->]|[Hne Hq]]%ring_lookup; [|by apply (H6 i)].
    destruct (H6 pid p Hp) as [R1 R2 R3 R4 R5]. split; try done. intros Hn. exfalso. apply Hn.
    unfold alive. cbn. by intros []%app_nil.
  - intros i t Ht Hs. specialize (H7 i t Ht Hs). unfold task_ok in *. destruct (process t) as [x|]; [|done].
    destruct H7 as (q & Hq & Hqa & Htr). destruct (ring_lookup_old x q Hq) as (q' & Hq' & Hr' & Ha' & _).
    exists q'. split_and!; [done|auto|congruence].
Qed.

Lemma ring_running : running k -> running (with_ring s pid (pframe pg) p k).
Proof.
  intros [R1 R2]. split; [done|]. intros t r Ht Hr. rewrite <-(R2 t r Ht Hr). unfold the_mmu.
  cbn [with_ring ks set_mmu kmmu]. by rewrite (pa_regs _ _ _ _ _ _ _ _ _ _ _ _ Hadd).
Qed.
End setup.

(** Assignment to a field, as it is. *)
Lemma update_proc_runs pan pid f p k :
  PROCESSES k !! pid = Some p ->
  wp pan (update_proc pid f) (fun _ k' => k' = set_procs (<[pid := f p]> (PROCESSES k)) k) k.
Proof.
  intros Hp. unfold update_proc, proc. wp_steps. rewrite Hp. wp_steps. f_equal.
  apply list_eq. intros i. destruct (decide (i = pid)) as [->|Hi].
  - by rewrite list_lookup_alter_eq, Hp, list_lookup_insert_eq by (by eapply lookup_lt_Some).
  - by rewrite list_lookup_alter_ne, list_lookup_insert_ne.
Qed.

Lemma set_ring_runs pan pid f p k :
  PROCESSES k !! pid = Some p ->
  wp pan (set_ring pid f) (fun _ k' => k' = set_procs (<[pid := with_page USER_RING_VA f p]> (PROCESSES k)) k) k.
Proof.
  intros Hp. unfold set_ring. wp_step. eapply wp_mono; [by apply update_proc_runs|]. intros [] k1 ->.
  eapply wp_mono; [apply (update_proc_runs _ pid _ (set_ring_pa f p)); apply list_lookup_insert_eq; by eapply lookup_lt_Some|].
  intros [] k2 ->. unfold set_procs. cbn [PROCESSES ks kcon poller kgic ktimer]. by rewrite list_insert_insert_eq.
Qed.

(** A process without a ring gets a page of zeros for one. *)
Definition ring_joins (k : kernel) T l (pid : nat) (p : Process) (k' : kernel) : Prop :=
  exists f s T' l', k' = with_ring s pid f p k /\
    page_added K A (roots_of (PROCESSES k)) (data_of (PROCESSES k)) (p_ttbr0 p) (the_mmu k) T l
      (mkPage USER_RING_VA f PAGE_USER_RW (fun _ => 0)) s T' l'.

Lemma setup_joins (pan : Prop) k T l pid p :
  kbase K A k T l -> PROCESSES k !! pid = Some p -> alive p -> p_ring_pa p = 0 ->
  in_sched current_process k = Ret (Some pid, k) -> (free_count (fa (ph (the_mmu k))) < 4 -> pan) ->
  wp pan setup (fun v k' => v = USER_RING_VA /\ ring_joins k T l pid p k') k.
Proof.
  intros Hk Hp Ha Hr0 Hcur Hpan. unfold setup. wp_step. apply (wp_known _ _ _ _ _ _ Hcur). cbv beta iota.
  wp_step. eapply wp_mono; [by apply ring_pa_reads|]. intros page k' [-> ->]. rewrite Hr0. cbn [negb Z.eqb].
  pose proof (ki_vm _ _ _ _ _ Hk) as Hv.
  pose proof (vi_mm _ _ _ _ _ Hv) as Hmm. cbn [vs] in Hmm. rewrite (fi_count _ _ (mi_pool _ _ _ Hmm)) in Hpan.
  assert (Hroot : p_ttbr0 p ∈ roots_of (PROCESSES k)) by (apply elem_of_roots_of; eauto).
  wp_step. unfold in_mmu at 1. apply wp_zoom. destruct (alloc_run _ _ _ Hmm) as [s1 Halloc].
  apply (wp_known _ _ _ _ _ _ Halloc). destruct l as [|f l]; [apply wp_bind, wp_expect_none, Hpan; cbn; lia|]. cbn [hd_error].
  destruct (alloc_step _ _ _ _ _ _ _ _ _ Hv Halloc) as (l0 & [= <-] & _ & Hv1).
  assert (Hf : valid_frame f) by (eapply free_inv_in_valid; [apply Hmm|apply list_elem_of_here]).
  pose proof (zeroed_filled (roots_of (PROCESSES k)) ({[f]} ∪ data_of (PROCESSES k)) f s1 (elem_of_new f _) Hf) as Hz.
  pose proof (ff_inv _ _ _ _ _ _ _ Hz _ _ _ _ Hv1) as Hv2. pose proof (vi_mm _ _ _ _ _ Hv2) as Hmm2. cbn [vs] in Hmm2.
  assert (HrT : T !! p_ttbr0 p = Some O) by (apply (vi_roots _ _ _ _ _ Hv2); by right).
  wp_step. wp_step. wp_step. wp_step. change (set_kernel_mem _ _) with (put_mmu (zeroed f s1) k).
  wp_step. eapply wp_mono; [by apply (proc_ttbr0_reads _ pid p)|]. intros r k' [-> ->].
  rewrite l0_ptr_root by (by eapply table_valid). wp_step. unfold in_mmu. apply wp_zoom.
  assert (Hva : 2 ^ 39 <= USER_RING_VA < 2 ^ 40) by (split; vm_compute; done).
  eapply wp_mono.
  { apply wp_eq, (map_page_in_spec pan (zeroed f s1) T l (p_ttbr0 p) USER_RING_VA f PAGE_USER_RW Hmm2 HrT);
      [split; lia|apply page_ok_user; [done|by right]|intros Hn; apply Hpan; cbn [length]; lia]. }
  intros [] s3 [Hmap _].
  destruct (add_page _ _ _ _ _ _ _ _ _ _ _ _ _ _ _ Hv Hroot (or_intror eq_refl) Hva Halloc Hz Hmap) as (T' & l' & Hadd).
  wp_step. eapply wp_mono; [by apply (set_ring_runs _ pid f p)|]. intros [] k3 ->. wp_steps.
  split; [done|]. exists f, s3, T', l'. split; [reflexivity|exact Hadd].
Qed.

Lemma ring_joins_kinv k T l pid p k' :
  kbase K A k T l -> running k -> PROCESSES k !! pid = Some p -> alive p -> p_ring_pa p = 0 ->
  ring_joins k T l pid p k' -> Kinv k'.
Proof.
  intros Hk Hrun Hp Ha Hr0 (f & s & T' & l' & -> & Hadd). exists T', l'. set (pg := mkPage _ _ _ _) in Hadd.
  assert (Hpg : pva pg = USER_RING_VA /\ pperms pg = PAGE_USER_RW) by (split; reflexivity).
  split; [exact (ring_kbase k T l pid p pg s T' l' Hk Hp Ha Hr0 Hpg Hadd)|].
  exact (ring_running k T l pid p pg s T' l' Hadd Hrun).
Qed.

Lemma setup_wp (pan : Prop) k :
  Kinv k -> (free_count (fa (ph (the_mmu k))) < 4 -> pan) -> wp pan setup (fun v k' => Kinv k') k.
Proof.
  intros Hk Hpan. destruct (wp_result _ _ _ (current_process_reads False k Hk)) as (o & k' & Hcur & -> & Hc).
  destruct o as [pid|]; [|unfold setup; wp_step; apply (wp_known _ _ _ _ _ _ Hcur); by wp_steps].
  destruct Hc as (p & _ & Hp & Ha & _). destruct (decide (p_ring_pa p = 0)) as [Hr0|Hne].
  - destruct Hk as (T & l & Hk & Hrun). eapply wp_mono; [by apply (setup_joins pan k T l pid p)|].
    intros v k' [_ Hj]. by apply (ring_joins_kinv k T l pid p).
  - unfold setup. wp_step. apply (wp_known _ _ _ _ _ _ Hcur). wp_step.
    eapply wp_mono; [by apply ring_pa_reads|]. intros page k' [-> ->]. rewrite (proj2 (Z.eqb_neq _ _) Hne). by wp_steps.
Qed.

(** ** Waiters and exit codes *)

Definition exit_codes (k : kernel) : list (option Z) := p_exit_code <$> PROCESSES k.

Lemma codes_insert pid p q (ps : list Process) :
  ps !! pid = Some p -> p_exit_code q = p_exit_code p -> p_exit_code <$> <[pid := q]> ps = p_exit_code <$> ps.
Proof. intros Hp E. rewrite list_fmap_insert, E. apply list_insert_id. by rewrite list_lookup_fmap, Hp. Qed.

Lemma take_waiter_keeps pan pid p k :
  Kbase k -> PROCESSES k !! pid = Some p ->
  wp pan (take_waiter pid) (fun w k' => good k k' /\ exit_codes k' = exit_codes k /\
    forall t, w = Some t -> (t < length (tasks (SCHEDULER (ks k'))))%nat) k.
Proof.
  intros Hk Hp. pose proof Hk as (T & l & Hb). pose proof (ki_refs _ _ _ _ _ Hb pid p Hp) as Hr.
  unfold take_waiter. wp_step. eapply wp_mono; [by apply proc_reads|]. intros q k' [-> ->]. wp_step.
  eapply wp_mono; [apply (good_update K A pan pid _ p); [done|done|done|]|].
  { intros n m [R1 R2 R3 R4 R5] _ _. by split. }
  intros [] k' [Hg ->]. wp_steps. split; [done|]. split; [by apply (codes_insert pid p)|apply (rf_waiter _ _ _ Hr)].
Qed.

Lemma wake_waiter_keeps pan pid p k :
  Kbase k -> PROCESSES k !! pid = Some p ->
  wp pan (wake_waiter pid) (fun _ k' => good k k' /\ exit_codes k' = exit_codes k) k.
Proof.
  intros Hk Hp. unfold wake_waiter.
  eapply (good_bind K A pan); [by apply (take_waiter_keeps pan pid p)|].
  intros [t|] k1 Hk1 _ [E1 Ht]; [|wp_steps; split; [by apply good_refl|done]].
  eapply wp_mono; [apply wake_good; [done|by apply Ht]|]. intros [] k2 [Hg E2]. split; [done|].
  unfold exit_codes in *. congruence.
Qed.

Lemma on_exit_keeps pan pid p code k :
  Kbase k -> PROCESSES k !! pid = Some p ->
  wp pan (on_exit pid code) (fun o k' => good k k' /\ exit_codes k' = <[pid := Some code]> (exit_codes k) /\
    match o with Some (q, _) => is_Some (PROCESSES k' !! q) | None => True end) k.
Proof.
  intros Hk Hp. pose proof Hk as (T & l & Hb). pose proof (ki_refs _ _ _ _ _ Hb pid p Hp) as Hr. unfold on_exit.
  eapply (good_bind K A pan); [apply (good_update K A pan pid _ p); [done|done|done|]|].
  { intros n m [R1 R2 R3 R4 R5] _ _. by split. }
  intros [] k1 Hk1 _ ->. set (p1 := set_code (Some code) p).
  assert (Hp1 : PROCESSES (set_procs (<[pid := p1]> (PROCESSES k)) k) !! pid = Some p1)
    by (apply list_lookup_insert_eq; by eapply lookup_lt_Some).
  set (k1 := set_procs _ k) in *. wp_step. eapply wp_mono; [by apply proc_reads|]. intros q k' [-> ->].
  eapply (good_bind K A pan); [apply (good_update K A pan pid _ p1); [done|done|done|]|].
  { intros n m [R1 R2 R3 R4 R5] _ _. by split. }
  intros [] k2 Hk2 _ ->. set (p2 := set_exit_waiter None p1).
  assert (Hp2 : PROCESSES (set_procs (<[pid := p2]> (PROCESSES k1)) k1) !! pid = Some p2)
    by (apply list_lookup_insert_eq; by eapply lookup_lt_Some).
  assert (Ec : exit_codes (set_procs (<[pid := p2]> (PROCESSES k1)) k1) = <[pid := Some code]> (exit_codes k)).
  { unfold exit_codes. cbn [PROCESSES set_procs]. rewrite (codes_insert pid p1) by done.
    unfold k1. cbn [PROCESSES set_procs]. by rewrite list_fmap_insert. }
  destruct (p_exit_waiter p1); [|wp_steps; split; [by apply good_refl|done]].
  wp_step. eapply wp_mono; [by apply proc_reads|]. intros q k' [-> ->]. cbn [p2 p1 p_parent set_exit_waiter set_code].
  destruct (p_parent p) as [par|] eqn:Hpar; wp_steps; (split; [by apply good_refl|]); (split; [done|]); [|done].
  apply lookup_lt_is_Some. cbn [PROCESSES k1 set_procs]. rewrite !length_insert. by apply (rf_parent _ _ _ Hr).
Qed.

Lemma notify_exit_keeps pan pid p code k :
  Kbase k -> PROCESSES k !! pid = Some p ->
  wp pan (notify_exit pid code) (fun _ k' => good k k' /\ exit_codes k' = <[pid := Some code]> (exit_codes k)) k.
Proof.
  intros Hk Hp. unfold notify_exit.
  eapply (good_bind K A pan); [by apply (on_exit_keeps pan pid p)|].
  intros [[q tag]|] k1 Hk1 _ [Ec Ho]; [|wp_steps; split; [by apply good_refl|done]]. destruct Ho as [p1 Hp1].
  wp_step. eapply wp_mono; [by apply ring_pa_reads|]. intros page k' [-> ->].
  eapply (good_bind K A pan _ _ (fun _ k' => PROCESSES k' = PROCESSES k1)).
  - destruct (Z.eqb_spec (p_ring_pa p1) 0); [wp_steps; split; [by apply good_refl|done]|].
    by apply complete_good, (ring_data K A k1 q p1).
  - intros [] k2 Hk2 _ E2. eapply wp_mono; [apply (wake_waiter_keeps pan q p1); [done|by rewrite E2]|].
    intros [] k3 [Hg E3]. split; [done|]. rewrite E3. unfold exit_codes. by rewrite E2.
Qed.

Lemma clear_ring_keeps pan pid p k : Kbase k -> PROCESSES k !! pid = Some p -> keeps_kernel pan (abort_user pid) k.
Proof.
  intros Hk Hp. unfold abort_user, clear_ring. apply keeps_bind.
  { apply (keeps_update K A pan pid _ p); [done..|]. intros n m [R1 R2 R3 R4 R5] _ _. split; try done.
    intros r [? _]%elem_of_replicate. done. }
  intros [] k1 Hk1 Hx. destruct (kext_page _ _ _ _ Hx Hp) as (p1 & Hp1 & _).
  apply (keeps_update K A pan pid _ p1); [done..|]. intros n m [R1 R2 R3 R4 R5] _ _. by split.
Qed.

(** ** [SYS_RING_ENTER] *)

Lemma revive_poller_keeps pan page k :
  Kbase k -> page ∈ data_of (PROCESSES k) -> keeps_kernel pan (revive_poller page) k.
Proof.
  intros Hk Hpg. unfold revive_poller, ld32, KernelRing.keeps_kernel. wp_steps. destruct (negb _); [|by apply keeps_ret].
  apply keeps_bind; [eapply keeps_of, (store_good K A pan 4 page FLAGS); [done|done|unfold FLAGS; lia..]|].
  intros [] k1 Hk1 _. unfold KernelRing.keeps_kernel. wp_steps. destruct (poller k1) as [t|] eqn:Ht; [|by apply keeps_ret].
  destruct Hk1 as (T & l & Hk1). eapply keeps_of, wake_good; [by exists T, l|by apply (ki_poller _ _ _ _ _ Hk1)].
Qed.

(** A round of the wait loop returns at once, or parks the task. *)
Lemma enter_wait_kinv pan pid p page mc k :
  Kinv k -> runs k pid p -> wp pan (enter_wait pid page mc) (fun _ k' => Kinv k') k.
Proof.
  intros Hk Hr. pose proof (proj1 (Kinv_split _ _ _) Hk) as [Hb Hrun]. pose proof Hr as (Hne & Hp & _).
  unfold enter_wait, ld32. wp_steps. destruct (mc <=? _); [by wp_steps|]. wp_step.
  unfold in_sched at 1. apply wp_zoom. wp_steps. unfold current_task.
  replace (set_ks (ks k) k) with k by (by destruct k).
  eapply wp_mono.
  { apply (good_update K A pan pid _ p); [done|done|done|]. intros n m [R1 R2 R3 R4 R5] -> _. split; try done.
    intros t [= <-]. destruct Hb as (T & l & Hb). apply (ki_sched _ _ _ _ _ Hb). }
  intros [] k1 [Hg ->]. destruct (good_Kinv _ _ _ _ Hrun Hg) as (T & l & Hk1).
  wp_step. apply (wp_pan False); [done|]. eapply wp_mono; [by apply (block_kinv K A _ T l)|].
  intros [] k2 [Hk2 _]. wp_steps. by exists T, l.
Qed.

(** ** Draining *)

Section drain.
Context (PROGRAMS : list (list Z * list Z)) (tr ut : Z) (box : kernel -> option Z).
Hypothesis Hprogs : Forall image_ok PROGRAMS.*2.

Lemma drain_sq_keeps (pan : Prop) fuel pid p page head tail k :
  pan -> Kbase k -> PROCESSES k !! pid = Some p -> p_ring_pa p = page -> page <> 0 ->
  keeps_kernel pan (drain_sq PROGRAMS tr ut box fuel pid page head tail) k.
Proof.
  intros Hpan. revert head p k. induction fuel as [|fuel IH]; intros head p k Hk Hp Hpg Hne; cbn [drain_sq];
    (destruct (head =? tail); [by apply keeps_ret|]); [done|].
  apply keeps_bind; [apply (process_sqe_keeps K A PROGRAMS tr ut box Hprogs pan pid p); [done|done|congruence|done|done]|].
  intros [] k1 Hk1 Hx1. destruct (kext_page _ _ _ _ Hx1 Hp) as (p1 & Hp1 & Hc1).
  assert (Hr1 : p_ring_pa p1 = page) by (unfold core in Hc1; congruence).
  apply keeps_bind.
  { destruct (ring_data K A k1 pid p1 Hk1 Hp1 ltac:(congruence)) as [_ Hd]. rewrite Hr1 in Hd.
    eapply keeps_of. apply (store_good K A pan 4 page SQ_HEAD); [done|done|unfold SQ_HEAD; lia..]. }
  intros [] k2 Hk2 Hx2. destruct (kext_page _ _ _ _ Hx2 Hp1) as (p2 & Hp2 & Hc2).
  apply (IH _ p2); try done. unfold core in Hc2. congruence.
Qed.

Lemma drain_keeps (pan : Prop) pid p k :
  pan -> Kbase k -> PROCESSES k !! pid = Some p -> keeps_kernel pan (drain PROGRAMS tr ut box pid) k.
Proof.
  intros Hpan Hk Hp. unfold drain, KernelRing.keeps_kernel. wp_step. eapply wp_mono; [by apply ring_pa_reads|].
  intros page k' [-> ->]. destruct (Z.eqb_spec (p_ring_pa p) 0); [by apply keeps_ret|]. unfold ld32. wp_step. wp_step.
  wp_step. wp_step. apply keeps_bind; [by eapply drain_sq_keeps|]. intros [] k1 Hk1 _. by apply keeps_ret.
Qed.

Lemma enter_kinv (pan : Prop) mc k : pan -> Kinv k -> wp pan (enter PROGRAMS tr ut box mc) (fun _ k' => Kinv k') k.
Proof.
  intros Hpan Hk. pose proof (proj1 (Kinv_split _ _ _) Hk) as [Hb Hrun]. unfold enter. wp_step.
  eapply wp_mono; [by apply current_process_reads|]. intros [pid|] k' [-> Hc]; [|by wp_steps]. destruct Hc as [p Hr].
  pose proof Hr as (_ & Hp & _). wp_step. eapply wp_mono; [by apply ring_pa_reads|]. intros page k' [-> ->].
  destruct (Z.eqb_spec (p_ring_pa p) 0); [by wp_steps|]. destruct (ring_data K A k pid p Hb Hp) as [_ Hd]; [done|].
  wp_step. eapply wp_mono; [by apply revive_poller_keeps|]. intros [] k1 [[Hk1 Hx1] _].
  destruct (runs_ext _ _ _ _ Hr Hx1) as (p1 & Hr1 & _).
  wp_step. eapply wp_mono; [apply (drain_keeps pan pid p1); [done|done|apply Hr1]|]. intros b k2 [[Hk2 Hx2] _].
  destruct (runs_ext _ _ _ _ Hr1 Hx2) as (p2 & Hr2 & _). eapply enter_wait_kinv; [|exact Hr2].
  apply (good_Kinv K A k); [done|]. split; [done|]. by etransitivity.
Qed.
End drain.
End steps.
