(* ===== verification/KernelIrq.v ===== *)
(** * Interrupts and the kernel invariant

    The receive interrupt delivers input to the foreground process under that
    process's address space and puts the interrupted one back; the timer interrupt
    counts, wakes and switches. No interrupt can halt the kernel. *)

From Stdlib Require Import ZArith Lia.
From stdpp Require Import base numbers gmap list list_relations.
From S2P Require Import Prelude Memory Abi Frames Mmu PageTables AddressSpaces Reclaim Ownership.
From S2P Require Import VirtualMemory Isolation Sched Console Elf Loader Devices Process Text Ring User.
From S2P Require Import KernelInv KernelRing KernelSpawn KernelSteps.

Section irq.
Context (K A : gset Z).
Abbreviation Kinv := (Kinv K A).
Abbreviation Kbase := (Kbase K A).
Abbreviation good := (good K A).
Abbreviation keeps_kernel := (keeps_kernel K A).
Implicit Types (k : kernel) (pan : Prop).

(** ** Switching spaces *)

Definition kernel_root (k : kernel) (r : Z) : Prop :=
  root_of (mkVm (the_mmu k) (roots_of (PROCESSES k)) (data_of (PROCESSES k))) r.

(** Only TTBR0 and the record of it change. *)
Record moved (k : kernel) (r : Z) (k' : kernel) : Prop := {
  mv_state : k' = put_mmu (the_mmu k') k;
  mv_live : ttbr0_el1 (the_mmu k') = r;
  mv_mem : kernel_mem k' = kernel_mem k;
  mv_kroot : KERNEL_TTBR0 (the_mmu k') = KERNEL_TTBR0 (the_mmu k)
}.

Lemma activate_kbase pan r k T l :
  kbase K A k T l -> kernel_root k r ->
  wp pan (in_mmu (activate r)) (fun _ k' => kbase K A k' T l /\ moved k r k') k.
Proof.
  intros Hk Hr. unfold in_mmu. apply wp_zoom, (wp_known _ _ _ _ _ _ (activate_exec r (the_mmu k))).
  set (s' := exec (activate r) (the_mmu k)). pose proof (ki_vm _ _ _ _ _ Hk) as Hv.
  destruct (activate_fields r _ _ (activate_exec r (the_mmu k))) as [Hm Hkr]. fold s' in Hm, Hkr.
  pose proof (activate_step _ _ _ _ _ _ _ _ _ Hv Hr (activate_exec r (the_mmu k))) as Hv'. fold s' in Hv'.
  pose proof (activate_installs K A _ _ _ _ _ _ _ Hv Hr (activate_exec r (the_mmu k))) as Hl. fold s' in Hl.
  pose proof (ki_sched _ _ _ _ _ Hk) as [Hw Hi]. split; [|by split].
  apply (kbase_sched K A k T l (set_mmu s' (ks k))); [done|exact Hv'|exact Hm|exact Hkr|by apply view_tasks_step|done|done].
Qed.

Lemma live_kernel_root k : Kbase k -> kernel_root k (ttbr0_el1 (the_mmu k)).
Proof. intros (T & l & Hk). apply (vi_live _ _ _ _ _ (ki_vm _ _ _ _ _ Hk)). Qed.

Lemma kext_root k k' r : kext k k' -> kernel_root k r -> kernel_root k' r.
Proof.
  intros Hx [->|Hr]; [left; cbn [vs]; symmetry; apply (kx_kroot _ _ Hx)|right]. cbn [roots] in *.
  apply elem_of_roots_of in Hr as (pid & p & Hp & Ha & <-). destruct (kext_page _ _ _ _ Hx Hp) as (p' & Hp' & Hc).
  apply elem_of_roots_of. exists pid, p'. split; [done|]. split; [by eapply core_alive|]. unfold core in Hc. congruence.
Qed.

(** Moving to another space, working there and moving back is an operation of the
    first. *)
Lemma kext_moved k k1 k2 k3 r :
  moved k r k1 -> kext k1 k2 -> moved k2 (ttbr0_el1 (the_mmu k)) k3 -> kext k k3.
Proof.
  intros [E1 _ M1 R1] [P C T U _ R G W] [E3 L3 M3 R3].
  assert (E1' : PROCESSES k1 = PROCESSES k /\ SCHEDULER (ks k1) = SCHEDULER (ks k) /\ kgic k1 = kgic k) by (by rewrite E1).
  assert (E3' : PROCESSES k3 = PROCESSES k2 /\ SCHEDULER (ks k3) = SCHEDULER (ks k2) /\ kgic k3 = kgic k2) by (by rewrite E3).
  destruct E1' as (P1 & S1 & G1), E3' as (P3 & S3 & G3). rewrite P1, S1 in *.
  split; rewrite ?P3, ?S3, ?M3; try done; [congruence..|]. intros pid p va Hp Ha Hc. rewrite <-M1. by apply (W pid).
Qed.

(** ** The receive interrupt *)

Lemma clear_pending_keeps pan pid p i k :
  Kbase k -> PROCESSES k !! pid = Some p -> (i < MAX_PENDING)%nat -> keeps_kernel pan (clear_pending pid i) k.
Proof.
  intros Hk Hp Hi. pose proof Hk as (T & l & Hb). pose proof (rf_pending _ _ _ (ki_refs _ _ _ _ _ Hb pid p Hp)) as Hlen.
  unfold clear_pending, KernelRing.keeps_kernel. wp_step. eapply wp_mono; [by apply proc_reads|]. intros q k' [-> ->].
  destruct (lookup_lt_is_Some_2 (p_pending p) i) as [x Hx]; [by rewrite Hlen|]. rewrite Hx. wp_steps.
  apply (keeps_update K A pan pid _ p); [done|done|done|]. intros n m [R1 R2 R3 R4 R5] _ _.
  split; cbn [p_ring_pa p_foreground p_ring_waiter p_parent p_pending set_pending]; try done; [by rewrite length_insert|].
  intros r [j Hj]%list_elem_of_lookup. apply R5. apply list_lookup_insert_Some in Hj as [(_ & ? & _)|[_ Hj]]; [done|].
  by eapply list_elem_of_lookup_2.
Qed.

Lemma poll_slots_keeps pan pid p page i slots c k :
  Kbase k -> PROCESSES k !! pid = Some p -> p_ring_pa p = page -> page <> 0 -> (~ owns_live k p -> pan) ->
  (i + length slots <= MAX_PENDING)%nat ->
  (forall r, Some r ∈ slots -> 0 <= pbuf r /\ 0 <= plen r /\ pbuf r + plen r < 2 ^ 64) ->
  keeps_kernel pan (poll_slots pid page i slots c) k.
Proof.
  revert i c p k. induction slots as [|[r|] slots IH]; intros i c p k Hk Hp Hpg Hne Hpan Hi Hs; cbn [poll_slots length] in *.
  { by apply keeps_ret. }
  2: { apply (IH _ _ p); try done; [lia|]. intros r Hr. apply Hs. by right. }
  destruct (Hs r) as (Hb & Hl & Hov); [by left|].
  assert (Hs' : forall r, Some r ∈ slots -> 0 <= pbuf r /\ 0 <= plen r /\ pbuf r + plen r < 2 ^ 64) by (intros; apply Hs; by right).
  destruct (ring_data K A k pid p Hk Hp ltac:(congruence)) as [Ha Hd]. rewrite Hpg in Hd.
  eapply (good_bind K A pan); [by apply (drain_input_good K A pan pid p)|]. intros count k1 Hk1 Hx1 E1.
  assert (Hp1 : PROCESSES k1 !! pid = Some p) by (by rewrite E1).
  assert (Hpan1 : ~ owns_live k1 p -> pan) by (unfold owns_live in *; by rewrite (kx_live _ _ Hx1)).
  destruct (0 <? count); [|apply (IH _ _ p); try done; lia].
  apply keeps_bind; [apply keeps_complete; [done|by rewrite E1]|]. intros [] k2 Hk2 Hx2.
  destruct (kext_page _ _ _ _ Hx2 Hp1) as (p2 & Hp2 & Hc2).
  apply keeps_bind; [apply (clear_pending_keeps pan pid p2); [done|done|lia]|]. intros [] k3 Hk3 Hx3.
  destruct (kext_page _ _ _ _ Hx3 Hp2) as (p3 & Hp3 & Hc3). unfold core in Hc2, Hc3.
  apply (IH _ _ p3); try done; [congruence| |lia].
  unfold owns_live in *. rewrite (kx_live _ _ Hx3), (kx_live _ _ Hx2). intros Hn. apply Hpan1. congruence.
Qed.

(** Installing a space unless it is live already. *)
Lemma change_space pan r k :
  Kbase k -> kernel_root k r ->
  wp pan (if negb (ttbr0_el1 (the_mmu k) =? r) then in_mmu (activate r) else retM tt)
    (fun _ k' => Kbase k' /\ moved k r k') k.
Proof.
  intros (T & l & Hk) Hr. destruct (Z.eqb_spec (ttbr0_el1 (the_mmu k)) r) as [E|E]; cbn [negb].
  - wp_steps. split; [by exists T, l|]. by destruct k as [[] ? ? ? ? ?].
  - eapply wp_mono; [by eapply activate_kbase|]. intros [] k' [? ?]. split; [by exists T, l|done].
Qed.

Lemma poll_pending_keeps pan k : Kbase k -> keeps_kernel pan poll_pending k.
Proof.
  intros Hk. unfold poll_pending, KernelRing.keeps_kernel. wp_steps.
  destruct (foreground_pid k) as [pid|] eqn:Hf; [|by apply keeps_ret].
  destruct (position_lookup _ _ _ Hf) as (p & Hp & _).
  wp_step. eapply wp_mono; [by apply ring_pa_reads|]. intros page k' [-> ->].
  destruct (Z.eqb_spec (p_ring_pa p) 0) as [|Hne]; [by apply keeps_ret|].
  destruct (ring_data K A k pid p Hk Hp Hne) as [Ha _].
  wp_steps. eapply wp_mono; [by apply proc_ttbr0_reads|]. intros r k' [-> ->]. unfold current_ttbr0.
  wp_step. eapply wp_mono; [apply change_space; [done|]; right; apply elem_of_roots_of; eauto|].
  intros [] k1 [Hk1 Hm1]. assert (Hp1 : PROCESSES k1 !! pid = Some p) by (by rewrite (mv_state _ _ _ Hm1)).
  wp_step. unfold pending_snapshot. wp_step. eapply wp_mono; [by apply proc_reads|]. intros q k' [-> ->]. wp_steps.
  pose proof Hk as (T & l & Hb). destruct (ki_refs _ _ _ _ _ Hb pid p Hp) as [_ _ _ Hlen Hreads].
  eapply wp_mono.
  { apply (poll_slots_keeps pan pid p _ 0); try done; [|by rewrite Hlen]. intros []. apply (mv_live _ _ _ Hm1). }
  intros c k2 [[Hk2 Hx2] _]. rewrite Z.eqb_sym, <-(mv_live _ _ _ Hm1), <-(kx_live _ _ Hx2).
  wp_step. eapply wp_mono.
  { apply change_space; [done|]. eapply kext_root; [exact Hx2|]. destruct (live_kernel_root k Hk) as [E|Hin].
    - left. cbn [vs] in *. by rewrite E, (mv_kroot _ _ _ Hm1).
    - right. cbn [roots] in *. by rewrite (mv_state _ _ _ Hm1). }
  intros [] k3 [Hk3 Hm3]. pose proof (kext_moved _ _ _ _ _ Hm1 Hx2 Hm3) as Hx3.
  destruct (kext_page _ _ _ _ Hx3 Hp) as (p3 & Hp3 & _). destruct c.
  - eapply wp_mono; [by apply (wake_waiter_keeps K A pan pid p3)|]. intros [] k4 [[? ?] _].
    split; [|done]. split; [done|]. by etransitivity.
  - wp_steps. by split.
Qed.

(** ** The handler *)

(** The devices are outside the invariant. *)
Lemma kinv_devices k T l g tm : kinv K A k T l -> kinv K A (mkKernel (ks k) (PROCESSES k) (kcon k) (poller k) g tm) T l.
Proof. intros Hk. apply (kinv_tables K A k); try done; apply Hk. Qed.

Lemma drain_uart_keeps pan k : Kbase k -> wp pan (in_con drain_uart) (fun _ k' => good k k' /\ k' = set_con (kcon k') k) k.
Proof.
  intros Hk. eapply wp_mono.
  { apply (good_con K A pan _ (fun _ _ => True) k Hk). intros c Hc _. apply (wp_pan False); [done|].
    unfold drain_uart. wp_steps. eapply wp_mono; [by apply drain_loop_spec; [|lia]|]. intros [] c' (bs & Hd).
    split; [apply (dr_wf _ _ _ Hd)|done]. }
  by intros [] k' (? & ? & _).
Qed.

Lemma remove_first_head x (l : list Z) : remove_first x (x :: l) = l.
Proof. cbn [remove_first]. by rewrite Z.eqb_refl. Qed.

(** Every interrupt is handled to its end, whatever its number, and is not active
    any more when the handler leaves or switches. *)
Lemma handle_irq_wp intid k :
  Kinv k -> wp False (handle_irq intid) (fun _ k' => Kinv k' /\ active (kgic k') = active (kgic k)) k.
Proof.
  intros (T & l & Hk). unfold handle_irq. wp_step. unfold in_gic at 1, acknowledge. apply wp_zoom.
  destruct (is_spurious intid) eqn:Hs; wp_steps; rewrite Hs.
  { wp_steps. replace (set_gic _ _) with k by (by destruct k). by split; [exists T, l|]. }
  set (k1 := set_gic _ k).
  assert (Hk1 : kinv K A k1 T l) by (by apply kinv_devices).
  assert (Ha1 : active (kgic k1) = intid :: active (kgic k)) by done.
  destruct (intid =? TIMER_INTID).
  - wp_step. eapply wp_mono; [by apply (count_tick_kinv K A k1)|]. intros [] k2 [Hk2 [E2 _]].
    unfold in_timer, reload, in_gic, eoi. wp_steps.
    set (k3 := set_gic _ _). assert (Hk3 : kinv K A k3 T l) by exact (kinv_devices k2 T l _ _ Hk2).
    eapply wp_mono; [by apply (tick_kinv K A k3)|]. intros [] k4 [Hk4 [E4 _]]. split; [by exists T, l|].
    rewrite E4. cbn [kgic k3 set_gic set_timer set_ks active set_active]. rewrite E2. cbn [kgic set_ks].
    by rewrite Ha1, remove_first_head.
  - assert (Hb : wp False (if intid =? UART_INTID then in_con drain_uart ;;; poll_pending else retM tt)
      (fun _ k' => good k1 k' /\ True) k1).
    { assert (Hk1' : Kbase k1) by (exists T, l; apply Hk1). destruct (intid =? UART_INTID); [|by apply keeps_ret].
      eapply (good_bind K A False); [by apply drain_uart_keeps|]. intros [] k2 Hk2 _ _. by apply poll_pending_keeps. }
    wp_step. eapply wp_mono; [exact Hb|]. intros [] k2 [Hg _]. unfold in_gic, eoi. wp_steps.
    destruct (good_Kinv K A k1 k2 (ki_running _ _ _ _ _ Hk1) Hg) as (T2 & l2 & Hk2).
    split; [exists T2, l2; by apply kinv_devices|]. destruct Hg as [_ Hx].
    cbn [kgic set_gic active set_active]. by rewrite (kx_gic _ _ Hx), Ha1, remove_first_head.
Qed.
End irq.
