(* ===== verification/Interrupts.v ===== *)
(** * Interrupts and the lock of the process table

    The interrupt handler of kernel/src/exceptions.rs with every [PROCESSES.lock()]
    on its way: [poll_pending] of kernel/src/ring.rs and what it calls take the lock
    of kernel/src/process.rs for each look at the table. Interrupts are masked while
    the handler runs, so nothing releases a lock it finds held. The other locks it
    takes, of the scheduler and of the input buffer, are only taken with interrupts
    masked and never held when one arrives. *)

From Stdlib Require Import ZArith Lia.
From stdpp Require Import base numbers gmap list.
From S2P Require Import Prelude Sync Memory Mmu Sched Console Elf Devices Process Ring User.

(** ** Code that may spin *)

(** The kernel and whether the lock of the table is held; the result is [None] when
    the code is still waiting for it. *)
Definition L (B : Type) : Type := M (Locked kernel) (option B).

Definition retL {B} (b : B) : L B := retM (Some b).
Definition bindL {B C} (m : L B) (f : B -> L C) : L C :=
  let! o := m in match o with Some b => f b | None => retM None end.

Notation "'let?' x ':=' m 'in' k" := (bindL m (fun x => k))
  (at level 10, x pattern, m at level 100, k at level 200,
   format "'[v' 'let?'  x  ':='  m  'in' '/' k ']'") : jatuli_scope.

(** Code that takes no lock. *)
Definition plain {B} (m : M kernel B) : L B := let! b := deref m in retL b.

Section handler.
Context (spins : nat).

(** [PROCESSES.lock()], an access, and the end of the guard; after [spins] attempts
    that failed it is still waiting. *)
Definition holding {B} (m : M kernel B) : L B :=
  let! ok := lock spins in
  if ok then let! b := deref m in drop_guard ;;; retL b else retM None.

(** ** process.rs *)

Definition is_user_range_locking (pid : nat) (ptr len : Z) (need_write : bool) : L bool :=
  match checked_add ptr len with
  | None => retL false
  | Some e =>
      if (USER_STACK_VA <=? ptr) && (e <=? USER_STACK_VA + USER_STACK_SIZE) then retL true
      else holding (
        let! p := proc pid in
        let lo := p_loaded p in
        assertM (Nat.leb (Elf.count lo) (length (ranges lo))) ;;;
        retM (in_ranges (take (Elf.count lo) (ranges lo)) ptr e need_write))
  end.

(** ** user.rs and ring.rs *)

Definition copy_to_user_locking (pid : nat) (dst : Z) (src : list Z) : L bool :=
  let? ok := is_user_range_locking pid dst (Z.of_nat (length src)) true in
  if negb ok then retL false
  else let? _ := plain (copy_bytes dst 0 src) in retL true.

Fixpoint drain_bytes_locking (fuel : nat) (pid : nat) (buf len count : Z) : L Z :=
  match fuel with
  | O => panicM
  | S fuel' =>
      if count <? len then
        let? o := plain (in_con input_pop) in
        match o with
        | Some b =>
            let? a := plain (addM buf count) in
            let? ok := copy_to_user_locking pid a [b] in
            if negb ok then retL count
            else drain_bytes_locking fuel' pid buf len (count + 1)
        | None => retL count
        end
      else retL count
  end.

Definition drain_input_locking (pid : nat) (buf len : Z) : L Z :=
  let? k := plain getM in
  drain_bytes_locking (S (Console.count (INPUT (kcon k)))) pid buf len 0.

Fixpoint poll_slots_locking (pid : nat) (page : Z) (i : nat) (slots : list (option Pending)) (completed : bool) : L bool :=
  match slots with
  | [] => retL completed
  | None :: slots' => poll_slots_locking pid page (S i) slots' completed
  | Some p :: slots' =>
      let? count := drain_input_locking pid (pbuf p) (plen p) in
      if 0 <? count then
        let? _ := plain (complete page (puser_data p) count) in
        let? _ := holding (clear_pending pid i) in
        poll_slots_locking pid page (S i) slots' true
      else poll_slots_locking pid page (S i) slots' completed
  end.

Definition wake_waiter_locking (pid : nat) : L unit :=
  let? w := holding (take_waiter pid) in
  match w with Some t => plain (in_sched (wake t)) | None => retL tt end.

Definition poll_pending_locking : L unit :=
  let? fg := holding (getsM foreground_pid) in
  match fg with
  | None => retL tt
  | Some pid =>
      let? page := holding (ring_pa pid) in
      if page =? 0 then retL tt
      else
        let? prev := plain (getsM (fun k => current_ttbr0 (the_mmu k))) in
        let? fg := holding (proc_ttbr0 pid) in
        let? _ := if negb (prev =? fg) then plain (in_mmu (activate fg)) else retL tt in
        let? slots := holding (pending_snapshot pid) in
        let? completed := poll_slots_locking pid page 0 slots false in
        let? _ := if negb (prev =? fg) then plain (in_mmu (activate prev)) else retL tt in
        if completed then wake_waiter_locking pid else retL tt
  end.

(** ** exceptions.rs *)

Definition handle_irq_locking (intid : Z) : L unit :=
  let? i := plain (in_gic (acknowledge intid)) in
  if is_spurious i then retL tt
  else if i =? TIMER_INTID then
    let? _ := plain (in_sched count_tick) in
    let? _ := plain (in_timer reload) in
    let? _ := plain (in_gic (eoi i)) in
    plain (in_sched tick)
  else
    let? _ := if i =? UART_INTID then let? _ := plain (in_con drain_uart) in poll_pending_locking else retL tt in
    plain (in_gic (eoi i)).

(** ** A lock that is free *)

(** With the lock in state [b], [ml] does what [m] does and leaves the lock so. *)
Definition follows {B} (b : bool) (ml : L B) (m : M kernel B) : Prop :=
  forall k, ml (mkLocked b k) = match m k with Ret (x, k') => Ret (Some x, mkLocked b k') | Panic => Panic end.

Lemma follows_ret {B} b (x : B) : follows b (retL x) (retM x).
Proof. by intros k. Qed.

Lemma follows_bind {B C} b ml (m : M kernel B) fl (f : B -> M kernel C) :
  follows b ml m -> (forall x, follows b (fl x) (f x)) -> follows b (bindL ml fl) (bindM m f).
Proof. intros Hm Hf k. unfold bindL, bindM. rewrite Hm. destruct (m k) as [[x k']|]; [apply Hf|done]. Qed.

Lemma bindM_run {B C} (m : M kernel B) (f : B -> M kernel C) x k k1 : m k = Ret (x, k1) -> bindM m f k = f x k1.
Proof. intros E. unfold bindM. by rewrite E. Qed.

Lemma bindL_run {B C} b ml (m : M kernel B) (fl : B -> L C) x k k1 :
  follows b ml m -> m k = Ret (x, k1) -> bindL ml fl (mkLocked b k) = fl x (mkLocked b k1).
Proof. intros Hm E. unfold bindL, bindM. by rewrite Hm, E. Qed.

Lemma follows_plain {B} b (m : M kernel B) : follows b (plain m) m.
Proof. intros k. unfold plain, deref, zoomM, bindM. cbn [inner]. by destruct (m k) as [[x k']|]. Qed.

Lemma follows_holding {B} (m : M kernel B) : follows false (holding m) m.
Proof.
  intros k. unfold holding, bindM at 1. replace (lock spins (mkLocked false k)) with (Ret (true, mkLocked true k)) by (by destruct spins).
  unfold deref, zoomM, bindM. cbn [inner]. by destruct (m k) as [[x k']|].
Qed.

(** A lock that is held is not obtained. *)
Lemma holding_held {B} (m : M kernel B) k : holding m (mkLocked true k) = Ret (None, mkLocked true k).
Proof. unfold holding, bindM at 1. by rewrite lock_held. Qed.
End handler.

Create HintDb locking.
#[export] Hint Resolve follows_ret follows_plain follows_holding : locking.
Ltac follow := repeat (first
  [ progress eauto with locking
  | apply follows_bind; [|intros ?]
  | case_match ]).

Section equal.
Context (spins : nat).
Abbreviation follows := (follows false).

Lemma is_user_range_follows pid ptr len w : follows (is_user_range_locking spins pid ptr len w) (is_user_range pid ptr len w).
Proof. unfold is_user_range_locking, is_user_range. follow. Qed.
#[local] Hint Resolve is_user_range_follows : locking.

Lemma copy_to_user_follows pid dst src : follows (copy_to_user_locking spins pid dst src) (copy_to_user pid dst src).
Proof. unfold copy_to_user_locking, copy_to_user. follow. Qed.
#[local] Hint Resolve copy_to_user_follows : locking.

Lemma drain_bytes_follows fuel pid buf len count :
  follows (drain_bytes_locking spins fuel pid buf len count) (drain_bytes fuel pid buf len count).
Proof. revert count. induction fuel as [|fuel IH]; intros count; [by intros k|]. cbn [drain_bytes_locking drain_bytes]. follow. Qed.
#[local] Hint Resolve drain_bytes_follows : locking.

Lemma drain_input_follows pid buf len : follows (drain_input_locking spins pid buf len) (drain_input pid buf len).
Proof. unfold drain_input_locking, drain_input. follow. Qed.
#[local] Hint Resolve drain_input_follows : locking.

Lemma poll_slots_follows pid page slots i c :
  follows (poll_slots_locking spins pid page i slots c) (poll_slots pid page i slots c).
Proof. revert i c. induction slots as [|[r|] slots IH]; intros i c; cbn [poll_slots_locking poll_slots]; follow. Qed.
#[local] Hint Resolve poll_slots_follows : locking.

Lemma wake_waiter_follows pid : follows (wake_waiter_locking spins pid) (wake_waiter pid).
Proof. unfold wake_waiter_locking, wake_waiter. follow. Qed.
#[local] Hint Resolve wake_waiter_follows : locking.

Lemma poll_pending_follows : follows (poll_pending_locking spins) poll_pending.
Proof. unfold poll_pending_locking, poll_pending. follow. Qed.
#[local] Hint Resolve poll_pending_follows : locking.

(** The controller answers with the interrupt, which is active from then on. *)
Lemma acknowledge_answers intid k :
  exists k', in_gic (acknowledge intid) k = Ret (intid, k') /\
    (is_spurious intid = false -> active (kgic k') = intid :: active (kgic k)).
Proof.
  unfold in_gic, acknowledge, zoomM, bindM. destruct (is_spurious intid); eexists; split; by try reflexivity.
Qed.

(** Free, or not asked for, the lock makes no difference. *)
Lemma handle_irq_follows b intid :
  b = false \/ intid <> UART_INTID -> Interrupts.follows b (handle_irq_locking spins intid) (handle_irq intid).
Proof.
  intros Hb k. unfold handle_irq_locking, handle_irq. destruct (acknowledge_answers intid k) as (k1 & E & _).
  rewrite (bindL_run b _ _ _ _ _ _ (follows_plain b _) E), (bindM_run _ _ _ _ _ E). revert k1 E.
  match goal with |- forall k1, _ -> ?ml _ = match ?m _ with _ => _ end =>
    assert (H : Interrupts.follows b ml m); [|intros k1 _; exact (H k1)] end.
  destruct (Z.eqb_spec intid UART_INTID) as [->|Hne]; [destruct Hb as [->|]; [|done]|]; follow.
Qed.

(** Held, it stops the receive interrupt for ever, before it is completed. *)
Lemma handle_irq_stuck k k' :
  handle_irq UART_INTID k = Ret (tt, k') ->
  exists k1, handle_irq_locking spins UART_INTID (mkLocked true k) = Ret (None, mkLocked true k1) /\
    active (kgic k1) = UART_INTID :: active (kgic k).
Proof.
  destruct (acknowledge_answers UART_INTID k) as (k1 & E & Ha). specialize (Ha eq_refl). unfold handle_irq.
  rewrite (bindM_run _ _ _ _ _ E). intros ([] & _ & ([] & k2 & E2 & _)%bind_run & _)%bind_run.
  exists k2. unfold handle_irq_locking. rewrite (bindL_run true _ _ _ _ _ _ (follows_plain true _) E).
  cbn [is_spurious]. change (is_spurious UART_INTID) with false. cbv iota. change (UART_INTID =? TIMER_INTID) with false.
  change (UART_INTID =? UART_INTID) with true. cbv iota. split.
  - unfold bindL at 1. unfold bindM at 1. rewrite (bindL_run true _ _ _ _ _ _ (follows_plain true _) E2).
    unfold poll_pending_locking, bindL at 1. unfold bindM at 1. by rewrite holding_held.
  - unfold in_con, zoomM in E2. destruct (drain_uart (kcon k1)) as [[[] c]|]; [|done]. by injection E2 as <-.
Qed.
End equal.
