(* ===== verification/KernelExit.v ===== *)
(** * The end of a process

    [teardown] of user.rs: the frames of the process that runs, its page tables
    and its entry in the table. Everything goes back to the pool, nobody else
    notices, and the kernel cannot fail at it. *)

From Stdlib Require Import ZArith Lia String.
From stdpp Require Import base numbers gmap strings list list_relations.
From S2P Require Import Prelude Memory Abi Frames Mmu PageTables AddressSpaces Reclaim Ownership.
From S2P Require Import VirtualMemory Isolation Sched Console Elf Loader Devices Process Text Ring User.
From S2P Require Import KernelInv KernelRing KernelSpawn KernelSteps KernelIrq.

(** ** Unmapping and freeing the pages *)

(** A data frame goes back to the pool: no table and no other frame changes. *)
Lemma release_run K A s R D f T l :
  vm_inv K A (mkVm s R D) T l -> f ∈ D -> unshared (mkVm s R D) f ->
  wp False (in_phys (free_frame f)) (fun _ s' =>
    vm_inv K A (mkVm s' R (D ∖ {[f]})) T (f :: l) /\
    (forall r va, T !! r = Some O -> hw_walk (mem_of s') 3 r va = hw_walk (mem_of s) 3 r va) /\
    only_frame f (mem_of s) (mem_of s') /\ s' = set_ph (ph s') s) s.
Proof.
  intros Hv Hf Hun. pose proof (vi_mm _ _ _ _ _ Hv) as Hmm. pose proof (mi_pool _ _ _ Hmm) as Hp. cbn [vs] in Hmm, Hp.
  destruct (vi_data _ _ _ _ _ Hv f Hf) as (Hfv & HfT & Hfl).
  destruct (wp_result _ _ _ (free_frame_spec _ _ _ Hp Hfv Hfl)) as ([] & p' & Hrun & Hp' & Hram).
  assert (Hr : in_phys (free_frame f) s = Ret (tt, set_ph p' s)) by (unfold in_phys, zoomM; by rewrite Hrun).
  apply (wp_known _ _ _ _ _ _ Hr). destruct (release_step _ _ _ _ _ _ _ _ _ Hv Hf Hun Hr) as [l' Hv'].
  assert (l' = f :: l) as -> by (eapply free_inv_inj; [apply (vi_mm _ _ _ _ _ Hv')|exact Hp']).
  assert (Ho : only_frame f (mem_of s) (ram p')).
  { rewrite Hram. replace f with (f + 8 * 0) at 2 by lia. by apply only_frame_write. }
  split; [done|]. split; [|done]. intros r va. cbn [mem_of ph set_ph]. apply (same_tables s T l _ Hmm).
  intros t lv i Ht Hi. apply (only_frame_entry f); [done|done|by eapply table_valid|congruence|done].
Qed.

Section release.
Context (K A R Drest : gset Z) (r : Z).
Hypothesis Hr : r ∈ R.

(** The pages [ps] of the space [r] are still to be released; [Drest] are the
    frames of the others. *)
Record releasing (s : mmu) (ps : list (Z * Z)) (T : gmap Z nat) (l : list Z) : Prop := {
  re_vm : vm_inv K A (mkVm s R (list_to_set ps.*2 ∪ Drest)) T l;
  re_live : ttbr0_el1 s = r;
  re_only : forall va n e, canonical va -> hw_walk (mem_of s) 3 r va = Some (n, e) -> el0_access e = true ->
    exists va0, (va0, next_table e) ∈ ps /\ va0 / 4096 = va / 4096;
  re_other : forall r' va n e, root_of (mkVm s R Drest) r' -> r' <> r -> canonical va ->
    hw_walk (mem_of s) 3 r' va = Some (n, e) -> el0_access e = true -> next_table e ∈ Drest;
  re_user : forall va f, (va, f) ∈ ps -> 2 ^ 39 <= va < 2 ^ 40;
  re_frames : NoDup ps.*2;
  re_rest : forall f, f ∈ ps.*2 -> f ∉ Drest
}.

(** What the loop leaves alone. *)
Record apart (s s' : mmu) (T : gmap Z nat) : Prop := {
  ap_hw : forall r' va, T !! r' = Some O -> r' <> r -> canonical va ->
    hw_walk (mem_of s') 3 r' va = hw_walk (mem_of s) 3 r' va;
  ap_data : forall g, g ∈ Drest -> same_on (mem_of s) (mem_of s') g FRAME_SIZE;
  ap_regs : s' = set_ph (ph s') s
}.

Lemma apart_trans s1 s2 s3 T : apart s1 s2 T -> apart s2 s3 T -> apart s1 s3 T.
Proof.
  intros [H1 D1 R1] [H2 D2 R2]. split.
  - intros r' va Hr' Hne Hc. by rewrite H2, H1.
  - intros g Hg b Hb. by rewrite (D2 g Hg b Hb), (D1 g Hg b Hb).
  - rewrite R2, R1. done.
Qed.

Lemma release_page s va f ps T l :
  releasing s ((va, f) :: ps) T l ->
  wp False (unmap_page va ;;; in_phys (free_frame f)) (fun _ s' => releasing s' ps T (f :: l) /\ apart s s' T) s.
Proof.
  intros [Hv Hl Ho Hot Hus Hnd Hre]. pose proof (vi_mm _ _ _ _ _ Hv) as Hmm. cbn [vs fmap list_fmap snd] in *.
  assert (Hroot : T !! r = Some O) by (apply (vi_roots _ _ _ _ _ Hv); by right).
  assert (Hva : 2 ^ 39 <= va < 2 ^ 40) by (apply (Hus va f); by left).
  assert (Hc : canonical va) by (unfold canonical; lia).
  apply NoDup_cons in Hnd as [Hf Hnd]. unfold unmap_page. wp_steps.
  assert (El : live_l0 s = r) by (unfold live_l0, current_ttbr0; rewrite Hl; apply l0_ptr_root; by eapply table_valid).
  rewrite El. eapply wp_mono; [by apply wp_eq, (unmap_page_in_spec s T l r va Hmm)|]. intros [] s1 [Hrun [_ _ _ Hhw Hmem Hregs]].
  pose proof (unmap_step _ _ _ _ _ _ _ _ _ _ Hv Hr Hc Hrun) as Hv1.
  assert (Hoth : forall r' va', T !! r' = Some O -> r' <> r -> canonical va' ->
    hw_walk (mem_of s1) 3 r' va' = hw_walk (mem_of s) 3 r' va').
  { intros r' va' Hr' Hne Hc'. rewrite Hhw by done. rewrite decide_False; [done|].
    rewrite hits_user by lia. by intros [? _]. }
  assert (Hown : forall va' n e, canonical va' -> hw_walk (mem_of s1) 3 r va' = Some (n, e) -> el0_access e = true ->
    exists va0, (va0, next_table e) ∈ ps /\ va0 / 4096 = va' / 4096).
  { intros va' n e Hc' Hw Ha. pose proof Hw as Hw'. rewrite Hhw in Hw by done. case_decide as Hd.
    - destruct (vi_el0 _ _ _ _ _ Hv1 r va' n e) as [-> _]; [by right|done|done|done|].
      by destruct (hw_walk (mem_of s) 3 r va) as [[[|n'] e']|].
    - destruct (Ho va' n e Hc' Hw Ha) as (va0 & [[= -> Hf0]|Hin]%elem_of_cons & Hpg); [|eauto].
      destruct Hd. apply hits_user; [lia|]. by split. }
  assert (Hroots : forall r', root_of (mkVm s1 R Drest) r' -> root_of (mkVm s R Drest) r' /\ T !! r' = Some O).
  { intros r' Hr'. assert (root_of (mkVm s R Drest) r') by (unfold root_of in *; cbn in *; by rewrite Hregs in Hr').
    split; [done|]. apply (vi_roots _ _ _ _ _ Hv). done. }
  eapply wp_mono.
  { apply (release_run K A s1 R _ f T l Hv1); [apply elem_of_union; left; apply elem_of_list_to_set; by left|].
    intros r' va' n e Hr' Hc' Hw Ha E. destruct (Hroots r' Hr') as [Hr0 HrT]. destruct (decide (r' = r)) as [->|Hne].
    - destruct (Hown va' n e Hc' Hw Ha) as (va0 & Hin & _). apply Hf, list_elem_of_fmap. exists (va0, next_table e).
      split; [by symmetry|done].
    - rewrite Hoth in Hw by done. apply (Hre f); [by left|]. rewrite <-E. by apply (Hot r' va' n e). }
  intros [] s2 (Hv2 & Hhw2 & Hof & Hregs2).
  assert (HD : (list_to_set (f :: ps.*2) ∪ Drest) ∖ {[f]} = (list_to_set ps.*2 ∪ Drest : gset Z)).
  { assert (f ∉ Drest) by (apply Hre; by left). apply set_eq. intros x.
    rewrite elem_of_difference, !elem_of_union, elem_of_singleton, !elem_of_list_to_set, elem_of_cons.
    split; [tauto|]. intros Hx. split; [tauto|]. intros ->. tauto. }
  rewrite HD in Hv2. pose proof (vi_data _ _ _ _ _ Hv1 f) as [Hfv _]; [apply elem_of_union; left; apply elem_of_list_to_set; by left|].
  split; split.
  - done.
  - by rewrite Hregs2, Hregs.
  - intros va' n e Hc'. rewrite Hhw2 by done. by apply Hown.
  - intros r' va' n e Hr' Hne Hc'. destruct (Hroots r') as [Hr0 HrT]; [unfold root_of in *; cbn in *; by rewrite Hregs2 in Hr'|].
    rewrite Hhw2, Hoth by done. by apply Hot.
  - intros va' f' Hin. apply (Hus va' f'). by right.
  - done.
  - intros x Hx. apply Hre. by right.
  - intros r' va' Hr' Hne Hc'. by rewrite Hhw2, Hoth.
  - intros g Hg b Hb. assert (HgD : g ∈ list_to_set (f :: ps.*2) ∪ Drest) by (apply elem_of_union; by right).
    destruct (vi_data _ _ _ _ _ Hv1 g HgD) as (Hgv & HgT & _).
    rewrite (only_frame_other f _ _ g Hof Hfv Hgv); [|intros ->; by apply (Hre g); [left|]|done]. by apply (Hmem g).
  - rewrite Hregs2, Hregs. done.
Qed.

Lemma release_pages_spec s ps T l :
  releasing s ps T l ->
  wp False (release_pages ps) (fun _ s' => releasing s' [] T (reverse ps.*2 ++ l) /\ apart s s' T) s.
Proof.
  revert s l. induction ps as [|[va f] ps IH]; intros s l Hs; cbn [release_pages].
  { wp_steps. split; [done|]. split; [done|by intros|by destruct s]. }
  pose proof (release_page s va f ps T l Hs) as H. apply wp_bind. unfold wp in *. unfold bindM in H.
  destruct (unmap_page va s) as [[[] s1]|]; [|done]. unfold bindM.
  destruct (in_phys (free_frame f) s1) as [[[] s2]|]; [|done]. destruct H as [Hre Hap].
  specialize (IH s2 _ Hre). unfold wp in IH. destruct (release_pages ps s2) as [[[] s3]|]; [|done].
  destruct IH as [H3 Ha3]. split; [|by eapply apart_trans].
  cbn [fmap list_fmap snd]. by rewrite reverse_cons, <-app_assoc.
Qed.
End release.

(** ** Page tables *)

Definition rest_of (k : kernel) (p : Process) : gset Z := data_of (PROCESSES k) ∖ list_to_set (p_frames p).*2.

(** The memory of the process is reclaimed. *)
Record reclaimed (K A : gset Z) (k : kernel) (p : Process) (l : list Z) (s' : mmu) (T' : gmap Z nat) (l' : list Z) : Prop := {
  rc_vm : vm_inv K A (mkVm s' (roots_of (PROCESSES k) ∖ {[p_ttbr0 p]}) (rest_of k p)) T' l';
  rc_hw : forall r va, kernel_root k r -> r <> p_ttbr0 p -> canonical va ->
    hw_walk (mem_of s') 3 r va = hw_walk (kernel_mem k) 3 r va;
  rc_data : forall g, g ∈ rest_of k p -> same_on (kernel_mem k) (mem_of s') g FRAME_SIZE;
  rc_kroot : KERNEL_TTBR0 s' = KERNEL_TTBR0 (the_mmu k);
  rc_live : ttbr0_el1 s' = KERNEL_TTBR0 (the_mmu k);
  rc_pool : forall f, f ∈ l \/ f ∈ (p_frames p).*2 \/ f = p_ttbr0 p -> f ∈ l'
}.

Section reclaim.
Context (K A : gset Z) (k : kernel) (T : gmap Z nat) (l : list Z) (pid : nat) (p : Process).
Hypothesis Hk : kbase K A k T l.
Hypothesis Hp : PROCESSES k !! pid = Some p.
Hypothesis Ha : alive p.
Hypothesis Hlive : ttbr0_el1 (the_mmu k) = p_ttbr0 p.

Lemma owned_data f : f ∈ (p_frames p).*2 -> f ∈ data_of (PROCESSES k).
Proof. intros Hf. apply elem_of_data_of. eauto. Qed.

(** What EL0 sees in a process's space are the process's own frames. *)
Lemma space_shows i q va n e :
  PROCESSES k !! i = Some q -> alive q -> canonical va -> hw_walk (kernel_mem k) 3 (p_ttbr0 q) va = Some (n, e) ->
  el0_access e = true -> exists va0, (va0, next_table e) ∈ p_frames q /\ va0 / 4096 = va / 4096.
Proof.
  intros Hq Hqa Hc Hw He. pose proof (ki_procs _ _ _ _ _ Hk i q Hq Hqa) as [H1 H2 _ _ _ _ _ _].
  destruct (H2 va n e Hc Hw He) as (va0 & f & Hin & Hpg). destruct (H1 va0 f Hin) as (_ & perms & Hu & Hm).
  rewrite (Hm va Hc (eq_sym Hpg)) in Hw. injection Hw as <- <-. exists va0. split; [|done].
  assert (Hf : valid_frame f).
  { apply (vi_data _ _ _ _ _ (ki_vm _ _ _ _ _ Hk)), elem_of_data_of. exists i, q. split; [done|].
    apply list_elem_of_fmap. by exists (va0, f). }
  unfold next_table. by rewrite (proj1 (proj2 (proj2 (page_desc_ok _ _ (page_ok_user _ _ Hf Hu))))).
Qed.

Lemma data_split : list_to_set (p_frames p).*2 ∪ rest_of k p = data_of (PROCESSES k).
Proof.
  unfold rest_of. symmetry. apply union_difference_L. intros f Hf%elem_of_list_to_set. by apply owned_data.
Qed.

Lemma start_releasing : releasing K A (roots_of (PROCESSES k)) (rest_of k p) (p_ttbr0 p) (the_mmu k) (p_frames p) T l.
Proof.
  pose proof (ki_procs _ _ _ _ _ Hk pid p Hp Ha) as Hw. split.
  - rewrite data_split. apply Hk.
  - done.
  - intros va n e. by apply (space_shows pid p).
  - intros r' va n e [->|Hr']; cbn [vs roots] in *.
    + intros _ Hc Hwk He. by rewrite (ki_kroot _ _ _ _ _ Hk va n e) in He.
    + apply elem_of_roots_of in Hr' as (i & q & Hq & Hqa & <-). intros Hne Hc Hwk He.
      destruct (space_shows i q va n e Hq Hqa Hc Hwk He) as (va0 & Hin & _).
      assert (Hf : next_table e ∈ (p_frames q).*2) by (apply list_elem_of_fmap; by exists (va0, next_table e)).
      unfold rest_of. apply elem_of_difference. split; [apply elem_of_data_of; eauto|]. intros Hf'%elem_of_list_to_set.
      assert (i = pid) as -> by (by eapply (ki_disj _ _ _ _ _ Hk)). congruence.
  - intros va f Hin. by apply (pw_pages _ _ Hw) in Hin as [? _].
  - apply (pw_nodup _ _ Hw).
  - unfold rest_of. intros f Hf [_ Hn]%elem_of_difference. apply Hn. by apply elem_of_list_to_set.
Qed.

Lemma reclaim_run :
  wp False (release_pages (p_frames p) ;;; let! kr := getsM kernel_ttbr0 in activate kr ;;; free_address_space (p_ttbr0 p))
    (fun _ s' => exists T' l', reclaimed K A k p l s' T' l') (the_mmu k).
Proof.
  assert (Hr : p_ttbr0 p ∈ roots_of (PROCESSES k)) by (apply elem_of_roots_of; eauto).
  pose proof (kernel_root_ne K A k T l pid p Hk Hp Ha) as Hkn. pose proof (ki_vm _ _ _ _ _ Hk) as Hv.
  wp_step. eapply wp_mono; [exact (release_pages_spec K A _ (rest_of k p) _ Hr _ _ T l start_releasing)|].
  intros [] s1 [[Hv1 _ _ _ _ _ _] [Hhw1 Hd1 Hr1]]. cbn [fmap list_fmap list_to_set] in Hv1. rewrite union_empty_l_L in Hv1.
  assert (Ekr : KERNEL_TTBR0 s1 = KERNEL_TTBR0 (the_mmu k)) by (by rewrite Hr1). rewrite <-Ekr in *.
  assert (Hkr : root_of (mkVm s1 (roots_of (PROCESSES k)) (rest_of k p)) (KERNEL_TTBR0 s1)) by (by left).
  wp_steps. unfold kernel_ttbr0. apply (wp_known _ _ _ _ _ _ (activate_exec _ s1)). set (s2 := exec _ s1).
  destruct (activate_fields _ _ _ (activate_exec (KERNEL_TTBR0 s1) s1)) as [Hm2 Hk2]. fold s2 in Hm2, Hk2.
  pose proof (activate_step _ _ _ _ _ _ _ _ _ Hv1 Hkr (activate_exec _ s1)) as Hv2. fold s2 in Hv2.
  pose proof (activate_installs K A _ _ _ _ _ _ _ Hv1 Hkr (activate_exec _ s1)) as Hl2. fold s2 in Hl2.
  pose proof (vi_mm _ _ _ _ _ Hv2) as Hmm2. cbn [vs] in Hmm2.
  assert (HrT : T !! p_ttbr0 p = Some O) by (apply (vi_roots _ _ _ _ _ Hv2); by right).
  eapply wp_mono; [by apply wp_eq, (free_address_space_spec s2 T _ (p_ttbr0 p) Hmm2)|].
  intros [] s3 [Hrun (Hmm3 & Hhw3 & Hd3 & Hr3)]. cbv zeta in *.
  destruct (reclaim_step _ _ _ _ _ _ _ _ _ Hv2 Hr ltac:(congruence) Hrun) as (T3 & l3 & Hv3).
  assert (l3 = reverse (space_tables (mem_of s2) (p_ttbr0 p)) ++ reverse (p_frames p).*2 ++ l) as ->
    by (eapply free_inv_inj; [apply (vi_mm _ _ _ _ _ Hv3)|apply Hmm3]).
  exists T3, (reverse (space_tables (mem_of s2) (p_ttbr0 p)) ++ reverse (p_frames p).*2 ++ l). split.
  - exact Hv3.
  - intros r va Hkr' Hne Hc. assert (HT : T !! r = Some O) by (by apply (vi_roots _ _ _ _ _ Hv)).
    rewrite Hhw3, Hm2 by done. by apply Hhw1.
  - intros g Hg b Hb. destruct (vi_data _ _ _ _ _ Hv2 g Hg) as (Hgv & HgT & _).
    rewrite (Hd3 g Hgv); [rewrite Hm2; by apply (Hd1 g)| |done]. intros Hin.
    assert (is_Some (T !! g)) as [? ?] by (apply (vi_own _ _ _ _ _ Hv2); right; eauto). congruence.
  - by rewrite Hr3, <-Ekr.
  - by rewrite Hr3, <-Ekr.
  - intros f Hf. rewrite !elem_of_app, !elem_of_reverse. destruct Hf as [?|[?| ->]]; [tauto|tauto|].
    left. apply elem_of_space_tables. by left.
Qed.
End reclaim.

(** ** The husk *)

Definition husk (p : Process) : Process := set_fg false (set_ring_pa 0 (set_frames [] p)).

Definition gone (s : mmu) (pid : nat) (p : Process) (k : kernel) : kernel :=
  mkKernel (set_mmu s (ks k)) (<[pid := husk p]> (PROCESSES k)) (kcon k) (poller k) (kgic k) (ktimer k).

Section gone.
Context (K A : gset Z) (k : kernel) (T : gmap Z nat) (l : list Z) (pid : nat) (p : Process).
Context (s : mmu) (T' : gmap Z nat) (l' : list Z).
Hypothesis Hk : kbase K A k T l.
Hypothesis Hruns : runs k pid p.
Hypothesis Hrc : reclaimed K A k p l s T' l'.

Lemma gone_lookup i q : <[pid := husk p]> (PROCESSES k) !! i = Some q ->
  i = pid /\ q = husk p \/ i <> pid /\ PROCESSES k !! i = Some q.
Proof.
  destruct Hruns as (_ & Hp & _). destruct (decide (i = pid)) as [->|Hne].
  - rewrite list_lookup_insert_eq by (by eapply lookup_lt_Some). intros [= <-]. by left.
  - rewrite list_lookup_insert_ne by done. by right.
Qed.

Lemma husk_dead : ~ alive (husk p).
Proof. unfold alive. cbn. tauto. Qed.

Lemma gone_sets :
  roots_of (<[pid := husk p]> (PROCESSES k)) = roots_of (PROCESSES k) ∖ {[p_ttbr0 p]} /\
  data_of (<[pid := husk p]> (PROCESSES k)) = rest_of k p.
Proof.
  pose proof Hruns as (_ & Hp & Ha & _). unfold rest_of.
  split; apply set_eq; intros x; rewrite elem_of_difference, ?elem_of_singleton, ?elem_of_list_to_set, ?elem_of_roots_of, ?elem_of_data_of; split.
  - intros (i & q & [[-> ->]|[Hne Hq]]%gone_lookup & Hqa & <-); [by destruct husk_dead|]. split; [eauto|].
    intros E. by apply Hne, (ki_roots _ _ _ _ _ Hk i pid q p).
  - intros [(i & q & Hq & Hqa & <-) Hne]. exists i, q. split; [|done]. rewrite list_lookup_insert_ne; [done|].
    intros ->. congruence.
  - intros (i & q & [[-> ->]|[Hne Hq]]%gone_lookup & Hf); [by apply elem_of_nil in Hf|]. split; [eauto|].
    intros Hf'. by apply Hne, (ki_disj _ _ _ _ _ Hk i pid q p x).
  - intros [(i & q & Hq & Hf) Hn]. exists i, q. split; [|done]. rewrite list_lookup_insert_ne; [done|].
    intros ->. replace p with q in Hn by congruence. done.
Qed.

Abbreviation cur := (current (SCHEDULER (ks k))).

(** With the task gone as well, the invariant holds again. *)
Lemma gone_kbase : kbase K A (with_task (set_state Exited) cur (gone s pid p k)) T' l'.
Proof.
  destruct gone_sets as [ER ED]. pose proof Hruns as (Hne0 & Hp & Ha & t0 & Ht0 & Hs0 & Hpr0 & _).
  pose proof (kernel_root_ne K A k T l pid p Hk Hp Ha) as Hkn. destruct Hrc as [Rv Rh _ Rk _ _].
  assert (Htk : forall i t, alter (set_state Exited) cur (tasks (SCHEDULER (ks k))) !! i = Some t -> state t <> Exited ->
    tasks (SCHEDULER (ks k)) !! i = Some t /\ i <> cur).
  { intros i t Ht Hs. destruct (decide (i = cur)) as [->|Hi].
    - rewrite list_lookup_alter_eq, Ht0 in Ht. injection Ht as <-. done.
    - by rewrite list_lookup_alter_ne in Ht by done. }
  destruct Hk as [H1 H2 H3 H4 H5 H6 H7 H8 H9 H10 H11 H12].
  split; unfold kernel_mem, the_mmu; cbn [with_task gone ks PROCESSES kcon poller set_ks set_sched set_mmu kmmu SCHEDULER alter_task tasks current];
    rewrite ?length_insert, ?length_alter; try done.
  - by rewrite ER, ED.
  - intros va n e Hc. rewrite Rk, Rh; [by apply H2|by left|done|done].
  - intros i q [[-> ->]|[Hne Hq]]%gone_lookup Hqa; [by destruct husk_dead|].
    eapply proc_wf_ext; [|by apply (H3 i)]. intros va Hc. apply Rh; [right; apply elem_of_roots_of; eauto| |done].
    intros E. by apply Hne, (H5 i pid q p).
  - intros i j q1 q2 f [[-> ->]|[Hni Hi]]%gone_lookup [[-> ->]|[Hnj Hj]]%gone_lookup Hf1 Hf2; [done| | |by eapply H4];
      [by apply elem_of_nil in Hf1|by apply elem_of_nil in Hf2].
  - intros i j q1 q2 [[-> ->]|[Hni Hi]]%gone_lookup [[-> ->]|[Hnj Hj]]%gone_lookup Ha1 Ha2 He; [done| | |by eapply H5];
      by destruct husk_dead.
  - intros i q [[-> ->]|[Hne Hq]]%gone_lookup; [|by apply (H6 i)].
    destruct (H6 pid p Hp) as [R1 R2 R3 R4 R5]. by split.
  - intros i t Ht' Hs. destruct (Htk i t Ht' Hs) as [Ht Hi]. specialize (H7 i t Ht Hs). unfold task_ok in *.
    destruct (process t) as [x|] eqn:Hx; [|done]. destruct H7 as (q & Hq & Hqa & Hr). exists q. split; [|done].
    rewrite list_lookup_insert_ne; [done|]. intros <-. apply Hi. apply (H8 i cur t t0 pid); try done. by rewrite Hs0.
  - intros i j t u x Hti Huj Hst Hsu. destruct (Htk i t Hti Hst), (Htk j u Huj Hsu). by apply (H8 i j t u x).
  - destruct H9 as [Hw Hi]. split; [unfold swf in *; cbn; by rewrite length_alter|]. by rewrite runnable_alter_ne.
  - intros t Ht. rewrite list_lookup_alter_ne in Ht by done. eauto.
Qed.
End gone.

(** ** [teardown] *)

(** The operations on the page tables, as the kernel runs them. *)
Lemma wp_reclaim {B} pan ps r (m : M kernel B) Q k :
  wp pan (release_pages ps ;;; let! kr := getsM kernel_ttbr0 in activate kr ;;; free_address_space r)
    (fun _ s' => wp pan m Q (put_mmu s' k)) (the_mmu k) ->
  wp pan (in_mmu (release_pages ps) ;;;
          let! kroot := getsM (fun k => kernel_ttbr0 (the_mmu k)) in
          in_mmu (activate kroot) ;;; in_mmu (free_address_space r) ;;; m) Q k.
Proof.
  unfold wp, bindM, in_mmu, zoomM, getsM. destruct (release_pages ps (the_mmu k)) as [[[] s1]|]; [|done].
  change (the_mmu (put_mmu s1 k)) with s1. destruct (activate (kernel_ttbr0 s1) s1) as [[[] s2]|]; [|done].
  change (the_mmu (put_mmu s2 _)) with s2. by destruct (free_address_space r s2) as [[[] s3]|].
Qed.

Section retire.
Context (K A : gset Z).
Abbreviation Kinv := (Kinv K A).

(** What the end of process [pid] leaves behind. *)
Record retired (k : kernel) (pid : nat) (p : Process) (code : Z) (k' : kernel) : Prop := {
  rt_husk : exists q, PROCESSES k' !! pid = Some q /\ ~ alive q /\ p_exit_code q = Some code /\ p_ttbr0 q = p_ttbr0 p;
  rt_pool : exists T l, kinv K A k' T l /\ forall f, f ∈ (p_frames p).*2 \/ f = p_ttbr0 p -> f ∈ l;
  rt_others : forall j q, j <> pid -> PROCESSES k !! j = Some q ->
    exists q', PROCESSES k' !! j = Some q' /\ core q' = core q;
  rt_walks : forall j q va, j <> pid -> PROCESSES k !! j = Some q -> alive q -> canonical va ->
    hw_walk (kernel_mem k') 3 (p_ttbr0 q) va = hw_walk (kernel_mem k) 3 (p_ttbr0 q) va
}.

Lemma take_frames_runs pan pid p k :
  PROCESSES k !! pid = Some p ->
  wp pan (take_frames pid) (fun fs k' => fs = p_frames p /\ k' = set_procs (<[pid := set_frames [] p]> (PROCESSES k)) k) k.
Proof.
  intros Hp. unfold take_frames. wp_step. eapply wp_mono; [by apply proc_reads|]. intros q k' [-> ->].
  wp_step. eapply wp_mono; [by apply update_proc_runs|]. intros [] k' ->. by wp_steps.
Qed.

Lemma mark_exited_runs pan pid p k :
  PROCESSES k !! pid = Some p ->
  wp pan (mark_exited pid) (fun _ k' => k' = set_procs (<[pid := set_fg false (set_ring_pa 0 p)]> (PROCESSES k)) k) k.
Proof.
  intros Hp. unfold mark_exited. wp_step. eapply wp_mono; [by apply update_proc_runs|]. intros [] k1 ->.
  eapply wp_mono; [apply (update_proc_runs _ pid _ (set_ring_pa 0 p)); apply list_lookup_insert_eq; by eapply lookup_lt_Some|].
  intros [] k2 ->. unfold set_procs. cbn [PROCESSES ks kcon poller kgic ktimer]. by rewrite list_insert_insert_eq.
Qed.

Lemma say_runs pan s k : cwf (kcon k) -> wp pan (say s) (fun _ k' => exists c, cwf c /\ k' = set_con c k) k.
Proof.
  intros Hc. unfold say, in_con. apply wp_zoom, (wp_pan False); [done|]. eapply wp_mono; [apply write_str_spec|].
  intros [] c (_ & Hrx & _ & Hin). exists c. split; [|done]. split; rewrite ?Hin, ?Hrx; apply Hc.
Qed.

(** The process's own part, from the moment its parent was told. *)
Lemma teardown_tail pid p k T l :
  kbase K A k T l -> runs k pid p ->
  wp False (let! dead := proc_ttbr0 pid in
            let! owned := take_frames pid in
            in_mmu (release_pages owned) ;;;
            let! kroot := getsM (fun k => kernel_ttbr0 (the_mmu k)) in
            in_mmu (activate kroot) ;;; in_mmu (free_address_space dead) ;;;
            mark_exited pid ;;;
            say (str "[user] freed " ++ fmt_u (Z.of_nat (length owned)) ++ str " frames"))
    (fun _ k' => exists s' T' l' c, reclaimed K A k p l s' T' l' /\ cwf c /\ k' = set_con c (gone s' pid p k)) k.
Proof.
  intros Hk Hr. pose proof Hr as (_ & Hp & Ha & _ & _ & _ & _ & Hl).
  wp_step. eapply wp_mono; [by apply proc_ttbr0_reads|]. intros r k' [-> ->].
  wp_step. eapply wp_mono; [by apply take_frames_runs|]. intros fs k' [-> ->]. set (k1 := set_procs _ k).
  apply wp_reclaim. eapply wp_mono; [exact (reclaim_run K A k T l pid p Hk Hp Ha Hl)|]. intros [] s' (T' & l' & Hrc).
  wp_step. eapply wp_mono.
  { apply (mark_exited_runs _ pid (set_frames [] p)). apply list_lookup_insert_eq. by eapply lookup_lt_Some. }
  intros [] k2 E2. assert (Eg : k2 = gone s' pid p k).
  { rewrite E2. unfold gone, set_procs, put_mmu, k1. cbn [PROCESSES ks kcon poller kgic ktimer set_procs set_ks].
    by rewrite list_insert_insert_eq. }
  clear E2. subst k2. eapply wp_mono; [apply say_runs, Hk|]. intros [] k3 (c & Hcw & ->). eauto 8.
Qed.

(** The task goes, and the invariant is whole again. *)
Lemma exit_gone pid p k T l s' T' l' c code :
  kbase K A k T l -> runs k pid p -> p_exit_code p = Some code -> reclaimed K A k p l s' T' l' -> cwf c ->
  wp False (in_sched task_exit) (fun _ k' => retired k pid p code k') (set_con c (gone s' pid p k)).
Proof.
  intros Hk Hr Hcode Hrc Hcw. pose proof Hr as (_ & Hp & Ha & t & Ht & _ & _ & Hl).
  pose proof (gone_kbase K A k T l pid p s' T' l' Hk Hr Hrc) as Hg.
  assert (Hg' : kbase K A (with_task (set_state Exited) (current (SCHEDULER (ks k))) (set_con c (gone s' pid p k))) T' l')
    by exact (kbase_tables K A _ T' l' _ c (poller k) (kgic k) (ktimer k) Hg eq_refl (ki_refs _ _ _ _ _ Hg)
      (ki_poller _ _ _ _ _ Hg) Hcw).
  eapply wp_mono; [apply (leave_kinv K A (set_con c (gone s' pid p k)) T' l' (set_state Exited) Hg'); [done|]|].
  { cbn. by eapply lookup_lt_Some. }
  intros [] k4 [Hk4 [E4 Em]].
  assert (EP : PROCESSES k4 = <[pid := husk p]> (PROCESSES k)) by (by rewrite E4).
  split; rewrite ?EP, ?Em.
  - exists (husk p). split; [apply list_lookup_insert_eq; by eapply lookup_lt_Some|]. split; [apply husk_dead|done].
  - exists T', l'. split; [done|]. intros f Hf. apply (rc_pool _ _ _ _ _ _ _ _ Hrc). tauto.
  - intros j q Hj Hq. exists q. by rewrite list_lookup_insert_ne.
  - intros j q va Hj Hq Hqa Hc'. apply (rc_hw _ _ _ _ _ _ _ _ Hrc); [right; apply elem_of_roots_of; eauto| |done].
    intros E. by apply Hj, (ki_roots _ _ _ _ _ Hk j pid q p).
Qed.

(** What came before the end of the process does not matter to it. *)
Lemma retired_ext k k1 pid p p1 code k' :
  kext k k1 -> core p1 = core p -> retired k1 pid p1 code k' -> retired k pid p code k'.
Proof.
  intros Hx Hc [H1 H2 H3 H4]. unfold core in Hc. injection Hc as Er _ Ef _. rewrite Er, Ef in *. split; try done.
  - intros j q Hj Hq. destruct (kext_page _ _ _ _ Hx Hq) as (q1 & Hq1 & E1).
    destruct (H3 j q1 Hj Hq1) as (q2 & Hq2 & E2). exists q2. split; [done|congruence].
  - intros j q va Hj Hq Hqa Hva. destruct (kext_page _ _ _ _ Hx Hq) as (q1 & Hq1 & E1).
    rewrite <-(kx_walk _ _ Hx j q va) by done. pose proof (core_alive _ _ (eq_sym E1) Hqa).
    unfold core in E1. injection E1 as E1 _ _ _. rewrite <-E1. by apply (H4 j).
Qed.

Lemma retire_wp pid p code k :
  Kinv k -> runs k pid p -> wp False (retire code) (fun e k' => e = Retired /\ retired k pid p code k') k.
Proof.
  intros Hk Hr. pose proof (proj1 (Kinv_split _ _ _) Hk) as [Hb Hrun]. unfold retire. wp_step. unfold teardown.
  wp_step. eapply wp_known; [by apply (runs_current k pid p)|]. wp_steps. pose proof Hr as (_ & Hp & _).
  eapply wp_mono; [by apply (clear_ring_keeps K A False pid p)|]. intros [] k1 [[Hk1 Hx1] _].
  destruct (runs_ext _ _ _ _ Hr Hx1) as (p1 & Hr1 & Hc1). pose proof Hr1 as (_ & Hp1 & _).
  wp_step. eapply wp_mono; [by apply (notify_exit_keeps K A False pid p1)|]. intros [] k2 [[Hk2 Hx2] Hcodes].
  destruct (runs_ext _ _ _ _ Hr1 Hx2) as (p2 & Hr2 & Hc2). pose proof Hr2 as (_ & Hp2 & _).
  assert (Hcode : p_exit_code p2 = Some code).
  { apply (f_equal (fun c => c !! pid)) in Hcodes. unfold exit_codes in Hcodes.
    rewrite list_lookup_fmap, Hp2, list_lookup_insert_eq in Hcodes; [by injection Hcodes|].
    rewrite length_fmap. by eapply lookup_lt_Some. }
  destruct Hk2 as (T & l & Hk2). eapply wp_mono; [by apply (teardown_tail pid p2 k2 T l)|].
  intros [] k3 (s' & T' & l' & c & Hrc & Hcw & ->). wp_step.
  eapply wp_mono; [by apply (exit_gone pid p2 k2 T l s' T' l' c code)|]. intros [] k4 Hrt. wp_steps. split; [done|].
  eapply (retired_ext k k2 pid p p2); [by etransitivity|congruence|done].
Qed.
End retire.
