(* ===== verification/Lifecycle.v ===== *)
(** * Parents and children

    OP_WAIT and the end of a child (ring.rs [wait], [notify_exit]) meet in either
    order; and what the poller finds where a process has ended. *)

From Stdlib Require Import ZArith Lia.
From stdpp Require Import base numbers gmap list list_relations.
From S2P Require Import Prelude Memory Abi Frames Mmu PageTables AddressSpaces Isolation.
From S2P Require Import Sched Console Elf Process Ring User KernelInv KernelSteps KernelExit Uring.

Section meet.
Context (pid h : nat) (pp c : Process) (page ud code : Z) (q : list (Z * Z)).

(** [pid], whose ring holds [q] and has room, is the parent of [h], which runs and
    nobody waits for. *)
Record family (k : kernel) : Prop := {
  fm_parent : PROCESSES k !! pid = Some pp;
  fm_child : PROCESSES k !! h = Some c;
  fm_other : h <> pid;
  fm_of : p_parent c = Some pid;
  fm_runs : p_exit_code c = None;
  fm_alone : p_exit_waiter c = None;
  fm_page : p_ring_pa pp = page;
  fm_mapped : page <> 0;
  fm_ring : cq (kernel_mem k) page q;
  fm_room : (length q < 16)%nat;
  fm_waiter : forall t, p_ring_waiter pp = Some t -> (t < length (tasks (SCHEDULER (ks k))))%nat
}.

(** The child's code is recorded, the parent was told once, in an entry of its own. *)
Record told (k : kernel) : Prop := {
  td_ring : cq (kernel_mem k) page (q ++ [(ud, code)]);
  td_code : exists c', PROCESSES k !! h = Some c' /\ p_exit_code c' = Some code /\ p_exit_waiter c' = None
}.

(** [complete] with room. *)
Lemma complete_adds r k :
  cq (kernel_mem k) page q -> (length q < 16)%nat -> 0 <= ud < 2 ^ 64 -> - 2 ^ 63 <= r < 2 ^ 63 ->
  wp False (complete page ud r) (fun _ k' => cq (kernel_mem k') page (q ++ [(ud, r)]) /\
    PROCESSES k' = PROCESSES k /\ SCHEDULER (ks k') = SCHEDULER (ks k)) k.
Proof.
  intros Hq Hl Hud Hr. eapply wp_mono; [by apply (complete_posts page ud r q)|]. intros [] k'. unfold post.
  by rewrite (proj2 (Nat.ltb_lt _ _) Hl).
Qed.

Lemma on_exit_runs d k :
  PROCESSES k !! h = Some d ->
  wp False (on_exit h code) (fun o k' => k' = set_procs (<[h := set_exit_waiter None (set_code (Some code) d)]> (PROCESSES k)) k /\
    o = match p_exit_waiter d with
        | None => None
        | Some tag => match p_parent d with None => None | Some parent => Some (parent, tag) end
        end) k.
Proof.
  intros Hd. pose proof (lookup_lt_Some _ _ _ Hd) as Hlt. unfold on_exit. wp_step.
  eapply wp_mono; [by apply update_proc_runs|]. intros [] k1 ->.
  assert (H1 : PROCESSES (set_procs (<[h := set_code (Some code) d]> (PROCESSES k)) k) !! h = Some (set_code (Some code) d))
    by (by apply list_lookup_insert_eq).
  wp_step. eapply wp_mono; [by apply proc_reads|]. intros d1 k' [-> ->].
  wp_step. eapply wp_mono; [by apply update_proc_runs|]. intros [] k2 ->. cbn [p_exit_waiter set_code].
  unfold set_procs. cbn [PROCESSES ks kcon poller kgic ktimer]. rewrite list_insert_insert_eq.
  destruct (p_exit_waiter d); wp_steps; [|done].
  eapply wp_mono; [apply proc_reads; cbn; by apply list_lookup_insert_eq|]. intros d2 k' [-> ->]. cbn. by destruct (p_parent d).
Qed.

Lemma wake_waiter_runs i p k :
  PROCESSES k !! i = Some p -> (forall t, p_ring_waiter p = Some t -> (t < length (tasks (SCHEDULER (ks k))))%nat) ->
  wp False (wake_waiter i) (fun _ k' => kernel_mem k' = kernel_mem k /\
    PROCESSES k' = <[i := set_ring_waiter None p]> (PROCESSES k) /\ kcon k' = kcon k /\ the_mmu k' = the_mmu k) k.
Proof.
  intros Hp Hw. unfold wake_waiter, take_waiter. wp_step. wp_step. eapply wp_mono; [by apply proc_reads|].
  intros p1 k' [-> ->]. wp_step. eapply wp_mono; [by apply update_proc_runs|]. intros [] k1 ->. wp_step.
  destruct (p_ring_waiter p) as [t|] eqn:E; [|by wp_steps]. destruct (lookup_lt_is_Some_2 _ _ (Hw t eq_refl)) as [x Hx].
  unfold in_sched, wake, update_task, task. apply wp_zoom.
  wp_step. wp_step. wp_steps. cbn [set_procs ks]. rewrite Hx. by wp_steps.
Qed.

(** The child of [k] has not ended, and [told] is yet to come. *)
Lemma wait_registers k : family k -> wp False (wait_op pid (Z.of_nat h) ud) (fun _ k' =>
  k' = set_procs (<[h := set_exit_waiter (Some ud) c]> (PROCESSES k)) k) k.
Proof.
  intros [H1 H2 H3 H4 H5 H6 H7 H8 H9 Hroom H10]. pose proof (lookup_lt_Some _ _ _ H2) as Hlt. unfold wait_op, parent, exit_code.
  wp_step. eapply wp_mono; [by apply ring_pa_reads|]. intros x k' [-> ->]. wp_steps. unfold proc_count.
  rewrite (proj2 (Z.leb_gt _ _)), Nat2Z.id by lia. wp_steps. eapply wp_mono; [by apply proc_reads|]. intros d k' [-> ->].
  wp_steps. rewrite H4, bool_decide_eq_true_2 by done. cbn [negb]. wp_steps.
  eapply wp_mono; [by apply proc_reads|]. intros d k' [-> ->]. wp_steps. rewrite H5. by apply update_proc_runs.
Qed.

Lemma told_after k : family k -> 0 <= ud < 2 ^ 64 -> - 2 ^ 63 <= code < 2 ^ 63 ->
  wp False (wait_op pid (Z.of_nat h) ud ;;; notify_exit h code) (fun _ k' => told k') k.
Proof.
  intros Hf Hud Hcode. wp_step. eapply wp_mono; [by apply wait_registers|]. intros [] k1 ->.
  destruct Hf as [H1 H2 H3 H4 H5 H6 H7 H8 H9 Hroom H10]. pose proof (lookup_lt_Some _ _ _ H2) as Hlt.
  set (k1 := set_procs _ k). unfold notify_exit. wp_step.
  eapply wp_mono; [apply (on_exit_runs (set_exit_waiter (Some ud) c)); by apply list_lookup_insert_eq|].
  intros o k' [-> ->]. cbn [p_exit_waiter set_exit_waiter p_parent]. rewrite H4. set (k2 := set_procs _ k1).
  assert (HP : PROCESSES k2 !! pid = Some pp) by (cbn; by rewrite !list_lookup_insert_ne by done).
  wp_step. eapply wp_mono; [by apply ring_pa_reads|]. intros x k' [-> ->]. rewrite H7, (proj2 (Z.eqb_neq _ _) H8). cbn [negb].
  wp_step. eapply wp_mono; [by apply complete_adds|]. intros [] k3 (Hq & EP & ES).
  eapply wp_mono; [apply (wake_waiter_runs pid pp); [by rewrite EP|by rewrite ES]|]. intros [] k4 (Em & EP4 & _).
  split; [by rewrite Em|]. rewrite EP4, list_lookup_insert_ne by done. rewrite EP. cbn.
  eexists. split; [apply list_lookup_insert_eq; by rewrite length_insert|done].
Qed.

Lemma told_before k : family k -> 0 <= ud < 2 ^ 64 -> - 2 ^ 63 <= code < 2 ^ 63 ->
  wp False (notify_exit h code ;;; wait_op pid (Z.of_nat h) ud) (fun _ k' => told k') k.
Proof.
  intros [H1 H2 H3 H4 H5 H6 H7 H8 H9 Hroom H10] Hud Hcode. pose proof (lookup_lt_Some _ _ _ H2) as Hlt. wp_step.
  unfold notify_exit. wp_step. eapply wp_mono; [by apply (on_exit_runs c)|]. intros o k' [-> ->]. rewrite H6. wp_steps.
  set (c1 := set_exit_waiter None (set_code (Some code) c)). set (k1 := set_procs _ k).
  assert (HP : PROCESSES k1 !! pid = Some pp) by (cbn; by rewrite !list_lookup_insert_ne by done).
  assert (HC : PROCESSES k1 !! h = Some c1) by (by apply list_lookup_insert_eq).
  unfold wait_op, parent, exit_code. wp_step. eapply wp_mono; [by apply ring_pa_reads|]. intros x k' [-> ->]. wp_steps.
  unfold proc_count. rewrite (proj2 (Z.leb_gt _ _)), Nat2Z.id by (cbn; rewrite length_insert; lia). wp_steps.
  eapply wp_mono; [by apply proc_reads|]. intros d k' [-> ->]. wp_steps. cbn [p_parent c1 set_exit_waiter set_code].
  rewrite H4, bool_decide_eq_true_2 by done. cbn [negb]. wp_steps.
  eapply wp_mono; [by apply proc_reads|]. intros d k' [-> ->]. wp_steps. cbn [p_exit_code c1 set_exit_waiter set_code].
  rewrite H7. eapply wp_mono; [by apply complete_adds|]. intros [] k3 (Hq & EP & ES).
  split; [done|]. rewrite EP. by exists c1.
Qed.

(** C16: Waiting for a child and its end meet in either order, for a child nobody
    waits for yet and a parent whose completion queue is not full: whichever comes
    first, both run to their end, the child's exit code is recorded, no waiter is
    left behind, and the parent's completion queue gains exactly one entry, with the
    tag of the wait and the code of the exit. *)
Theorem wait_meets_exit k :
  family k -> 0 <= ud < 2 ^ 64 -> - 2 ^ 63 <= code < 2 ^ 63 ->
  exists k1 k2,
    (wait_op pid (Z.of_nat h) ud ;;; notify_exit h code) k = Ret (tt, k1) /\ told k1 /\
    (notify_exit h code ;;; wait_op pid (Z.of_nat h) ud) k = Ret (tt, k2) /\ told k2.
Proof.
  intros Hf Hud Hcode. destruct (wp_unit _ _ _ (told_after k Hf Hud Hcode)) as (k1 & R1 & T1).
  destruct (wp_unit _ _ _ (told_before k Hf Hud Hcode)) as (k2 & R2 & T2). by exists k1, k2.
Qed.
End meet.

(** A parent with a ring at the start of memory, and its child. *)
Definition demo_parent : Process := mkProcess 0 (mkLoaded 0 [] 0) [] 0x40000000 [] None true None None None.
Definition demo_child : Process := mkProcess 0 (mkLoaded 0 [] 0) [] 0 [] None false (Some 0%nat) None None.
Definition demo_family : kernel := set_procs [demo_parent; demo_child] cold_kernel.

Lemma wait_meets_exit_witness : exists k1 k2,
  (wait_op 0 1 77 ;;; notify_exit 1 (-1)) demo_family = Ret (tt, k1) /\
  cq (kernel_mem k1) 0x40000000 [(77, -1)] /\
  (notify_exit 1 (-1) ;;; wait_op 0 1 77) demo_family = Ret (tt, k2) /\
  cq (kernel_mem k2) 0x40000000 [(77, -1)].
Proof.
  destruct (wait_meets_exit 0 1 demo_parent demo_child 0x40000000 77 (-1) [] demo_family) as (k1 & k2 & R1 & [T1 _] & R2 & [T2 _]).
  - split; try reflexivity; [lia|lia|exact (cq_cold _)|cbn; lia|intros t; discriminate].
  - lia.
  - lia.
  - exists k1, k2. split; [exact R1|]. split; [exact T1|]. split; [exact R2|exact T2].
Defined.

(** ** A root that was freed *)

(** The first word of a free frame is the next one's address, or 0. *)
Lemma free_link m h l f :
  chain m h l -> Forall valid_frame l -> f ∈ l -> read64 m f mod FRAME_SIZE = 0.
Proof.
  revert h. induction l as [|x l IH]; intros h Hc Hv Hf; [by apply elem_of_nil in Hf|]. destruct Hc as [-> Hc].
  apply Forall_cons in Hv as [_ Hv]. apply elem_of_cons in Hf as [->|Hf]; [|by eapply IH].
  destruct l as [|y l]; cbn [chain] in Hc; [by rewrite Hc|]. destruct Hc as [-> _]. apply Forall_cons in Hv as [Hy _]. apply Hy.
Qed.

Lemma free_root_unmaps s l r va :
  free_inv (ph s) l -> r ∈ l -> 0 <= va < 2 ^ 39 -> hw_walk (mem_of s) 3 r va = None.
Proof.
  intros Hp Hr Hva. pose proof (free_link _ _ _ _ (fi_chain _ _ Hp) (fi_valid _ _ Hp) Hr) as Hm.
  assert (Hi : index_at (12 + 9 * Z.of_nat 3) va = 0).
  { unfold index_at. change (12 + 9 * Z.of_nat 3) with 39. rewrite Z.shiftr_div_pow2, Z.div_small by lia. done. }
  assert (E : is_table (read64 (mem_of s) r) = false /\ is_valid (read64 (mem_of s) r) = false).
  { unfold is_table, is_valid. change DESC_TABLE with (Z.ones 2). change DESC_VALID with (Z.ones 1).
    rewrite !Z.land_ones by lia. unfold FRAME_SIZE in Hm. rewrite Z.eqb_neq, negb_false_iff, Z.eqb_eq. change (Z.ones 2) with 3.
    change (2 ^ 2) with 4. change (2 ^ 1) with 2. split; zlia. }
  destruct E as [E1 E2]. cbn [hw_walk]. rewrite Hi. unfold Mmu.entry. rewrite Z.mul_0_r, Z.add_0_r. by rewrite E1, E2.
Qed.

(** C21: A process that has ended keeps its root's address in the table, but the
    frame is on the free list, whose link lies over the entry that maps the kernel:
    when the poller, which reads the root of a process it saw submissions of and
    installs it, is preempted before it reads and the process ends meanwhile, no
    kernel address translates any more. *)
Theorem stale_root_unmaps_kernel K A k pid p code e k' va :
  Kinv K A k -> runs k pid p -> retire code k = Ret (e, k') -> 0 <= va < 2 ^ 39 ->
  exists root s, proc_ttbr0 pid k' = Ret (root, k') /\ activate root (the_mmu k') = Ret (tt, s) /\
    hw_walk (mem_of s) 3 (ttbr0_el1 s) va = None.
Proof.
  intros Hk Hr Hrun Hva. destruct (wp_run _ _ _ _ _ _ (retire_wp K A pid p code k Hk Hr) Hrun) as [_ Hrt].
  destruct Hrt as [(q & Hq & _ & _ & Er) (T & l & Hk' & Hl) _ _].
  pose proof (ki_vm _ _ _ _ _ (ki_base _ _ _ _ _ Hk')) as Hv. pose proof (mi_pool _ _ _ (vi_mm _ _ _ _ _ Hv)) as Hp.
  assert (Hin : p_ttbr0 p ∈ l) by (apply Hl; by right).
  exists (p_ttbr0 p), (exec (activate (p_ttbr0 p)) (the_mmu k')). split; [|split; [apply activate_exec|]].
  { unfold proc_ttbr0, proc, bindM, getM, expectM. rewrite Hq. unfold retM. by rewrite Er. }
  rewrite (proj1 (activate_fields _ _ _ (activate_exec _ _))).
  replace (ttbr0_el1 (exec _ _)) with (p_ttbr0 p); [by apply (free_root_unmaps _ l)|].
  unfold exec, activate, modifyM. destruct (Z.eqb_spec (INSTALLED (the_mmu k')) (p_ttbr0 p)) as [E|]; [|done].
  pose proof (valid_frame_range _ (free_inv_in_valid _ _ _ Hp Hin)). cbn [negb].
  destruct (vi_installed _ _ _ _ _ Hv) as [E'|E']; cbn [vs] in *; lia.
Qed.

(** A kernel task is resumed on whatever address space ran last: the poller,
    preempted between [activate] and [drain], goes on in another process's. *)
Theorem kernel_task_keeps_space s s' t :
  swf s -> tasks (SCHEDULER s) !! pick (SCHEDULER s) = Some t -> ttbr0 t = None -> schedule s = Ret (tt, s') ->
  kmmu s' = kmmu s.
Proof.
  intros Hw Ht Hn Hrun. destruct (wp_run _ _ _ _ _ _ (schedule_spec s Hw) Hrun) as (_ & _ & H).
  case_decide; [by subst|]. destruct H as (u & Hu & [_ _ _ Hm]). rewrite Ht in Hu. injection Hu as <-. by rewrite Hm, Hn.
Qed.
