(* ===== verification/Requests.v ===== *)
(** * Printing and reading

    What a program gets for OP_PRINT and OP_READ, in terms of the bytes it sees in
    its own address space, the completions it finds in its ring, and the bytes on
    the serial line. *)

From Stdlib Require Import ZArith Lia.
From stdpp Require Import base numbers gmap list list_relations.
From S2P Require Import Prelude Memory Abi Frames Mmu PageTables AddressSpaces Reclaim Ownership.
From S2P Require Import VirtualMemory Isolation Sched Console Elf Loader Devices Process Text Ring User.
From S2P Require Import KernelInv KernelRing KernelSteps KernelIrq Uring Lifecycle.

Section requests.
Context (K A : gset Z).
Context (pid : nat).
Abbreviation Kbase := (Kbase K A).
Abbreviation good := (good K A).
Implicit Types (k : kernel) (p : Process).

(** ** A process's own bytes *)

(** [va] lies on the page [f] of [p]. *)
Definition owned (m : mem) p (va f : Z) : Prop :=
  canonical va /\ valid_frame f /\ exists va0 perms, (va0, f) ∈ p_frames p /\ va0 / 4096 = va / 4096 /\ user_perms perms /\
    hw_walk m 3 (p_ttbr0 p) va = Some (O, Z.lor f perms).

(** What the program loads at [va]. *)
Definition sees k p (va : Z) : option Z := el0_load (kernel_mem k) (p_ttbr0 p) va.
Definition ring_page : Z := USER_RING_VA / 4096.

Lemma owned_sees k p va f : owned (kernel_mem k) p va f -> sees k p va = Some (read8 (kernel_mem k) (f + va mod 4096)).
Proof. intros (Hc & Hf & va0 & perms & _ & _ & Hu & Hw). by apply (el0_load_page _ _ _ _ perms). Qed.

Lemma reachable_owned k p w va :
  Kbase k -> PROCESSES k !! pid = Some p -> reachable (kernel_mem k) p w va ->
  exists f, owned (kernel_mem k) p va f /\
    (w = true -> hw_walk (kernel_mem k) 3 (p_ttbr0 p) va = Some (O, Z.lor f PAGE_USER_RW)).
Proof.
  intros Hk Hp (Hva & va0 & f & perms & Hin & Hpg & Hu & Hm & Hw). assert (Hc : canonical va) by (unfold canonical; lia).
  exists f. split; [|intros E; rewrite <-(Hw E); by apply Hm]. split; [done|]. split; [|by exists va0, perms; auto].
  apply (data_valid K A k); [done|]. apply elem_of_data_of. exists pid, p. split; [done|]. apply list_elem_of_fmap. by exists (va0, f).
Qed.

Lemma owned_ext k k' p va f :
  PROCESSES k !! pid = Some p -> alive p -> kext k k' -> owned (kernel_mem k) p va f -> owned (kernel_mem k') p va f.
Proof.
  intros Hp Ha Hx (Hc & Hf & va0 & perms & Hin & Hpg & Hu & Hw). split; [done|]. split; [done|]. exists va0, perms.
  split_and!; try done. by rewrite (kx_walk _ _ Hx pid p).
Qed.

Lemma proc_wf_of k p : Kbase k -> PROCESSES k !! pid = Some p -> alive p -> proc_wf (kernel_mem k) p.
Proof. intros (T & l & Hk) Hp Ha. by apply (ki_procs _ _ _ _ _ Hk pid p). Qed.

(** A frame is one page of the process. *)
Lemma frame_page p (va va' f : Z) m :
  proc_wf m p -> (va, f) ∈ p_frames p -> (va', f) ∈ p_frames p -> va = va'.
Proof.
  intros Hw [i Hi]%list_elem_of_lookup [j Hj]%list_elem_of_lookup.
  assert (E : i = j); [|congruence]. eapply (NoDup_lookup _ i j f (pw_nodup _ _ Hw)); by rewrite list_lookup_fmap, ?Hi, ?Hj.
Qed.

Lemma owned_inj m p va va' f : proc_wf m p -> owned m p va f -> owned m p va' f -> va / 4096 = va' / 4096.
Proof.
  intros Hw (_ & _ & v & ? & Hv & E & _) (_ & _ & v' & ? & Hv' & E' & _). rewrite <-E, <-E'.
  by rewrite (frame_page p v v' f m Hw Hv Hv').
Qed.

Lemma owned_ring m p va : proc_wf m p -> p_ring_pa p <> 0 -> owned m p va (p_ring_pa p) -> va / 4096 = ring_page.
Proof.
  intros Hw Hne (_ & _ & v & ? & Hv & E & _). destruct (pw_ring _ _ Hw) as [[? _]|Hr]; [done|].
  rewrite <-E. by rewrite (frame_page p v USER_RING_VA (p_ring_pa p) m Hw Hv Hr).
Qed.

(** ** Bytes stored for the program *)

(** [k'] is [k] with the bytes [bs] at [ptr], for the program and its ring. *)
Record wrote p (ptr : Z) (bs : list Z) k k' : Prop := {
  wr_sees : forall i b, bs !! i = Some b -> sees k' p (ptr + Z.of_nat i) = Some b;
  wr_rest : forall va f, owned (kernel_mem k) p va f -> va < ptr \/ ptr + Z.of_nat (length bs) <= va ->
    sees k' p va = sees k p va;
  wr_ring : forall a, p_ring_pa p <= a < p_ring_pa p + 4096 -> read8 (kernel_mem k') a = read8 (kernel_mem k) a
}.

Lemma wrote_nil p ptr k : wrote p ptr [] k k.
Proof. by split. Qed.

Lemma wrote_snoc p ptr bs b k k1 k2 :
  PROCESSES k !! pid = Some p -> alive p -> kext k k1 ->
  (forall i, (i < length bs)%nat -> exists f, owned (kernel_mem k) p (ptr + Z.of_nat i) f) ->
  wrote p ptr bs k k1 -> wrote p (ptr + Z.of_nat (length bs)) [b] k1 k2 -> wrote p ptr (bs ++ [b]) k k2.
Proof.
  intros Hp Ha Hx Hown [S1 R1 G1] [S2 R2 G2]. split.
  - intros i c Hi. apply lookup_app_Some in Hi as [Hi|[Hge Hi]].
    + pose proof (lookup_lt_Some _ _ _ Hi) as Hlt. destruct (Hown i Hlt) as [f Hf].
      rewrite (R2 _ f); [by apply S1|by eapply owned_ext|lia].
    + apply list_lookup_singleton_Some in Hi as [Hi <-]. replace i with (length bs) by lia.
      rewrite <-(S2 O b eq_refl). f_equal. lia.
  - intros va f Hf Ho. rewrite length_app in Ho. cbn in Ho. rewrite (R2 va f); [|by eapply owned_ext|cbn; lia].
    apply (R1 va f Hf). lia.
  - intros a Ha'. by rewrite G2, G1.
Qed.

Lemma sttrb_writes va b p k :
  Kbase k -> PROCESSES k !! pid = Some p -> alive p -> owns_live k p -> p_ring_pa p <> 0 ->
  reachable (kernel_mem k) p true va -> va / 4096 <> ring_page -> is_byte b ->
  wp False (sttrb va b) (fun _ k' => good k k' /\ quiet k k' /\ wrote p va [b] k k') k.
Proof.
  intros Hk Hp Ha Ho Hring Hr Hnr Hb. destruct (reachable_owned k p true va Hk Hp Hr) as (f & Hf & Hw).
  pose proof (proc_wf_of k p Hk Hp Ha) as Hwf. pose proof Hf as (Hc & Hv & va0 & perms & Hin & _).
  destruct (ring_data K A k pid p Hk Hp Hring) as [_ Hrd]. pose proof (data_valid K A k _ Hk Hrd) as Hrv.
  unfold sttrb. wp_steps. rewrite (live_root K A) by done. rewrite Ho, (el0_store_page _ _ _ f) by auto. cbn [expectM].
  set (m' := write8 _ _ _). assert (Hof : only_frame f (kernel_mem k) m')
    by (intros a Hna; apply read8_write8_ne; unfold FRAME_SIZE in *; zlia).
  assert (Hd : f ∈ data_of (PROCESSES k))
    by (apply elem_of_data_of; exists pid, p; split; [done|]; apply list_elem_of_fmap; by exists (va0, f)).
  pose proof (good_mem K A False m' f k Hk Hd Hof (mem_ok_write8 _ _ _ (kinv_mem_ok K A k Hk))) as [[Hk' Hx] _].
  split; [done|]. split; [done|]. split.
  - intros i c Hi. apply list_lookup_singleton_Some in Hi as [-> <-]. rewrite Z.add_0_r.
    rewrite (owned_sees _ _ _ f) by (by eapply owned_ext). cbn [kernel_mem set_kernel_mem]. f_equal.
    change (read8 m' (f + va mod 4096) = b). unfold m'. rewrite read8_write8_eq. by apply wrap8_byte.
  - intros va' f' Hf' Hout. cbn [length] in Hout. rewrite (owned_sees k p va' f' Hf'), (owned_sees _ p va' f') by (by eapply owned_ext).
    f_equal. apply read8_write8_ne. intros E. destruct Hf' as (? & Hv' & Hrest').
    destruct (decide (f' = f)) as [->|Hne].
    + assert (va / 4096 = va' / 4096) by (eapply (owned_inj _ p _ _ f); [exact Hwf|exact Hf|by split]).
      zlia.
    + destruct Hv as [Hv _], Hv' as [Hv' _]. unfold FRAME_SIZE in *. zlia.
  - intros a Ha'. apply (only_frame_other f _ _ (p_ring_pa p)); [done|done|done| |done]. intros E.
    apply Hnr, (owned_ring (kernel_mem k) p); [done|done|by rewrite <-E].
Qed.

(** The check of user pointers, of a process's table entry. *)
Definition in_user_range p (ptr len : Z) (w : bool) : bool :=
  match checked_add ptr len with
  | None => false
  | Some e =>
      (USER_STACK_VA <=? ptr) && (e <=? USER_STACK_VA + USER_STACK_SIZE) ||
      in_ranges (take (Elf.count (p_loaded p)) (ranges (p_loaded p))) ptr e w
  end.

Lemma is_user_range_runs p ptr len w k :
  Kbase k -> PROCESSES k !! pid = Some p -> alive p -> is_user_range pid ptr len w k = Ret (in_user_range p ptr len w, k).
Proof.
  intros Hk Hp Ha. pose proof (pw_count _ _ (proc_wf_of k p Hk Hp Ha)) as Hc. unfold is_user_range, in_user_range.
  destruct (checked_add ptr len) as [e|]; [|done]. destruct (_ && _); [done|]. cbn [orb].
  unfold proc, bindM, getM, expectM, assertM, retM. rewrite Hp. cbv beta iota zeta. by rewrite (proj2 (Nat.leb_le _ _) Hc).
Qed.

(** A buffer the kernel may store to, byte by byte, away from the ring page. *)
Record buffer p (ptr len : Z) : Prop := {
  bu_ptr : 0 <= ptr;
  bu_len : 0 < len;
  bu_span : in_user_range p ptr len true = true;
  bu_bytes : forall i, 0 <= i < len -> in_user_range p (ptr + i) 1 true = true;
  bu_ring : forall i, 0 <= i < len -> (ptr + i) / 4096 <> ring_page
}.

Lemma buffer_reachable p ptr len k i :
  Kbase k -> PROCESSES k !! pid = Some p -> alive p -> buffer p ptr len -> 0 <= i < len ->
  ptr + len < 2 ^ 64 /\ reachable (kernel_mem k) p true (ptr + i).
Proof.
  intros Hk Hp Ha [H0 H1 Hs _ _] Hi.
  destruct (wp_run False _ _ _ _ _ (is_user_range_reads K A False pid p ptr len true k Hk Hp Ha H0 ltac:(lia))
    (is_user_range_runs p ptr len true k Hk Hp Ha)) as [_ Hr]. destruct (Hr Hs) as [Hov Hre]. split; [done|]. apply Hre. lia.
Qed.

Lemma copy_byte_writes p ptr len i b k :
  Kbase k -> PROCESSES k !! pid = Some p -> alive p -> owns_live k p -> p_ring_pa p <> 0 -> buffer p ptr len ->
  0 <= i < len -> is_byte b ->
  wp False (copy_to_user pid (ptr + i) [b]) (fun ok k' => ok = true /\ good k k' /\ quiet k k' /\ wrote p (ptr + i) [b] k k') k.
Proof.
  intros Hk Hp Ha Ho Hring Hb Hi Hbyte. destruct (buffer_reachable p ptr len k i Hk Hp Ha Hb Hi) as [Hov Hr].
  unfold copy_to_user. wp_step. eapply wp_known; [by apply (is_user_range_runs p)|]. cbn [length].
  change (Z.of_nat 1) with 1. rewrite (bu_bytes _ _ _ Hb i Hi). cbn [negb copy_bytes]. wp_step. wp_step.
  apply wp_add; [lia|]. rewrite Z.add_0_r. wp_step.
  eapply wp_mono; [apply (sttrb_writes (ptr + i) b p); try done; by apply (bu_ring _ _ _ Hb)|].
  intros [] k' (Hg & Hq & Hw). by wp_steps.
Qed.

(** ** Buffered input *)

Abbreviation input k := (contents (INPUT (kcon k))).
Abbreviation line k := (tx (uart (kcon k))).
Abbreviation arrived k := (rx (uart (kcon k))).

Lemma pop_runs k :
  Kbase k -> wp False (in_con input_pop) (fun o k' => good k k' /\ k' = set_con (kcon k') k /\ line k' = line k /\ arrived k' = arrived k /\
    o = hd_error (input k) /\ input k' = tl (input k)) k.
Proof.
  intros Hk. eapply wp_mono; [apply (good_con K A False _ (fun o c' => tx (uart c') = line k /\ rx (uart c') = arrived k /\
    o = hd_error (input k) /\ contents (INPUT c') = tl (input k)) k Hk)|by intros o k' (? & ? & ?)].
  intros c Hc ->. eapply wp_mono; [by apply input_pop_spec|]. intros o c' (Hc' & Hrx & Ht & H). do 3 (split; [done|]).
  destruct (contents (INPUT (kcon k))) as [|b q] eqn:E; [destruct H as [-> ->]; by rewrite E|by destruct H as (-> & -> & _)].
Qed.

Lemma drain_bytes_delivers fuel p ptr len got k0 k :
  PROCESSES k0 !! pid = Some p -> alive p -> p_ring_pa p <> 0 -> Kbase k0 -> buffer p ptr len ->
  Kbase k -> PROCESSES k = PROCESSES k0 -> owns_live k p -> kext k0 k -> wrote p ptr got k0 k ->
  Forall is_byte (input k) -> (length (input k) < fuel)%nat -> (length got <= Z.to_nat len)%nat ->
  wp False (drain_bytes fuel pid ptr len (Z.of_nat (length got))) (fun n k' =>
    let room := (Z.to_nat len - length got)%nat in
    n = Z.of_nat (length (got ++ take room (input k))) /\ good k k' /\ PROCESSES k' = PROCESSES k0 /\
    wrote p ptr (got ++ take room (input k)) k0 k' /\ input k' = drop room (input k) /\ line k' = line k) k.
Proof.
  intros Hp Ha Hring Hk0 Hbuf. revert got k.
  induction fuel as [|fuel IH]; intros got k Hk HP Ho Hx Hw Hby Hf Hd; [lia|]. cbn [drain_bytes].
  destruct (Z.ltb_spec (Z.of_nat (length got)) len) as [Hlt|Hge].
  2: { wp_steps. replace (Z.to_nat len - length got)%nat with O by lia. cbn zeta. rewrite take_0, drop_0, app_nil_r.
       by split_and!. }
  wp_step. eapply wp_mono; [by apply pop_runs|]. intros o k1 ([Hk1 Hx1] & E1 & Ht1 & _ & -> & Hin1).
  assert (HP1 : PROCESSES k1 = PROCESSES k0) by (by rewrite E1).
  assert (Hw1 : wrote p ptr got k0 k1) by (by destruct Hw; split; rewrite E1).
  destruct (input k) as [|b q] eqn:Ein; cbn [hd_error tl] in *.
  { wp_steps. rewrite take_nil, drop_nil, app_nil_r. by split_and!. }
  apply Forall_cons in Hby as [Hb Hq].
  assert (Ho1 : owns_live k1 p) by (unfold owns_live in *; by rewrite (kx_live _ _ Hx1)).
  assert (Hx01 : kext k0 k1) by (by etransitivity).
  wp_step. apply wp_add; [pose proof (buffer_reachable p ptr len k0 0 Hk0 Hp Ha Hbuf ltac:(lia)); lia|].
  wp_step. eapply wp_mono; [apply (copy_byte_writes p ptr len (Z.of_nat (length got)) b k1); try done; [by rewrite HP1|lia]|].
  intros ok k2 (-> & [Hk2 Hx2] & [EP2 Ec2] & Hw2). cbn [negb].
  replace (Z.of_nat (length got) + 1) with (Z.of_nat (length (got ++ [b]))) by (rewrite length_app; cbn; lia).
  assert (Hown : forall i, (i < length got)%nat -> exists f, owned (kernel_mem k0) p (ptr + Z.of_nat i) f).
  { intros i Hi. destruct (buffer_reachable p ptr len k0 (Z.of_nat i) Hk0 Hp Ha Hbuf ltac:(lia)) as [_ Hr].
    destruct (reachable_owned k0 p true _ Hk0 Hp Hr) as (f & Hfo & _). by exists f. }
  eapply wp_mono; [apply (IH (got ++ [b]) k2)|]; rewrite ?Ec2, ?Hin1; try done.
  - congruence.
  - unfold owns_live in *. by rewrite (kx_live _ _ Hx2).
  - by etransitivity.
  - by apply (wrote_snoc p ptr got b k0 k1 k2).
  - cbn in Hf. lia.
  - rewrite length_app. cbn. lia.
  - assert (E : (Z.to_nat len - length got = S (Z.to_nat len - length (got ++ [b])))%nat) by (rewrite length_app; cbn; lia).
    rewrite E. cbn [take drop]. intros n k3 (-> & [Hk3 Hx3] & EP3 & Hw3 & Hin3 & Ht3).
    rewrite <-app_assoc in Hw3 |- *. split_and!; try done; [|congruence]. split; [done|].
    etransitivity; [exact Hx1|]. by etransitivity.
Qed.

(** ** Answers *)

(** The queue is what its page holds. *)
Lemma cq_frame m m' page q :
  cq m page q -> mem_ok m' -> (forall a, page <= a < page + 4096 -> read8 m' a = read8 m a) -> cq m' page q.
Proof.
  intros [_ Hl Hc He] Hok Hm. assert (Hld : forall n o, 0 <= o -> o + Z.of_nat n <= 4096 -> Memory.load n m' (page + o) = Memory.load n m (page + o)).
  { intros n o H1 H2. apply load_ext. intros a Ha. apply Hm. lia. }
  assert (H32 : forall o, 0 <= o -> o + 4 <= 4096 -> read32 m' (page + o) = read32 m (page + o)) by (intros; apply Hld; lia).
  split; [done| |done|].
  - by rewrite !H32 by (unfold CQ_TAIL, CQ_HEAD; lia).
  - intros i e Hi. rewrite (H32 CQ_HEAD) by (unfold CQ_HEAD; lia). rewrite <-(He i e Hi). cbv zeta.
    destruct (cqe_span page (read32 m (page + CQ_HEAD) + Z.of_nat i)) as (o & -> & Ho & _).
    unfold read64. rewrite <-!Z.add_assoc. by rewrite !Hld by lia.
Qed.

Lemma complete_exact page ud r q k :
  cq (kernel_mem k) page q -> (length q < 16)%nat ->
  wp False (complete page ud r) (fun _ k' => k' = set_kernel_mem (posted (kernel_mem k) page ud r) k) k.
Proof.
  intros Hq Hlen. unfold complete, ld32, st64, st32. wp_steps. rewrite (cq_len _ _ _ Hq).
  destruct (Z.leb_spec RING_ENTRIES (Z.of_nat (length q))); [unfold RING_ENTRIES in *; lia|]. by wp_steps.
Qed.

Lemma posted_outside m page ud r a : ~ (page <= a < page + 4096) -> read8 (posted m page ud r) a = read8 m a.
Proof.
  intros Ha. unfold posted. set (t := read32 _ _). destruct (cqe_span page t) as (o & -> & Ho & _).
  unfold write32, write64. by rewrite !read8_store_ne by (unfold CQ_TAIL; lia).
Qed.

(** The program has its answer [r] to [ud], the bytes [bs] at [ptr], and nothing else
    of its memory changed but the ring page. *)
Record answered p (ptr : Z) (bs : list Z) (q : list (Z * Z)) (ud r : Z) k k' : Prop := {
  as_cq : cq (kernel_mem k') (p_ring_pa p) (q ++ [(ud, r)]);
  as_sees : forall i b, bs !! i = Some b -> sees k' p (ptr + Z.of_nat i) = Some b;
  as_rest : forall va f, owned (kernel_mem k) p va f -> va < ptr \/ ptr + Z.of_nat (length bs) <= va ->
    va / 4096 <> ring_page -> sees k' p va = sees k p va
}.

Lemma complete_answers p ptr bs q ud r k0 k :
  PROCESSES k0 !! pid = Some p -> alive p -> p_ring_pa p <> 0 -> Kbase k -> PROCESSES k = PROCESSES k0 -> kext k0 k ->
  wrote p ptr bs k0 k -> (forall i, (i < length bs)%nat -> (ptr + Z.of_nat i) / 4096 <> ring_page /\
    exists f, owned (kernel_mem k0) p (ptr + Z.of_nat i) f) ->
  cq (kernel_mem k0) (p_ring_pa p) q -> (length q < 16)%nat -> 0 <= ud < 2 ^ 64 -> - 2 ^ 63 <= r < 2 ^ 63 ->
  wp False (complete (p_ring_pa p) ud r) (fun _ k' => good k k' /\
    k' = set_kernel_mem (posted (kernel_mem k) (p_ring_pa p) ud r) k /\ answered p ptr bs q ud r k0 k') k.
Proof.
  intros Hp Ha Hne Hk HP Hx [W1 W2 W3] Hown Hq Hlen Hud Hr.
  assert (Hp' : PROCESSES k !! pid = Some p) by (by rewrite HP). destruct (ring_data K A k pid p Hk Hp' Hne) as [_ Hd].
  assert (Hq' : cq (kernel_mem k) (p_ring_pa p) q) by (by apply (cq_frame (kernel_mem k0)); [|apply (kinv_mem_ok K A)|]).
  eapply wp_mono.
  { apply wp_and; [apply (complete_good K A False); [done|exact Hd]|].
    apply wp_and; [by apply (complete_posts (p_ring_pa p) ud r q)|by apply (complete_exact (p_ring_pa p) ud r q)]. }
  intros [] k' ([[Hk' Hx'] EP] & (Hcq & _) & E). do 2 (split; [done|]).
  assert (Hkeep : forall va f, owned (kernel_mem k) p va f -> va / 4096 <> ring_page -> sees k' p va = sees k p va).
  { intros va f Hf Hnr. rewrite (owned_sees k p va f Hf), (owned_sees k' p va f) by (by eapply owned_ext). f_equal.
    rewrite E. apply posted_outside. destruct Hf as (Hcan & [Hv1 Hv2] & Hrest). destruct (data_valid K A k _ Hk Hd) as [Hr1 Hr2].
    assert (f <> p_ring_pa p) by (intros ->; apply Hnr, (owned_ring (kernel_mem k) p); [by apply (proc_wf_of k)|done|by split]).
    unfold FRAME_SIZE in *. zlia. }
  split.
  - unfold post in Hcq. by rewrite (proj2 (Nat.ltb_lt _ _) Hlen) in Hcq.
  - intros i b Hi. destruct (Hown i (lookup_lt_Some _ _ _ Hi)) as [Hnr [f Hf]].
    rewrite (Hkeep _ f); [by apply W1|by apply (owned_ext k0 k)|done].
  - intros va f Hf Hout Hnr. rewrite (Hkeep va f); [by apply (W2 va f)|by apply (owned_ext k0 k)|done].
Qed.

Lemma answered_mem p ptr bs q ud r k k1 k2 k3 :
  kernel_mem k1 = kernel_mem k -> kernel_mem k3 = kernel_mem k2 -> answered p ptr bs q ud r k1 k2 -> answered p ptr bs q ud r k k3.
Proof.
  intros E1 E3 [H1 H2 H3]. unfold sees in *. rewrite E1 in H3. split; unfold sees; rewrite ?E3; try done.
Qed.

(** The bytes a read takes from the input. *)
Definition taken (len : Z) k : list Z := take (Z.to_nat len) (input k).

Lemma taken_length len k : 0 < len -> input k <> [] -> 0 < Z.of_nat (length (taken len k)) <= Z.of_nat (length (input k)).
Proof.
  intros Hl Hi. unfold taken. rewrite length_take. destruct (input k) as [|b q]; [done|]. cbn [length]. lia.
Qed.

Lemma input_small k : Kbase k -> (length (input k) < 256)%nat.
Proof. intros (T & l & Hk). rewrite length_contents. apply count_lt, (ki_con _ _ _ _ _ Hk). Qed.

(** Input that is there is delivered, and the read answered. *)
Lemma drain_answers p ptr len q ud k :
  Kbase k -> PROCESSES k !! pid = Some p -> alive p -> owns_live k p -> p_ring_pa p <> 0 -> buffer p ptr len ->
  Forall is_byte (input k) -> input k <> [] -> cq (kernel_mem k) (p_ring_pa p) q -> (length q < 16)%nat -> 0 <= ud < 2 ^ 64 ->
  wp False (drain_input pid ptr len) (fun n k1 => n = Z.of_nat (length (taken len k)) /\ 0 < n /\
    good k k1 /\ PROCESSES k1 = PROCESSES k /\ input k1 = drop (Z.to_nat len) (input k) /\ line k1 = line k /\
    wp False (complete (p_ring_pa p) ud n) (fun _ k' => good k1 k' /\ PROCESSES k' = PROCESSES k /\ kcon k' = kcon k1 /\
      answered p ptr (taken len k) q ud n k k') k1) k.
Proof.
  intros Hk Hp Ha Ho Hne Hbuf Hby Hin Hq Hlen Hud. unfold drain_input. wp_steps.
  pose proof (input_small k Hk) as Hsm. pose proof (bu_len _ _ _ Hbuf) as Hl. pose proof (taken_length len k Hl Hin) as Htl.
  eapply wp_mono; [apply (drain_bytes_delivers _ p ptr len [] k k); try done|].
  - rewrite length_contents. lia.
  - cbn. lia.
  - cbv zeta. cbn [length app]. rewrite Nat.sub_0_r. fold (taken len k). intros n k1 (-> & [Hk1 Hx1] & HP1 & Hw & Hi & Ht).
    do 2 (split; [done || lia|]). split; [done|]. do 3 (split; [done|]).
    eapply wp_mono; [apply (complete_answers p ptr (taken len k) q ud _ k k1); try done|].
    + intros i Hi'. assert (Hil : 0 <= Z.of_nat i < len) by (unfold taken in Hi'; rewrite length_take in Hi'; lia).
      split; [by apply (bu_ring _ _ _ Hbuf)|]. destruct (buffer_reachable p ptr len k _ Hk Hp Ha Hbuf Hil) as [_ Hr].
      destruct (reachable_owned k p true _ Hk Hp Hr) as (f & Hf & _). by exists f.
    + lia.
    + intros [] k' (Hg & E & Hans). by rewrite E in *; split_and!.
Qed.

(** ** OP_READ *)

Lemma read_now p ptr len q ud k :
  Kbase k -> PROCESSES k !! pid = Some p -> alive p -> owns_live k p -> p_ring_pa p <> 0 -> buffer p ptr len ->
  Forall is_byte (input k) -> input k <> [] -> cq (kernel_mem k) (p_ring_pa p) q -> (length q < 16)%nat -> 0 <= ud < 2 ^ 64 ->
  foreground_pid k = Some pid ->
  wp False (read_op pid (p_ring_pa p) ptr len ud) (fun _ k' => input k' = drop (Z.to_nat len) (input k) /\ line k' = line k /\
    answered p ptr (taken len k) q ud (Z.of_nat (length (taken len k))) k k') k.
Proof.
  intros Hk Hp Ha Ho Hne Hbuf Hby Hin Hq Hlen Hud Hfg. unfold read_op. wp_step.
  eapply wp_known; [by apply (is_user_range_runs p)|]. rewrite (bu_span _ _ _ Hbuf). cbn [negb].
  pose proof (bu_len _ _ _ Hbuf) as Hl. rewrite (proj2 (Z.eqb_neq len 0)) by lia. wp_steps.
  rewrite bool_decide_eq_true_2 by done. eapply wp_mono; [by apply (drain_answers p ptr len q ud)|].
  intros n k1 (-> & Hn & _ & _ & Hi & Ht & Hc). rewrite (proj2 (Z.ltb_lt _ _) Hn). eapply wp_mono; [exact Hc|].
  intros [] k' (_ & _ & Ec & Hans). by rewrite Ec.
Qed.

Lemma drain_nothing ptr len k :
  Kbase k -> input k = [] -> 0 < len ->
  wp False (drain_input pid ptr len) (fun n k' => n = 0 /\ good k k' /\ k' = set_con (kcon k') k /\ line k' = line k /\
    arrived k' = arrived k /\ input k' = []) k.
Proof.
  intros Hk Hin Hl. unfold drain_input. wp_steps. cbn [drain_bytes]. rewrite (proj2 (Z.ltb_lt 0 len) Hl). wp_step.
  eapply wp_mono; [by apply pop_runs|]. rewrite Hin. intros o k' (Hg & E & Ht & Hr & -> & Hi). by wp_steps.
Qed.

(** A read that finds no input waits in the first slot. *)
Lemma read_parks p ptr len ud k :
  Kbase k -> PROCESSES k !! pid = Some p -> alive p -> buffer p ptr len -> foreground_pid k = Some pid ->
  input k = [] -> p_pending p = replicate MAX_PENDING None ->
  wp False (read_op pid (p_ring_pa p) ptr len ud) (fun _ k' => good k k' /\ kernel_mem k' = kernel_mem k /\
    PROCESSES k' = <[pid := set_pending (Some (mkPending ptr len ud) :: replicate 7 None) p]> (PROCESSES k) /\
    line k' = line k /\ arrived k' = arrived k /\ input k' = []) k.
Proof.
  intros Hk Hp Ha Hbuf Hfg Hin Hpe. unfold read_op. wp_step.
  eapply wp_known; [by apply (is_user_range_runs p)|]. rewrite (bu_span _ _ _ Hbuf). cbn [negb].
  pose proof (bu_len _ _ _ Hbuf) as Hl. rewrite (proj2 (Z.eqb_neq len 0)) by lia. wp_steps.
  rewrite bool_decide_eq_true_2 by done. eapply wp_mono; [by apply drain_nothing|].
  intros n k1 (-> & [Hk1 Hx1] & E1 & Ht & Hr & Hi). cbn [Z.ltb Z.compare].
  assert (Hp1 : PROCESSES k1 !! pid = Some p) by (by rewrite E1).
  wp_step. unfold park_read. wp_step. eapply wp_mono; [by apply proc_reads|]. intros x k' [-> ->]. rewrite Hpe. cbn [position is_none replicate MAX_PENDING].
  destruct (buffer_reachable p ptr len k 0 Hk Hp Ha Hbuf ltac:(lia)) as [Hov _]. pose proof (bu_ptr _ _ _ Hbuf) as H0.
  wp_step. eapply wp_mono; [apply (good_update K A False pid _ p); [done|done|done|]|].
  - intros n m [R1 R2 R3 R4 R5] _ _. split; cbn [p_ring_pa p_foreground p_ring_waiter p_parent p_pending set_pending]; try done.
    + by rewrite length_insert.
    + intros r [j Hj]%list_elem_of_lookup. apply list_lookup_insert_Some in Hj as [(_ & [= <-] & _)|[_ Hj]]; [cbn; lia|].
      apply R5. by eapply list_elem_of_lookup_2.
  - intros [] k2 [[Hk2 Hx2] ->]. wp_steps. cbn [negb]. wp_steps. split; [split; [done|by etransitivity]|].
    split; [by rewrite E1|]. split; [|done]. cbn [PROCESSES set_procs]. by rewrite E1, Hpe.
Qed.

(** ** The receive interrupt *)

(** The handler's branch for the UART. *)
Definition receive : M kernel unit := in_con drain_uart ;;; poll_pending.

(** What fits is taken, the rest stays in the receiver. *)
Lemma drain_uart_takes k :
  Kbase k ->
  wp False (in_con drain_uart) (fun _ k' => good k k' /\ k' = set_con (kcon k') k /\
    input k' = take 255 (input k ++ arrived k) /\ line k' = line k) k.
Proof.
  intros Hk. eapply wp_mono; [apply (good_con K A False _ (fun _ c' => contents (INPUT c') = take 255 (input k ++ arrived k) /\
    tx (uart c') = line k) k Hk)|by intros [] k' (? & ? & ? & ?)].
  intros c Hc ->. unfold drain_uart. wp_steps. eapply wp_mono; [apply drain_loop_spec; [done|lia]|].
  intros [] c' (bs & [Hw Hrx Hct _ Hdone Htx]). split; [done|]. split; [|done].
  rewrite Hrx, app_assoc, <-Hct. destruct Hdone as [Hfull|E].
  - apply is_full_spec in Hfull; [|apply Hw]. unfold INPUT_BUF_SIZE in Hfull. by rewrite take_app_length' by lia.
  - pose proof (count_lt _ (cw_input _ Hw)) as Hlt. rewrite <-length_contents in Hlt. unfold INPUT_BUF_SIZE in Hlt.
    by rewrite E, app_nil_r, take_ge by lia.
Qed.

Lemma poll_slots_none page i n c k : poll_slots pid page i (replicate n None) c k = Ret (c, k).
Proof. revert i. induction n as [|n IH]; intros i; [done|]. apply (IH (S i)). Qed.

(** The way to the process's space and back. *)
Lemma poll_around {B} p (m : list (option Pending) -> M kernel B) (rest : B -> M kernel unit) Q k :
  Kbase k -> PROCESSES k !! pid = Some p -> alive p ->
  (forall k1, Kbase k1 -> moved k (p_ttbr0 p) k1 -> wp False (m (p_pending p)) (fun a k2 => good k1 k2 /\
    forall k3, Kbase k3 -> moved k2 (ttbr0_el1 (the_mmu k)) k3 -> wp False (rest a) Q k3) k1) ->
  wp False (let prev := ttbr0_el1 (the_mmu k) in
    (if negb (prev =? p_ttbr0 p) then in_mmu (activate (p_ttbr0 p)) else retM tt) ;;;
    let! slots := pending_snapshot pid in
    let! a := m slots in
    (if negb (prev =? p_ttbr0 p) then in_mmu (activate prev) else retM tt) ;;;
    rest a) Q k.
Proof.
  intros Hk Hp Ha Hm. cbv zeta. wp_step.
  eapply wp_mono; [apply (change_space K A); [done|right; apply elem_of_roots_of; eauto]|]. intros [] k1 [Hk1 Hm1].
  wp_step. unfold pending_snapshot. wp_step.
  eapply wp_mono; [apply (proc_reads _ pid p); by rewrite (mv_state _ _ _ Hm1)|]. intros x k' [-> ->]. wp_steps.
  eapply wp_mono; [by apply Hm|]. intros a k2 [[Hk2 Hx2] Hrest].
  rewrite Z.eqb_sym, <-(mv_live _ _ _ Hm1), <-(kx_live _ _ Hx2). wp_step.
  eapply wp_mono; [apply (change_space K A); [done|]|intros [] k3 [Hk3 Hm3]; by apply Hrest].
  eapply kext_root; [exact Hx2|]. destruct (live_kernel_root K A k Hk) as [E|Hin].
  - left. cbn [vs] in *. by rewrite E, (mv_kroot _ _ _ Hm1).
  - right. cbn [roots] in *. by rewrite (mv_state _ _ _ Hm1).
Qed.

Lemma poll_pending_runs p Q k :
  Kbase k -> PROCESSES k !! pid = Some p -> p_ring_pa p <> 0 -> foreground_pid k = Some pid ->
  (forall k1, Kbase k1 -> moved k (p_ttbr0 p) k1 ->
    wp False (poll_slots pid (p_ring_pa p) 0 (p_pending p) false) (fun completed k2 => good k1 k2 /\
      forall k3, Kbase k3 -> moved k2 (ttbr0_el1 (the_mmu k)) k3 ->
        wp False (if completed then wake_waiter pid else retM tt) Q k3) k1) ->
  wp False poll_pending Q k.
Proof.
  intros Hk Hp Hne Hfg Hm. destruct (ring_data K A k pid p Hk Hp Hne) as [Ha _]. unfold poll_pending. wp_steps.
  rewrite Hfg. wp_step. eapply wp_mono; [by apply ring_pa_reads|]. intros page k' [-> ->].
  rewrite (proj2 (Z.eqb_neq _ _) Hne). wp_steps. eapply wp_mono; [by apply proc_ttbr0_reads|]. intros r k' [-> ->].
  by apply (poll_around p).
Qed.

Lemma clear_pending_runs p i x k :
  Kbase k -> PROCESSES k !! pid = Some p -> p_pending p !! i = Some x ->
  wp False (clear_pending pid i) (fun _ k' => good k k' /\
    k' = set_procs (<[pid := set_pending (<[i := None]> (p_pending p)) p]> (PROCESSES k)) k) k.
Proof.
  intros Hk Hp Hi. pose proof Hk as (T & l & Hb). pose proof (rf_pending _ _ _ (ki_refs _ _ _ _ _ Hb pid p Hp)) as Hlen.
  eapply wp_mono; [apply wp_and; [apply (clear_pending_keeps K A False pid p i k Hk Hp)|]|].
  - rewrite <-Hlen. by eapply lookup_lt_Some.
  - unfold clear_pending. wp_step. eapply wp_mono; [by apply proc_reads|]. intros y k' [-> ->]. rewrite Hi. wp_steps.
    by apply update_proc_runs.
  - by intros [] k' [[? _] ?].
Qed.

(** *** The parked reads *)

(** The reads the bytes [bs] answer, in the order of their slots, and what each gets. *)
Fixpoint served (slots : list (option Pending)) (bs : list Z) : list (Pending * list Z) :=
  match slots, bs with
  | [], _ | _, [] => []
  | None :: slots', _ => served slots' bs
  | Some r :: slots', _ => (r, take (Z.to_nat (plen r)) bs) :: served slots' (drop (Z.to_nat (plen r)) bs)
  end.

(** The slots then. *)
Fixpoint still_parked (slots : list (option Pending)) (bs : list Z) : list (option Pending) :=
  match slots, bs with
  | [], _ | _, [] => slots
  | None :: slots', _ => None :: still_parked slots' bs
  | Some r :: slots', _ => None :: still_parked slots' (drop (Z.to_nat (plen r)) bs)
  end.

Lemma served_nil slots : served slots [] = [].
Proof. by destruct slots as [|[]]. Qed.

Lemma still_parked_nil slots : still_parked slots [] = slots.
Proof. by destruct slots as [|[]]. Qed.


(** What the program finds at [va] where it had [old]: a later answer goes over an
    earlier one. *)
Definition overlay (ans : list (Pending * list Z)) (va : Z) (old : option Z) : option Z :=
  fold_left (fun o '(r, bs) => if (pbuf r <=? va) && (va <? pbuf r + Z.of_nat (length bs))
    then bs !! Z.to_nat (va - pbuf r) else o) ans old.

(** The completion of an answered read. *)
Definition answer (a : Pending * list Z) : Z * Z := (puser_data a.1, Z.of_nat (length a.2)).

(** [k] is [k0] with the answers [ans] given. *)
Record delivered p (q : list (Z * Z)) (ans : list (Pending * list Z)) k0 k : Prop := {
  dl_cq : cq (kernel_mem k) (p_ring_pa p) (q ++ map answer ans);
  dl_sees : forall va f, owned (kernel_mem k0) p va f -> va / 4096 <> ring_page ->
    sees k p va = overlay ans va (sees k0 p va)
}.

Lemma delivered_snoc p q ans r bs k0 k k' :
  PROCESSES k0 !! pid = Some p -> alive p -> kext k0 k -> delivered p q ans k0 k ->
  answered p (pbuf r) bs (q ++ map answer ans) (puser_data r) (Z.of_nat (length bs)) k k' ->
  delivered p q (ans ++ [(r, bs)]) k0 k'.
Proof.
  intros Hp Ha Hx [_ S1] [C2 S2 R2]. split; [by rewrite map_app, app_assoc|]. intros va f Hf Hnr.
  unfold overlay. rewrite fold_left_app. cbn [fold_left]. change (fold_left _ ans _) with (overlay ans va (sees k0 p va)).
  rewrite <-(S1 va f) by done. destruct ((_ <=? _) && (_ <? _)) eqn:E.
  - apply andb_true_iff in E as [E1%Z.leb_le E2%Z.ltb_lt].
    destruct (lookup_lt_is_Some_2 bs (Z.to_nat (va - pbuf r)) ltac:(lia)) as [b Hb]. rewrite Hb, <-(S2 _ b Hb). f_equal. lia.
  - apply (R2 va f); [by eapply owned_ext| |done]. apply andb_false_iff in E as [E%Z.leb_gt|E%Z.ltb_ge]; lia.
Qed.

(** What the parked reads are. *)
Definition parked_ok p (slots : list (option Pending)) : Prop :=
  forall r, Some r ∈ slots -> buffer p (pbuf r) (plen r) /\ 0 <= puser_data r < 2 ^ 64.

(** A read that finds no byte stays. *)
Lemma poll_slots_dry slots page : forall i c k,
  (forall r, Some r ∈ slots -> 0 < plen r) -> Kbase k -> input k = [] ->
  wp False (poll_slots pid page i slots c) (fun c' k' => c' = c /\ good k k' /\ k' = set_con (kcon k') k /\
    line k' = line k /\ input k' = []) k.
Proof.
  induction slots as [|[r|] slots IH]; intros i c k Hl Hk Hin; cbn [poll_slots].
  - wp_steps. split_and!; [done|by apply (good_refl K A)|by destruct k|done..].
  - wp_step. eapply wp_mono; [apply drain_nothing; [done|done|apply Hl; left]|].
    intros n k1 (-> & [Hk1 Hx1] & E1 & Ht1 & _ & Hi1). cbn [Z.ltb Z.compare].
    eapply wp_mono; [apply (IH (S i) c k1); [intros r' Hr'; apply Hl; by right|assumption|assumption]|].
    intros c' k2 (-> & [Hk2 Hx2] & E2 & Ht2 & Hi2). split_and!; [done| |by rewrite E2, E1|congruence|done].
    split; [done|by etransitivity].
  - apply IH; [intros r' Hr'; apply Hl; by right|assumption|assumption].
Qed.

Lemma parked_ok_tail p x slots : parked_ok p (x :: slots) -> parked_ok p slots.
Proof. intros H r Hr. apply H. by right. Qed.

(** A read that finds bytes is answered and its slot freed. *)
Lemma serve_slot p q pre r slots ans k0 k (more less : M kernel bool) Q :
  PROCESSES k0 !! pid = Some p -> alive p -> p_ring_pa p <> 0 -> parked_ok p (Some r :: slots) ->
  Kbase k -> kext k0 k -> owns_live k p -> PROCESSES k = <[pid := set_pending (pre ++ Some r :: slots) p]> (PROCESSES k0) ->
  delivered p q ans k0 k -> Forall is_byte (input k) -> input k <> [] -> (length q + length ans < 16)%nat ->
  (forall k', good k k' -> PROCESSES k' = <[pid := set_pending ((pre ++ [None]) ++ slots) p]> (PROCESSES k0) ->
    delivered p q (ans ++ [(r, taken (plen r) k)]) k0 k' -> input k' = drop (Z.to_nat (plen r)) (input k) ->
    line k' = line k -> wp False more Q k') ->
  wp False (let! count := drain_input pid (pbuf r) (plen r) in
    if 0 <? count then complete (p_ring_pa p) (puser_data r) count ;;; clear_pending pid (length pre) ;;; more else less) Q k.
Proof.
  intros Hp Ha Hne Hok Hk Hx Ho HP Hd Hby Hin Hroom Hmore. set (p1 := set_pending (pre ++ Some r :: slots) p) in HP.
  assert (Hp1 : PROCESSES k !! pid = Some p1) by (rewrite HP; apply list_lookup_insert_eq; by eapply lookup_lt_Some).
  destruct (Hok r ltac:(left)) as [Hbuf Hud]. wp_step.
  eapply wp_mono; [apply (drain_answers p1 (pbuf r) (plen r) (q ++ map answer ans) (puser_data r) k); try done|].
  - by destruct Hbuf; split.
  - apply Hd.
  - rewrite length_app, length_map. lia.
  - intros n k1 (-> & Hn & [Hk1 Hx1] & HP1 & Hi1 & Ht1 & Hc). rewrite (proj2 (Z.ltb_lt _ _) Hn). wp_step.
    eapply wp_mono; [exact Hc|]. intros [] k2 ([Hk2 Hx2] & HP2 & Ec2 & Hans). wp_step.
    eapply wp_mono; [apply (clear_pending_runs p1 (length pre) (Some r)); [done|by rewrite HP2|by apply list_lookup_middle]|].
    intros [] k3 [[Hk3 Hx3] E3]. apply Hmore.
    + split; [done|]. etransitivity; [exact Hx1|]. by etransitivity.
    + rewrite E3. cbn [PROCESSES set_procs]. rewrite HP2, HP, list_insert_insert_eq. f_equal.
      unfold p1. cbn [p_pending set_pending]. rewrite <-app_assoc. by rewrite insert_app_r_alt, Nat.sub_diag by lia.
    + apply (delivered_snoc p q ans r _ k0 k k3); [done..|]. destruct Hans as [A1 A2 A3]. split; unfold sees; rewrite E3; done.
    + rewrite E3. cbn. by rewrite Ec2.
    + rewrite E3. cbn. by rewrite Ec2.
Qed.

Lemma poll_slots_serves p q slots : forall pre ans c k0 k,
  PROCESSES k0 !! pid = Some p -> alive p -> p_ring_pa p <> 0 -> parked_ok p slots ->
  Kbase k -> kext k0 k -> owns_live k p -> PROCESSES k = <[pid := set_pending (pre ++ slots) p]> (PROCESSES k0) ->
  delivered p q ans k0 k -> Forall is_byte (input k) ->
  (length q + length ans + length (served slots (input k)) <= 16)%nat ->
  wp False (poll_slots pid (p_ring_pa p) (length pre) slots c) (fun c' k' =>
    c' = c || bool_decide (served slots (input k) <> []) /\ good k k' /\
    PROCESSES k' = <[pid := set_pending (pre ++ still_parked slots (input k)) p]> (PROCESSES k0) /\
    delivered p q (ans ++ served slots (input k)) k0 k' /\
    concat (served slots (input k)).*2 ++ input k' = input k /\ line k' = line k) k.
Proof.
  induction slots as [|[r|] slots IH]; intros pre ans c k0 k Hp Ha Hne Hok Hk Hx Ho HP Hd Hby Hroom.
  - cbn. wp_steps. rewrite orb_false_r. rewrite app_nil_r in HP. rewrite !app_nil_r. split_and!; [done|by apply (good_refl K A)|done..].
  - destruct (input k) as [|b bs] eqn:Ein.
    { eapply wp_mono; [apply (poll_slots_dry (Some r :: slots)); [|done|done]|].
      - intros r' Hr'. apply (bu_len _ _ _ (proj1 (Hok r' Hr'))).
      - intros c' k1 (-> & Hg & E & Ht & Hi). cbn [served still_parked]. rewrite orb_false_r, app_nil_r.
        split_and!; [done|done|by rewrite E|by destruct Hd; split; unfold sees; rewrite E|by rewrite Hi|done]. }
    assert (Es : served (Some r :: slots) (input k) = (r, taken (plen r) k) :: served slots (drop (Z.to_nat (plen r)) (input k)))
      by (unfold taken; by rewrite Ein).
    assert (Ep : still_parked (Some r :: slots) (input k) = None :: still_parked slots (drop (Z.to_nat (plen r)) (input k)))
      by (by rewrite Ein).
    rewrite <-Ein in *. rewrite Es in Hroom |- *. rewrite Ep. cbn [length] in Hroom. cbn [poll_slots].
    apply (serve_slot p q pre r slots ans k0 k); try done; [by rewrite Ein|lia|].
    intros k1 [Hk1 Hx1] HP1 Hd1 Hi1 Ht1.
    replace (S (length pre)) with (length (pre ++ [None] : list (option Pending))) by (rewrite length_app; cbn; lia).
    eapply wp_mono; [apply (IH (pre ++ [None]) (ans ++ [(r, taken (plen r) k)]) true k0 k1); try done|].
    + by eapply parked_ok_tail.
    + by etransitivity.
    + unfold owns_live in *. by rewrite (kx_live _ _ Hx1).
    + rewrite Hi1. by apply Forall_drop.
    + rewrite Hi1, length_app. cbn [length]. lia.
    + rewrite Hi1, <-!app_assoc. intros c' k2 (-> & [Hk2 Hx2] & HP2 & Hd2 & Hc2 & Ht2). split; [by destruct c|].
      split; [split; [done|by etransitivity]|]. do 2 (split; [done|]). split; [|congruence].
      change ((taken (plen r) k ++ concat (served slots (drop (Z.to_nat (plen r)) (input k))).*2) ++ input k2 = input k).
      rewrite <-app_assoc, Hc2. apply take_drop.
  - assert (Es : served (None :: slots) (input k) = served slots (input k)) by (by destruct (input k); rewrite ?served_nil).
    assert (Ep : still_parked (None :: slots) (input k) = None :: still_parked slots (input k))
      by (by destruct (input k); rewrite ?still_parked_nil).
    rewrite Es in Hroom |- *. rewrite Ep. cbn [poll_slots].
    replace (S (length pre)) with (length (pre ++ [None] : list (option Pending))) by (rewrite length_app; cbn; lia).
    eapply wp_mono; [apply (IH (pre ++ [None]) ans c k0 k); try done; [by eapply parked_ok_tail|by rewrite <-app_assoc]|].
    rewrite <-app_assoc. by intros.
Qed.

(** The waiter of the ring is woken by an answer. *)
Definition polled p (bs : list Z) : Process :=
  let p' := set_pending (still_parked (p_pending p) bs) p in
  if bool_decide (served (p_pending p) bs <> []) then set_ring_waiter None p' else p'.

Lemma poll_answers p q k :
  Kbase k -> PROCESSES k !! pid = Some p -> p_ring_pa p <> 0 -> foreground_pid k = Some pid -> parked_ok p (p_pending p) ->
  Forall is_byte (input k) -> cq (kernel_mem k) (p_ring_pa p) q ->
  (length q + length (served (p_pending p) (input k)) <= 16)%nat ->
  wp False poll_pending (fun _ k' => delivered p q (served (p_pending p) (input k)) k k' /\
    concat (served (p_pending p) (input k)).*2 ++ input k' = input k /\ line k' = line k /\
    ttbr0_el1 (the_mmu k') = ttbr0_el1 (the_mmu k) /\ PROCESSES k' = <[pid := polled p (input k)]> (PROCESSES k)) k.
Proof.
  intros Hk Hp Hne Hfg Hok Hby Hq Hroom. destruct (ring_data K A k pid p Hk Hp Hne) as [Ha _].
  apply (poll_pending_runs p); [done..|]. intros k1 Hk1 Hm1. pose proof (mv_state _ _ _ Hm1) as E1.
  assert (EP1 : PROCESSES k1 = PROCESSES k) by (by rewrite E1). assert (Ec1 : kcon k1 = kcon k) by (by rewrite E1).
  pose proof (mv_mem _ _ _ Hm1) as Em1. assert (Hp1 : PROCESSES k1 !! pid = Some p) by (by rewrite EP1).
  eapply wp_mono; [apply (poll_slots_serves p q (p_pending p) [] [] false k1 k1); try done; rewrite ?EP1, ?Ec1, ?Em1; try done|].
  - apply (mv_live _ _ _ Hm1).
  - rewrite list_insert_id; [done|]. rewrite Hp. by destruct p.
  - split; [by rewrite app_nil_r, Em1|done].
  - cbn [length]. lia.
  - rewrite EP1, Ec1. cbn [app orb]. intros c k2 (-> & Hg2 & EP2 & Hd & Hc & Ht). split; [done|]. intros k3 Hk3 Hm3.
    pose proof (mv_state _ _ _ Hm3) as E3. pose proof (mv_mem _ _ _ Hm3) as Em3.
    assert (Ec3 : kcon k3 = kcon k2) by (by rewrite E3).
    assert (HP3 : PROCESSES k3 = <[pid := set_pending (still_parked (p_pending p) (input k)) p]> (PROCESSES k)) by (by rewrite E3).
    assert (Hd' : forall k', kernel_mem k' = kernel_mem k3 -> delivered p q (served (p_pending p) (input k)) k k').
    { intros k' E. destruct Hd as [D1 D2]. unfold sees in D2. rewrite Em1 in D2.
      split; unfold sees; rewrite E, Em3; [exact D1|exact D2]. }
    assert (Hp3 : PROCESSES k3 !! pid = Some (set_pending (still_parked (p_pending p) (input k)) p))
      by (rewrite HP3; apply list_lookup_insert_eq; by eapply lookup_lt_Some).
    unfold polled. destruct (bool_decide _).
    + eapply wp_mono; [apply (wake_waiter_runs pid _ _ Hp3)|].
      { intros t Ht'. pose proof Hk3 as (T & l & Hb). by apply (rf_waiter _ _ _ (ki_refs _ _ _ _ _ Hb pid _ Hp3)). }
      intros [] k4 (Em4 & EP4 & Ec4 & Es4). rewrite Ec4, Ec3, Es4, (mv_live _ _ _ Hm3), EP4, HP3, list_insert_insert_eq.
      by split; [apply Hd'|].
    + wp_steps. rewrite Ec3, (mv_live _ _ _ Hm3), HP3. by split; [apply Hd'|].
Qed.

(** With no read parked, nothing happens. *)
Lemma poll_idle p k :
  Kbase k -> PROCESSES k !! pid = Some p -> p_ring_pa p <> 0 -> foreground_pid k = Some pid ->
  p_pending p = replicate MAX_PENDING None ->
  wp False poll_pending (fun _ k' => Kbase k' /\ PROCESSES k' = PROCESSES k /\ kcon k' = kcon k /\
    kernel_mem k' = kernel_mem k /\ ttbr0_el1 (the_mmu k') = ttbr0_el1 (the_mmu k)) k.
Proof.
  intros Hk Hp Hne Hfg Hpe. apply (poll_pending_runs p); [done..|]. intros k1 Hk1 Hm1. rewrite Hpe.
  apply (wp_known _ _ _ _ _ _ (poll_slots_none _ _ MAX_PENDING _ _)). split; [by apply (good_refl K A)|]. intros k3 Hk3 Hm3.
  wp_steps. split; [done|]. split; [by rewrite (mv_state _ _ _ Hm3), (mv_state _ _ _ Hm1)|].
  split; [by rewrite (mv_state _ _ _ Hm3), (mv_state _ _ _ Hm1)|].
  split; [by rewrite (mv_mem _ _ _ Hm3), (mv_mem _ _ _ Hm1)|apply (mv_live _ _ _ Hm3)].
Qed.

(** ** OP_PRINT *)

Lemma user_bytes_seen p bs ptr k :
  Kbase k -> PROCESSES k !! pid = Some p -> owns_live k p ->
  (forall va, ptr <= va < ptr + Z.of_nat (length bs) -> reachable (kernel_mem k) p false va) ->
  (forall i b, bs !! i = Some b -> sees k p (ptr + Z.of_nat i) = Some b) ->
  user_bytes (length bs) ptr k = Ret (bs, k).
Proof.
  intros Hk Hp Ho. revert ptr. induction bs as [|b bs IH]; intros ptr Hr Hs; cbn [length user_bytes]; [done|].
  pose proof (Hs O b eq_refl) as Hb. rewrite Z.add_0_r in Hb. cbn [length] in Hr.
  destruct (reachable_owned k p false ptr Hk Hp (Hr ptr ltac:(lia))) as (f & Hf & _).
  rewrite (owned_sees k p ptr f Hf) in Hb. destruct Hf as (Hc & Hfv & va0 & perms & _ & _ & Hu & Hw).
  unfold bindM, getM. rewrite (live_root K A), Ho by done. unfold el1_load. rewrite mmu_walk_canonical, Hw by done.
  rewrite page_pa by done. injection Hb as ->. cbn [expectM]. unfold retM.
  rewrite IH; [done|intros va Hva; apply Hr; lia|]. intros i c Hi. rewrite <-(Hs (S i) c Hi). f_equal. lia.
Qed.

Lemma write_line bs k : wp False (in_con (write_str bs)) (fun _ k' => line k' = line k ++ crlf bs) k.
Proof. unfold in_con. apply wp_zoom. eapply wp_mono; [apply write_str_spec|]. by intros [] c (? & _). Qed.

Lemma print_runs p ptr len bs q ud k :
  Kbase k -> PROCESSES k !! pid = Some p -> alive p -> owns_live k p -> p_ring_pa p <> 0 -> 0 <= ptr -> 0 <= len ->
  (in_user_range p ptr len false = true -> Z.of_nat (length bs) = len /\
    forall i b, bs !! i = Some b -> sees k p (ptr + Z.of_nat i) = Some b) ->
  cq (kernel_mem k) (p_ring_pa p) q -> (length q < 16)%nat -> 0 <= ud < 2 ^ 64 ->
  wp False (print_op pid (p_ring_pa p) ptr len ud) (fun _ k' =>
    let ok := in_user_range p ptr len false in
    line k' = line k ++ (if ok && utf8_valid bs then crlf bs else []) /\
    answered p ptr [] q ud (if ok then 0 else ERR) k k' /\ good k k' /\ PROCESSES k' = PROCESSES k /\
    kernel_mem k' = posted (kernel_mem k) (p_ring_pa p) ud (if ok then 0 else ERR)) k.
Proof.
  intros Hk Hp Ha Ho Hne Hptr Hl Hbs Hq Hlen Hud. unfold print_op. wp_step.
  assert (Hfin : forall r k1, r = 0 \/ r = ERR -> good k k1 -> k1 = set_con (kcon k1) k ->
    wp False (complete (p_ring_pa p) ud r) (fun _ k' => line k' = line k1 /\ answered p ptr [] q ud r k k' /\
      good k k' /\ PROCESSES k' = PROCESSES k /\ kernel_mem k' = posted (kernel_mem k) (p_ring_pa p) ud r) k1).
  { intros r k1 Hr [Hk1 Hx1] E. eapply wp_mono; [apply (complete_answers p ptr [] q ud r k k1); try done|].
    - by rewrite E.
    - rewrite E. by split.
    - by intros i Hi%Nat.nlt_0_r.
    - unfold ERR in Hr. lia.
    - intros [] k' ([Hk' Hx'] & E' & Hans). split_and!; [by rewrite E'|done| |by rewrite E', E..].
      split; [done|by etransitivity]. }
  destruct (wp_run False _ _ _ _ _ (is_user_range_reads K A False pid p ptr len false k Hk Hp Ha Hptr Hl)
    (is_user_range_runs p ptr len false k Hk Hp Ha)) as [_ Hr].
  eapply wp_known; [by apply (is_user_range_runs p)|]. destruct (in_user_range p ptr len false); cbn [negb andb].
  - destruct (Hbs eq_refl) as [<- Hsee], (Hr eq_refl) as [_ Hre]. wp_step. rewrite Nat2Z.id.
    eapply wp_known; [by apply (user_bytes_seen p bs ptr k)|]. wp_step. unfold from_utf8. destruct (utf8_valid bs).
    + eapply wp_mono; [apply wp_and; [by apply (write_str_good K A False)|apply write_line]|].
      intros [] k1 [[Hg E] Ht]. eapply wp_mono; [apply Hfin; auto|]. intros [] k' [-> Hans]. split; [|done].
      exact Ht.
    + wp_steps. eapply wp_mono; [apply Hfin; [by left|by apply (good_refl K A)|by destruct k]|].
      intros [] k' [-> Hans]. by rewrite app_nil_r.
  - eapply wp_mono; [apply Hfin; [by right|by apply (good_refl K A)|by destruct k]|].
    intros [] k' [-> Hans]. by rewrite app_nil_r.
Qed.
End requests.

(** ** Claims *)

Lemma position_insert {B} (f : B -> bool) (l : list B) i x y :
  l !! i = Some x -> f y = f x -> position f (<[i := y]> l) = position f l.
Proof.
  intros Hi Hf. revert i Hi. induction l as [|z l IH]; intros [|i] Hi; try done.
  - injection Hi as ->. change (<[0%nat := y]> (x :: l)) with (y :: l). cbn [position]. by rewrite Hf.
  - change (<[S i := y]> (z :: l)) with (z :: <[i := y]> l). cbn [position]. by rewrite (IH i Hi).
Qed.

Section answers.
Context (K A : gset Z).
Context (PROGRAMS : list (list Z * list Z)) (tr ut : Z) (box : kernel -> option Z).
Context (pid : nat) (p : Process).
Implicit Types (k : kernel).
Abbreviation input k := (contents (INPUT (kcon k))).
Abbreviation line k := (tx (uart (kcon k))).
Abbreviation arrived k := (rx (uart (kcon k))).

(** The program of [pid] runs, its ring is mapped and holds [q]. *)
Record asks (q : list (Z * Z)) (ud : Z) k : Prop := {
  ak_inv : Kinv K A k;
  ak_runs : runs k pid p;
  ak_ring : p_ring_pa p <> 0;
  ak_cq : cq (kernel_mem k) (p_ring_pa p) q;
  ak_room : (length q < 16)%nat;
  ak_ud : 0 <= ud < 2 ^ 64
}.

(** The keyboard is the process's, no read is parked and no input is buffered; the
    bytes of [arrived] wait in the receiver. *)
Record quiet_keyboard k : Prop := {
  qk_fg : foreground_pid k = Some pid;
  qk_pending : p_pending p = replicate MAX_PENDING None;
  qk_input : input k = [];
  qk_some : arrived k <> []
}.

(** The bytes the receive interrupt finds: those buffered before, then those that
    arrived, as many as the buffer holds. *)
Definition typed_bytes k : list Z := take 255 (input k ++ arrived k).

(** The read is answered with the first of them; the others are kept. *)
Definition read_done (ptr len : Z) (q : list (Z * Z)) (ud : Z) k k' : Prop :=
  let bs := take (Z.to_nat len) (typed_bytes k) in
  answered p ptr bs q ud (Z.of_nat (length bs)) k k' /\ input k' = drop (Z.to_nat len) (typed_bytes k) /\ line k' = line k.

Lemma exec_runs opcode a0 a1 ud Q k :
  PROCESSES k !! pid = Some p ->
  wp False (if opcode =? OP_PRINT then print_op pid (p_ring_pa p) a0 a1 ud else read_op pid (p_ring_pa p) a0 a1 ud) Q k ->
  opcode = OP_PRINT \/ opcode = OP_READ -> wp False (exec_sqe PROGRAMS tr ut box pid opcode a0 a1 ud) Q k.
Proof.
  intros Hp HQ Hop. unfold exec_sqe. wp_step. eapply wp_mono; [by apply ring_pa_reads|]. intros page k' [-> ->].
  by destruct Hop as [-> | ->].
Qed.

(** C13: A program that submits OP_PRINT of a range of its memory, from its own
    context and with room in its completion queue, gets the bytes it sees there sent down the serial line, newlines with a carriage return before
    them, or nothing if they are not UTF-8, and the answer 0; any other range is
    answered -1 and nothing is sent. Nothing else of its memory changes. *)
Theorem print_shows q ud ptr len bs k :
  asks q ud k -> 0 <= ptr -> 0 <= len ->
  (in_user_range p ptr len false = true -> Z.of_nat (length bs) = len /\
    forall i b, bs !! i = Some b -> sees k p (ptr + Z.of_nat i) = Some b) ->
  let ok := in_user_range p ptr len false in
  exists k', exec_sqe PROGRAMS tr ut box pid OP_PRINT ptr len ud k = Ret (tt, k') /\
    line k' = line k ++ (if ok && utf8_valid bs then crlf bs else []) /\
    answered p ptr [] q ud (if ok then 0 else ERR) k k'.
Proof.
  intros [Hk Hr Hne Hq Hlen Hud] Hptr Hl Hbs ok. apply Kinv_split in Hk as [Hb _].
  destruct Hr as (_ & Hp & Ha & _ & _ & _ & _ & Ho). apply wp_unit, exec_runs; [done| |by left].
  eapply wp_mono; [by apply (print_runs K A pid p ptr len bs q ud)|]. by intros [] k' (? & ? & _).
Qed.

Lemma typed_is_bytes k : Kbase K A k -> Forall is_byte (typed_bytes k).
Proof. intros (T & l & Hk). destruct (ki_con _ _ _ _ _ Hk). apply Forall_take, Forall_app. by split; [apply contents_bytes|]. Qed.

(** The receive interrupt while reads of [p] are parked. *)
Lemma receive_answers q k :
  Kbase K A k -> PROCESSES k !! pid = Some p -> p_ring_pa p <> 0 -> foreground_pid k = Some pid ->
  parked_ok p (p_pending p) -> cq (kernel_mem k) (p_ring_pa p) q ->
  (length q + length (served (p_pending p) (typed_bytes k)) <= 16)%nat ->
  wp False receive (fun _ k' => delivered p q (served (p_pending p) (typed_bytes k)) k k' /\
    concat (served (p_pending p) (typed_bytes k)).*2 ++ input k' = typed_bytes k /\ line k' = line k /\
    ttbr0_el1 (the_mmu k') = ttbr0_el1 (the_mmu k) /\ PROCESSES k' = <[pid := polled p (typed_bytes k)]> (PROCESSES k)) k.
Proof.
  intros Hk Hp Hne Hf Hok Hq Hroom. unfold receive. wp_step.
  eapply wp_mono; [by apply (drain_uart_takes K A)|]. intros [] k1 ([Hk1 Hx1] & E1 & Hi1 & Ht1). fold (typed_bytes k) in Hi1.
  assert (EP1 : PROCESSES k1 = PROCESSES k) by (by rewrite E1). assert (Em1 : kernel_mem k1 = kernel_mem k) by (by rewrite E1).
  eapply wp_mono; [apply (poll_answers K A pid p q k1); try done; rewrite ?EP1, ?Hi1, ?Em1; try done|].
  - unfold foreground_pid. by rewrite EP1.
  - by apply typed_is_bytes.
  - rewrite Hi1, Ht1, EP1, (kx_live _ _ Hx1). intros [] k2 ([D1 D2] & H). split; [|done].
    unfold sees in D2. rewrite Em1 in D2. by split.
Qed.

End answers.

Section claims.
Context (K A : gset Z).
Context (PROGRAMS : list (list Z * list Z)) (tr ut : Z) (box : kernel -> option Z).
Context (pid : nat) (p : Process).
Implicit Types (k : kernel).

(** One read in the first slot, and bytes for it. *)
Lemma served_one r bs : bs <> [] -> served (Some r :: replicate 7 None) bs = [(r, take (Z.to_nat (plen r)) bs)].
Proof. destruct bs as [|b bs]; [done|]. intros _. cbn [served]. f_equal. by destruct (drop _ _). Qed.

Lemma delivered_one r q bs k k' :
  bs <> [] -> buffer p (pbuf r) (plen r) ->
  (forall i, 0 <= i < plen r -> exists f, owned (kernel_mem k) p (pbuf r + i) f) ->
  delivered p q (served (Some r :: replicate 7 None) bs) k k' ->
  answered p (pbuf r) (take (Z.to_nat (plen r)) bs) q (puser_data r) (Z.of_nat (length (take (Z.to_nat (plen r)) bs))) k k'.
Proof.
  intros Hbs Hbuf Hown [D1 D2]. rewrite served_one in D1, D2 by done. set (l := take _ _) in *. split; [exact D1|..].
  - intros i c Hi. pose proof (lookup_lt_Some _ _ _ Hi) as Hlt.
    assert (0 <= Z.of_nat i < plen r) as Hin by (unfold l in Hlt; rewrite length_take in Hlt; lia).
    destruct (Hown _ Hin) as [f Hf]. rewrite (D2 _ f Hf) by (by apply (bu_ring _ _ _ Hbuf)). cbn [overlay fold_left].
    rewrite (proj2 (Z.leb_le _ _)), (proj2 (Z.ltb_lt _ _)) by lia. cbn [andb]. rewrite <-Hi. f_equal. lia.
  - intros va f Hf Hout Hnr. rewrite (D2 va f Hf Hnr). cbn [overlay fold_left].
    destruct (Z.leb_spec (pbuf r) va), (Z.ltb_spec va (pbuf r + Z.of_nat (length l))); try done. lia.
Qed.

(** The read first, then the bytes. *)
Lemma read_then_input q ud ptr len k :
  asks K A pid p q ud k -> quiet_keyboard pid p k -> buffer p ptr len ->
  wp False (exec_sqe PROGRAMS tr ut box pid OP_READ ptr len ud ;;; receive) (fun _ => read_done p ptr len q ud k) k.
Proof.
  intros [Hk Hr Hne Hq Hlen Hud] [Hf Hpe Hi Hs] Hbuf. apply Kinv_split in Hk as [Hb _].
  destruct Hr as (_ & Hp & Ha & _ & _ & _ & _ & Ho). wp_step. apply (exec_runs PROGRAMS tr ut box pid p); [done| |by right].
  eapply wp_mono; [by apply (read_parks K A pid p)|]. intros [] k1 ([Hk1 Hx1] & Em1 & EP1 & Ht1 & Hr1 & Hi1).
  set (p1 := set_pending _ p) in EP1. assert (Et : typed_bytes k1 = typed_bytes k) by (unfold typed_bytes; by rewrite Hi1, Hr1, Hi).
  assert (Hbs : typed_bytes k <> []) by (unfold typed_bytes; rewrite Hi; by destruct (rx (uart (kcon k)))).
  eapply wp_mono; [apply (receive_answers K A pid p1 q k1); try done; rewrite ?EP1, ?Em1; try done|].
  - apply list_lookup_insert_eq. by eapply lookup_lt_Some.
  - unfold foreground_pid. by rewrite EP1, (position_insert _ _ _ p).
  - intros r [[= ->]|Hr]%elem_of_cons; [by split; [destruct Hbuf; split|]|]. by apply elem_of_replicate in Hr as [? _].
  - change (p_pending p1) with (Some (mkPending ptr len ud) :: replicate 7 None). rewrite Et, served_one by done. cbn [length]. lia.
  - rewrite Et. intros [] k2 (Hd & Hc & Ht2 & _). split; [|split; [|congruence]].
    + apply (answered_mem p ptr _ q ud _ k k1 k2 k2); [done|done|].
      apply (delivered_one (mkPending ptr len ud)); [done|done| |by destruct Hd; split].
      intros i Hi'. rewrite Em1. destruct (buffer_reachable K A pid p ptr len k i) as [_ Hre]; try done.
      destruct (reachable_owned K A pid k p true _ Hb Hp Hre) as (f & Hfo & _). by exists f.
    + change (p_pending p1) with (Some (mkPending ptr len ud) :: replicate 7 None) in Hc. rewrite served_one in Hc by done.
      cbn [fmap list_fmap concat snd plen] in Hc. rewrite app_nil_r in Hc.
      rewrite <-(take_drop (Z.to_nat len) (typed_bytes k)) in Hc at 2. by apply app_inv_head in Hc.
Qed.

(** The bytes first, then the read. *)
Lemma input_then_read q ud ptr len k :
  asks K A pid p q ud k -> quiet_keyboard pid p k -> buffer p ptr len ->
  wp False (receive ;;; exec_sqe PROGRAMS tr ut box pid OP_READ ptr len ud) (fun _ => read_done p ptr len q ud k) k.
Proof.
  intros [Hk Hr Hne Hq Hlen Hud] [Hf Hpe Hi Hs] Hbuf. apply Kinv_split in Hk as [Hb _].
  destruct Hr as (_ & Hp & Ha & _ & _ & _ & _ & Ho). unfold receive. wp_step. wp_step.
  eapply wp_mono; [by apply (drain_uart_takes K A)|]. intros [] k1 ([Hk1 Hx1] & E1 & Hi1 & Ht1). fold (typed_bytes k) in Hi1.
  eapply wp_mono; [apply (poll_idle K A pid p); [done|by rewrite E1|done|by rewrite E1|done]|].
  intros [] k2 (Hk2 & EP2 & Ec2 & Em2 & El2). assert (HP : PROCESSES k2 = PROCESSES k) by (by rewrite EP2, E1).
  assert (Em : kernel_mem k2 = kernel_mem k) by (by rewrite Em2, E1). apply (exec_runs PROGRAMS tr ut box pid p); [by rewrite HP| |by right].
  eapply wp_mono; [apply (read_now K A pid p ptr len q ud k2); try done; rewrite ?Ec2, ?Hi1, ?Em; try done|].
  - by rewrite HP.
  - unfold owns_live. by rewrite El2, (kx_live _ _ Hx1).
  - by apply (typed_is_bytes K A).
  - unfold typed_bytes. rewrite Hi. by destruct (rx (uart (kcon k))).
  - unfold foreground_pid. by rewrite HP.
  - unfold taken. rewrite Ec2, Hi1, Ht1. intros [] k3 (Hi3 & Ht3 & Hans). split; [|done].
    by apply (answered_mem p ptr _ q ud _ k k2 k3 k3).
Qed.

(** C14: OP_READ and the bytes of the line meet in either order. A program that has
    the keyboard submits the read, no read of its being parked and no input being
    buffered, its completion queue not full and its buffer off the ring page: whether
    the receive interrupt comes after the read or before it, both run to their end,
    the first bytes that arrived, as many as it asked for, are in its buffer in order,
    their number is its one answer, the rest stays buffered, and nothing else of its
    memory changes. Of what arrived the interrupt takes 255 bytes. Reads of a process
    without the keyboard are not answered. *)
Theorem read_meets_input q ud ptr len k :
  asks K A pid p q ud k -> quiet_keyboard pid p k -> buffer p ptr len ->
  exists k1 k2,
    (exec_sqe PROGRAMS tr ut box pid OP_READ ptr len ud ;;; receive) k = Ret (tt, k1) /\ read_done p ptr len q ud k k1 /\
    (receive ;;; exec_sqe PROGRAMS tr ut box pid OP_READ ptr len ud) k = Ret (tt, k2) /\ read_done p ptr len q ud k k2.
Proof.
  intros Ha Hq Hb. destruct (wp_unit _ _ _ (read_then_input q ud ptr len k Ha Hq Hb)) as (k1 & R1 & D1).
  destruct (wp_unit _ _ _ (input_then_read q ud ptr len k Ha Hq Hb)) as (k2 & R2 & D2). by exists k1, k2.
Qed.
End claims.
