(* ===== verification/Kernel.v ===== *)
(** * The running kernel

    Every way control enters the kernel, as one step relation: system calls and
    faults of arbitrary user programs, interrupts, tasks that go on after they
    blocked, the poller and the idle task; and what holds in every state they can
    lead to. *)

From Stdlib Require Import ZArith Lia String.
From stdpp Require Import base numbers gmap strings list list_relations.
From S2P Require Import Prelude Memory Abi Frames Mmu PageTables AddressSpaces Reclaim Ownership.
From S2P Require Import VirtualMemory Isolation Sched Console Elf Loader Devices Process Text Ring User Main Threads.
From S2P Require Import KernelInv KernelRing KernelSpawn KernelSteps KernelIrq KernelExit.

Section kernel.
Context (K A : gset Z).
Context (PROGRAMS : list (list Z * list Z)) (tr ut : Z) (box : kernel -> option Z).
Hypothesis Hprogs : Forall image_ok PROGRAMS.*2.
Abbreviation Kinv := (Kinv K A).
Abbreviation Kbase := (Kbase K A).
Abbreviation good := (good K A).
Abbreviation keeps_kernel := (keeps_kernel K A).
Implicit Types (k : kernel) (pan : Prop).

(** ** The operations of kernel threads *)

(** A kernel task has no address space of its own. *)
Definition kernel_task (k : kernel) : Prop :=
  exists t, tasks (SCHEDULER (ks k)) !! current (SCHEDULER (ks k)) = Some t /\ ttbr0 t = None.

Lemma kernel_task_ext k k' : kernel_task k -> kext k k' -> kernel_task k'.
Proof.
  intros (t & Ht & Hr) Hx. destruct (kx_tasks _ _ Hx _ _ Ht) as (t' & Ht' & _ & Hr'). exists t'.
  rewrite (kx_current _ _ Hx). split; [done|congruence].
Qed.

Lemma moved_Kinv k r k' : Kinv k -> kernel_task k -> Kbase k' -> moved k r k' -> Kinv k'.
Proof.
  intros Hk (t & Ht & Hr) Hb [E _ _ _]. apply Kinv_split in Hk as [_ [R1 _]].
  assert (Es : SCHEDULER (ks k') = SCHEDULER (ks k)) by (by rewrite E). apply Kinv_split. split; [done|].
  split; rewrite Es; [done|]. intros t' r' Ht' Hr'. congruence.
Qed.

(** The process an operation of the poller is about has not ended. *)
Definition fresh {X} (o : op X) (k : kernel) : Prop :=
  match o with
  | Activate root => exists pid p, PROCESSES k !! pid = Some p /\ alive p /\ p_ttbr0 p = root
  | StoreRing a _ => exists pid p, PROCESSES k !! pid = Some p /\ p_ring_pa p <> 0 /\ a = p_ring_pa p + FLAGS
  | _ => True
  end.

(** The idle task must not perform these. *)
Definition leaves {X} (o : op X) : bool :=
  match o with Block | Sleep _ | Exit => true | _ => false end.

(** ** Traps *)

Lemma say_bind {B} pan s (m : M kernel B) Q k :
  Kbase k -> (forall k1, good k k1 -> wp pan m Q k1) -> wp pan (say s ;;; m) Q k.
Proof. intros Hk Hm. wp_step. eapply wp_mono; [by apply say_good|]. intros [] k1 [Hg _]. by apply Hm. Qed.

(** A trap that ends a process. *)
Lemma say_retired s code pid p k :
  Kinv k -> runs k pid p ->
  wp False (say s ;;; retire code) (fun e k' => e = Retired /\ retired K A k pid p code k') k.
Proof.
  intros Hk Hr. pose proof (proj1 (Kinv_split _ _ _) Hk) as [Hb Hrun]. apply say_bind; [done|]. intros k1 Hg.
  pose proof (good_Kinv _ _ _ _ Hrun Hg) as Hk1. destruct Hg as [_ Hx]. destruct (runs_ext _ _ _ _ Hr Hx) as (p1 & Hr1 & Hc).
  eapply wp_mono; [by apply (retire_wp K A pid p1)|]. intros e k2 [-> Hrt]. split; [done|]. by eapply retired_ext.
Qed.

Lemma say_retire s code k :
  Kinv k -> wp True (say s ;;; retire code) (fun _ k' => Kinv k') k.
Proof.
  intros Hk. pose proof (proj1 (Kinv_split _ _ _) Hk) as [Hb Hrun]. apply say_bind; [done|]. intros k1 Hg.
  pose proof (good_Kinv _ _ _ _ Hrun Hg) as Hk1.
  assert (Hc : wp True (in_sched current_process) (fun o k' => k' = k1 /\
    match o with Some pid => exists p, runs k1 pid p | None => forall pid p, ~ runs k1 pid p end) k1)
    by (by apply (current_process_reads K A)).
  destruct (in_sched current_process k1) as [[[pid|] k']|] eqn:E; unfold wp in Hc; rewrite E in Hc.
  - destruct Hc as [-> [p Hr]]. apply (wp_pan False); [done|].
    eapply wp_mono; [by apply (retire_wp K A pid p)|]. intros e k2 [_ Hrt].
    destruct (rt_pool _ _ _ _ _ _ _ Hrt) as (T & l & Hk2 & _). by exists T, l.
  - destruct Hc as [-> _]. unfold wp, retire, teardown, bindM. rewrite E. done.
  - unfold wp, retire, teardown, bindM. by rewrite E.
Qed.

Lemma reg_reads pan f i (Q : Z -> kernel -> Prop) k : (forall v, Q v k) -> pan -> wp pan (reg f i) Q k.
Proof. intros HQ Hp. apply wp_expect; auto. Qed.

Lemma dispatch_kinv f k : Kinv k -> wp True (dispatch PROGRAMS tr ut box f) (fun _ k' => Kinv k') k.
Proof.
  intros Hk. pose proof (proj1 (Kinv_split _ _ _) Hk) as [Hb Hrun]. unfold dispatch.
  wp_step. apply reg_reads; [|done]. intros num. wp_step. apply reg_reads; [|done]. intros a0.
  destruct (num =? SYS_ADD); [wp_step; apply reg_reads; [intros a1; by wp_steps|done]|].
  destruct (num =? SYS_RING_SETUP).
  { wp_step. eapply wp_mono; [by apply (setup_wp K A True)|]. intros v k1 Hk1. by wp_steps. }
  destruct (num =? SYS_RING_ENTER).
  { wp_step. eapply wp_mono; [by apply (enter_kinv K A PROGRAMS tr ut box Hprogs True)|]. intros r k1 Hk1. by wp_steps. }
  destruct (num =? SYS_EXIT); [by apply say_retire|].
  apply say_bind; [done|]. intros k1 Hg. wp_steps. by eapply good_Kinv.
Qed.

Lemma halt_wp kind esr far f Q k : wp True (report_and_halt kind esr far f) Q k.
Proof. unfold wp, report_and_halt, bindM. by repeat (destruct (say _ _) as [[[] ?]|]; [|done]). Qed.

Lemma exception_kinv kind esr far intid f k :
  Kinv k -> wp True (exception_dispatch PROGRAMS tr ut box kind esr far intid f) (fun _ k' => Kinv k') k.
Proof.
  intros Hk. unfold exception_dispatch. destruct (kind mod 4 =? 1).
  { wp_step. apply (wp_pan False); [done|]. eapply wp_mono; [by apply (handle_irq_wp K A)|]. intros [] k1 [? _]. by wp_steps. }
  destruct (kind mod 4 =? 0); [|apply halt_wp]. destruct (_ =? EC_SVC); [by apply dispatch_kinv|].
  destruct (8 <=? kind); [by apply say_retire|apply halt_wp].
Qed.

Lemma resume_kinv f pid p page mc k :
  Kinv k -> runs k pid p -> wp True (resume_parked f pid page mc) (fun _ k' => Kinv k') k.
Proof.
  intros Hk Hr. unfold resume_parked. wp_step. eapply wp_mono; [by apply (enter_wait_kinv K A True pid p)|].
  intros r k1 Hk1. by wp_steps.
Qed.

(** A new task starts with the registers of its process. *)
Lemma user_task_kinv k : Kinv k -> wp True user_task (fun _ k' => Kinv k') k.
Proof.
  intros Hk. pose proof (proj1 (Kinv_split _ _ _) Hk) as [Hb Hrun]. unfold user_task. wp_step.
  eapply wp_mono; [by apply (write_str_good K A True)|]. intros [] k1 [Hg _]. pose proof (good_Kinv _ _ _ _ Hrun Hg) as Hk1.
  unfold enter_user. wp_step. eapply wp_mono; [by apply (current_process_reads K A)|]. intros [pid|] k' [-> Hc]; [|done].
  destruct Hc as [p (_ & Hp & _)]. wp_steps. unfold Process.entry. wp_step. eapply wp_mono; [by apply proc_reads|].
  intros q k' [-> ->]. wp_steps. by apply wp_expect; [intros; wp_steps|].
Qed.

(** ** Kernel threads and the first process *)

Lemma spawn_Kinv st e arg k : Kinv k -> wp True (in_sched (spawn tr st e arg)) (fun _ k' => Kinv k') k.
Proof.
  intros Hk. pose proof (proj1 (Kinv_split _ _ _) Hk) as [Hb Hrun].
  eapply wp_mono; [by apply (spawn_inner_good K A True)|]. intros [] k1 [Hg _]. by eapply good_Kinv.
Qed.

(** A thread that sleeps or ends; the idle task does neither. *)
Lemma leave_Kinv f k :
  Kinv k -> current (SCHEDULER (ks k)) <> O -> (forall t, state (f t) <> Runnable) ->
  (forall t, state t = Runnable -> keeps f t) ->
  wp True (in_sched (update_task (current (SCHEDULER (ks k))) f ;;; schedule)) (fun _ k' => Kinv k') k.
Proof.
  intros (T & l & Hb & Hrun) Hne Hf Hkf. apply (wp_pan False); [done|].
  destruct (running_task _ Hrun) as (t & Ht & Hs).
  eapply wp_mono; [apply (leave_kinv K A k T l f); [|done|by eapply lookup_lt_Some]|].
  - apply kbase_task; [done| |done]. intros t' Ht'. apply Hkf. congruence.
  - intros [] k' [? _]. by exists T, l.
Qed.

Lemma sleep_Kinv n k :
  Kinv k -> current (SCHEDULER (ks k)) <> O -> wp True (in_sched (sleep_ticks n)) (fun _ k' => Kinv k') k.
Proof.
  intros Hk Hne. unfold in_sched, sleep_ticks. apply wp_zoom. wp_steps. apply wp_expect; [|done]. intros w _.
  pose proof (leave_Kinv (fun t => set_state Blocked (set_wake_at w t)) k Hk Hne) as H.
  unfold in_sched, wp, zoomM in H. unfold wp. destruct (bindM _ _ (ks k)) as [[[] s']|]; [|done]. apply H; [done|].
  intros t Hs. unfold keeps. cbn. split_and!; congruence.
Qed.

Lemma exit_Kinv k :
  Kinv k -> current (SCHEDULER (ks k)) <> O -> wp True (in_sched task_exit) (fun _ k' => Kinv k') k.
Proof.
  intros Hk Hne. apply (leave_Kinv (set_state Exited)); [done|done|done|]. intros t Hs. by split_and!.
Qed.

Lemma spawn_shell_keeps k : Kbase k -> keeps_kernel True (spawn_shell PROGRAMS tr ut box) k.
Proof.
  intros Hk. unfold spawn_shell, KernelRing.keeps_kernel. wp_step. apply wp_expect; [|done]. intros jsh Hj.
  apply (new_process_wp K A); [done|by apply (Forall_elem _ _ _ Hprogs), (lookup_program_elem _ (str "jsh"))|done|].
  intros p s [Hk1 Hx1] [_ Ha _ _]. set (c := length (PROCESSES k)) in *.
  assert (Hc : PROCESSES (with_proc s p k) !! c = Some p) by (by apply list_lookup_middle).
  assert (Hfin : forall k', good (with_proc s p k) k' -> good k k')
    by (intros k' [? Hx]; split; [done|]; by etransitivity).
  set (k1 := with_proc s p k) in *.
  cut (keeps_kernel True (set_foreground c true ;;; let! r := proc_ttbr0 c in let! k := getM in
         let! stack := expectM (box k) in in_sched (spawn_user tr stack ut 0 c r)) k1).
  { intros H. eapply wp_mono; [exact H|]. intros a k' [Hg _]. split; [by apply Hfin|done]. }
  eapply (good_bind K A True _ _ (fun _ k' => k' = set_procs (<[c := set_fg true p]> (PROCESSES k1)) k1)).
  { apply (good_update K A True c _ p); [done|done|done|]. intros n m [R1 R2 R3 R4 R5] _ _. by split. }
  intros [] k2 Hk2 _ ->. set (p2 := set_fg true p).
  assert (Hp2 : PROCESSES (set_procs (<[c := p2]> (PROCESSES k1)) k1) !! c = Some p2)
    by (apply list_lookup_insert_eq; by eapply lookup_lt_Some).
  wp_step. eapply wp_mono; [by apply proc_ttbr0_reads|]. intros r k' [-> ->]. wp_steps. apply wp_expect; [|done]. intros st _.
  eapply wp_mono; [apply (spawn_inner_good K A True); [done|done|by exists p2|]|by intros [] k' [? _]].
  intros ? i t [= <-] Ht Hs Hpr. cbn [ks set_procs k1 with_proc set_mmu SCHEDULER] in Ht. destruct Hk as (T & l & Hb).
  pose proof (ki_tasks _ _ _ _ _ Hb i t Ht Hs) as Hok. unfold task_ok in Hok. rewrite Hpr in Hok.
  destruct Hok as (p0 & Hp0%lookup_lt_Some & _). unfold c in Hp0. lia.
Qed.

Lemma activate_Kinv root k :
  Kinv k -> kernel_task k -> fresh (Activate root) k -> wp True (in_mmu (activate root)) (fun _ k' => Kinv k') k.
Proof.
  intros Hk Ht (pid & p & Hp & Ha & <-). pose proof (proj1 (Kinv_split _ _ _) Hk) as [(T & l & Hkb) _].
  eapply wp_mono; [apply (activate_kbase K A _ _ k T l Hkb); right; apply elem_of_roots_of; eauto|].
  intros [] k1 [Hk1 Hm]. apply (moved_Kinv k (p_ttbr0 p)); [done|done|by exists T, l|done].
Qed.

Lemma drain_Kinv pid k : Kinv k -> wp True (drain PROGRAMS tr ut box pid) (fun _ k' => Kinv k') k.
Proof.
  intros Hk. pose proof (proj1 (Kinv_split _ _ _) Hk) as [Hb Hrun]. destruct (PROCESSES k !! pid) as [p|] eqn:Hp.
  - eapply wp_mono; [by apply (drain_keeps K A PROGRAMS tr ut box Hprogs True pid p)|]. intros _ k' [Hg _]. by eapply good_Kinv.
  - unfold wp, drain, ring_pa, proc, bindM, getM, expectM. by rewrite Hp.
Qed.

Lemma store_flag_Kinv a v k :
  Kinv k -> fresh (StoreRing a v) k -> wp True (st32 a v) (fun _ k' => Kinv k') k.
Proof.
  intros Hk (pid & p & Hp & Hne & ->). pose proof (proj1 (Kinv_split _ _ _) Hk) as [Hb Hrun].
  destruct (ring_data K A k pid p Hb Hp Hne) as [_ Hd].
  eapply wp_mono; [apply (store_good K A True 4 _ FLAGS); [done|done|unfold FLAGS; lia..]|].
  intros [] k' [Hg _]. by eapply good_Kinv.
Qed.

Lemma register_Kinv k :
  Kinv k -> wp True (let! me := in_sched (getsM current_task) in modifyM (set_poller (Some me))) (fun _ k' => Kinv k') k.
Proof.
  intros (T & l & Hk). unfold in_sched. wp_steps. exists T, l. apply (kinv_tables K A k); try done; try apply Hk.
  intros t [= <-]. apply (ki_sched _ _ _ _ _ (ki_base _ _ _ _ _ Hk)).
Qed.

(** What reads only. *)
Lemma reads_Kinv {B} (m : M kernel B) k :
  wp True m (fun _ k' => k' = k) k -> Kinv k -> wp True m (fun _ k' => Kinv k') k.
Proof. intros Hm Hk. eapply wp_mono; [exact Hm|]. by intros a k' ->. Qed.

Lemma proc_field_reads {B} (f : Process -> B) pid k : wp True (let! p := proc pid in retM (f p)) (fun _ k' => k' = k) k.
Proof.
  unfold proc. wp_steps. by apply wp_expect; [intros; wp_steps|].
Qed.

Lemma good_wp_Kinv {B} (m : M kernel B) k : Kinv k -> keeps_kernel True m k -> wp True m (fun _ k' => Kinv k') k.
Proof.
  intros Hk Hm. pose proof (proj1 (Kinv_split _ _ _) Hk) as [Hb Hrun]. eapply wp_mono; [exact Hm|].
  intros a k' [Hg _]. by eapply good_Kinv.
Qed.

Lemma op_Kinv {X} (o : op X) k :
  Kinv k -> kernel_task k -> (leaves o = true -> current (SCHEDULER (ks k)) <> O) -> fresh o k ->
  wp True (exec_op PROGRAMS tr ut box o) (fun _ k' => Kinv k') k.
Proof.
  intros Hk Ht Hl Hf. pose proof (proj1 (Kinv_split _ _ _) Hk) as [Hb Hrun].
  destruct o; cbn [exec_op]; cbn [leaves] in Hl; unfold ld32, ticks.
  - by wp_steps.
  - by apply reads_Kinv; [apply proc_field_reads|].
  - by apply reads_Kinv; [apply proc_field_reads|].
  - by wp_steps.
  - by apply store_flag_Kinv.
  - by apply activate_Kinv.
  - by apply drain_Kinv.
  - by wp_steps.
  - by apply register_Kinv.
  - by apply good_wp_Kinv; [|eapply keeps_of, say_good].
  - by apply good_wp_Kinv; [|eapply keeps_of, write_str_good].
  - destruct Hk as (T & l & Hk). apply (wp_pan False); [done|].
    eapply wp_mono; [by apply (yield_kinv K A k T l)|]. intros [] k' [? _]. by exists T, l.
  - destruct Hk as (T & l & Hk). apply (wp_pan False); [done|].
    eapply wp_mono; [apply (block_kinv K A k T l Hk); auto|]. intros [] k' [? _]. by exists T, l.
  - apply sleep_Kinv; auto.
  - apply exit_Kinv; auto.
  - by wp_steps.
  - unfold spawn_thread. wp_steps. apply wp_expect; [|done]. intros st _. by apply spawn_Kinv.
  - apply wp_expect; by intros.
  - destruct b; by wp_steps.
  - apply reads_Kinv; [|done]. unfold wp. rewrite (sim_validate image k). by destruct (validate image tt) as [[? ?]|].
  - apply good_wp_Kinv; [done|]. by apply spawn_shell_keeps.
Qed.

(** ** Steps *)

(** The running task belongs to a process. *)
Definition user_runs (k : kernel) : Prop := exists pid p, runs k pid p.

(** The steps of the system. The poller uses the root and the ring page it read for a
    process in later operations, and the process may have ended in between: with
    [stale] such operations are steps too, without it only those on a process that
    still lives. *)
Inductive kstep (stale : bool) : kernel -> kernel -> Prop :=
(** A program stores a byte anywhere EL0 may. *)
| st_store k va b m' :
    user_runs k -> el0_store (kernel_mem k) (live_l0 (the_mmu k)) va b = Some m' -> kstep stale k (set_kernel_mem m' k)
(** Registers, kernel stacks and the kernel's own data change. *)
| st_compute k r p m : kstep stale k (set_ks (set_cpu r p m (ks k)) k)
(** The host sends a byte. *)
| st_host k b u : is_byte b -> u = uart (kcon k) ->
    kstep stale k (set_con (set_uart (mkPl011 (rx u ++ [b]) (tx u) (imsc u) (Console.busy u)) (kcon k)) k)
(** An exception: a system call with arbitrary registers, a fault, an interrupt. *)
| st_exception k kind esr far intid f e k' :
    exception_dispatch PROGRAMS tr ut box kind esr far intid f k = Ret (e, k') -> kstep stale k k'
(** A task that blocked in [enter] runs again. *)
| st_resume k pid p f page mc e k' :
    runs k pid p -> resume_parked f pid page mc k = Ret (e, k') -> kstep stale k k'
(** The task of a new process starts. *)
| st_start k e k' : user_task k = Ret (e, k') -> kstep stale k k'
(** A kernel thread performs its next operation. *)
| st_thread k X (o : op X) x k' :
    kernel_task k -> (leaves o = true -> current (SCHEDULER (ks k)) <> O) -> (stale = false -> fresh o k) ->
    exec_op PROGRAMS tr ut box o k = Ret (x, k') -> kstep stale k k'.

Lemma compute_kinv k T l r p m : kinv K A k T l -> kinv K A (set_ks (set_cpu r p m (ks k)) k) T l.
Proof.
  intros [Hb [R1 R2]]. split; [|by split]. pose proof (ki_sched _ _ _ _ _ Hb) as [Hw Hi].
  apply (kbase_sched K A k); try done; [apply Hb|by apply view_tasks_step].
Qed.

Lemma store_kinv k va b m' :
  Kinv k -> el0_store (kernel_mem k) (live_l0 (the_mmu k)) va b = Some m' -> Kinv (set_kernel_mem m' k).
Proof.
  intros Hk Hs. pose proof (proj1 (Kinv_split _ _ _) Hk) as [Hb Hrun]. rewrite (live_root K A) in Hs by done.
  destruct (el0_store_data K A _ _ _ _ Hb Hs) as (f & Hf & ->). apply (good_Kinv K A k); [done|].
  apply (good_mem K A True _ f); [done|done| |by apply mem_ok_write8, (kinv_mem_ok K A)].
  intros a Ha. apply read8_write8_ne. unfold FRAME_SIZE in *. zlia.
Qed.

Lemma kstep_kinv k k' : Kinv k -> kstep false k k' -> Kinv k'.
Proof.
  intros Hk Hs. pose proof (proj1 (Kinv_split _ _ _) Hk) as [Hb Hrun]. destruct Hs.
  - by eapply store_kinv.
  - destruct Hk as (T & l & Hk). exists T, l. by apply compute_kinv.
  - apply (good_Kinv K A k); [done|]. destruct Hk as (T & l & Hk & _). destruct (ki_con _ _ _ _ _ Hk) as [Hi Hrx].
    split; [exists T, l|by split; eauto]. subst u.
    apply (kbase_tables K A k); try done; try apply Hk. split; [exact Hi|]. cbn. apply Forall_app. by split; [|constructor].
  - exact (wp_run True _ _ _ _ _ (exception_kinv kind esr far intid f k Hk) H).
  - exact (wp_run True _ _ _ _ _ (resume_kinv f pid p page mc k Hk H) H0).
  - exact (wp_run True _ _ _ _ _ (user_task_kinv k Hk) H).
  - exact (wp_run True _ _ _ _ _ (op_Kinv o k Hk H H0 (H1 eq_refl)) H2).
Qed.

(** [kmain] starts the first process. *)
Lemma shell_step k k' :
  Kinv k -> kernel_task k -> spawn_shell PROGRAMS tr ut box k = Ret (tt, k') -> kstep false k k' /\ Kinv k' /\ kernel_task k'.
Proof.
  intros Hk Ht Hrun. assert (Hs : kstep false k k') by (by apply (st_thread false k unit Shell tt)). split; [done|].
  split; [by apply (kstep_kinv k)|]. apply Kinv_split in Hk as [Hb _].
  destruct (wp_run True _ _ _ _ _ (spawn_shell_keeps k Hb) Hrun) as [[_ Hx] _]. by eapply kernel_task_ext.
Qed.

Lemma yield_step k k' : kernel_task k -> in_sched yield_now k = Ret (tt, k') -> kstep false k k'.
Proof. intros Ht Hrun. by apply (st_thread false k unit Yield tt). Qed.

Lemma ksteps_kinv k k' : Kinv k -> rtc (kstep false) k k' -> Kinv k'.
Proof. intros Hk Hr. induction Hr as [|k1 k2 k3 Hs _ IH]; [done|]. by apply IH, (kstep_kinv k1). Qed.
End kernel.
