(* ===== verification/Preemption.v ===== *)
(** * Preempted threads

    Kernel threads run with interrupts on, so whatever the rest of the system does
    can come between two of their operations. A small logic of assertions that the
    rest of the system leaves true, and the poller, [kmain] and the threads of its
    scheduler check proved with it. *)

From Stdlib Require Import ZArith Lia.
From stdpp Require Import base numbers gmap list list_relations.
From S2P Require Import Prelude Memory Abi Frames Mmu PageTables AddressSpaces Isolation.
From S2P Require Import Sched Console Elf Loader Process Ring User Main Threads.
From S2P Require Import KernelInv KernelRing KernelSpawn KernelSteps Kernel.

(** ** Interleavings *)

(** Processes that are alive stay so, with their root and their ring page. *)
Definition undisturbed (k k' : kernel) : Prop :=
  forall pid p, PROCESSES k !! pid = Some p -> alive p ->
    exists p', PROCESSES k' !! pid = Some p' /\ alive p' /\ p_ttbr0 p' = p_ttbr0 p /\
      (p_ring_pa p <> 0 -> p_ring_pa p' = p_ring_pa p).

(** The next operation uses what an earlier one read about a process. *)
Definition fragile {C} (t : thread C) : bool :=
  match t with
  | Do (LoadRing _) _ | Do (StoreRing _ _) _ | Do (RootOf _) _ | Do (Activate _) _ => true
  | _ => false
  end.

Section preemption.
Context (K A : gset Z).
Context (PROGRAMS : list (list Z * list Z)) (tr ut : Z) (box : kernel -> option Z).
Hypothesis Hprogs : Forall image_ok PROGRAMS.*2.
(** The task the thread runs as. *)
Context (me : nat).
Abbreviation Kinv := (Kinv K A).
Abbreviation Kbase := (Kbase K A).
Abbreviation kstep := (kstep PROGRAMS tr ut box false).
Abbreviation exec_op := (exec_op PROGRAMS tr ut box).
Implicit Types (k : kernel) (P : kernel -> Prop).

(** The thread goes on when its task runs; in between anything can happen, but no
    process ends while the thread is about to use what it read about one. *)
Inductive pstep {C} : thread C * kernel -> thread C * kernel -> Prop :=
| ps_thread t k t' k' :
    current (SCHEDULER (ks k)) = me -> kernel_task k -> advances PROGRAMS tr ut box t k t' k' -> pstep (t, k) (t', k')
| ps_others t k k' : kstep k k' -> (fragile t = true -> undisturbed k k') -> pstep (t, k) (t, k').

(** ** The logic *)

(** An assertion the rest of the system leaves true while [t] waits. *)
Definition stable {C} (t : thread C) P : Prop :=
  forall k k', P k -> kstep k k' -> (fragile t = true -> undisturbed k k') -> P k'.

Fixpoint safe {C} (t : thread C) P (Q : C -> kernel -> Prop) : Prop :=
  match t with
  | Stop c => forall k, P k -> Q c k
  | @Do _ X o next => exists P0 (Post : X -> kernel -> Prop), (forall k, P k -> P0 k) /\
      stable (Do o next) P0 /\
      (leaves o = true -> me <> O) /\ (forall k, P0 k -> fresh o k) /\
      (forall k x k', Kinv k -> P0 k -> exec_op o k = Ret (x, k') -> Post x k') /\
      forall x, safe (next x) (Post x) Q
  | Loop s body next => exists I R, (forall k, P k -> I s k) /\
      (forall s, stable (Loop s body next) (I s)) /\
      (forall s, safe (body s) (I s) (fun r k => match r with inl s' => I s' k | inr b => R b k end)) /\
      forall b, safe (next b) (R b) Q
  end.

Lemma safe_mono {C} (t : thread C) P P' (Q Q' : C -> kernel -> Prop) :
  (forall k, P' k -> P k) -> (forall c k, Q c k -> Q' c k) -> safe t P Q -> safe t P' Q'.
Proof.
  revert P P' Q Q'. induction t as [C c|C X o next IH|C B St s body IHb next IH]; intros P P' Q Q' HP HQ; cbn [safe]; [by auto|..].
  - intros (P0 & P1 & H0 & Hs & Hl & Hf & H1 & Hn). exists P0, P1. do 5 (split; [by auto|]). intros x. eapply IH; eauto.
  - intros (I & R & H0 & Hs & Hb & Hn). exists I, R. do 3 (split; [by auto|]). intros b. eapply IH; eauto.
Qed.

Lemma safe_bind {B C} (t : thread B) (f : B -> thread C) P Q (R : C -> kernel -> Prop) :
  safe t P Q -> (forall b, safe (f b) (Q b) R) -> safe (tbind t f) P R.
Proof.
  intros Ht Hf. revert C f P Q R Ht Hf. induction t as [B b|B X o next IH|B D St s body IHb next IH];
    intros C f P Q R Ht Hf; cbn [tbind]; cbn [safe] in Ht |- *.
  - by eapply safe_mono; [..|apply Hf]; [exact Ht|].
  - destruct Ht as (P0 & P1 & H0 & Hs & Hl & Hfr & H1 & Hn). exists P0, P1. do 5 (split; [done|]). intros x. eauto.
  - destruct Ht as (I & S & H0 & Hs & Hb & Hn). exists I, S. do 3 (split; [done|]). intros b. eauto.
Qed.

(** Nothing known, nothing needed. *)
Definition plain {X} (o : op X) : bool :=
  match o with Activate _ | StoreRing _ _ => false | _ => true end.
Abbreviation any := (fun _ : kernel => True).

Lemma safe_call {X} (o : op X) P (Q : X -> kernel -> Prop) :
  (leaves o = true -> me <> O) -> plain o = true ->
  (forall k x k', Kinv k -> exec_op o k = Ret (x, k') -> Q x k') -> safe (call o) P Q.
Proof.
  intros Hl Hp HQ. exists any, Q. do 2 (split; [done|]). split; [done|]. split; [intros k _; by destruct o|].
  split; [by eauto|]. by intros x k.
Qed.

Lemma safe_any {X} (o : op X) : (leaves o = true -> me <> O) -> plain o = true -> safe (call o) any (fun _ => any).
Proof. intros. by apply safe_call. Qed.

Lemma safe_seq {B C} (t : thread B) (f : B -> thread C) :
  safe t any (fun _ => any) -> (forall b, safe (f b) any (fun _ => any)) -> safe (tbind t f) any (fun _ => any).
Proof. intros Ht Hf. by eapply safe_bind; [exact Ht|]. Qed.

Lemma safe_for {B} (l : list B) body :
  (forall b, safe (body b) any (fun _ => any)) -> safe (forT l body) any (fun _ => any).
Proof. intros Hb. induction l as [|b l IH]; cbn [forT]; [done|]. apply safe_seq; [apply Hb|done]. Qed.

Lemma safe_loop {C B St} (s : St) (body : St -> thread (St + B)) (next : B -> thread C) :
  (forall s, safe (body s) any (fun _ => any)) -> (forall b, safe (next b) any (fun _ => any)) ->
  safe (Loop s body next) any (fun _ => any).
Proof.
  intros Hb Hn. exists (fun _ => any), (fun _ => any). do 2 (split; [done|]). split; [|done]. intros s'.
  apply (safe_mono _ any _ (fun _ => any)); [done| |apply Hb]. by intros [].
Qed.

(** Where a proved thread stands: it has ended, or what it needs holds. *)
Definition stands {C} (t : thread C) k : Prop :=
  match t with
  | Stop _ => True
  | _ => exists P, P k /\ safe t P (fun _ => any)
  end.

Lemma safe_stands {C} (t : thread C) P Q k : P k -> safe t P Q -> stands t k.
Proof.
  intros HP Ht. assert (H : safe t P (fun _ => any)) by (by eapply safe_mono; [..|exact Ht]).
  destruct t; [done|exists P; by split..].
Qed.

Lemma others_stand {C} (t : thread C) k k' :
  stands t k -> kstep k k' -> (fragile t = true -> undisturbed k k') -> stands t k'.
Proof.
  destruct t as [c|X o next|B St s body next]; [done|..]; intros (P & HP & Ht) Hs Hf; cbn [safe] in Ht.
  - destruct Ht as (P0 & P1 & H0 & Hst & Ht). exists P0. split; [eapply Hst; eauto|]. by exists P0, P1.
  - destruct Ht as (I & R & H0 & Hst & Ht). exists (I s). split; [eapply Hst; eauto|]. by exists I, R.
Qed.

Lemma thread_stands {C} (t t' : thread C) k k' :
  Kinv k -> stands t k -> current (SCHEDULER (ks k)) = me -> kernel_task k -> advances PROGRAMS tr ut box t k t' k' ->
  rtc kstep k k' /\ stands t' k'.
Proof.
  intros Hk Ht Hme Htask Hadv. destruct t as [c|X o next|B St s body next]; cbn [advances] in Hadv; [done|..];
    destruct Ht as (P & HP & Ht); cbn [safe] in Ht.
  - destruct Hadv as (x & Hrun & ->), Ht as (P0 & P1 & H0 & _ & Hl & Hf & H1 & Hn). split; [|eapply (safe_stands _ (P1 x)); eauto].
    apply rtc_once, (st_thread _ _ _ _ _ k X o x); auto. intros Hlv. rewrite Hme. auto.
  - destruct Hadv as [-> ->]. split; [done|]. destruct Ht as (I & R & H0 & Hst & Hb & Hn). apply (safe_stands _ (I s) (fun _ => any)); [auto|].
    unfold unroll. eapply safe_bind; [apply Hb|]. intros [s'|b]; [|apply Hn]. by exists I, R.
Qed.

(** Whatever comes in between, the system's own steps account for a proved thread. *)
Lemma preempted_steps {C} (t t' : thread C) k k' :
  Kinv k -> stands t k -> rtc pstep (t, k) (t', k') -> rtc kstep k k' /\ Kinv k' /\ stands t' k'.
Proof.
  intros Hk Ht Hr. remember (t, k) as x eqn:Ex. remember (t', k') as y eqn:Ey. revert t k Ex Hk Ht.
  induction Hr as [z|z [t1 k1] w Hs _ IH]; intros t k -> Hk Ht; [by injection Ey as <- <-|].
  assert (H : rtc kstep k k1 /\ stands t1 k1).
  { inversion Hs as [? ? ? ? Hme Htask Hadv|? ? ? Hst Hfr]; subst; [by eapply thread_stands|].
    split; [by apply rtc_once|by eapply others_stand]. }
  destruct H as [H1 Ht1]. pose proof (ksteps_kinv K A PROGRAMS tr ut box Hprogs _ _ Hk H1) as Hk1.
  destruct (IH Ey t1 k1 eq_refl Hk1 Ht1) as (H2 & H3). split; [by etransitivity|done].
Qed.

(** ** The poller *)

(** Process [pid] is alive; the root, and the ring page, of some live process. *)
Definition live (pid : nat) k : Prop := exists p, PROCESSES k !! pid = Some p /\ alive p.
Definition root_live (root : Z) k : Prop := exists pid p, PROCESSES k !! pid = Some p /\ alive p /\ p_ttbr0 p = root.
Definition page_live (page : Z) k : Prop :=
  page <> 0 /\ exists pid p, PROCESSES k !! pid = Some p /\ alive p /\ p_ring_pa p = page.

Lemma live_kept pid k k' : live pid k -> undisturbed k k' -> live pid k'.
Proof. intros (p & Hp & Ha) Hu. destruct (Hu pid p Hp Ha) as (p' & ? & ? & _). by exists p'. Qed.

Lemma root_live_kept r k k' : root_live r k -> undisturbed k k' -> root_live r k'.
Proof. intros (pid & p & Hp & Ha & <-) Hu. destruct (Hu pid p Hp Ha) as (p' & ? & ? & ? & _). by exists pid, p'. Qed.

Lemma page_live_kept a k k' : page_live a k -> undisturbed k k' -> page_live a k'.
Proof.
  intros (Hne & pid & p & Hp & Ha & <-) Hu. destruct (Hu pid p Hp Ha) as (p' & ? & ? & _ & Hpg). split; [done|].
  exists pid, p'. auto.
Qed.

Lemma field_run {B} (f : Process -> B) pid k x k' :
  (let! p := proc pid in retM (f p)) k = Ret (x, k') -> k' = k /\ exists p, PROCESSES k !! pid = Some p /\ x = f p.
Proof.
  unfold proc, bindM, getM, expectM, retM. destruct (PROCESSES k !! pid) as [p|]; [|done]. intros [= <- <-]. eauto.
Qed.

Lemma ring_pa_live pid k page k' :
  Kinv k -> ring_pa pid k = Ret (page, k') -> page <> 0 -> k' = k /\ live pid k /\ page_live page k.
Proof.
  intros Hk (-> & p & Hp & ->)%(field_run p_ring_pa) Hne. apply Kinv_split in Hk as [Hb _].
  destruct (ring_data K A k pid p Hb Hp Hne) as [Ha _]. split; [done|]. split; [by exists p|]. split; [done|]. by exists pid, p.
Qed.

(** A read of a ring page changes nothing. *)
Lemma safe_load a P Q :
  (forall k k', P k -> undisturbed k k' -> P k') -> (forall x k, P k -> Q x k) -> safe (call (LoadRing a)) P Q.
Proof.
  intros Hst HQ. exists P, (fun _ => P). split; [done|]. split; [by intros k k' ? _ ?; eauto|]. do 2 (split; [done|]).
  split; [|done]. by intros k x k' _ HP [= <- <-].
Qed.

Lemma has_submissions_safe pid : safe (has_submissions pid) any (fun b k => b = true -> live pid k).
Proof.
  unfold has_submissions. eapply (safe_bind _ _ _ (fun page k => page <> 0 -> live pid k)).
  { apply safe_call; [done|done|]. intros k page k' Hk Hrun Hne. by destruct (ring_pa_live pid k page k' Hk Hrun Hne) as (-> & ? & _). }
  intros page. destruct (Z.eqb_spec page 0) as [|Hne]; [by intros k _|].
  eapply (safe_mono _ (live pid) _ (fun b => live pid)); [auto|auto|].
  eapply (safe_bind _ _ _ (fun _ => live pid)); [by apply safe_load; [apply live_kept|]|]. intros hd.
  eapply (safe_bind _ _ _ (fun _ => live pid)); [by apply safe_load; [apply live_kept|]|]. by intros tl k H.
Qed.

Lemma has_submissions_any pid : safe (has_submissions pid) any (fun _ => any).
Proof. eapply safe_mono; [..|apply has_submissions_safe]; done. Qed.

Lemma set_wakeup_safe flag pid : safe (set_wakeup flag pid) any (fun _ => any).
Proof.
  unfold set_wakeup. eapply (safe_bind _ _ _ (fun page k => page <> 0 -> page_live page k)).
  { apply safe_call; [done|done|]. intros k page k' Hk Hrun Hne. by destruct (ring_pa_live pid k page k' Hk Hrun Hne) as (-> & _ & ?). }
  intros page. destruct (Z.eqb_spec page 0) as [|Hne]; cbn [negb]; [done|].
  exists (page_live page), (fun _ => any). split; [auto|]. split; [intros k k' ? _ Hu; by eapply page_live_kept, Hu|].
  split; [done|]. split; [|done]. intros k (_ & i & p & Hp & _ & <-). by exists i, p.
Qed.

Lemma set_all_wakeup_safe on : safe (set_all_wakeup on) any (fun _ => any).
Proof. apply safe_seq; [by apply safe_any|]. intros n. apply safe_for, set_wakeup_safe. Qed.

Lemma any_submissions_safe pids : safe (any_submissions pids) any (fun _ => any).
Proof.
  induction pids as [|pid pids IH]; cbn [any_submissions]; [done|]. apply safe_seq; [apply has_submissions_any|]. by intros [].
Qed.

Lemma poll_all_safe pids w : safe (poll_all pids w) any (fun _ => any).
Proof.
  revert w. induction pids as [|pid pids IH]; intros w; cbn [poll_all]; [done|].
  eapply safe_bind; [apply has_submissions_safe|]. intros []; [|by eapply safe_mono; [..|apply IH]].
  eapply (safe_bind _ _ _ root_live).
  - exists (live pid), root_live. split; [auto|]. split; [intros k k' ? _ Hu; by eapply live_kept, Hu|]. do 2 (split; [done|]).
    split; [|by intros x k]. intros k root k' _ (p & Hp & Ha) (-> & q & Hq & ->)%(field_run p_ttbr0). exists pid, p. by simplify_eq.
  - intros root. eapply (safe_bind _ _ _ (fun _ => any)); [|intros _; apply safe_seq; [by apply safe_any|auto]].
    exists (root_live root), (fun _ => any). split; [done|].
    split; [intros k k' ? _ Hu; by eapply root_live_kept, Hu|]. by do 2 (split; [done|]).
Qed.

Lemma sqpoll_round_safe p : me <> O -> safe (sqpoll_round p) any (fun _ => any).
Proof.
  intros Hme. unfold sqpoll_round. apply safe_seq; [by apply safe_any|]. intros n. apply safe_seq; [apply poll_all_safe|].
  intros w. apply safe_seq; [destruct w|intros p'; apply safe_seq; [by apply safe_any|done]].
  - apply safe_seq; [destruct (negb _); [by apply safe_any|done]|]. intros _. apply safe_seq; [apply set_all_wakeup_safe|].
    intros _. by apply safe_seq; [apply safe_any|].
  - apply safe_seq; [by apply safe_any|]. intros now. destruct (_ <=? _); [|done].
    apply safe_seq; [apply set_all_wakeup_safe|]. intros _. apply safe_seq; [by apply safe_any|]. intros m.
    apply safe_seq; [apply any_submissions_safe|]. intros late.
    apply safe_seq; [|intros _; by apply safe_seq; [apply safe_any|]].
    destruct late; [apply set_all_wakeup_safe|]. apply safe_seq; [by apply safe_any|]. intros _. apply set_all_wakeup_safe.
Qed.

Lemma forever_safe {St} (s : St) body : (forall s, safe (body s) any (fun _ => any)) -> safe (forever s body) any (fun _ => any).
Proof. intros Hb. apply safe_loop; [|done]. intros s'. by apply safe_seq. Qed.

Lemma sqpoll_main_safe : me <> O -> safe sqpoll_main any (fun _ => any).
Proof.
  intros Hme. apply safe_seq; [by apply safe_any|]. intros _. apply safe_seq; [by apply safe_any|]. intros now.
  apply forever_safe. intros p. by apply sqpoll_round_safe.
Qed.

(** ** [kmain] and its threads *)

Lemma trampoline_safe t : me <> O -> safe t any (fun _ => any) -> safe (trampoline t) any (fun _ => any).
Proof. intros Hme Ht. apply safe_seq; [done|]. intros _. by apply safe_any. Qed.

Lemma sleeper_safe : me <> O -> safe sleeper any (fun _ => any).
Proof. intros Hme. apply safe_for. intros i. apply safe_seq; [by apply safe_any|]. intros _. by apply safe_any. Qed.

Lemma spin_ticks_safe n : safe (spin_ticks n) any (fun _ => any).
Proof.
  apply safe_seq; [by apply safe_any|]. intros now. apply safe_seq; [by apply safe_any|]. intros target.
  apply safe_loop; [|done]. intros _. by apply safe_seq; [apply safe_any|].
Qed.

Lemma busy_safe : safe busy any (fun _ => any).
Proof.
  apply safe_seq; [|intros _; by apply safe_any]. apply safe_for. intros i. apply safe_seq; [by apply safe_any|]. intros _.
  apply spin_ticks_safe.
Qed.

Lemma elf_self_check_safe ps : safe (elf_self_check ps) any (fun _ => any).
Proof.
  induction ps as [|[name image] ps IH]; cbn [elf_self_check]; [by apply safe_any|].
  do 3 (apply safe_seq; [by apply safe_any|]; intros ?). exact IH.
Qed.

Lemma kmain_rest_safe sl bu sq : safe (kmain_rest PROGRAMS sl bu sq) any (fun _ => any).
Proof.
  apply safe_seq.
  - do 2 (apply safe_seq; [by apply safe_any|]; intros _). apply safe_loop; [|intros _; by apply safe_any].
    intros _. apply safe_seq; [by apply safe_any|]. intros []; [|done]. by apply safe_seq; [apply safe_any|].
  - intros _. apply safe_seq; [apply elf_self_check_safe|]. do 2 (intros _; apply safe_seq; [by apply safe_any|]).
    intros _. apply forever_safe. intros _. by apply safe_any.
Qed.

(** The threads of the kernel, with the task each can run as. *)
Inductive kernel_thread : forall C, thread C -> Prop :=
| kt_main sl bu sq : kernel_thread Empty_set (kmain_rest PROGRAMS sl bu sq)
| kt_poller : me <> O -> kernel_thread Empty_set sqpoll_main
| kt_sleeper : me <> O -> kernel_thread unit (trampoline sleeper)
| kt_busy : me <> O -> kernel_thread unit (trampoline busy).

Lemma kernel_thread_safe {C} (t : thread C) : kernel_thread C t -> safe t any (fun _ => any).
Proof.
  intros []; [apply kmain_rest_safe|by apply sqpoll_main_safe|by apply trampoline_safe, sleeper_safe|by apply trampoline_safe, busy_safe].
Qed.
End preemption.
