(* ===== verification/Calls.v ===== *)
(** * Library calls, from end to end

    A call of the user library (user/src/lib.rs, user/src/uring.rs) with the traps it
    makes: publish a submission, trap if the poller sleeps, wait for the completion
    and trap while there is none. The library works on the ring page of the running
    process, the kernel handles the traps, and what comes out on the serial line and
    in the result of the call is what the program asked for. *)

From Stdlib Require Import ZArith Lia String.
From stdpp Require Import base numbers gmap strings list list_relations.
From S2P Require Import Prelude Memory Abi Frames Mmu PageTables AddressSpaces Reclaim Ownership.
From S2P Require Import VirtualMemory Isolation Sched Console Elf Loader Devices Process Text Ring User Main.
From S2P Require Import KernelInv KernelRing KernelSteps KernelExit Uring Libu Lifecycle Requests Kernel.

(** ** Calls *)

(** The machine with the library's statics. *)
Record machine := mkMachine { uk : kernel; u_ring : Z; u_stash : list (Z * Z); u_next : Z }.
Definition put_kernel (k : kernel) (s : machine) : machine := mkMachine k (u_ring s) (u_stash s) (u_next s).

(** The physical address of the ring page, through the live translation tables, if
    the program may write there. *)
Definition page_at (s : machine) : option Z :=
  match mmu_walk (kernel_mem (uk s)) (ttbr0_el1 (the_mmu (uk s))) (u_ring s) with
  | Some (n, e) => if el0_writable e then Some (hw_pa n e (u_ring s)) else None
  | None => None
  end.

(** The library works on the page it is mapped to. *)
Definition libu_of (page : Z) (s : machine) : libu := mkLibu (kernel_mem (uk s)) page (u_stash s) (u_next s).
Definition put_libu (u : libu) (s : machine) : machine :=
  mkMachine (set_kernel_mem (umem u) (uk s)) (u_ring s) (STASH u) (NEXT_TAG u).
Definition at_page {B} (page : Z) : M libu B -> M machine B := zoomM (libu_of page) put_libu.
Definition lib {B} (m : M libu B) : M machine B :=
  let! s := getM in
  let! page := expectM (page_at s) in
  at_page page m.

Section calls.
Context (PROGRAMS : list (list Z * list Z)) (tr ut : Z) (box : kernel -> option Z).

(** [svc #0] at EL0. *)
Definition svc (num arg0 : Z) : M machine ending :=
  zoomM uk put_kernel (exception_dispatch PROGRAMS tr ut box 8 (Z.shiftl EC_SVC 26) 0 0 (svc_frame num arg0 0 (replicate 28 0))).

Definition setup_call : M machine unit :=
  let! e := svc SYS_RING_SETUP 0 in
  match e with
  | Resume f =>
      let! va := expectM (regs f !! O) in
      modifyM (fun s => mkMachine (uk s) va (u_stash s) (u_next s))
  | _ => panicM
  end.

(** The loop of [reap] with [block]; [None] if the task is parked in the kernel.
    [fuel] bounds the times it is woken. *)
Fixpoint wait_loop (fuel : nat) (tag : Z) : M machine (option Z) :=
  let! e := svc SYS_RING_ENTER 1 in
  match e with
  | Resume _ =>
      let! o := lib (reap_loop (Z.to_nat RING_ENTRIES) tag) in
      match o with
      | Some r => retM (Some r)
      | None => match fuel with O => panicM | S fuel' => wait_loop fuel' tag end
      end
  | _ => retM None
  end.

Definition wait (fuel : nat) (tag : Z) : M machine (option Z) :=
  let! o := lib (reap tag) in
  match o with
  | Some r => retM (Some r)
  | None => wait_loop fuel tag
  end.

(** A call with its traps, as [spawn] and [wait_child] make it; [print_bytes] and
    [read_byte] make it too and drop the status. *)
Definition ring_call (fuel : nat) (op a0 a1 : Z) : M machine (option Z) :=
  let! x := lib (begin_call op a0 a1) in
  (if x.2 : bool then let! _ := svc SYS_RING_ENTER 0 in retM tt else retM tt) ;;;
  wait fuel x.1.

(** [exit], and the panic handler of every program. *)
Definition exit_call (code : Z) : M machine ending := svc SYS_EXIT (as_u64 code).
Definition user_panic : M machine ending := exit_call 1.

(** Prints, one after the other; the answers. *)
Fixpoint print_all (fuel : nat) (texts : list (Z * Z)) : M machine (list (option Z)) :=
  match texts with
  | [] => retM []
  | (ptr, len) :: texts' =>
      let! r := ring_call fuel OP_PRINT ptr len in
      let! rs := print_all fuel texts' in
      retM (r :: rs)
  end.

(** [_start] of echo.rs, whose text the linker put at [ptr], up to its exit and as a
    whole. *)
Definition echo_text : list Z := str "echo: hello from a second program" ++ [NL].
Definition echo_print (fuel : nat) (ptr : Z) : M machine (option Z) :=
  setup_call ;;; ring_call fuel OP_PRINT ptr (Z.of_nat (length echo_text)).
Definition echo_start (fuel : nat) (ptr : Z) : M machine ending :=
  let! _ := echo_print fuel ptr in exit_call 0.
End calls.

(** ** The two queues are apart *)

Lemma sq_ext m m' p q :
  sq m p q -> mem_ok m' -> read32 m' (p + SQ_HEAD) = read32 m (p + SQ_HEAD) ->
  read32 m' (p + SQ_TAIL) = read32 m (p + SQ_TAIL) ->
  (forall o, 0 <= o < 16 -> sqe_in m' (p + 0x40 + 32 * o) = sqe_in m (p + 0x40 + 32 * o)) -> sq m' p q.
Proof.
  intros [_ Hl He] Hok Hh Ht Hs. split; [done|by rewrite Hh, Ht|]. intros i e Hi. rewrite Hh, <-(He i e Hi).
  destruct (sqe_span p (read32 m (p + SQ_HEAD) + Z.of_nat i)) as (o & -> & Ho & _). by apply Hs.
Qed.

Lemma cq_ext m m' p q :
  cq m p q -> mem_ok m' -> read32 m' (p + CQ_HEAD) = read32 m (p + CQ_HEAD) ->
  read32 m' (p + CQ_TAIL) = read32 m (p + CQ_TAIL) ->
  (forall o, 0 <= o < 32 -> read64 m' (p + 0x280 + 8 * o) = read64 m (p + 0x280 + 8 * o)) -> cq m' p q.
Proof.
  intros [_ Hl Hc He] Hok Hh Ht Hs. split; [done|by rewrite Hh, Ht|done|]. intros i e Hi. rewrite Hh, <-(He i e Hi). cbv zeta.
  destruct (cqe_span p (read32 m (p + CQ_HEAD) + Z.of_nat i)) as (o & -> & Ho & _).
  replace (p + 0x280 + 16 * o) with (p + 0x280 + 8 * (2 * o)) by lia.
  replace (p + 0x280 + 8 * (2 * o) + 8) with (p + 0x280 + 8 * (2 * o + 1)) by lia. by rewrite !Hs by lia.
Qed.

(** A 32-bit field that is none of a queue's. *)
Lemma sq_field m p q o v :
  sq m p q -> 8 <= o -> o + 4 <= 0x40 -> sq (write32 m (p + o) v) p q.
Proof.
  intros Hq H1 H2. pose proof (sq_mem _ _ _ Hq) as Hm.
  apply (sq_ext m); [done|by apply mem_ok_store|unfold read32, write32, SQ_HEAD; by elsewhere|unfold read32, write32, SQ_TAIL; by elsewhere|].
  intros x Hx. unfold sqe_in, read64, write32. f_equal; by elsewhere.
Qed.

Lemma cq_field m p q o v :
  cq m p q -> 0 <= o -> o + 4 <= 8 \/ 16 <= o /\ o + 4 <= 0x40 -> cq (write32 m (p + o) v) p q.
Proof.
  intros Hq H1 H2. pose proof (cq_mem _ _ _ Hq) as Hm.
  apply (cq_ext m); [done|by apply mem_ok_store|unfold read32, write32, CQ_HEAD; by elsewhere|unfold read32, write32, CQ_TAIL; by elsewhere|].
  intros x Hx. unfold read64, write32. by elsewhere.
Qed.

Lemma cq_published m p q e : cq m p q -> cq (published m p e) p q.
Proof.
  intros Hq. pose proof (cq_mem _ _ _ Hq) as Hm. unfold published. set (t := read32 _ _).
  destruct (sqe_span p t) as (o & -> & Ho & _).
  apply (cq_ext m); [done|unfold write32, write64; by repeat apply mem_ok_store|..];
    unfold read32, read64, write32, write64, CQ_HEAD, CQ_TAIL, SQ_TAIL; [by elsewhere|by elsewhere|].
  intros x Hx. by elsewhere.
Qed.

Lemma sq_posted m p q ud r : sq m p q -> sq (posted m p ud r) p q.
Proof.
  intros Hq. pose proof (sq_mem _ _ _ Hq) as Hm. unfold posted. set (t := read32 _ _).
  destruct (cqe_span p t) as (o & -> & Ho & _).
  apply (sq_ext m); [done|unfold write32, write64; by repeat apply mem_ok_store|..];
    unfold sqe_in, read32, read64, write32, write64, SQ_HEAD, SQ_TAIL, CQ_TAIL; [by elsewhere|by elsewhere|].
  intros x Hx. f_equal; by elsewhere.
Qed.

(** ** Changes of the ring page only *)

Lemma page_store n page m o v : 0 <= o -> o + Z.of_nat n <= 4096 -> only_frame page m (store n m (page + o) v).
Proof. intros Ho Hn a Ha. apply read8_store_ne. unfold FRAME_SIZE in *. lia. Qed.

Lemma published_page m page e : only_frame page m (published m page e).
Proof.
  unfold published. set (t := read32 _ _). destruct (sqe_span page t) as (o & -> & Ho & _). unfold write32, write64.
  intros a Ha. unfold FRAME_SIZE in Ha. by rewrite !read8_store_ne by (unfold SQ_TAIL; lia).
Qed.

Lemma posted_page m page ud r : only_frame page m (posted m page ud r).
Proof. intros a Ha. apply posted_outside. exact Ha. Qed.

Lemma set_kernel_mem_id k : set_kernel_mem (kernel_mem k) k = k.
Proof. destruct k as [[? ? ? ? ? [[]]]]. reflexivity. Qed.

Section machine.
Context (K A : gset Z).
Context (PROGRAMS : list (list Z * list Z)) (tr ut : Z) (box : kernel -> option Z).
Context (pid : nat) (p : Process).
Hypothesis Hring : p_ring_pa p <> 0.
Abbreviation page := (p_ring_pa p).
Abbreviation Kbase := (Kbase K A).
Abbreviation good := (good K A).
Abbreviation line k := (tx (uart (kcon k))).
Implicit Types (k : kernel).

(** What the program sees on its other pages stays. *)
Lemma sees_kept k k' va f :
  Kbase k -> PROCESSES k !! pid = Some p -> kext k k' -> only_frame page (kernel_mem k) (kernel_mem k') ->
  owned (kernel_mem k) p va f -> va / 4096 <> ring_page -> sees k' p va = sees k p va.
Proof.
  intros Hk Hp Hx Hof Hf Hnr. destruct (ring_data K A k pid p Hk Hp Hring) as [Ha Hd].
  rewrite (owned_sees k p va f Hf), (owned_sees k' p va f) by (by apply (owned_ext pid k)). f_equal.
  pose proof Hf as (_ & Hv & _). pose proof (data_valid K A k _ Hk Hd) as Hrv.
  apply (only_frame_other page _ _ f); [done..| |unfold FRAME_SIZE; zlia]. intros E. subst f.
  apply Hnr, (owned_ring (kernel_mem k) p); [by apply (proc_wf_of K A pid k)|done|done].
Qed.

(** The library changes the page. *)
Lemma page_good k m' :
  Kbase k -> PROCESSES k !! pid = Some p -> only_frame page (kernel_mem k) m' -> mem_ok m' -> good k (set_kernel_mem m' k).
Proof.
  intros Hk Hp Hof Hok. destruct (ring_data K A k pid p Hk Hp Hring) as [_ Hd].
  exact (proj1 (good_mem K A False m' page k Hk Hd Hof Hok)).
Qed.

Lemma runs_same k k' : kext k k' -> PROCESSES k' = PROCESSES k -> runs k pid p -> runs k' pid p.
Proof.
  intros Hx HP Hr. destruct (runs_ext _ _ _ _ Hr Hx) as (p' & Hr' & _). pose proof Hr as (_ & Hp & _).
  pose proof Hr' as (_ & Hp' & _). rewrite HP in Hp'. congruence.
Qed.

Lemma wake_aside t k :
  (t < length (tasks (SCHEDULER (ks k))))%nat ->
  wp False (in_sched (wake t)) (fun _ k' => kernel_mem k' = kernel_mem k /\ kcon k' = kcon k) k.
Proof.
  intros [x Hx]%lookup_lt_is_Some_2. unfold in_sched, wake, update_task, task. apply wp_zoom. wp_step. wp_step. wp_steps.
  rewrite Hx. by wp_steps.
Qed.

(** ** [enter] with one submission *)

(** The effect of an operation on the kernel, seen from the ring. *)
Record served (e : Sqe) (r : Z) (P : console -> Prop) k k' : Prop := {
  sv_good : good k k';
  sv_procs : PROCESSES k' = PROCESSES k;
  sv_mem : kernel_mem k' = posted (kernel_mem k) page (user_data e) r;
  sv_con : P (kcon k')
}.

Lemma revive_serves k q c :
  Kbase k -> PROCESSES k !! pid = Some p -> sq (kernel_mem k) page q -> cq (kernel_mem k) page c ->
  wp False (revive_poller page) (fun _ k' => good k k' /\ PROCESSES k' = PROCESSES k /\ kcon k' = kcon k /\
    only_frame page (kernel_mem k) (kernel_mem k') /\ sq (kernel_mem k') page q /\ cq (kernel_mem k') page c) k.
Proof.
  intros Hk Hp Hsq Hcq. unfold revive_poller, ld32, st32. wp_steps. destruct (negb _).
  2: { wp_steps. split; [by apply (good_refl K A)|]. by do 4 (split; [done|]). }
  wp_step. wp_step. set (m1 := write32 _ _ _). assert (Hof : only_frame page (kernel_mem k) m1) by (apply page_store; unfold FLAGS; lia).
  destruct (page_good k m1 Hk Hp Hof) as [Hk1 Hx1]; [by apply mem_ok_store, (kinv_mem_ok K A)|]. set (k1 := set_kernel_mem m1 k) in *.
  assert (Hsq1 : sq m1 page q) by (apply sq_field; [done|unfold FLAGS; lia..]).
  assert (Hcq1 : cq m1 page c) by (apply cq_field; [done|unfold FLAGS; lia..]).
  wp_steps. change (poller k1) with (poller k). destruct (poller k) as [t|] eqn:Ht.
  2: { wp_steps. by split_and!. }
  pose proof Hk1 as (T & l & Hb). eapply wp_mono.
  { apply wp_and; [apply (wake_good K A False t k1); [done|by apply (ki_poller _ _ _ _ _ Hb)]|].
    apply wake_aside. by apply (ki_poller _ _ _ _ _ Hb). }
  intros [] k2 ([[Hk2 Hx2] HP2] & Em2 & Ec2). rewrite Em2. split; [split; [done|by etransitivity]|]. by split_and!.
Qed.

Lemma drain_serves e r P k :
  Kbase k -> PROCESSES k !! pid = Some p -> sq (kernel_mem k) page [e] -> cq (kernel_mem k) page [] ->
  0 <= user_data e < 2 ^ 64 -> - 2 ^ 63 <= r < 2 ^ 63 ->
  wp False (exec_sqe PROGRAMS tr ut box pid (opcode e) (arg0 e) (arg1 e) (user_data e)) (fun _ => served e r P k) k ->
  wp False (drain PROGRAMS tr ut box pid) (fun _ k' => good k k' /\ PROCESSES k' = PROCESSES k /\ P (kcon k') /\
    only_frame page (kernel_mem k) (kernel_mem k') /\ sq (kernel_mem k') page [] /\
    cq (kernel_mem k') page [(user_data e, r)]) k.
Proof.
  intros Hk Hp Hsq Hcq Hud Hr Hex. unfold drain, ld32. wp_step. eapply wp_mono; [by apply ring_pa_reads|]. intros x k' [-> ->].
  rewrite (proj2 (Z.eqb_neq _ _) Hring). wp_step. wp_step. wp_step. wp_step. wp_step. set (h := read32 _ (_ + SQ_HEAD)). set (t := read32 _ (_ + SQ_TAIL)).
  pose proof (sq_len _ _ _ Hsq) as Hl. fold h t in Hl. cbn [length] in Hl. rewrite Hl. change (Z.to_nat (Z.of_nat 1)) with 1%nat.
  pose proof (read32_range _ (page + SQ_TAIL) (sq_mem _ _ _ Hsq)) as Ht. fold t in Ht.
  pose proof (read32_range _ (page + SQ_HEAD) (sq_mem _ _ _ Hsq)) as Hh. fold h in Hh.
  assert (Hne : h <> t) by (intros E; rewrite E in Hl; unfold wrapping_sub, wrap in Hl; zlia).
  assert (Hnx : wrapping_add 32 h 1 = t) by (unfold wrapping_sub, wrapping_add, wrap in *; zlia).
  cbn [drain_sq]. rewrite (proj2 (Z.eqb_neq _ _) Hne), Hnx, Z.eqb_refl. wp_step.
  pose proof (sq_ent _ _ _ Hsq O e eq_refl) as He. rewrite Z.add_0_r in He. fold h in He.
  unfold wp at 1. rewrite (process_sqe_reads PROGRAMS tr ut box pid _ e k He). fold (wp (A := unit) (S := kernel)).
  eapply (wp_mono False (exec_sqe PROGRAMS tr ut box pid (opcode e) (arg0 e) (arg1 e) (user_data e))); [exact Hex|].
  intros [] k1 [[Hk1 Hx1] HP1 Em1 Hc1]. unfold st32. wp_steps.
  assert (Hsq1 : sq (kernel_mem k1) page [e]) by (rewrite Em1; by apply sq_posted).
  assert (Hcq1 : cq (kernel_mem k1) page [(user_data e, r)]) by (rewrite Em1; apply (cq_post _ _ []); [done|cbn; lia|done|done]).
  assert (Hh1 : read32 (kernel_mem k1) (page + SQ_HEAD) = h).
  { rewrite Em1. unfold posted. destruct (cqe_span page (read32 (kernel_mem k) (page + CQ_TAIL))) as (o & -> & Ho & _).
    unfold read32, write32, write64, SQ_HEAD, CQ_TAIL. by elsewhere. }
  set (m2 := write32 _ _ _). assert (Hof : only_frame page (kernel_mem k1) m2) by (apply page_store; unfold SQ_HEAD; lia).
  assert (Hp1 : PROCESSES k1 !! pid = Some p) by (by rewrite HP1).
  destruct (page_good k1 m2 Hk1 Hp1 Hof) as [Hk2 Hx2]; [by apply mem_ok_store, (kinv_mem_ok K A)|].
  split; [split; [done|by etransitivity]|]. split; [done|]. split; [done|]. split.
  - eapply only_frame_trans; [|exact Hof]. rewrite Em1. apply posted_page.
  - split; [|apply cq_field; [done|unfold SQ_HEAD; lia..]].
    pose proof (sq_consume _ _ _ Hsq1 ltac:(done)) as H. rewrite Hh1, Hnx in H. exact H.
Qed.
(** The kernel after a trap that served [e]. *)
Record handled (e : Sqe) (r : Z) (P : console -> Prop) k k' : Prop := {
  hd_good : good k k';
  hd_procs : PROCESSES k' = PROCESSES k;
  hd_con : P (kcon k');
  hd_frame : only_frame page (kernel_mem k) (kernel_mem k');
  hd_sq : sq (kernel_mem k') page [];
  hd_cq : cq (kernel_mem k') page [(user_data e, r)]
}.

(** [exec_sqe] serves [e] in every state that differs from [k] by the wake-up of the
    poller. *)
Definition serves (e : Sqe) (r : Z) (P : console -> Prop) k : Prop :=
  forall k1, good k k1 -> PROCESSES k1 = PROCESSES k -> kcon k1 = kcon k ->
    only_frame page (kernel_mem k) (kernel_mem k1) -> cq (kernel_mem k1) page [] ->
    wp False (exec_sqe PROGRAMS tr ut box pid (opcode e) (arg0 e) (arg1 e) (user_data e)) (fun _ => served e r P k1) k1.

Lemma enter_serves mc e r P k :
  Kinv K A k -> runs k pid p -> sq (kernel_mem k) page [e] -> cq (kernel_mem k) page [] -> 0 <= mc <= 1 ->
  0 <= user_data e < 2 ^ 64 -> - 2 ^ 63 <= r < 2 ^ 63 -> serves e r P k ->
  wp False (enter PROGRAMS tr ut box mc) (fun x k' => x = Done 0 /\ handled e r P k k') k.
Proof.
  intros HK Hr Hsq Hcq Hmc Hud Hrr Hex. pose proof (proj1 (Kinv_split _ _ _) HK) as [Hk _].
  pose proof Hr as (_ & Hp & _). unfold enter. wp_step. eapply wp_known; [by apply (runs_current k pid p)|]. cbv beta iota. wp_step. eapply wp_mono; [by apply ring_pa_reads|].
  intros x k' [-> ->]. rewrite (proj2 (Z.eqb_neq _ _) Hring). wp_step. eapply wp_mono; [by apply revive_serves|].
  intros [] k1 ([Hk1 Hx1] & HP1 & Ec1 & Hof1 & Hsq1 & Hcq1). wp_step.
  eapply wp_mono; [apply (drain_serves e r P k1); try done; [by rewrite HP1|by apply Hex]|].
  intros b k2 ([Hk2 Hx2] & HP2 & Hc2 & Hof2 & Hsq2 & Hcq2). unfold enter_wait, ld32. wp_step. wp_step. wp_step. wp_step.
  rewrite (cq_len _ _ _ Hcq2), (proj2 (Z.leb_le mc _)) by (cbn; lia). wp_steps. split; [done|].
  split; [split; [done|by etransitivity]|congruence|done|by eapply only_frame_trans|done|done].
Qed.

Lemma svc_serves mc e r P s :
  Kinv K A (uk s) -> runs (uk s) pid p -> sq (kernel_mem (uk s)) page [e] -> cq (kernel_mem (uk s)) page [] -> 0 <= mc <= 1 ->
  0 <= user_data e < 2 ^ 64 -> - 2 ^ 63 <= r < 2 ^ 63 -> serves e r P (uk s) ->
  wp False (svc PROGRAMS tr ut box SYS_RING_ENTER mc) (fun x s' => (exists f, x = Resume f) /\
    s' = put_kernel (uk s') s /\ handled e r P (uk s) (uk s')) s.
Proof.
  intros Hk Hr Hsq Hcq Hmc Hud Hrr Hex. unfold svc. apply wp_zoom.
  change (exception_dispatch PROGRAMS tr ut box 8 (Z.shiftl EC_SVC 26) 0 0 ?f) with (dispatch PROGRAMS tr ut box f).
  unfold dispatch, reg. wp_step. apply wp_expect_some. wp_step. apply wp_expect_some. cbv beta.
  change (SYS_RING_ENTER =? SYS_ADD) with false. change (SYS_RING_ENTER =? SYS_RING_SETUP) with false. rewrite Z.eqb_refl.
  wp_step. eapply wp_mono; [by apply (enter_serves mc e r P)|]. intros x k' [-> Hh]. wp_steps. split; [by eexists|done].
Qed.
(** ** The library between calls *)

(** The process runs, nothing is in flight, and no completion is kept. *)
Record idle_ring (s : machine) : Prop := {
  id_kinv : Kinv K A (uk s);
  id_runs : runs (uk s) pid p;
  id_page : page_at s = Some page;
  id_sq : sq (kernel_mem (uk s)) page [];
  id_cq : cq (kernel_mem (uk s)) page [];
  id_stash : Forall (fun x => x.1 = 0) (u_stash s);
  id_tag : 0 <= u_next s < 2 ^ 64
}.

Lemma stash_empty tag s : Forall (fun x => x.1 = 0) s -> stash_take tag s = None.
Proof.
  intros Hs. induction Hs as [|[t r] s Ht _ IH]; [done|]. cbn in Ht. subst t. cbn [stash_take]. rewrite IH.
  by destruct (Z.eqb_spec tag 0) as [->|]; [|rewrite (proj2 (Z.eqb_neq 0 tag)) by congruence].
Qed.

Lemma page_at_kept s s' :
  runs (uk s) pid p -> kext (uk s) (uk s') -> u_ring s' = u_ring s -> page_at s' = page_at s.
Proof.
  intros (_ & Hp & Ha & t & _ & _ & _ & Hl) Hx Hu. unfold page_at, mmu_walk. rewrite Hu, (kx_live _ _ Hx), Hl.
  destruct (Z.leb_spec 0 (u_ring s)), (Z.ltb_spec (u_ring s) (2 ^ 48)); cbn [andb]; try done.
  by rewrite (kx_walk _ _ Hx pid p).
Qed.

Lemma wp_lib {B} (m : M libu B) Q s : page_at s = Some page -> wp False (at_page page m) Q s -> wp False (lib m) Q s.
Proof. intros Hp HQ. unfold lib. wp_step. wp_step. wp_step. rewrite Hp. by apply wp_expect_some. Qed.

(** The call is published. *)
Lemma begin_call_publishes op a0 a1 s :
  let e := mkSqe op a0 a1 (u_next s) in
  wp False (at_page page (begin_call op a0 a1)) (fun x s' => x.1 = u_next s /\
    s' = mkMachine (set_kernel_mem (published (kernel_mem (uk s)) page e) (uk s)) (u_ring s) (u_stash s) (wrapping_add 64 (u_next s) 1)) s.
Proof.
  intros e. unfold at_page. apply wp_zoom. unfold begin_call, tag, on_page, submit, load32, sqe, store64, store32. by wp_steps.
Qed.

(** A reap moves the head, at most. *)
Lemma next_cqe_moves pg m :
  wp False (next_cqe pg) (fun o m' => if o then exists v, m' = write32 m (pg + CQ_HEAD) v else m' = m) m.
Proof. unfold next_cqe, load32, load64, store32. wp_steps. destruct (_ =? _); wp_steps; [done|by eexists]. Qed.

(** The page's memory after a reap from the queue [q]. *)
Definition reaped (m : mem) (q : list (Z * Z)) (m' : mem) : Prop :=
  cq m' page (tl q) /\ if hd_error q then exists v, m' = write32 m (page + CQ_HEAD) v else m' = m.

Lemma reap_loop_takes n tag u q :
  RING_VA u = page -> cq (umem u) page q -> (forall x, hd_error q = Some x -> x.1 = tag) ->
  wp False (reap_loop n tag) (fun x u' => x = snd <$> hd_error q /\ exists m', u' = set_umem m' u /\ reaped (umem u) q m') u.
Proof.
  intros Hu Hq Ht. destruct n as [|n]; cbn [reap_loop]; unfold on_page; wp_step; wp_step; wp_step; rewrite Hu;
    apply wp_zoom; (eapply wp_mono; [apply wp_and; [by apply cq_pop|apply next_cqe_moves]|]); intros o m [[-> Hq'] Hm];
    (destruct q as [|[t r] q]; cbn [hd_error tl fmap option_fmap option_map snd] in *;
      [|specialize (Ht (t, r) eq_refl); cbn in Ht; subst t; rewrite Z.eqb_refl]); wp_steps; split; try done; by exists m.
Qed.

(** [reap] as the machine runs it, from an empty stash or inside the loop. *)
Lemma page_reaps (m : M libu (option Z)) tag s q :
  m = reap_loop (Z.to_nat RING_ENTRIES) tag \/ m = reap tag /\ Forall (fun x => x.1 = 0) (u_stash s) ->
  cq (kernel_mem (uk s)) page q -> (forall x, hd_error q = Some x -> x.1 = tag) ->
  wp False (at_page page m) (fun x s' => x = snd <$> hd_error q /\ exists m',
    s' = mkMachine (set_kernel_mem m' (uk s)) (u_ring s) (u_stash s) (u_next s) /\ reaped (kernel_mem (uk s)) q m') s.
Proof.
  intros Hm Hq Ht. unfold at_page. apply wp_zoom.
  assert (H : wp False m (fun x u' => x = snd <$> hd_error q /\
    exists m', u' = set_umem m' (libu_of page s) /\ reaped (kernel_mem (uk s)) q m') (libu_of page s)).
  { destruct Hm as [->|[-> Hs]]; [by apply (reap_loop_takes _ tag (libu_of page s))|].
    unfold reap. wp_step. wp_step. rewrite (stash_empty tag (STASH (libu_of page s))) by done.
    by apply (reap_loop_takes _ tag (libu_of page s)). }
  eapply wp_mono; [exact H|]. intros x u' [-> (m' & -> & Hr)]. split; [done|]. by exists m'.
Qed.

(** ** A call *)

(** The machine after a call that was served. *)
Record called (P : console -> Prop) (s s' : machine) : Prop := {
  cl_idle : idle_ring s';
  cl_ext : kext (uk s) (uk s');
  cl_procs : PROCESSES (uk s') = PROCESSES (uk s);
  cl_con : P (kcon (uk s'));
  cl_frame : only_frame page (kernel_mem (uk s)) (kernel_mem (uk s'))
}.

(** The trap was taken at [s1], and the completion is then reaped. *)
Lemma called_of P e r s s1 s2 m' next :
  idle_ring s -> good (uk s) (uk s1) -> PROCESSES (uk s1) = PROCESSES (uk s) -> 0 <= next < 2 ^ 64 ->
  only_frame page (kernel_mem (uk s)) (kernel_mem (uk s1)) ->
  handled e r P (uk s1) (uk s2) -> reaped (kernel_mem (uk s2)) [(user_data e, r)] m' ->
  called P s (mkMachine (set_kernel_mem m' (uk s2)) (u_ring s) (u_stash s) next).
Proof.
  intros [HK Hr Hpg _ _ Hst _] [_ Hx1] HP1 Hn Hof1 [[Hk2 Hx2] HP2 Hc2 Hof2 Hsq2 _] [Hcq Hm].
  pose proof Hr as (_ & Hp & _). assert (Hp2 : PROCESSES (uk s2) !! pid = Some p) by congruence.
  assert (Hof : only_frame page (kernel_mem (uk s2)) m').
  { destruct Hm as [v ->]. apply page_store; unfold CQ_HEAD; lia. }
  assert (Hsq : sq m' page []).
  { destruct Hm as [v ->]. apply sq_field; [done|unfold CQ_HEAD; lia..]. }
  destruct (page_good (uk s2) m' Hk2 Hp2 Hof (cq_mem _ _ _ Hcq)) as [Hk3 Hx3].
  assert (Hx : kext (uk s) (set_kernel_mem m' (uk s2))) by (do 2 (etransitivity; [eassumption|]); done).
  split; cbn [uk]; [|done|cbn; congruence|done|].
  - split; cbn [uk u_ring u_stash u_next]; [|apply (runs_same (uk s)); [done|cbn; congruence|done]| |done..].
    + apply (good_Kinv K A (uk s)); [by apply Kinv_split in HK as [_ ?]|by split].
    + by rewrite (page_at_kept s).
  - eapply only_frame_trans; [exact Hof1|]. eapply only_frame_trans; [exact Hof2|exact Hof].
Qed.
(** The call [e] is published, and nothing else has happened. *)
Record ready (e : Sqe) (s s1 : machine) : Prop := {
  rd_good : good (uk s) (uk s1);
  rd_procs : PROCESSES (uk s1) = PROCESSES (uk s);
  rd_con : kcon (uk s1) = kcon (uk s);
  rd_frame : only_frame page (kernel_mem (uk s)) (kernel_mem (uk s1));
  rd_sq : sq (kernel_mem (uk s1)) page [e];
  rd_cq : cq (kernel_mem (uk s1)) page [];
  rd_ring : u_ring s1 = u_ring s;
  rd_stash : u_stash s1 = u_stash s;
  rd_next : 0 <= u_next s1 < 2 ^ 64
}.

Lemma begin_call_ready op a0 a1 s :
  let e := mkSqe op a0 a1 (u_next s) in
  idle_ring s -> sqe_ok e ->
  wp False (lib (begin_call op a0 a1)) (fun x s1 => x.1 = u_next s /\ ready e s s1) s.
Proof.
  intros e [HK Hrn Hpg Hsq Hcq _ _] Hok. apply Kinv_split in HK as [Hb _]. pose proof Hrn as (_ & Hp & _).
  apply wp_lib; [done|]. eapply wp_mono; [apply begin_call_publishes|]. fold e. intros x s1 [-> ->]. split; [done|].
  pose proof (sq_publish _ _ [] e Hsq ltac:(cbn; lia) Hok) as Hsq1.
  split; cbn [uk u_ring u_stash u_next]; [|done|done|apply published_page|done|by apply cq_published|done|done|].
  - apply page_good; [done|done|apply published_page|by apply (sq_mem _ _ _ Hsq1)].
  - unfold wrapping_add, wrap. apply Z.mod_pos_bound. lia.
Qed.

Lemma ready_svc mc e r P s s1 :
  idle_ring s -> ready e s s1 -> 0 <= mc <= 1 -> 0 <= user_data e < 2 ^ 64 -> - 2 ^ 63 <= r < 2 ^ 63 -> serves e r P (uk s) ->
  wp False (svc PROGRAMS tr ut box SYS_RING_ENTER mc) (fun x s2 => (exists f, x = Resume f) /\
    s2 = put_kernel (uk s2) s1 /\ handled e r P (uk s1) (uk s2)) s1.
Proof.
  intros [HK Hrn _ _ _ _ _] [Hg HP Hc Hof Hsq Hcq _ _ _] Hmc Hud Hr Hex. apply svc_serves; try done.
  - apply (good_Kinv K A (uk s)); [by apply Kinv_split in HK as [_ ?]|done].
  - apply (runs_same (uk s)); [apply Hg|done|done].
  - intros k2 [Hk2 Hx2] HP2 Ec2 Hof2 Hq2. apply Hex; [|congruence|congruence| |done].
    + split; [done|]. etransitivity; [apply Hg|done].
    + by eapply only_frame_trans.
Qed.

Lemma ready_reaps (m : M libu (option Z)) e r P s s1 s2 :
  idle_ring s -> ready e s s1 -> s2 = put_kernel (uk s2) s1 -> handled e r P (uk s1) (uk s2) ->
  m = reap_loop (Z.to_nat RING_ENTRIES) (user_data e) \/ m = reap (user_data e) ->
  wp False (lib m) (fun x s' => x = Some r /\ called P s s') s2.
Proof.
  intros Hid [Hg HP Hc Hof _ _ Hu Hst Hn] E2 Hh Hm. assert (Es : u_stash s2 = u_stash s) by (rewrite E2; done).
  assert (En : u_next s2 = u_next s1) by (rewrite E2; done). assert (Eu : u_ring s2 = u_ring s) by (rewrite E2; done).
  apply wp_lib.
  { rewrite (page_at_kept s); [apply Hid|apply Hid| |done]. etransitivity; [apply Hg|apply Hh]. }
  eapply wp_mono; [apply (page_reaps m (user_data e) s2 [(user_data e, r)])|].
  - destruct Hm as [->| ->]; [by left|right]. rewrite Es. split; [done|apply Hid].
  - apply Hh.
  - by intros x [= <-].
  - intros x s' (-> & m' & -> & Hre). split; [done|]. rewrite Es, En, Eu. by apply (called_of P e r s s1 s2).
Qed.

(** Nothing is there yet. *)
Lemma ready_empty e s s1 :
  idle_ring s -> ready e s s1 -> wp False (lib (reap (user_data e))) (fun x s' => x = None /\ s' = s1) s1.
Proof.
  intros Hid Hrd. apply wp_lib.
  { rewrite (page_at_kept s); [apply Hid|apply Hid|apply Hrd|apply Hrd]. }
  eapply wp_mono; [apply (page_reaps _ (user_data e) s1 []); [right; split; [done|]|apply Hrd|done]|].
  - rewrite (rd_stash _ _ _ Hrd). apply Hid.
  - intros x s2 (-> & m' & -> & _ & Hm). cbn in Hm. subst m'. rewrite set_kernel_mem_id. by destruct s1.
Qed.

Lemma ring_call_serves fuel op a0 a1 r P s :
  let e := mkSqe op a0 a1 (u_next s) in
  idle_ring s -> sqe_ok e -> - 2 ^ 63 <= r < 2 ^ 63 -> serves e r P (uk s) ->
  wp False (ring_call PROGRAMS tr ut box fuel op a0 a1) (fun x s' => x = Some r /\ called P s s') s.
Proof.
  intros e Hid Hok Hr Hex. assert (Hud : 0 <= user_data e < 2 ^ 64) by apply Hok. unfold ring_call. wp_step.
  eapply wp_mono; [by apply begin_call_ready|]. fold e. intros [t b] s1 [Et Hrd]. cbn [fst snd] in *.
  change (t = user_data e) in Et. subst t. destruct b.
  - wp_step. wp_step. eapply wp_mono; [by apply (ready_svc 0 e r P s)|]. intros x s2 (_ & E2 & Hh). wp_steps. unfold wait. wp_step.
    eapply wp_mono; [by apply (ready_reaps _ e r P s s1); auto|]. intros o s3 [-> Hc]. by wp_steps.
  - wp_steps. unfold wait. wp_step. eapply wp_mono; [by apply (ready_empty e s s1)|]. intros x s' [-> ->].
    destruct fuel as [|fuel]; cbn [wait_loop]; wp_step;
      (eapply wp_mono; [by apply (ready_svc 1 e r P s)|]); intros x s2 ([f ->] & E2 & Hh); wp_step;
      (eapply wp_mono; [by apply (ready_reaps _ e r P s s1); auto|]); intros o s3 [-> Hc]; by wp_steps.
Qed.

(** ** Printing *)

(** The arguments of a print: if they are a range of the program's memory, it is off
    the ring page and the program sees [bs] there. *)
Record text k (ptr len : Z) (bs : list Z) : Prop := {
  tx_ptr : 0 <= ptr < 2 ^ 64;
  tx_len : 0 <= len < 2 ^ 64;
  tx_size : in_user_range p ptr len false = true -> Z.of_nat (length bs) = len;
  tx_off : forall i, 0 <= i < len -> (ptr + i) / 4096 <> ring_page;
  tx_seen : forall i b, in_user_range p ptr len false = true -> bs !! i = Some b -> sees k p (ptr + Z.of_nat i) = Some b
}.

Definition on_line (ptr len : Z) (bs : list Z) : list Z :=
  if in_user_range p ptr len false && utf8_valid bs then crlf bs else [].
Definition status (ptr len : Z) : Z := if in_user_range p ptr len false then 0 else ERR.

Lemma text_owned k ptr len bs i b :
  Kbase k -> PROCESSES k !! pid = Some p -> alive p -> text k ptr len bs -> in_user_range p ptr len false = true ->
  bs !! i = Some b -> exists f, owned (kernel_mem k) p (ptr + Z.of_nat i) f /\ (ptr + Z.of_nat i) / 4096 <> ring_page.
Proof.
  intros Hk Hp Ha [H1 H2 H3 H4 H5] Hin Hi. pose proof (lookup_lt_Some _ _ _ Hi) as Hlt. specialize (H3 Hin).
  destruct (wp_run False _ _ _ _ _ (is_user_range_reads K A False pid p ptr len false k Hk Hp Ha ltac:(lia) ltac:(lia))
    (is_user_range_runs K A pid p ptr len false k Hk Hp Ha)) as [_ Hr]. destruct (Hr Hin) as [_ Hre].
  destruct (reachable_owned K A pid k p false (ptr + Z.of_nat i) Hk Hp (Hre (ptr + Z.of_nat i) ltac:(lia))) as (f & Hf & _).
  exists f. split; [done|]. apply H4. lia.
Qed.

Lemma text_kept k k' ptr len bs :
  Kbase k -> PROCESSES k !! pid = Some p -> alive p -> kext k k' -> only_frame page (kernel_mem k) (kernel_mem k') ->
  text k ptr len bs -> text k' ptr len bs.
Proof.
  intros Hk Hp Ha Hx Hof [H1 H2 H3 H4 H5]. split; try done. intros i b Hin Hi. rewrite <-(H5 i b Hin Hi).
  destruct (text_owned k ptr len bs i b Hk Hp Ha) as (f & Hf & Hoff); [by split|done|done|]. by apply (sees_kept k k' _ f).
Qed.

Lemma print_serves ptr len bs ud k :
  Kbase k -> runs k pid p -> text k ptr len bs -> 0 <= ud < 2 ^ 64 ->
  serves (mkSqe OP_PRINT ptr len ud) (status ptr len) (fun c => tx (uart c) = line k ++ on_line ptr len bs) k.
Proof.
  intros Hk Hr Ht Hud k1 Hg HP Hc Hof Hq. cbn [opcode arg0 arg1 user_data]. pose proof Hr as (_ & Hp & Ha & _).
  pose proof (runs_same k k1 (proj2 Hg) HP Hr) as (_ & Hp1 & _ & _ & _ & _ & _ & Ho).
  pose proof (text_kept k k1 ptr len bs Hk Hp Ha (proj2 Hg) Hof Ht) as [H1 H2 H3 _ H5].
  apply exec_runs with (p := p); [done| |by left]. eapply wp_mono.
  { apply (print_runs K A pid p ptr len bs [] ud); try done; [apply Hg|lia|lia| |cbn; lia]. intros Hin. by split; auto. }
  intros [] k' (El & _ & Hg' & HP' & Em). split; [done|done|done|]. rewrite El, Hc. done.
Qed.
Lemma print_call fuel ptr len bs s :
  idle_ring s -> text (uk s) ptr len bs ->
  wp False (ring_call PROGRAMS tr ut box fuel OP_PRINT ptr len) (fun x s' => x = Some (status ptr len) /\
    called (fun c => tx (uart c) = line (uk s) ++ on_line ptr len bs) s s') s.
Proof.
  intros Hid Ht. pose proof Hid as [HK Hr _ _ _ _ Htag]. apply Kinv_split in HK as [Hb _].
  apply ring_call_serves; [done| | |by apply print_serves].
  - split_and!; cbn [opcode arg0 arg1 user_data]; try apply Ht; unfold OP_PRINT; lia.
  - unfold status, ERR. destruct (in_user_range _ _ _ _); lia.
Qed.

Definition texts_in k (texts : list (Z * Z)) (bss : list (list Z)) : Prop :=
  Forall2 (fun x bs => text k x.1 x.2 bs) texts bss.

Lemma print_all_runs fuel texts bss s :
  idle_ring s -> texts_in (uk s) texts bss ->
  wp False (print_all PROGRAMS tr ut box fuel texts) (fun rs s' => rs = (fun x => Some (status x.1 x.2)) <$> texts /\
    called (fun c => tx (uart c) = line (uk s) ++ concat (zip_with (fun x => on_line x.1 x.2) texts bss)) s s') s.
Proof.
  intros Hid Ht. unfold texts_in in *. revert s Hid Ht. revert bss.
  induction texts as [|[ptr len] texts IH]; intros bss s Hid Ht; cbn [print_all].
  { wp_steps. apply Forall2_nil_inv_l in Ht as ->. split; [done|]. split; try done. cbn. by rewrite app_nil_r. }
  apply Forall2_cons_inv_l in Ht as (bs & bss' & Ht & Hts & ->). cbn [fst snd] in *. wp_step.
  eapply wp_mono; [by apply (print_call fuel ptr len bs)|]. intros r s1 [-> [Hid1 Hx1 HP1 Hc1 Hof1]]. wp_step.
  pose proof Hid as [HK (_ & Hp & Ha & _) _ _ _ _ _]. apply Kinv_split in HK as [Hb _]. eapply wp_mono.
  { apply (IH bss'); [done|]. eapply Forall2_impl; [exact Hts|]. intros x b Hx. by apply (text_kept (uk s)). }
  intros rs s2 [-> [Hid2 Hx2 HP2 Hc2 Hof2]]. wp_steps. split; [done|].
  split; [done|by etransitivity|congruence| |by eapply only_frame_trans].
  rewrite Hc2, Hc1. cbn [zip_with concat fst snd]. by rewrite <-app_assoc.
Qed.

(** C12: Calls of [print] reach the serial line in order, and nothing gets lost: from
    the trap of the first to the answer of the last, each call waits for the status of
    its own request, the line grows by the texts as the program sees them, and the
    ring is left empty, with every page of the program but the ring unchanged. *)
Theorem prints_in_order fuel texts bss s :
  idle_ring s -> texts_in (uk s) texts bss ->
  exists s', print_all PROGRAMS tr ut box fuel texts s = Ret ((fun x => Some (status x.1 x.2)) <$> texts, s') /\
    line (uk s') = line (uk s) ++ concat (zip_with (fun x => on_line x.1 x.2) texts bss) /\ idle_ring s' /\
    only_frame page (kernel_mem (uk s)) (kernel_mem (uk s')) /\ PROCESSES (uk s') = PROCESSES (uk s).
Proof.
  intros Hid Ht. destruct (wp_result _ _ _ (print_all_runs fuel texts bss s Hid Ht)) as (rs & s' & Hrun & -> & [H1 H2 H3 H4 H5]).
  by exists s'.
Qed.
End machine.

(** ** From the first instruction *)

Lemma zero_queues m f : mem_ok m -> (forall b, 0 <= b < FRAME_SIZE -> read8 m (f + b) = 0) -> sq m f [] /\ cq m f [].
Proof.
  intros Hm Hz.
  assert (H : forall o, 0 <= o <= 12 -> read32 m (f + o) = 0).
  { intros o Ho. unfold read32. cbn [Memory.load]. rewrite <-!Z.add_assoc. rewrite !Hz by (unfold FRAME_SIZE; lia). done. }
  split; split; rewrite ?H by (unfold SQ_HEAD, SQ_TAIL, CQ_HEAD, CQ_TAIL; lia); try done; cbn; unfold RING_ENTRIES; lia.
Qed.

Section startup.
Context (K A : gset Z).
Context (PROGRAMS : list (list Z * list Z)) (tr ut : Z) (box : kernel -> option Z).
Context (pid : nat) (p : Process).
Abbreviation Kinv := (Kinv K A).
Abbreviation line k := (tx (uart (kcon k))).
Implicit Types (k : kernel).

(** The process after [setup]: [f] is its ring. *)
Abbreviation ringed f := (with_page USER_RING_VA f p).

Section joined.
Context (k : kernel) (T : gmap Z nat) (l : list Z) (f : Z) (s : mmu) (T' : gmap Z nat) (l' : list Z).
Hypothesis Hk : kbase K A k T l.
Hypothesis Hrun : running k.
Hypothesis Hr : runs k pid p.
Hypothesis Hr0 : p_ring_pa p = 0.
Hypothesis Hadd : page_added K A (roots_of (PROCESSES k)) (data_of (PROCESSES k)) (p_ttbr0 p) (the_mmu k) T l
  (mkPage USER_RING_VA f PAGE_USER_RW (fun _ => 0)) s T' l'.
Abbreviation k' := (with_ring s pid f p k).

Lemma joined_kinv : Kinv k'.
Proof.
  destruct Hr as (_ & Hp & Ha & _). apply (ring_joins_kinv K A k T l pid p); try done. exists f, s, T', l'. split; [reflexivity|exact Hadd].
Qed.

Lemma joined_frame : valid_frame f.
Proof.
  pose proof (pa_inv _ _ _ _ _ _ _ _ _ _ _ _ Hadd) as Hv. cbn [pframe] in Hv.
  destruct (vi_data _ _ _ _ _ Hv f) as [H _]; [apply elem_of_union; left; apply elem_of_singleton; reflexivity|exact H].
Qed.

Lemma joined_live : ttbr0_el1 s = p_ttbr0 p.
Proof.
  destruct Hr as (_ & _ & _ & t & _ & _ & _ & Hl). rewrite <-Hl. by rewrite (pa_regs _ _ _ _ _ _ _ _ _ _ _ _ Hadd).
Qed.

Lemma joined_runs : runs k' pid (ringed f).
Proof.
  pose proof Hr as (H0 & Hp & Ha & t & Ht & Hs & Hpt & _). split; [exact H0|]. split; [|split].
  - apply list_lookup_insert_eq. by eapply lookup_lt_Some.
  - unfold alive. cbn. by intros []%app_nil.
  - exists t. split_and!; [exact Ht|exact Hs|exact Hpt|exact joined_live].
Qed.

Lemma joined_walk va :
  canonical va -> hw_walk (mem_of s) 3 (p_ttbr0 p) va =
    if decide (va / 4096 = ring_page) then Some (O, Z.lor f PAGE_USER_RW) else hw_walk (kernel_mem k) 3 (p_ttbr0 p) va.
Proof.
  intros Hc. destruct Hr as (_ & Hp & Ha & _). rewrite (pa_hw _ _ _ _ _ _ _ _ _ _ _ _ Hadd); [|by apply (ki_vm _ _ _ _ _ Hk);
    right; apply elem_of_roots_of; eauto|done]. cbn [pva pframe pperms]. unfold VirtualMemory.on_page, ring_page. apply decide_ext. tauto.
Qed.

Lemma joined_page st nx : page_at (mkMachine k' USER_RING_VA st nx) = Some f.
Proof.
  unfold page_at. cbn [uk u_ring]. change (kernel_mem k') with (mem_of s). change (the_mmu k') with s.
  rewrite joined_live, mmu_walk_canonical, joined_walk by (split; vm_compute; congruence). rewrite decide_True by done.
  unfold el0_writable. rewrite !testbit_page, page_pa by (apply joined_frame || lia || by right).
  cbn. f_equal. change (USER_RING_VA mod 4096) with 0. lia.
Qed.

Lemma joined_queues : sq (kernel_mem k') f [] /\ cq (kernel_mem k') f [].
Proof.
  apply zero_queues; [|intros b Hb; exact (pa_bytes _ _ _ _ _ _ _ _ _ _ _ _ Hadd b Hb)].
  destruct (proj1 (Kinv_split _ _ _) joined_kinv) as [Hb _]. by apply (kinv_mem_ok K A).
Qed.

(** What the program sees elsewhere stays. *)
Lemma joined_text ptr len bs : text p k ptr len bs -> text (ringed f) k' ptr len bs.
Proof.
  intros Ht. pose proof Ht as [H1 H2 H3 H4 H5]. split; try done. intros i b Hin Hi. change (in_user_range p ptr len false = true) in Hin.
  rewrite <-(H5 i b Hin Hi). pose proof Hr as (_ & Hp & Ha & _). assert (Hb : Kbase K A k) by (by exists T, l).
  destruct (text_owned K A pid p k ptr len bs i b Hb Hp Ha Ht Hin Hi) as (g & Hg & Hoff).
  rewrite (owned_sees k p _ g Hg). destruct Hg as (Hc & Hgv & va0 & perms & Hfr & _ & Hu & Hw).
  unfold sees. change (p_ttbr0 (ringed f)) with (p_ttbr0 p). change (kernel_mem k') with (mem_of s).
  rewrite (el0_load_page _ _ _ g perms); [|done|rewrite joined_walk, decide_False by done; exact Hw|done|done].
  f_equal. apply (pa_data _ _ _ _ _ _ _ _ _ _ _ _ Hadd g); [|unfold FRAME_SIZE; zlia].
  apply elem_of_data_of. exists pid, p. split; [done|]. apply list_elem_of_fmap. by exists (va0, g).
Qed.
End joined.

(** The machine before the first instruction of a program. *)
Definition newborn (s : machine) : Prop :=
  Kinv (uk s) /\ runs (uk s) pid p /\ p_ring_pa p = 0 /\ u_stash s = STASH_new /\ u_next s = 1.

(** What [setup] achieves. *)
Record set_up (s s' : machine) (f : Z) : Prop := {
  su_idle : idle_ring K A pid (ringed f) s';
  su_ring : p_ring_pa (ringed f) <> 0;
  su_con : kcon (uk s') = kcon (uk s);
  su_text : forall ptr len bs, text p (uk s) ptr len bs -> text (ringed f) (uk s') ptr len bs
}.

Lemma setup_call_runs s :
  newborn s -> 4 <= free_count (fa (ph (the_mmu (uk s)))) ->
  wp False (setup_call PROGRAMS tr ut box) (fun _ s' => exists f, set_up s s' f) s.
Proof.
  intros (HK & Hr & Hr0 & Hst & Hnx) Hfree. pose proof HK as (T & l & Hk & Hrun). pose proof Hr as (_ & Hp & Ha & _).
  unfold setup_call. wp_step. unfold svc. apply wp_zoom.
  change (exception_dispatch PROGRAMS tr ut box 8 (Z.shiftl EC_SVC 26) 0 0 ?f) with (dispatch PROGRAMS tr ut box f).
  unfold dispatch, reg. wp_step. apply wp_expect_some. wp_step. apply wp_expect_some. cbv beta.
  change (SYS_RING_SETUP =? SYS_ADD) with false. rewrite Z.eqb_refl. wp_step.
  eapply wp_mono; [apply (setup_joins K A False (uk s) T l pid p); try done; [by apply (runs_current _ pid p)|lia]|].
  intros v k' [-> (f & m & T' & l' & -> & Hadd)]. wp_step. wp_step. apply wp_expect_some. wp_steps. exists f.
  pose proof (joined_frame (uk s) T l f m T' l' Hadd) as Hf. apply valid_frame_range in Hf.
  pose proof (joined_queues (uk s) T l f m T' l' Hk Hrun Hr Hr0 Hadd) as [Hsq Hcq]. split; [|cbn; lia|done|].
  - split; cbn [put_kernel uk u_stash u_next]; [exact (joined_kinv (uk s) T l f m T' l' Hk Hrun Hr Hr0 Hadd)| | |exact Hsq|exact Hcq| |].
    + exact (joined_runs (uk s) T l f m T' l' Hr Hadd).
    + exact (joined_page (uk s) T l f m T' l' Hk Hr Hadd _ _).
    + rewrite Hst. by repeat constructor.
    + rewrite Hnx. lia.
  - exact (joined_text (uk s) T l f m T' l' Hk Hr Hadd).
Qed.

Lemma echo_print_runs fuel ptr s :
  newborn s -> 4 <= free_count (fa (ph (the_mmu (uk s)))) ->
  in_user_range p ptr (Z.of_nat (length echo_text)) false = true -> text p (uk s) ptr (Z.of_nat (length echo_text)) echo_text ->
  wp False (echo_print PROGRAMS tr ut box fuel ptr) (fun x s' => x = Some 0 /\
    line (uk s') = line (uk s) ++ crlf echo_text /\ exists f, idle_ring K A pid (ringed f) s') s.
Proof.
  intros Hn Hfree Hin Ht. unfold echo_print. wp_step. eapply wp_mono; [by apply setup_call_runs|].
  intros [] s1 (f & [Hid Hne Hc Hte]). eapply wp_mono; [by apply (print_call K A PROGRAMS tr ut box pid (ringed f)), Hte|].
  intros x s2 [-> [Hid2 _ _ Hc2 _]]. unfold status, on_line in *.
  change (in_user_range (ringed f)) with (in_user_range p) in *. rewrite Hin in *. split; [done|]. split; [|by exists f].
  rewrite Hc2, Hc. done.
Qed.

(** C11: The program echo does what it is for: started with four frames in the pool,
    it sets up its ring, its line appears on the serial line, and it ends with the
    code 0 and without a panic, its pages, its ring and its root back in the pool. *)
Theorem echo_completes fuel ptr s :
  newborn s -> 4 <= free_count (fa (ph (the_mmu (uk s)))) ->
  in_user_range p ptr (Z.of_nat (length echo_text)) false = true -> text p (uk s) ptr (Z.of_nat (length echo_text)) echo_text ->
  exists f s1 s', echo_print PROGRAMS tr ut box fuel ptr s = Ret (Some 0, s1) /\
    line (uk s1) = line (uk s) ++ crlf echo_text /\
    echo_start PROGRAMS tr ut box fuel ptr s = Ret (Retired, s') /\ retired K A (uk s1) pid (ringed f) 0 (uk s').
Proof.
  intros Hn Hfree Hin Ht. destruct (wp_result _ _ _ (echo_print_runs fuel ptr s Hn Hfree Hin Ht)) as (x & s1 & H1 & -> & Hl & f & Hid).
  destruct Hid as [HK Hr _ _ _ _ _].
  destruct (wp_result _ _ _ (say_retired K A (str "[user] exited with code " ++ fmt_i 0) 0 pid (ringed f) (uk s1) HK Hr))
    as (e & k' & H2 & -> & Hrt).
  exists f, s1, (put_kernel k' s1). split; [done|]. split; [done|]. split; [|done].
  unfold echo_start, bindM at 1. rewrite H1. unfold exit_call, svc, zoomM.
  change (exception_dispatch PROGRAMS tr ut box 8 _ 0 0 _ (uk s1)) with
    ((say (str "[user] exited with code " ++ fmt_i 0) ;;; retire 0) (uk s1)).
  by rewrite H2.
Qed.
End startup.
