(* ===== verification/Boot.v ===== *)
(** * Booting into the invariant

    [kmain] brings the machine from reset to a state of the running kernel: no
    step of it can panic when there is memory enough, every self-check passes, and
    the kernel invariant holds from the moment the scheduler exists. *)

From Stdlib Require Import ZArith Lia String.
From stdpp Require Import base numbers gmap strings list list_relations.
From S2P Require Import Prelude Sync Memory Abi Frames Mmu PageTables AddressSpaces Reclaim Ownership.
From S2P Require Import VirtualMemory Isolation Heap Sched Console Elf Loader Devices Process Text Ring User Main.
From S2P Require Import KernelInv KernelRing KernelSpawn KernelSteps KernelIrq KernelExit.

(** ** Before there are tasks *)

(** The receive interrupt is on, or the buffer full. *)
Definition rx_on (c : console) : Prop := is_full (INPUT c) = true \/ imsc (uart c) = RXIM.

(** Only the console, the tick count and the timer's countdown change. *)
Record early (k k' : kernel) : Prop := {
  ey_mmu : the_mmu k' = the_mmu k;
  ey_sched : SCHEDULER (ks k') = SCHEDULER (ks k);
  ey_procs : PROCESSES k' = PROCESSES k;
  ey_poller : poller k' = poller k;
  ey_ticks : 0 <= TICKS (ks k) -> 0 <= TICKS (ks k');
  ey_gic : kgic k' = kgic k;
  ey_ctl : cntp_ctl (ktimer k') = cntp_ctl (ktimer k);
  ey_rx : rx_on (kcon k) -> rx_on (kcon k')
}.

#[export] Instance early_preorder : PreOrder early.
Proof.
  split; [by intros k|]. intros k1 k2 k3 [A1 B1 C1 D1 F1 G1 H1 I1] [A2 B2 C2 D2 F2 G2 H2 I2].
  split; (congruence || auto).
Qed.

(** No task and no process. *)
Record bare (k : kernel) : Prop := {
  ba_sched : SCHEDULER (ks k) = mkSched [] 0;
  ba_procs : PROCESSES k = [];
  ba_poller : poller k = None;
  ba_con : cwf (kcon k);
  ba_ticks : 0 <= TICKS (ks k)
}.

Lemma bare_early k k' : bare k -> early k k' -> cwf (kcon k') -> bare k'.
Proof. intros [S P Po _ Ht] [_ E1 E2 E3 E4 _ _ _] Hc. split; [congruence..|done|auto]. Qed.

Lemma bare_mmu k s : bare k -> bare (put_mmu s k).
Proof. intros [S P Po C Ht]. by split. Qed.

Lemma write_wp s k : bare k -> wp False (in_con (write_str s)) (fun _ k' => bare k' /\ early k k') k.
Proof.
  intros Hb. unfold in_con. apply wp_zoom. eapply wp_mono; [apply write_str_spec|]. intros [] c (_ & Hrx & Him & Hin).
  assert (He : early k (set_con c k)) by (split; try done; unfold rx_on; cbn [kcon set_con]; by rewrite Him, Hin).
  split; [|done]. eapply bare_early; [done|done|].
  split; cbn; rewrite ?Hin, ?Hrx; apply Hb.
Qed.

Lemma println_wp s k : bare k -> wp False (println s) (fun _ k' => bare k' /\ early k k') k.
Proof. apply write_wp. Qed.

(** ** Frames *)

Lemma take_frame_wp {B} (m : Z -> M kernel B) Q f l k :
  free_inv (ph (the_mmu k)) (f :: l) ->
  (forall p, free_inv p l -> ram p = kernel_mem k -> wp False (m f) Q (put_mmu (set_ph p (the_mmu k)) k)) ->
  wp False (let! x := take_frame in m x) Q k.
Proof.
  intros Hp Hm. wp_step. unfold take_frame, in_mmu, in_phys. wp_step. apply wp_zoom, wp_zoom.
  eapply wp_mono; [apply (pop_spec _ _ Hp)|]. intros o p (-> & Hp' & Hram). wp_steps. by apply Hm.
Qed.

Lemma give_frame_wp {B} (m : M kernel B) Q f l k :
  free_inv (ph (the_mmu k)) l -> valid_frame f -> f ∉ l ->
  (forall p, free_inv p (f :: l) -> wp False m Q (put_mmu (set_ph p (the_mmu k)) k)) ->
  wp False (give_frame f ;;; m) Q k.
Proof.
  intros Hp Hf Hn Hm. wp_step. unfold give_frame, in_mmu, in_phys. apply wp_zoom, wp_zoom.
  eapply wp_mono; [by apply free_frame_spec|]. intros [] p [Hp' _]. by apply Hm.
Qed.

Lemma count_free_wp {B} (m : Z -> M kernel B) Q l k :
  free_inv (ph (the_mmu k)) l -> wp False (m (Z.of_nat (length l))) Q k -> wp False (let! n := count_free in m n) Q k.
Proof.
  intros Hp Hm. wp_step. unfold count_free, in_mmu, in_phys. apply wp_zoom, wp_zoom. wp_steps.
  unfold free_frame_count. rewrite (fi_count _ _ Hp).
  replace (put_mmu _ k) with k by (by destruct k as [[? ? ? ? ? []] ? ? ? ? ?]). exact Hm.
Qed.

Lemma assert_wp {S B} (b : bool) (m : M S B) Q s : b = true -> wp False m Q s -> wp False (assertM b ;;; m) Q s.
Proof. intros -> Hm. by wp_steps. Qed.

(** The pool is as large as before, and holds the same frames. *)
Lemma frame_self_check_wp k l :
  bare k -> free_inv (ph (the_mmu k)) l -> (1000 < length l)%nat ->
  wp False frame_self_check (fun _ k' => bare k' /\ exists p l', early (put_mmu (set_ph p (the_mmu k)) k) k' /\
    free_inv p l' /\ length l' = length l) k.
Proof.
  intros Hb Hp Hl. destruct l as [|f1 [|f2 l]]; [cbn in Hl; lia..|]. cbn [length] in *.
  pose proof (free_inv_in_valid _ _ _ Hp (list_elem_of_here _ _)) as V1.
  pose proof (free_inv_in_valid _ _ _ Hp (list_elem_of_further _ _ _ (list_elem_of_here _ _))) as V2.
  pose proof (fi_nodup _ _ Hp) as Hnd. rewrite !NoDup_cons, not_elem_of_cons in Hnd. destruct Hnd as ((N12 & N1) & N2 & _).
  unfold frame_self_check. eapply count_free_wp; [exact Hp|]. cbn [length]. apply assert_wp; [apply Z.ltb_lt; lia|].
  eapply take_frame_wp; [exact Hp|]. intros p1 P1 _. eapply take_frame_wp; [exact P1|]. intros p2 P2 _.
  apply assert_wp; [by apply negb_true_iff, Z.eqb_neq|].
  do 2 (apply assert_wp; [apply Z.eqb_eq; apply V1 || apply V2|]).
  eapply count_free_wp; [exact P2|]. wp_step. apply wp_sub; [lia|]. apply assert_wp; [apply Z.eqb_eq; lia|].
  eapply give_frame_wp; [exact P2|done|done|]. intros p3 P3.
  eapply give_frame_wp; [exact P3|done|by apply not_elem_of_cons; split|]. intros p4 P4.
  eapply count_free_wp; [exact P4|]. apply assert_wp; [apply Z.eqb_eq; cbn [length]; lia|].
  eapply take_frame_wp; [exact P4|]. intros p5 P5 _. apply assert_wp; [by apply Z.eqb_eq|].
  eapply give_frame_wp; [exact P5|done|by apply not_elem_of_cons; split|]. intros p6 P6.
  eapply wp_mono; [by apply println_wp, bare_mmu, bare_mmu, bare_mmu, bare_mmu, bare_mmu, bare_mmu|].
  intros [] k' [Hb' He]. split; [done|]. exists p6, (f2 :: f1 :: l). split; [|done]. exact He.
Qed.

(** ** With the MMU on *)

(** The kernel's own tables show EL0 nothing. *)
Definition closed (s : mmu) : Prop :=
  forall va n e, canonical va -> hw_walk (mem_of s) 3 (KERNEL_TTBR0 s) va = Some (n, e) -> el0_access e = false.

(** Same registers, same kernel translations. *)
Definition same_map (s s' : mmu) : Prop :=
  s' = set_ph (ph s') s /\ forall va, hw_walk (mem_of s') 3 (KERNEL_TTBR0 s) va = hw_walk (mem_of s) 3 (KERNEL_TTBR0 s) va.

Lemma early_mmu s k k' : early k k' -> early (put_mmu s k) (put_mmu s k').
Proof. intros [A1 B1 C1 D1 F1 G1 H1 I1]. by split. Qed.

Lemma read32_write32 m a v : 0 <= v < 2 ^ 32 -> read32 (write32 m a v) a = v.
Proof. intros Hv. unfold read32, write32. rewrite load_store_eq. by apply Z.mod_small. Qed.

(** A frame is taken, written and given back. *)
Lemma scratch_frame K A T f l s v :
  vm_inv K A (mkVm s ∅ ∅) T (f :: l) -> closed s ->
  exists s1, in_phys alloc_frame s = Ret (Some f, s1) /\
    let s2 := set_ph (set_ram (write32 (mem_of s1) f v) (ph s1)) s1 in
    exists s3, in_phys (free_frame f) s2 = Ret (tt, s3) /\ vm_inv K A (mkVm s3 ∅ ∅) T (f :: l) /\ same_map s s3.
Proof.
  intros Hv Hcl. destruct (alloc_run _ _ _ (vi_mm _ _ _ _ _ Hv)) as [s1 Halloc]. cbn [vs hd_error] in Halloc.
  exists s1. split; [done|]. intros s2.
  destruct (alloc_step _ _ _ _ _ _ _ _ _ Hv Halloc) as (l1 & [= <-] & Hm1 & Hv1).
  apply in_phys_ret in Halloc as (p1 & _ & E1). assert (Hf : f ∈ {[f]} ∪ (∅ : gset Z)) by apply elem_of_new.
  destruct (vi_data _ _ _ _ _ Hv1 f Hf) as (Hfv & _ & _). pose proof (vi_mm _ _ _ _ _ Hv1) as Hmm1. cbn [vs] in Hmm1.
  assert (Hof : only_frame f (mem_of s1) (write32 (mem_of s1) f v)).
  { replace f with (f + 0) at 2 by lia. by apply only_frame_store. }
  destruct (vm_inv_data K A s1 ∅ _ f (write32 (mem_of s1) f v) T l Hv1 Hf Hof
    (mem_ok_store 4 _ _ _ (fi_mem _ _ (mi_pool _ _ _ Hmm1)))) as [Hv2 Hw2]. fold s2 in Hv2.
  assert (Ek : KERNEL_TTBR0 s2 = KERNEL_TTBR0 s) by (unfold s2; by rewrite E1).
  assert (Hkt : T !! KERNEL_TTBR0 s = Some O) by (apply (vi_roots _ _ _ _ _ Hv); by left).
  assert (Hw : forall va, hw_walk (mem_of s2) 3 (KERNEL_TTBR0 s) va = hw_walk (mem_of s) 3 (KERNEL_TTBR0 s) va).
  { intros va. unfold s2. cbn [mem_of ph set_ph ram set_ram]. by rewrite Hw2, Hm1. }
  assert (Hun : unshared (mkVm s2 ∅ ({[f]} ∪ ∅)) f).
  { intros r va n e [->|Hr] Hc Hwk Ha; [|by apply elem_of_empty in Hr]. cbn [vs] in *. rewrite Ek, Hw in Hwk.
    by rewrite (Hcl va n e Hc Hwk) in Ha. }
  destruct (wp_unit _ _ _ (release_run K A s2 ∅ _ f T l Hv2 Hf Hun)) as (s3 & Hrun & Hv3 & Hw3 & _ & E3).
  exists s3. split; [done|]. split; [|split].
  - by replace (({[f]} ∪ ∅) ∖ {[f]}) with (∅ : gset Z) in Hv3 by (symmetry; apply none_left).
  - rewrite E3. unfold s2. by rewrite E1.
  - intros va. by rewrite Hw3, Hw.
Qed.

Lemma mmu_self_check_wp K A T f l k :
  bare k -> vm_inv K A (mkVm (the_mmu k) ∅ ∅) T (f :: l) -> closed (the_mmu k) ->
  wp False mmu_self_check (fun _ k' => bare k' /\ exists s', early (put_mmu s' k) k' /\
    vm_inv K A (mkVm s' ∅ ∅) T (f :: l) /\ same_map (the_mmu k) s') k.
Proof.
  intros Hb Hv Hcl. unfold mmu_self_check. wp_step. eapply wp_mono; [by apply println_wp|]. intros [] k1 [Hb1 He1].
  pose proof (ey_mmu _ _ He1) as Em.
  destruct (scratch_frame K A T f l (the_mmu k) 0x12345678 Hv Hcl) as (s1 & Halloc & s3 & Hfree & Hv3 & Hs3).
  rewrite <-Em in Halloc. wp_step. unfold take_frame. wp_step. unfold in_mmu at 1. apply wp_zoom, (wp_known _ _ _ _ _ _ Halloc).
  wp_steps. unfold st32, ld32. do 3 wp_step. apply assert_wp; [apply Z.eqb_eq, read32_write32; lia|].
  wp_step. unfold give_frame, in_mmu. apply wp_zoom, (wp_known _ _ _ _ _ _ Hfree).
  eapply wp_mono; [by apply println_wp, bare_mmu, bare_mmu, bare_mmu|]. intros [] k' [Hb' He']. split; [done|].
  exists s3. split; [|done]. etransitivity; [by apply early_mmu|exact He'].
Qed.

(** A state with nothing but the kernel in memory. *)
Lemma vm_inv_kernel s T l :
  mm_inv s T l -> T !! KERNEL_TTBR0 s = Some O -> ttbr0_el1 s = KERNEL_TTBR0 s -> INSTALLED s = 0 -> closed s ->
  vm_inv (dom T) (dom T ∪ list_to_set l) (mkVm s ∅ ∅) T l.
Proof.
  intros Hmm Hk Ht Hi Hcl.
  assert (Hroot : forall r, root_of (mkVm s ∅ ∅) r -> r = KERNEL_TTBR0 s) by (intros r [?|?%elem_of_empty]; done).
  split; cbn [vs roots data]; try done.
  - apply union_empty_r_L.
  - by apply elem_of_dom_2 in Hk.
  - intros r Hr. by rewrite (Hroot r Hr).
  - intros x. rewrite elem_of_dom. split; [by left|]. intros [?|(r & ?%elem_of_empty & _)]; done.
  - intros r va n e Hr Hc Hw Ha. rewrite (Hroot r Hr) in Hw. by rewrite (Hcl va n e Hc Hw) in Ha.
  - by left.
  - by right.
Qed.

(** The heap window opens nothing to EL0. *)
Lemma heap_closed s T l fs s' T' l' :
  heap_mapped s T l 512 fs s' T' l' -> T !! KERNEL_TTBR0 s = Some O -> closed s -> closed s'.
Proof.
  intros [Hmm Hlen _ _ _ Hfs Hregs Hw] Hk Hcl va n e Hc Hwk.
  assert (Ek : KERNEL_TTBR0 s' = KERNEL_TTBR0 s) by (by rewrite Hregs). rewrite Ek, Hw in Hwk by done.
  destruct (in_window 512 va); [|by eapply Hcl]. destruct (fs !! window_page va) as [f|] eqn:Hf; [|done].
  injection Hwk as <- <-. destruct (Hfs f (list_elem_of_lookup_2 _ _ _ Hf)) as (Hfv & _ & _).
  unfold el0_access, el0_readable, el0_executable. by rewrite !testbit_page by (done || lia).
Qed.

Lemma take_block_wp {B} (m : Z -> M boot B) Q l p a' k a v d :
  alloc l a = Ret (p, a') -> (p =? 0) = false -> wp False (m p) Q (mkBoot k a' v d) ->
  wp False (let! x := take_block l in m x) Q (mkBoot k a v d).
Proof.
  intros Ha Hp Hm. unfold take_block, in_bump. wp_step. wp_step. apply wp_zoom, (wp_known _ _ _ _ _ _ Ha).
  apply assert_wp; [by rewrite Hp|]. by wp_steps.
Qed.

Lemma drop_block_wp {B} (m : M boot B) Q p l a' k a v d :
  dealloc p l a = Ret (tt, a') -> wp False m Q (mkBoot k a' v d) -> wp False (in_bump (dealloc p l) ;;; m) Q (mkBoot k a v d).
Proof. intros Ha Hm. wp_step. unfold in_bump. by apply wp_zoom, (wp_known _ _ _ _ _ _ Ha). Qed.

(** An operation of the kernel within [kmain]. *)
Lemma in_kernel_wp {B C} (m : M kernel B) (f : B -> M boot C) P Q k a v d :
  wp False m P k -> (forall x k', P x k' -> wp False (f x) Q (mkBoot k' a v d)) ->
  wp False (let! x := in_kernel m in f x) Q (mkBoot k a v d).
Proof. intros Hm Hf. wp_step. unfold in_kernel. apply wp_zoom. eapply wp_mono; [exact Hm|]. intros x k' HP. by apply Hf. Qed.

Lemma on_kmem_wp f k :
  bare k -> wp False (on_kmem f) (fun _ k' => bare k' /\ early k k' /\ kmem (ks k') = f (kmem (ks k))) k.
Proof.
  intros Hb. unfold on_kmem. wp_steps. set (k1 := set_ks _ k). assert (He : early k k1) by (by split).
  split; [eapply bare_early; [exact Hb|exact He|apply Hb]|done].
Qed.

Lemma sum_numbers_wp v k : bare k -> wp False (sum_numbers v) (fun n k' => n = 6 /\ bare k' /\ early k k') k.
Proof.
  intros Hb. unfold sum_numbers, poke32, peek32.
  wp_step. eapply wp_mono; [by apply on_kmem_wp|]. intros [] k1 (Hb1 & He1 & E1).
  wp_step. eapply wp_mono; [by apply on_kmem_wp|]. intros [] k2 (Hb2 & He2 & E2).
  wp_step. eapply wp_mono; [by apply on_kmem_wp|]. intros [] k3 (Hb3 & He3 & E3).
  assert (E : read32 (kmem (ks k3)) v + read32 (kmem (ks k3)) (v + 4) + read32 (kmem (ks k3)) (v + 8) = 6).
  { rewrite E3, E2, E1. unfold read32, write32. rewrite !(load_store_ne 4 4 _ (v + 8)), load_store_eq by lia.
    by rewrite (load_store_ne 4 4 _ (v + 4) v), !load_store_eq by lia. }
  wp_steps; rewrite E in *; [|done]. split; [done|]. split; [done|].
  etransitivity; [exact He1|]. by etransitivity.
Qed.

Lemma heap_self_check_wp k v d :
  bare k -> wp False heap_self_check (fun _ b' => bare (bk b') /\ early k (bk b') /\
    vbar_el1 b' = v /\ daif b' = d) (mkBoot k bump_empty v d).
Proof.
  intros Hb. unfold heap_self_check, poke32, peek32. eapply take_block_wp; [by vm_compute|done|].
  eapply in_kernel_wp; [by apply sum_numbers_wp|]. intros ? k1 (-> & Hb1 & He1). apply assert_wp; [done|].
  eapply take_block_wp; [by vm_compute|done|]. eapply in_kernel_wp; [by apply on_kmem_wp|]. intros [] k2 (Hb2 & He2 & _).
  eapply (in_kernel_wp _ _ (fun _ k' => k' = k2)); [by wp_steps|]. intros bytes k' ->.
  eapply in_kernel_wp; [by apply write_wp|]. intros [] k3 [Hb3 He3].
  eapply in_kernel_wp; [by apply write_wp|]. intros [] k4 [Hb4 He4].
  eapply take_block_wp; [by vm_compute|done|]. eapply in_kernel_wp; [by apply on_kmem_wp|]. intros [] k5 (Hb5 & He5 & E5).
  eapply (in_kernel_wp _ _ (fun x k' => x = 0xCAFE /\ k' = k5)).
  { wp_steps. split; [|done]. rewrite E5. unfold read32, write32. by rewrite load_store_eq. }
  intros ? k' [-> ->]. apply assert_wp; [done|]. apply assert_wp; [by vm_compute|].
  eapply in_kernel_wp; [by apply println_wp|]. intros [] k6 [Hb6 He6].
  eapply drop_block_wp; [by vm_compute|]. eapply drop_block_wp; [by vm_compute|].
  unfold in_bump. apply wp_zoom. eapply wp_known; [by vm_compute|]. split; [done|].
  split; [|done]. cbn [bk]. repeat (etransitivity; [eassumption|]). reflexivity.
Qed.

(** ** System calls and interrupts *)

Lemma syscall_self_check_wp PROGRAMS tr ut box vt k a d :
  bare k -> wp False (syscall_self_check PROGRAMS tr ut box vt) (fun _ b' => bare (bk b') /\ early k (bk b') /\
    vbar_el1 b' = vt /\ daif b' = d) (mkBoot k a vt d).
Proof.
  intros Hb. unfold syscall_self_check. wp_step.
  assert (Hs : syscall PROGRAMS tr ut box vt SYS_ADD 3 4 (mkBoot k a vt d) = Ret (7, mkBoot k a vt d)).
  { unfold syscall, take_exception, bindM at 1 2 3, getM, assertM. cbn [vbar_el1]. rewrite Z.eqb_refl. by destruct k. }
  apply (wp_known _ _ _ _ _ _ Hs). apply assert_wp; [done|]. unfold in_kernel. apply wp_zoom.
  eapply wp_mono; [by apply println_wp|]. by intros [] k' [? ?].
Qed.

(** Without tasks, the scheduler does nothing. *)
Lemma bare_tick k : bare k -> in_sched tick k = Ret (tt, k).
Proof.
  intros [S _ _ _ _]. unfold in_sched, zoomM, tick, bindM, getM, wake_sleepers, modifyM, schedule, set_sched. rewrite S.
  cbn. rewrite <-S. by destruct k as [[] ? ? ? ? ?].
Qed.

Lemma drained_rx_on c c' bs : cwf c -> drained c c' bs -> rx_on c -> rx_on c'.
Proof.
  intros Hc [Hw _ Hct Him _ _] Hon. unfold rx_on in *. destruct (is_full (INPUT c')) eqn:Hf; [by left|].
  destruct Hon as [Hfull|Hon]; [|right; congruence]. apply is_full_spec in Hfull; [|apply Hc].
  apply not_true_iff_false in Hf. destruct Hf. apply is_full_spec; [apply Hw|].
  pose proof (count_lt _ (cw_input _ Hw)) as Hlt. rewrite <-length_contents in Hlt. rewrite Hct, length_app in *. lia.
Qed.

(** What is acknowledged and completed is as before. *)
Lemma eoi_restores i g : set_active (remove_first i (active (set_active (i :: active g) g))) (set_active (i :: active g) g) = g.
Proof. destruct g. cbn. by rewrite Z.eqb_refl. Qed.

Lemma handle_irq_bare intid k :
  bare k -> wp False (handle_irq intid) (fun _ k' => bare k' /\ early k k' /\
    TICKS (ks k') = if intid =? TIMER_INTID then wrapping_add 64 (TICKS (ks k)) 1 else TICKS (ks k)) k.
Proof.
  intros Hb. unfold handle_irq. wp_step. unfold in_gic at 1, acknowledge. apply wp_zoom.
  destruct (is_spurious intid) eqn:Hs; wp_steps; rewrite Hs.
  { wp_steps. destruct (Z.eqb_spec intid TIMER_INTID) as [->|]; [done|].
    assert (He : early k (set_gic (kgic k) k)) by (by split). split; [|done]. eapply bare_early; [done|done|apply Hb]. }
  set (k1 := set_gic _ k). assert (Hb1 : bare k1) by (by destruct Hb; split).
  assert (Eg : set_active (remove_first intid (active (kgic k1))) (kgic k1) = kgic k) by apply eoi_restores.
  destruct (intid =? TIMER_INTID).
  - unfold count_tick, in_timer, reload, in_gic, eoi. wp_step. unfold in_sched at 1. apply wp_zoom. wp_steps.
    set (k2 := set_gic _ _).
    assert (He2 : early k k2)
      by (split; try done; intros _; cbn; unfold wrapping_add, wrap; apply Z.mod_pos_bound; lia).
    assert (Hb2 : bare k2) by (apply (bare_early k); [done|done|apply Hb]).
    apply (wp_known _ _ _ _ _ _ (bare_tick k2 Hb2)). by split.
  - wp_step. apply (wp_mono False _ (fun _ k' => bare k' /\ early k1 k' /\ TICKS (ks k') = TICKS (ks k1))).
    + destruct (intid =? UART_INTID); [|by wp_steps]. wp_step. unfold in_con. apply wp_zoom.
      unfold drain_uart. wp_step. wp_step. eapply wp_mono; [apply drain_loop_spec; [apply Hb1|lia]|].
      intros [] c (bs & Hd). set (k2 := set_con c k1).
      assert (He2 : early k1 k2) by (split; try done; apply (drained_rx_on _ _ bs); [apply Hb1|done]).
      assert (Hb2 : bare k2) by (eapply bare_early; [done|done|apply (dr_wf _ _ _ Hd)]).
      unfold poll_pending. wp_steps. unfold foreground_pid. rewrite (ba_procs _ Hb2). cbn [position]. by wp_steps.
    + intros [] k2 (Hb2 & [E1 E2 E3 E4 E5 E6 E7 E8] & Ht). unfold in_gic, eoi. wp_steps.
      set (k3 := set_gic _ k2). assert (He3 : early k k3) by (split; try done; cbn [kgic k3 set_gic]; unfold k3; cbn [kgic set_gic]; by rewrite E6).
      split; [eapply bare_early; [exact Hb|exact He3|apply Hb2]|]. by split.
Qed.

(** Timer interrupts among [irqs]. *)
Definition timer_irqs (irqs : list Z) : nat := length (filter (fun i => i = TIMER_INTID) irqs).

(** The controller forwards both interrupts and the devices raise them. *)
Record attentive (k : kernel) : Prop := {
  at_timer : forwards (kgic k) TIMER_INTID = true;
  at_uart : forwards (kgic k) UART_INTID = true;
  at_ticking : ticking (ktimer k) = true;
  at_rx : rx_on (kcon k)
}.

Lemma attentive_early k k' : early k k' -> attentive k -> attentive k'.
Proof. intros [_ _ _ _ _ Eg Ec Hx] [A1 A2 A3 A4]. split; [by rewrite Eg..|unfold ticking in *; by rewrite Ec|auto]. Qed.

(** Exceptions come to the kernel's table, and interrupts are not masked. *)
Record listening (vt : Z) (b : boot) : Prop := {
  ls_vbar : vbar_el1 b = vt;
  ls_daif : masked (daif b) = false;
  ls_devices : attentive (bk b)
}.

Section irqs.
Context (PROGRAMS : list (list Z * list Z)) (tr ut : Z) (box : kernel -> option Z) (vt : Z).

(** The timer's interrupt is taken; one of the UART may be. *)
Lemma wfi_wp i b :
  bare (bk b) -> listening vt b ->
  wp False (wfi PROGRAMS tr ut box vt i) (fun _ b' => bare (bk b') /\ early (bk b) (bk b') /\ listening vt b' /\
    TICKS (ks (bk b')) = if i =? TIMER_INTID then wrapping_add 64 (TICKS (ks (bk b))) 1 else TICKS (ks (bk b))) b.
Proof.
  intros Hb Hl. pose proof Hl as [Hv Hd Ha]. unfold wfi. wp_step. wp_step. destruct (interrupts i b) eqn:Hi.
  - wp_step. unfold take_exception. wp_step. wp_step. apply assert_wp; [by apply Z.eqb_eq|]. unfold in_kernel. apply wp_zoom.
    change (exception_dispatch PROGRAMS tr ut box 5 0 0 i ?f) with (handle_irq i ;;; retM (Resume f)). wp_step.
    eapply wp_mono; [by apply handle_irq_bare|]. intros [] k' (Hb' & He & Ht). wp_steps. split; [done|]. split; [done|].
    split; [|done]. split; [done|done|by eapply attentive_early].
  - wp_steps. split; [done|]. split; [done|]. split; [done|]. destruct (Z.eqb_spec i TIMER_INTID) as [->|]; [|done].
    unfold interrupts, raised in Hi. rewrite Hd, (at_timer _ Ha) in Hi. cbn [Z.eqb Pos.eqb] in Hi. 
    change (TIMER_INTID =? TIMER_INTID) with true in Hi. by rewrite (at_ticking _ Ha) in Hi.
Qed.

Lemma irq_self_check_wp irqs b :
  bare (bk b) -> listening vt b -> 5 <= TICKS (ks (bk b)) + Z.of_nat (timer_irqs irqs) ->
  wp False (irq_self_check PROGRAMS tr ut box vt irqs)
    (fun _ b' => bare (bk b') /\ early (bk b) (bk b') /\ listening vt b') b.
Proof.
  revert b. induction irqs as [|i irqs IH]; intros b Hb Hl Hn; pose proof (ba_ticks _ Hb) as Ht;
    cbn [irq_self_check]; destruct b as [k a v d]; cbn [bk] in *;
    (eapply (in_kernel_wp _ _ (fun x k' => x = TICKS (ks k) /\ k' = k)); [by unfold ticks; wp_steps|]); intros now ? [-> ->];
    (destruct (Z.ltb_spec (TICKS (ks k)) 5) as [Hlt|Hge];
       [|eapply in_kernel_wp; [by apply write_wp|]; intros [] k1 [Hb1 He1]; unfold in_kernel; apply wp_zoom;
         eapply wp_mono; [by apply println_wp|]; intros [] k2 [Hb2 He2]; split; [done|];
         assert (He : early k k2) by (by etransitivity); split; [done|];
         destruct Hl; split; [done..|]; by eapply attentive_early]).
  { cbn in Hn. lia. }
  wp_step. eapply wp_mono; [by apply wfi_wp|]. cbn [bk]. intros [] b1 (Hb1 & He1 & Hl1 & Ht1).
  unfold timer_irqs in *. rewrite filter_cons in Hn. unfold wrapping_add, wrap in Ht1.
  eapply wp_mono.
  - apply IH; [done|done|]. rewrite Ht1. destruct (Z.eqb_spec i TIMER_INTID); rewrite ?Z.mod_small by lia.
    + rewrite decide_True in Hn by done. cbn [length] in Hn. lia.
    + rewrite decide_False in Hn by done. lia.
  - intros [] b2 (Hb2 & He2 & Hl2). split; [done|]. split; [by etransitivity|done].
Qed.
End irqs.

(** ** The scheduler *)

(** The idle task of a kernel without processes. *)
Definition idle_only (k : kernel) : Prop :=
  PROCESSES k = [] /\ tasks (SCHEDULER (ks k)) = [mkTask 0 Runnable 0 None None] /\ current (SCHEDULER (ks k)) = O.

Lemma idle_kinv K A k T l :
  idle_only k -> poller k = None -> cwf (kcon k) -> vm_inv K A (mkVm (the_mmu k) ∅ ∅) T l -> closed (the_mmu k) ->
  kinv K A k T l.
Proof.
  intros (HP & HT & HC) Hpo Hc Hv Hcl.
  assert (Hone : forall i t, tasks (SCHEDULER (ks k)) !! i = Some t -> i = O /\ t = mkTask 0 Runnable 0 None None).
  { intros i t Ht. rewrite HT in Ht. by apply list_lookup_singleton_Some in Ht as [-> <-]. }
  split; [split; rewrite ?HP, ?HC|]; try done.
  - intros i t [_ ->]%Hone _. done.
  - intros i j t u pid [-> ->]%Hone [-> ->]%Hone. done.
  - split; [unfold swf; rewrite HC, HT; cbn; lia|by rewrite HT].
  - by intros t [_ ->]%Hone.
  - by rewrite Hpo.
  - split; rewrite HC; [by rewrite HT|]. by intros t r [_ ->]%Hone.
Qed.

Lemma sched_init_wp k : bare k -> wp False (in_sched Sched.init) (fun _ k' => idle_only k' /\ the_mmu k' = the_mmu k /\
  poller k' = None /\ cwf (kcon k') /\ kgic k' = kgic k /\ ktimer k' = ktimer k /\ kcon k' = kcon k) k.
Proof.
  intros [S P Po C _]. unfold in_sched, Sched.init, push_task. apply wp_zoom. wp_steps. unfold idle_only.
  cbn [ks set_ks PROCESSES SCHEDULER set_sched tasks current]. by rewrite S.
Qed.

(** ** [kmain] *)

(** The machine at reset: memory and the console's state are arbitrary but for
    bytes being bytes, nothing is allocated, no task or process exists; no interrupt
    is active and the CPU masks them. *)
Record reset (b : boot) : Prop := {
  rs_bare : bare (bk b);
  rs_ram : mem_ok (ram (ph (the_mmu (bk b))));
  rs_fa : fa (ph (the_mmu (bk b))) = FrameAllocator_new;
  rs_installed : INSTALLED (the_mmu (bk b)) = 0;
  rs_active : active (kgic (bk b)) = [];
  rs_masked : masked (daif b) = true
}.

Lemma init_frames_wp kernel_end k :
  mem_ok (ram (ph (the_mmu k))) -> fa (ph (the_mmu k)) = FrameAllocator_new -> RAM_BASE <= kernel_end <= RAM_TOP ->
  wp False (in_mmu (in_phys (init_frames kernel_end))) (fun _ k' => exists p,
    k' = put_mmu (set_ph p (the_mmu k)) k /\ free_inv p (reverse (frames_between (first_frame kernel_end) RAM_TOP))) k.
Proof.
  intros Hm Hf Hr. unfold in_mmu, in_phys. apply wp_zoom, wp_zoom.
  replace (ph (the_mmu k)) with {| ram := ram (ph (the_mmu k)); fa := FrameAllocator_new |}
    by (rewrite <-Hf; by destruct (ph (the_mmu k))).
  eapply wp_mono; [by apply init_frames_pool|]. intros [] p Hp. by exists p.
Qed.

Lemma pool_length kernel_end n :
  kernel_end + (Z.of_nat n + 1) * FRAME_SIZE <= RAM_TOP ->
  (n <= length (reverse (frames_between (first_frame kernel_end) RAM_TOP)))%nat.
Proof.
  intros H. rewrite length_reverse. unfold frames_between, zseq, first_frame, FRAME_SIZE in *.
  rewrite !length_fmap, length_seq. zlia.
Qed.

(** Memory after the heap was mapped. *)
Record heap_up (s : mmu) : Prop := {
  hu_inv : exists T l, vm_inv (dom T) (dom T ∪ list_to_set l) (mkVm s ∅ ∅) T l;
  hu_closed : closed s
}.

Lemma in_mmu_wp {A} pan (m : M mmu A) Q k :
  wp pan m Q (the_mmu k) -> wp pan (in_mmu m) (fun a k' => Q a (the_mmu k') /\ k' = put_mmu (the_mmu k') k) k.
Proof. intros H. unfold in_mmu. apply wp_zoom. eapply wp_mono; [exact H|]. intros a s HQ. by split. Qed.

(** From the first table to the heap. *)
Lemma memory_up {B} (m : M boot B) Q k l a v d :
  bare k -> free_inv (ph (the_mmu k)) l -> (2052 <= length l)%nat -> INSTALLED (the_mmu k) = 0 ->
  (forall k', bare k' -> heap_up (the_mmu k') -> kgic k' = kgic k -> wp False m Q (mkBoot k' bump_empty v d)) ->
  wp False (in_kernel (in_mmu init_mmu) ;;; in_kernel mmu_self_check ;;; in_heap init_heap ;;; m) Q (mkBoot k a v d).
Proof.
  intros Hb Hp Hl Hi Hm. eapply in_kernel_wp.
  { apply in_mmu_wp, (wp_eq False), (init_mmu_spec False _ l Hp). lia. }
  intros [] k1 [[Hrun (l0 & l1 & l2 & l' & -> & Hbt & _ & Ht & Hk & _ & Hin)] E1].
  set (s1 := the_mmu k1) in *. clearbody s1. subst k1. cbn [length] in Hl.
  destruct (boot_vm_inv _ _ _ Hp Hi Hrun) as (K & T & Hv & _). cbn [drop] in Hv.
  assert (Hcl : closed s1) by (intros va n e Hc Hw; rewrite Hk in Hw; by eapply boot_el0).
  destruct l' as [|f l']; [cbn in Hl; lia|].
  eapply in_kernel_wp; [by apply (mmu_self_check_wp K (list_to_set (l0 :: l1 :: l2 :: f :: l')) T f l' (put_mmu s1 k)); [apply bare_mmu|..]|].
  intros [] k2 [Hb2 (s2 & He2 & Hv2 & Hr2 & Hw2)]. change (the_mmu (put_mmu s1 k)) with s1 in *.
  pose proof (ey_mmu _ _ He2) as Em. change (the_mmu (put_mmu s2 _)) with s2 in Em.
  assert (Hk2 : KERNEL_TTBR0 s2 = l0 /\ ttbr0_el1 s2 = l0 /\ INSTALLED s2 = 0) by (rewrite Hr2; cbn; split_and!; congruence).
  destruct Hk2 as (Hk2 & Ht2 & Hi2). rewrite Hk in Hw2.
  assert (Hcl2 : closed s2) by (intros va n e Hc; rewrite Hk2, Hw2, <-Hk; by apply Hcl).
  assert (HrT : T !! l0 = Some O) by (rewrite <-Hk2; apply (vi_roots _ _ _ _ _ Hv2); by left).
  destruct (init_heap_run s2 T (f :: l') a (vi_mm _ _ _ _ _ Hv2)) as (s3 & fs & T3 & l3 & Hrun3 & Hhm).
  { cbn [length] in *. lia. }
  { by rewrite Ht2. }
  { intros va Hva. rewrite Ht2, Hw2. by eapply boot_window. }
  wp_step. unfold in_heap. apply wp_zoom. unfold heap_of. cbn [bk bheap]. rewrite Em. apply (wp_known _ _ _ _ _ _ Hrun3).
  assert (HT : T !! KERNEL_TTBR0 s2 = Some O) by (by rewrite Hk2).
  pose proof (heap_closed _ _ _ _ _ _ _ Hhm HT Hcl2) as Hcl3.
  assert (E3 : KERNEL_TTBR0 s3 = l0 /\ ttbr0_el1 s3 = l0 /\ INSTALLED s3 = 0)
    by (rewrite (hm_regs _ _ _ _ _ _ _ _ Hhm); done).
  destruct E3 as (Ek3 & Et3 & Ei3).
  assert (Hk3 : T3 !! KERNEL_TTBR0 s3 = Some O) by (rewrite Ek3; eapply lookup_weaken; [exact HrT|apply Hhm]).
  apply Hm; [by apply bare_mmu| |exact (ey_gic _ _ He2)]. split; [|done].
  exists T3, l3. apply (vm_inv_kernel s3); [apply Hhm|done|congruence|done|done].
Qed.

(** The interrupt controller, the console and the timer. *)
Lemma devices_up {B} (m : M boot B) Q k a v d :
  bare k -> active (kgic k) = [] ->
  (forall k', bare k' -> the_mmu k' = the_mmu k -> attentive k' -> wp False m Q (mkBoot k' a v d)) ->
  wp False (in_kernel (in_gic (gic_init TIMER_INTID)) ;;; in_kernel (in_gic (enable_spi UART_INTID)) ;;;
            in_kernel (in_con (set_rx_irq true)) ;;; in_kernel (in_timer timer_init) ;;; m) Q (mkBoot k a v d).
Proof.
  intros Hb Hact Hm. wp_step. unfold in_kernel at 1, in_gic. apply wp_zoom, wp_zoom.
  eapply wp_mono; [by apply gic_init_wp|]. intros [] g1 (C1 & P1 & A1). wp_step. unfold in_kernel at 1. apply wp_zoom, wp_zoom.
  eapply wp_mono; [by apply enable_spi_wp|]. intros [] g2 (S2 & C2 & P2 & A2).
  unfold in_kernel, in_con, in_timer, set_rx_irq, on_uart, timer_init. wp_steps. cbn [kgic set_gic bk] in *.
  destruct Hb as [B1 B2 B3 [Hi Hr] B5]. apply Hm; [by split|done|].
  assert (Hnone : active g2 = []) by (rewrite A2; cbn; by rewrite A1).
  split; [..|reflexivity|by right]; cbn [kgic set_gic set_con set_timer]; apply ready_forwards; auto; apply P2; [done|exact P1].
Qed.

Lemma vbar_aligned vt : vt mod 2048 = 0 -> Z.ldiff vt 0x7FF = vt.
Proof.
  intros H. change 0x7FF with (Z.ones 11). rewrite Z.ldiff_ones_r by lia.
  rewrite Z.shiftl_mul_pow2, Z.shiftr_div_pow2 by lia. change (2 ^ 11) with 2048. zlia.
Qed.

(** The machine is reset, the vector table aligned as exceptions.s has it, the image
    leaves 2053 frames of memory and five countdowns of the timer end: [kmain] comes
    to the scheduler, every self-check passed and both interrupts on. *)
Lemma kmain_early_wp PROGRAMS tr ut box vt kernel_end irqs b :
  reset b -> vt mod 2048 = 0 -> RAM_BASE <= kernel_end -> kernel_end + 2053 * FRAME_SIZE <= RAM_TOP ->
  (5 <= timer_irqs irqs)%nat ->
  wp False (kmain_early PROGRAMS tr ut box vt kernel_end irqs)
    (fun _ b' => bare (bk b') /\ heap_up (the_mmu (bk b')) /\ listening vt b') b.
Proof.
  intros [Hb Hm Hf Hi Hact _] Hvt Hlo Hhi Hn. destruct b as [k a v d]. cbn [bk] in *. unfold kmain_early.
  eapply in_kernel_wp; [by apply println_wp|]. intros [] k1 [Hb1 He1]. rewrite <-(ey_mmu _ _ He1) in Hm, Hf, Hi.
  unfold init_exceptions. wp_step. wp_step. unfold set_vbar. cbn [bk bheap daif]. rewrite vbar_aligned by done.
  eapply in_kernel_wp; [apply init_frames_wp; [done|done|unfold FRAME_SIZE in *; lia]|]. intros [] k2 (p & -> & Hp).
  pose proof (pool_length kernel_end 2052 ltac:(lia)) as Hl.
  eapply in_kernel_wp; [eapply frame_self_check_wp; [by apply bare_mmu|exact Hp|lia]|].
  intros [] k3 (Hb3 & p3 & l3 & He3 & Hp3 & Hl3). pose proof (ey_mmu _ _ He3) as Em.
  change (the_mmu (put_mmu _ _)) with (set_ph p3 (the_mmu k1)) in Em.
  apply (memory_up _ _ k3 l3); [done|by rewrite Em|lia|by rewrite Em|]. intros k4 Hb4 Hup Eg4.
  wp_step. eapply wp_mono; [by apply heap_self_check_wp|]. intros [] [k5 a5 v5 d5] (Hb5 & He5 & Ev & Ed). cbn [bk vbar_el1 daif] in *.
  subst v5 d5. wp_step. eapply wp_mono; [by apply syscall_self_check_wp|]. intros [] [k6 a6 v6 d6] (Hb6 & He6 & Ev & Ed).
  cbn [bk vbar_el1 daif] in *. subst v6 d6.
  assert (Hact6 : active (kgic k6) = []) by (by rewrite (ey_gic _ _ He6), (ey_gic _ _ He5), Eg4, (ey_gic _ _ He3), <-Hact, <-(ey_gic _ _ He1)).
  apply devices_up; [done|done|]. intros k7 Hb7 Em7 Ha7. unfold in_daif, enable. wp_steps. unfold set_daif. cbn [bk bheap vbar_el1 daif].
  eapply wp_mono; [apply irq_self_check_wp; cbn [bk]; [done| |pose proof (ba_ticks _ Hb7); lia]|].
  { split; [done| |done]. destruct (enable_unmasks d) as (d' & E & Hd'). by injection E as <-. }
  cbn [bk]. intros [] b8 (Hb8 & He8 & Hl8). split; [done|]. split; [|done].
  by rewrite (ey_mmu _ _ He8), Em7, (ey_mmu _ _ He6), (ey_mmu _ _ He5).
Qed.

(** And the scheduler: the kernel's invariant is established. *)
Lemma kmain_to_sched_wp PROGRAMS tr ut box vt kernel_end irqs b :
  reset b -> vt mod 2048 = 0 -> RAM_BASE <= kernel_end -> kernel_end + 2053 * FRAME_SIZE <= RAM_TOP ->
  (5 <= timer_irqs irqs)%nat ->
  wp False (kmain_to_sched PROGRAMS tr ut box vt kernel_end irqs)
    (fun _ b' => idle_only (bk b') /\ poller (bk b') = None /\ listening vt b' /\ exists K A, Kinv K A (bk b')) b.
Proof.
  intros H1 H2 H3 H4 H5. unfold kmain_to_sched. wp_step. eapply wp_mono; [by apply kmain_early_wp|].
  intros [] b1 (Hb1 & [(T & l & Hv) Hcl] & [L1 L2 [A1 A2 A3 A4]]). unfold in_kernel. apply wp_zoom.
  eapply wp_mono; [by apply sched_init_wp|]. intros [] k (Hid & Em & Hpo & Hc & Eg & Et & Ec). split; [done|]. split; [done|].
  split; [split; [done|done|]; split; cbn [bk set_bk]; rewrite ?Eg, ?Et, ?Ec; done|].
  exists (dom T), (dom T ∪ list_to_set l), T, l. rewrite <-Em in Hv, Hcl. by apply idle_kinv.
Qed.
