(* ===== verification/Link.v ===== *)
(** * Linking and the entry stub

    kernel/linker.ld and user/user.ld as functions from the sizes of the sections to
    addresses, and kernel/src/boot.s, which runs before [kmain]. What the sections
    hold, their sizes and their alignments are the compiler's and the linker's. *)

From Stdlib Require Import ZArith Lia.
From stdpp Require Import base numbers gmap list list_relations.
From S2P Require Import Prelude Memory Abi Frames Sched Elf Loader Process Main KernelInv KernelSpawn Boot.

(** An output section; the linker aligns its start. *)
Record section := mkSection { sec_size : Z; sec_align : Z }.

Definition ALIGN (dot n : Z) : Z := (dot + (n - 1)) / n * n.
Definition place (dot : Z) (s : section) : Z := ALIGN dot (sec_align s) + sec_size s.

Record sections := mkSections { s_text : section; s_rodata : section; s_data : section; s_bss : section }.

(** ** kernel/linker.ld *)

Definition KERNEL_BASE : Z := 0x40080000.
Definition BOOT_STACK : Z := 0x40000.

Definition image_end (s : sections) : Z := place (place (place (place KERNEL_BASE (s_text s)) (s_rodata s)) (s_data s)) (s_bss s).
Definition _stack_top (s : sections) : Z := ALIGN (image_end s) 16 + BOOT_STACK.
Definition _kernel_end (s : sections) : Z := ALIGN (_stack_top s) 0x1000.

(** ** user/user.ld *)

(** The two segments of [PHDRS]. The linker chooses where they are in the file. *)
Definition text_end (s : sections) : Z := place (place 0x8000000000 (s_text s)) (s_rodata s).
Definition data_start (s : sections) : Z := ALIGN (ALIGN (text_end s) 0x1000) (sec_align (s_data s)).
Definition data_end (s : sections) : Z := place (ALIGN (text_end s) 0x1000) (s_data s).
Definition bss_end (s : sections) : Z := place (data_end s) (s_bss s).

Definition segments (s : sections) (text_off data_off : Z) : list Segment :=
  [mkSegment (text_end s - 0x8000000000) (text_end s - 0x8000000000) 0x8000000000 text_off 5;
   mkSegment (bss_end s - data_start s) (data_end s - data_start s) (data_start s) data_off 6].

(** ** kernel/src/boot.s *)

(** The registers the stub touches; [fp] tells whether FP and SIMD instructions run. *)
Record stub := mkStub { ex : list Z; esp : Z; cpacr_el1 : Z; fp : bool; eb : boot }.

Definition emov (i : nat) (v : Z) : M stub unit :=
  modifyM (fun e => mkStub (<[i := v]> (ex e)) (esp e) (cpacr_el1 e) (fp e) (eb e)).
Definition ereg (i : nat) : M stub Z := let! e := getM in expectM (ex e !! i).
Definition msr_cpacr_el1 (v : Z) : M stub unit := modifyM (fun e => mkStub (ex e) (esp e) v (fp e) (eb e)).
Definition eisb : M stub unit :=
  modifyM (fun e => mkStub (ex e) (esp e) (cpacr_el1 e) (Z.land (Z.shiftr (cpacr_el1 e) 20) 3 =? 3) (eb e)).
Definition mov_sp (v : Z) : M stub unit := modifyM (fun e => mkStub (ex e) v (cpacr_el1 e) (fp e) (eb e)).

(** [adrp]: the page of the symbol; [:lo12:] is the rest. *)
Definition adrp (i : nat) (sym : Z) : M stub unit := emov i (Z.ldiff sym 0xfff).
Definition add_lo12 (i : nat) (sym : Z) : M stub unit := let! v := ereg i in emov i (wrapping_add 64 v (Z.land sym 0xfff)).

Definition _start (s : sections) (kmain : M boot unit) : M stub unit :=
  emov 0 (Z.shiftl 3 20) ;;;
  (let! v := ereg 0 in msr_cpacr_el1 v) ;;;
  eisb ;;;
  adrp 9 (_stack_top s) ;;;
  add_lo12 9 (_stack_top s) ;;;
  (let! v := ereg 9 in mov_sp v) ;;;
  zoomM eb (fun b e => mkStub (ex e) (esp e) (cpacr_el1 e) (fp e) b) kmain.

(** ** Addresses *)

Lemma ALIGN_spec dot n : 0 < n -> ALIGN dot n mod n = 0 /\ dot <= ALIGN dot n < dot + n.
Proof.
  intros Hn. unfold ALIGN. split; [by apply Z.mod_mul; lia|].
  pose proof (Z.div_mod (dot + (n - 1)) n ltac:(lia)). pose proof (Z.mod_pos_bound (dot + (n - 1)) n Hn). nia.
Qed.

Definition section_ok (s : section) : Prop := 0 <= sec_size s /\ 0 < sec_align s.
Definition sections_ok (s : sections) : Prop :=
  section_ok (s_text s) /\ section_ok (s_rodata s) /\ section_ok (s_data s) /\ section_ok (s_bss s).

Lemma place_le dot s : section_ok s -> dot <= place dot s.
Proof. intros [H1 H2]. unfold place. pose proof (ALIGN_spec dot _ H2). lia. Qed.

(** The boot stack is below the first frame and above every section. *)
Lemma stack_placed s :
  sections_ok s -> KERNEL_BASE <= image_end s /\ image_end s <= _stack_top s - BOOT_STACK /\ _stack_top s mod 16 = 0 /\
    _stack_top s <= _kernel_end s /\ _kernel_end s mod FRAME_SIZE = 0.
Proof.
  intros (Ht & Hr & Hd & Hb). unfold _kernel_end, _stack_top, BOOT_STACK.
  pose proof (ALIGN_spec (image_end s) 16 ltac:(lia)) as [A1 A2].
  pose proof (ALIGN_spec (ALIGN (image_end s) 16 + 0x40000) 0x1000 ltac:(lia)) as [B1 B2].
  split; [unfold image_end; repeat (etransitivity; [|by apply place_le]); done|]. unfold FRAME_SIZE. split_and!; [lia|zlia|lia|done].
Qed.

Lemma page_and_rest a : 0 <= a < 2 ^ 64 -> wrapping_add 64 (Z.ldiff a 0xfff) (Z.land a 0xfff) = a.
Proof.
  intros Ha. change 0xfff with (Z.ones 12). rewrite Z.ldiff_ones_r, Z.land_ones, Z.shiftl_mul_pow2, Z.shiftr_div_pow2 by lia.
  unfold wrapping_add, wrap. rewrite Z.mul_comm, <-Z.div_mod by lia. by apply Z.mod_small.
Qed.

Lemma wp_ereg i v (Q : Z -> stub -> Prop) e : ex e !! i = Some v -> Q v e -> wp False (ereg i) Q e.
Proof. intros Hv HQ. unfold ereg. wp_steps. rewrite Hv. by apply wp_expect_some. Qed.

(** The stub, before any [kmain]. *)
Lemma start_enters s kmain Q e :
  0 <= _stack_top s < 2 ^ 64 -> length (ex e) = 31%nat -> wp False kmain Q (eb e) ->
  wp False (_start s kmain) (fun _ e' => fp e' = true /\ esp e' = _stack_top s /\ Q tt (eb e')) e.
Proof.
  intros Htop Hx HQ. unfold _start, adrp, add_lo12, emov, msr_cpacr_el1, eisb, mov_sp. wp_steps.
  apply (wp_ereg 0 (Z.shiftl 3 20)); [apply list_lookup_insert_eq; lia|]. wp_steps.
  eapply wp_ereg; [apply list_lookup_insert_eq; cbn [ex]; rewrite length_insert; lia|]. rewrite page_and_rest by done. wp_steps.
  eapply wp_ereg; [apply list_lookup_insert_eq; cbn [ex]; rewrite !length_insert; lia|]. wp_steps. cbn [eb].
  eapply wp_mono; [exact HQ|]. intros [] b Hb. cbn [fp esp eb]. split; [reflexivity|]. by split.
Qed.

Lemma first_frame_ge a : a <= first_frame a.
Proof. unfold first_frame, FRAME_SIZE. zlia. Qed.

(** ** Claims *)

Section reset.
Context (PROGRAMS : list (list Z * list Z)) (tr ut : Z) (box : kernel -> option Z).

(** C8: From the reset vector to the scheduler: whatever the registers hold, the stub
    enters [kmain] with FP instructions enabled and the stack pointer at the aligned
    top of a stack of 256 KiB, which overlaps no section and no frame of the pool.
    [kmain] then passes every self-check, the one that waits for five interrupts of
    the timer included, and becomes the idle task with the kernel's invariant
    established; the vector table is installed, interrupts are not masked, and those
    of the timer and of the UART are raised and forwarded to the CPU. That needs
    2053 frames above the image, and five countdowns of the timer to end. *)
Theorem start_boots vt s irqs e :
  sections_ok s -> vt mod 2048 = 0 -> _kernel_end s + 2053 * FRAME_SIZE <= RAM_TOP -> reset (eb e) ->
  (5 <= timer_irqs irqs)%nat -> length (ex e) = 31%nat ->
  exists e', _start s (kmain_to_sched PROGRAMS tr ut box vt (_kernel_end s) irqs) e = Ret (tt, e') /\
    fp e' = true /\ esp e' = _stack_top s /\ esp e' mod 16 = 0 /\ image_end s <= esp e' - BOOT_STACK /\
    (forall f, f ∈ frames_between (first_frame (_kernel_end s)) RAM_TOP -> esp e' <= f) /\
    idle_only (bk (eb e')) /\ listening vt (eb e') /\ exists K A, Kinv K A (bk (eb e')).
Proof.
  intros Hs Hvt Hroom Hr Hirq Hx. destruct (stack_placed s Hs) as (H1 & H2 & H3 & H4 & H5).
  assert (Htop : 0 <= _stack_top s < 2 ^ 64) by (clear - H1 H2 H4 Hroom; unfold KERNEL_BASE, RAM_TOP, RAM_SIZE, RAM_BASE, FRAME_SIZE, BOOT_STACK in *; lia).
  assert (Hbase : RAM_BASE <= _kernel_end s) by (clear - H1 H2 H4; unfold KERNEL_BASE, RAM_BASE, BOOT_STACK in *; lia).
  assert (Hpool : forall f, f ∈ frames_between (first_frame (_kernel_end s)) RAM_TOP -> _stack_top s <= f).
  { intros f (_ & Hf & _)%elem_of_frames_between. pose proof (first_frame_ge (_kernel_end s)). lia. }
  clear H1 H4 H5. destruct (wp_unit _ _ _ (start_enters s _ _ e Htop Hx (kmain_to_sched_wp PROGRAMS tr ut box vt (_kernel_end s) irqs (eb e) Hr Hvt Hbase Hroom Hirq)))
    as (e' & Hrun & Hfp & Hsp & Hi & _ & HL & HK).
  exists e'. split; [exact Hrun|]. rewrite Hsp. split; [exact Hfp|]. split; [reflexivity|]. split; [exact H3|]. split; [exact H2|].
  split; [exact Hpool|exact (conj Hi (conj HL HK))].
Qed.
End reset.

(** ** The segments of a program *)

(** [-z max-page-size=4096] keeps alignments within a page. *)
Definition page_aligned (s : section) : Prop := Z.divide (sec_align s) 4096.

Lemma ALIGN_page dot n : 0 < n -> Z.divide n 4096 -> dot mod 4096 = 0 -> ALIGN dot n = dot.
Proof.
  intros Hn [c Hc] Hd. unfold ALIGN. apply Z.div_exact in Hd; [|lia]. set (q := dot / 4096) in Hd.
  assert (E : dot = c * q * n) by (rewrite Hd; rewrite Hc; ring). clearbody q. clear Hd. subst dot.
  rewrite (Z.add_comm (c * q * n)), Z.div_add, Z.div_small by lia. lia.
Qed.

(** Two segments, of the addresses the script fixes. *)
Section two_segments.
Context (image : list Z) (te ds de be toff doff : Z).
Hypothesis Hte : USER_BASE < te <= ds.
Hypothesis Hds : ds mod 4096 = 0.
Hypothesis Hde : ds <= de <= be /\ ds < be.
Hypothesis Hbe : be <= USER_STACK_VA.
Hypothesis Htoff : 0 <= toff /\ toff + (te - USER_BASE) <= Z.of_nat (length image).
Hypothesis Hdoff : 0 <= doff /\ doff + (de - ds) <= Z.of_nat (length image).
Abbreviation text_seg := (mkSegment (te - USER_BASE) (te - USER_BASE) USER_BASE toff 5).
Abbreviation data_seg := (mkSegment (be - ds) (de - ds) ds doff 6).

Lemma seg_fits va n fsz off fl :
  va mod 4096 = 0 -> USER_BASE <= va -> 0 < n -> va + n <= be -> 0 <= off -> off + fsz <= Z.of_nat (length image) ->
  (Z.land fl PF_X <> 0 -> Z.land fl PF_W = 0) ->
  seg_ok image (mkSegment n fsz va off fl) /\ seg_private (mkSegment n fsz va off fl).
Proof.
  intros Hva Hlo Hn Hhi Hoff Hfile Hwx. set (g := mkSegment _ _ _ _ _).
  assert (Hp : FRAME_SIZE * Z.of_nat (npages g) < n + FRAME_SIZE /\ va + FRAME_SIZE * Z.of_nat (npages g) <= USER_STACK_VA).
  { unfold npages, FRAME_SIZE, USER_STACK_VA, USER_BASE in *. cbn [memsz g]. zlia. }
  split; [split; cbn [vaddr memsz filesz offset flags g]|]; try done.
  - unfold USER_STACK_VA, USER_BASE in *. lia.
  - lia.
  - intros Hx. apply Hwx. unfold seg_executable in Hx. by apply negb_true_iff, Z.eqb_neq in Hx.
  - intros i Hi. cbn [vaddr g]. unfold USER_RING_VA, USER_STACK_VA, USER_BASE, FRAME_SIZE in *. zlia.
Qed.

Lemma text_before_data : segs_apart text_seg data_seg.
Proof.
  intros i j Hi _. cbn [vaddr]. unfold npages in Hi. cbn [memsz] in Hi. unfold FRAME_SIZE, USER_BASE in *. zlia.
Qed.

Lemma two_segments_ok : let segs := [text_seg; data_seg] in
  Forall (seg_ok image) segs /\ ForallOrdPairs segs_apart segs /\ (length segs <= MAX_SEGMENTS)%nat /\ Forall seg_private segs.
Proof.
  cbv zeta.
  assert (Ht : seg_ok image text_seg /\ seg_private text_seg)
    by (apply seg_fits; [reflexivity|lia|lia|lia|apply Htoff|apply Htoff|reflexivity]).
  assert (Hd : seg_ok image data_seg /\ seg_private data_seg)
    by (apply seg_fits; [done|lia|lia|lia|apply Hdoff|apply Hdoff|intros []; reflexivity]).
  pose proof text_before_data as Ha. unfold MAX_SEGMENTS. destruct Ht, Hd. split_and!;
    repeat first [apply Forall_cons_2|apply Forall_nil_2|apply FOP_cons|apply FOP_nil]; cbn [length]; (done || lia).
Qed.
End two_segments.

Lemma user_addresses s :
  sections_ok s -> page_aligned (s_data s) ->
  USER_BASE <= text_end s <= data_start s /\ data_start s mod 4096 = 0 /\ data_start s <= data_end s <= bss_end s.
Proof.
  intros (Ht & Hr & Hd & Hb) Ha. pose proof (ALIGN_spec (text_end s) 0x1000 ltac:(lia)) as [A1 A2].
  assert (E : data_start s = ALIGN (text_end s) 0x1000) by (apply ALIGN_page; [apply Hd|exact Ha|exact A1]).
  pose proof (place_le (data_end s) (s_bss s) Hb) as H1.
  assert (H2 : data_end s = data_start s + sec_size (s_data s)) by reflexivity. destruct Hd as [Hd _].
  assert (H3 : USER_BASE <= text_end s) by (unfold text_end; do 2 (etransitivity; [|by apply place_le]); done).
  unfold bss_end. rewrite E in *. split_and!; [done|lia|done|lia|done].
Qed.

(** C29: What user.ld lays out is what the loader and the kernel rely on: whatever the
    sections hold, if there are code and statics and the program ends below the
    stack, its segments are page aligned, disjoint, inside the user slot, away from
    stack and ring, and none is both writable and executable. *)
Theorem linked_image_ok s image toff doff ent :
  sections_ok s -> page_aligned (s_data s) -> USER_BASE < text_end s -> data_start s < bss_end s <= USER_STACK_VA ->
  0 <= toff /\ toff + (text_end s - USER_BASE) <= Z.of_nat (length image) ->
  0 <= doff /\ doff + (data_end s - data_start s) <= Z.of_nat (length image) ->
  Z.of_nat (length image) < 2 ^ 64 -> Forall (fun b => 0 <= b < 256) image ->
  image_segments image tt = Ret ((ent, segments s toff doff), tt) -> image_ok image.
Proof.
  intros Hs Ha Hcode [Hbss Hfit] Ht Hd Hlen Hby Him. destruct (user_addresses s Hs Ha) as ([_ H1] & H2 & H3).
  split; [done|]. split; [done|]. exists ent, (segments s toff doff). split; [exact Him|].
  exact (two_segments_ok image _ _ _ _ toff doff (conj Hcode H1) H2 (conj H3 Hbss) Hfit Ht Hd).
Qed.

(** A program with 180 bytes of text and 24 of zeroed statics. *)
Definition demo_sections : sections := mkSections (mkSection 180 4) (mkSection 0 1) (mkSection 0 1) (mkSection 24 8).

Lemma linked_image_ok_witness : image_segments demo_image tt = Ret ((USER_BASE + 176, segments demo_sections 0 0), tt) /\ image_ok demo_image.
Proof.
  split; [exact demo_segments|]. apply (linked_image_ok demo_sections demo_image 0 0 (USER_BASE + 176)).
  - repeat split; cbn; lia.
  - by exists 4096.
  - by vm_compute.
  - by vm_compute.
  - by vm_compute.
  - by vm_compute.
  - apply demo_bytes.
  - apply demo_bytes.
  - exact demo_segments.
Defined.
