(* ===== verification/System.v ===== *)
(** * The system, from reset

    main.rs brings the parts up and the kernel then runs for ever: what holds in
    every state this can lead to, whatever programs do and whenever interrupts
    arrive. The last section runs a machine with two small programs. *)

From Stdlib Require Import ZArith Lia String.
From stdpp Require Import base numbers gmap strings list list_relations.
From S2P Require Import Prelude Sync Memory Abi Frames Mmu PageTables AddressSpaces Reclaim Ownership Heap.
From S2P Require Import VirtualMemory Isolation Sched Console Elf Loader Devices Process Text Ring User Main Threads.
From S2P Require Import KernelInv KernelRing KernelSpawn KernelSteps KernelIrq Interrupts KernelExit Uring Lifecycle Requests Kernel Preemption Calls Boot Link.

(** The kernel image ends at [kernel_end] and leaves enough memory for the tables
    and the heap; the first five ticks arrive. *)
Record bootable (vt kernel_end : Z) (irqs : list Z) (b : boot) : Prop := {
  bo_reset : reset b;
  bo_vectors : vt mod 2048 = 0;
  bo_image : RAM_BASE <= kernel_end;
  bo_room : kernel_end + 2053 * FRAME_SIZE <= RAM_TOP;
  bo_ticks : (5 <= timer_irqs irqs)%nat
}.

Lemma run_to {S B} (m : M S B) x P s :
  wp False m (fun e s' => e = x /\ P s') s -> exists s', m s = Ret (x, s') /\ P s'.
Proof. intros (e & s' & Hrun & -> & HP)%wp_result. by exists s'. Qed.

Section system.
Context (PROGRAMS : list (list Z * list Z)) (tr ut : Z) (box : kernel -> option Z).

(** [k] is what [kmain] brought up. *)
Definition boots (k : kernel) : Prop :=
  exists vt kernel_end irqs b b', bootable vt kernel_end irqs b /\
    kmain_to_sched PROGRAMS tr ut box vt kernel_end irqs b = Ret (tt, b') /\ k = bk b'.

(** [k] is a state the system comes to, without the poller having used the root or
    the ring page of a process that had ended ([kstep false]). *)
Definition comes_to (k : kernel) : Prop := exists k0, boots k0 /\ rtc (kstep PROGRAMS tr ut box false) k0 k.

(** No process is alive. *)
Definition no_process (k : kernel) : Prop := forall pid p, PROCESSES k !! pid = Some p -> ~ alive p.

Lemma boots_kinv k : boots k -> idle_only k /\ poller k = None /\ exists K A, Kinv K A k.
Proof.
  intros (vt & ke & irqs & b & b' & [H1 H2 H3 H4 H5] & Hrun & ->).
  destruct (wp_run False _ _ _ _ _ (kmain_to_sched_wp PROGRAMS tr ut box vt ke irqs b H1 H2 H3 H4 H5) Hrun)
    as (Hid & Hpo & _ & HK). exact (conj Hid (conj Hpo HK)).
Qed.

Lemma boots_task k : boots k -> kernel_task k.
Proof.
  intros ((_ & HT & HC) & _)%boots_kinv. exists (mkTask 0 Runnable 0 None None). by rewrite HT, HC.
Qed.

Hypothesis Hprogs : Forall image_ok PROGRAMS.*2.

Lemma comes_to_kinv k : comes_to k -> exists K A, Kinv K A k.
Proof.
  intros (k0 & (_ & _ & K & A & Hk)%boots_kinv & Hr). exists K, A. by eapply ksteps_kinv.
Qed.

(** A page of a live process is in no other process, in no table and not free. *)
Lemma shown_is_own K A k T l pid p va n e :
  kbase K A k T l -> PROCESSES k !! pid = Some p -> alive p -> canonical va ->
  hw_walk (kernel_mem k) 3 (p_ttbr0 p) va = Some (n, e) -> el0_access e = true ->
  n = O /\ (exists va0, (va0, next_table e) ∈ p_frames p /\ va0 / 4096 = va / 4096) /\
  T !! next_table e = None /\ next_table e ∉ l /\
  forall j q, j <> pid -> PROCESSES k !! j = Some q -> next_table e ∉ (p_frames q).*2.
Proof.
  intros Hk Hp Ha Hc Hw He. destruct (space_shows K A k T l Hk pid p va n e Hp Ha Hc Hw He) as (va0 & Hin & Hpg).
  assert (Hf : next_table e ∈ (p_frames p).*2) by (apply list_elem_of_fmap; by exists (va0, next_table e)).
  assert (Hr : root_of (mkVm (the_mmu k) (roots_of (PROCESSES k)) (data_of (PROCESSES k))) (p_ttbr0 p))
    by (right; apply elem_of_roots_of; eauto).
  destruct (vi_el0 _ _ _ _ _ (ki_vm _ _ _ _ _ Hk) _ va n e Hr Hc Hw He) as [-> Hd].
  destruct (vi_data _ _ _ _ _ (ki_vm _ _ _ _ _ Hk) _ Hd) as (_ & HT & Hl). split; [done|]. split; [by exists va0|].
  do 2 (split; [done|]). intros j q Hj Hq Hq'. by apply Hj, (ki_disj _ _ _ _ _ Hk j pid q p (next_table e)).
Qed.

(** What a load in another process reads does not depend on a frame of [p]. *)
Lemma load_elsewhere K A k T l pid p j q f m' va :
  kbase K A k T l -> PROCESSES k !! pid = Some p -> f ∈ (p_frames p).*2 -> only_frame f (kernel_mem k) m' -> mem_ok m' ->
  j <> pid -> PROCESSES k !! j = Some q -> alive q ->
  el0_load m' (p_ttbr0 q) va = el0_load (kernel_mem k) (p_ttbr0 q) va.
Proof.
  intros Hk Hp Hf Hof Hok Hj Hq Hqa. assert (Hd : f ∈ data_of (PROCESSES k)) by (apply elem_of_data_of; eauto).
  destruct (vm_inv_data _ _ _ _ _ _ _ _ _ (ki_vm _ _ _ _ _ Hk) Hd Hof Hok) as [_ Hw].
  unfold el0_load, mmu_walk. destruct (Z.leb_spec 0 va), (Z.ltb_spec va (2 ^ 48)); cbn [andb]; try done.
  assert (Hroot : T !! p_ttbr0 q = Some O) by (eapply ki_root; [exact Hk|done|done]). rewrite Hw by done.
  change (mem_of (the_mmu k)) with (kernel_mem k).
  destruct (hw_walk _ _ _ _) as [[n e]|] eqn:Hwk; [|done]. destruct (el0_readable e) eqn:He; [|done]. f_equal.
  assert (Hacc : el0_access e = true) by (unfold el0_access; by rewrite He).
  destruct (shown_is_own K A k T l j q va n e Hk Hq Hqa ltac:(split; lia) Hwk Hacc) as (-> & (va0 & Hin & _) & _ & _ & Hne).
  assert (Hv : valid_frame f /\ valid_frame (next_table e)).
  { split; apply (vi_data _ _ _ _ _ (ki_vm _ _ _ _ _ Hk)); [done|]. apply elem_of_data_of. exists j, q.
    split; [done|]. apply list_elem_of_fmap. by exists (va0, next_table e). }
  rewrite hw_pa_page. apply (only_frame_other f _ _ (next_table e)); [done|apply Hv..| |unfold FRAME_SIZE; zlia].
  intros E. apply (Hne pid p (not_eq_sym Hj) Hp). by rewrite <-E.
Qed.

(** Without processes, the pool is everything but the kernel's tables. *)
Lemma idle_pool K A k :
  Kinv K A k -> no_process k -> exists l, free_inv (ph (the_mmu k)) l /\ forall f, f ∈ l <-> f ∈ A /\ f ∉ K.
Proof.
  intros (T & l & Hk & _) Hn. pose proof (ki_vm _ _ _ _ _ Hk) as Hv. exists l.
  assert (HR : forall r, r ∉ roots_of (PROCESSES k)) by (intros r (i & q & Hq & Hqa & _)%elem_of_roots_of; by eapply Hn).
  assert (HD : forall f, f ∉ data_of (PROCESSES k)).
  { intros f (i & q & Hq & Hf)%elem_of_data_of. apply (Hn i q Hq). unfold alive. intros E. rewrite E in Hf.
    by apply elem_of_nil in Hf. }
  split; [apply (vi_mm _ _ _ _ _ Hv)|]. intros f. rewrite <-(vi_all _ _ _ _ _ Hv). cbn [data].
  rewrite !elem_of_union, elem_of_dom, (vi_own _ _ _ _ _ Hv), elem_of_list_to_set. cbn [roots]. split.
  - intros Hf. split; [tauto|]. intros HfK. pose proof (mi_sep _ _ _ (vi_mm _ _ _ _ _ Hv) f Hf) as HT.
    assert (is_Some (T !! f)) as [? ?] by (apply (vi_own _ _ _ _ _ Hv); by left). congruence.
  - intros [[[[?|(r & Hr & _)]|?]|Hf] HK]; [done|by destruct (HR r)|done|by destruct (HD f)].
Qed.

(** ** Claims *)

(** C1: Every state the system comes to from reset satisfies the kernel's
    invariant, for the same kernel tables [K] and managed frames [A]: whatever
    programs store and ask for, whichever interrupts and faults arrive between the
    steps of [kstep], and in whatever order tasks run; provided that the poller never
    activates the root of a process that ended after it saw its submissions, nor
    stores the flag into the ring page of a process that ended after it read its
    address. A system call, a handler and an operation of a kernel thread are one
    step each. *)
Theorem kernel_invariant k0 :
  boots k0 -> exists K A, forall k, rtc (kstep PROGRAMS tr ut box false) k0 k -> Kinv K A k.
Proof. intros (_ & _ & K & A & Hk)%boots_kinv. exists K, A. intros k Hr. by eapply ksteps_kinv. Qed.


(** C3: A store by the running program changes one byte of a page of its own
    process; no other process can tell. *)
Theorem store_stays_private k pid p va b m' :
  comes_to k -> runs k pid p -> el0_store (kernel_mem k) (live_l0 (the_mmu k)) va b = Some m' ->
  (exists va0 f, (va0, f) ∈ p_frames p /\ va0 / 4096 = va / 4096 /\ m' = write8 (kernel_mem k) (f + va mod 4096) b) /\
  forall j q va', j <> pid -> PROCESSES k !! j = Some q -> alive q ->
    el0_load m' (p_ttbr0 q) va' = el0_load (kernel_mem k) (p_ttbr0 q) va'.
Proof.
  intros (K & A & T & l & Hk & _)%comes_to_kinv (_ & Hp & Ha & _ & _ & _ & _ & Hl) Hs.
  assert (HK : Kbase K A k) by (by exists T, l). rewrite (live_root K A), Hl in Hs by done.
  unfold el0_store, mmu_walk in Hs. destruct (Z.leb_spec 0 va), (Z.ltb_spec va (2 ^ 48)); cbn [andb] in Hs; try done.
  destruct (hw_walk _ _ _ _) as [[n e]|] eqn:Hw; [|done]. destruct (el0_writable e) eqn:He; [|done]. injection Hs as <-.
  destruct (shown_is_own K A k T l pid p va n e Hk Hp Ha ltac:(split; lia) Hw (writable_access _ He)) as (-> & (va0 & Hin & Hpg) & _).
  rewrite hw_pa_page. split; [by exists va0, (next_table e)|]. intros j q va' Hj Hq Hqa.
  apply (load_elsewhere K A k T l pid p j q (next_table e)); try done.
  - apply list_elem_of_fmap. by exists (va0, next_table e).
  - intros a Hna. apply read8_write8_ne. unfold FRAME_SIZE in *. zlia.
  - by apply mem_ok_write8, (kinv_mem_ok K A).
Qed.

(** C4: Once no process is alive, every frame programs and their tables ever used
    is back: the count of free frames is the one the boot left; in a run without the
    poller using the root or the ring page of a process that had ended, as for C1. *)
Theorem frames_all_return k0 k :
  boots k0 -> rtc (kstep PROGRAMS tr ut box false) k0 k -> no_process k ->
  free_frame_count (ph (the_mmu k)) = free_frame_count (ph (the_mmu k0)).
Proof.
  intros ((HP & _) & _ & K & A & Hk0)%boots_kinv Hr Hn. assert (Hk : Kinv K A k) by (by eapply ksteps_kinv).
  assert (H0 : no_process k0) by (intros pid p Hp; by rewrite HP in Hp).
  destruct (idle_pool K A k Hk Hn) as (l & Hl & El), (idle_pool K A k0 Hk0 H0) as (l0 & Hl0 & El0).
  unfold free_frame_count. rewrite (fi_count _ _ Hl), (fi_count _ _ Hl0). f_equal. apply Permutation_length.
  apply NoDup_Permutation; [apply (fi_nodup _ _ Hl)|apply (fi_nodup _ _ Hl0)|]. intros f. by rewrite El, El0.
Qed.

(** C7: An interrupt that arrives while the lock of the process table is free, or one
    other than the UART's, is handled to its end: every interrupt acknowledged is
    completed, the lock is as it was, and the effect is that of [handle_irq], the
    handler the other theorems are about. The UART's interrupt that arrives while the
    lock is held, as a kernel thread holds it with interrupts enabled, is acknowledged
    and never completed: however often the handler tries, it does not get the lock. *)
Theorem interrupts_complete spins l intid :
  comes_to (inner l) ->
  (locked l = false \/ intid <> UART_INTID ->
    exists k', handle_irq_locking spins intid l = Ret (Some tt, mkLocked (locked l) k') /\
      handle_irq intid (inner l) = Ret (tt, k') /\ active (kgic k') = active (kgic (inner l))) /\
  (locked l = true ->
    exists k', handle_irq_locking spins UART_INTID l = Ret (None, mkLocked true k') /\
      active (kgic k') = UART_INTID :: active (kgic (inner l))).
Proof.
  destruct l as [b k]. cbn [locked inner]. intros (K & A & Hk)%comes_to_kinv. split.
  - intros Hb. destruct (wp_unit _ _ _ (handle_irq_wp K A intid k Hk)) as (k' & Hrun & _ & Ha). exists k'.
    split; [|done]. by rewrite (handle_irq_follows spins b intid Hb k), Hrun.
  - intros ->. destruct (wp_unit _ _ _ (handle_irq_wp K A UART_INTID k Hk)) as (k' & Hrun & _).
    by apply (handle_irq_stuck spins k k').
Qed.

(** C5: A fault of a program ends its process and nothing else: the handler runs to
    its end, the process's exit code is -1, its frames and root are free again, and
    the other processes keep their pages and see the same memory map. *)
Theorem fault_ends_process k pid p kind esr far intid f :
  comes_to k -> runs k pid p -> 8 <= kind -> kind mod 4 = 0 -> exception_class esr <> EC_SVC ->
  exists K A k', exception_dispatch PROGRAMS tr ut box kind esr far intid f k = Ret (Retired, k') /\
    retired K A k pid p (-1) k'.
Proof.
  intros (K & A & Hk)%comes_to_kinv Hr H8 Hk4 Hec. exists K, A. unfold exception_dispatch. rewrite Hk4. cbn [Z.eqb].
  rewrite (proj2 (Z.eqb_neq _ _) Hec), (proj2 (Z.leb_le _ _) H8). unfold kill_user.
  by apply run_to, say_retired.
Qed.

(** C6: [exit] does the same with the code the program passed, whatever the
    registers hold otherwise. *)
Theorem exit_ends_process k pid p kind esr far intid f code :
  comes_to k -> runs k pid p -> kind mod 4 = 0 -> exception_class esr = EC_SVC ->
  regs f !! 8%nat = Some SYS_EXIT -> regs f !! O = Some code ->
  exists K A k', exception_dispatch PROGRAMS tr ut box kind esr far intid f k = Ret (Retired, k') /\
    retired K A k pid p (as_i64 code) k'.
Proof.
  intros (K & A & Hk)%comes_to_kinv Hr Hk4 Hec H8 H0. exists K, A. unfold exception_dispatch. rewrite Hk4, Hec. cbn [Z.eqb].
  change (EC_SVC =? EC_SVC) with true. cbv iota. unfold dispatch, reg. rewrite H8, H0.
  by apply run_to, say_retired.
Qed.

(** C9: Kernel threads may be preempted anywhere: however the operations of the
    poller, of [kmain] or of a thread of its scheduler check are interleaved with
    everything else the system does, the state that results is one the system's
    steps lead to, and satisfies the invariant; provided that no process ends between
    the poller's look at its ring and the activation of its root, or between the read
    of its ring's address and the store of the flag. *)
Theorem preempted_threads C (t t' : thread C) me k k' :
  kernel_thread PROGRAMS me C t -> comes_to k -> rtc (pstep PROGRAMS tr ut box me) (t, k) (t', k') ->
  comes_to k' /\ exists K A, Kinv K A k'.
Proof.
  intros Ht Hc Hr. pose proof (comes_to_kinv k Hc) as (K & A & Hk). destruct Hc as (k0 & Hb & Hs).
  assert (Hst : stands K A PROGRAMS tr ut box me t k)
    by (eapply safe_stands; [|by apply kernel_thread_safe]; done).
  destruct (preempted_steps K A PROGRAMS tr ut box Hprogs me t t' k k' Hk Hst Hr) as (H1 & H2 & _).
  split; [exists k0; split; [done|by etransitivity]|by exists K, A].
Qed.

Lemma runs_live k pid p : runs k pid p -> owns_live k p.
Proof. by intros (_ & _ & _ & t & _ & _ & _ & Hl). Qed.

(** C10: Executed while the address space of its submitter is live, no submission
    other than a spawn can bring the kernel down: whichever task runs and whatever
    the opcode, the pointers and the lengths, it is executed to its end with the
    invariant kept and every process's pages and translations as they were. [enter]
    runs in that space, and so does the poller after it activated it, unless it is
    preempted before it drains. *)
Theorem submission_never_panics k pid p a :
  comes_to k -> PROCESSES k !! pid = Some p -> p_ring_pa p <> 0 -> owns_live k p -> read64 (kernel_mem k) a <> OP_SPAWN ->
  exists k' K A, process_sqe PROGRAMS tr ut box pid a k = Ret (tt, k') /\ Kinv K A k' /\
    forall j q, PROCESSES k !! j = Some q -> alive q ->
      (exists q', PROCESSES k' !! j = Some q' /\ core q' = core q) /\
      forall va, canonical va -> hw_walk (kernel_mem k') 3 (p_ttbr0 q) va = hw_walk (kernel_mem k) 3 (p_ttbr0 q) va.
Proof.
  intros (K & A & Hk)%comes_to_kinv Hp Hpg Hl Hop. pose proof (proj1 (Kinv_split _ _ _) Hk) as [Hb Hrun].
  destruct (wp_unit _ _ _ (process_sqe_keeps K A PROGRAMS tr ut box Hprogs False pid p a k Hb Hp Hpg
    ltac:(intros Hn; by apply Hn) Hop)) as (k' & Hx & Hg & _).
  exists k', K, A. split; [done|]. split; [by apply (good_Kinv K A k)|]. destruct Hg as [_ Hxt].
  intros j q Hq Hqa. split; [by apply (kext_page _ _ _ _ Hxt)|]. intros va Hva. by apply (kx_walk _ _ Hxt j q).
Qed.
End system.

(** ** A machine *)

(** [m] returns from [s], in a state where [f] holds. *)
Definition then_holds {S B} (m : M S B) (s : S) (f : S -> bool) : bool :=
  match m s with Ret (_, s') => f s' | Panic => false end.

Lemma then_holds_run {S B} (m : M S B) s f :
  then_holds m s f = true -> exists a s', m s = Ret (a, s') /\ f s' = true.
Proof. unfold then_holds. destruct (m s) as [[a s']|]; [|done]. intros H. by exists a, s'. Qed.

Definition power_on : boot := mkBoot cold_kernel bump_empty 0 0x3C0.

Definition demo_programs : list (list Z * list Z) := [(str "jsh", demo_image); (str "echo", demo_image)].
Definition demo_stack (k : kernel) : option Z := Some (HEAP_VBASE + 0x4000 * Z.of_nat (length (tasks (SCHEDULER (ks k))))).
Definition demo_end : Z := RAM_TOP - 2080 * FRAME_SIZE.
Definition demo_vectors : Z := 0x40081000.
Definition demo_irqs : list Z := repeat TIMER_INTID 5.

Abbreviation demo_boots := (boots demo_programs 0x100 0x200 demo_stack).
Abbreviation demo_comes_to := (comes_to demo_programs 0x100 0x200 demo_stack).
Abbreviation demo_kmain := (kmain_to_sched demo_programs 0x100 0x200 demo_stack demo_vectors demo_end demo_irqs).
Abbreviation demo_shell := (spawn_shell demo_programs 0x100 0x200 demo_stack).

Lemma demo_programs_ok : Forall image_ok demo_programs.*2.
Proof.
  assert (image_ok demo_image).
  { split; [apply demo_bytes|]. split; [apply demo_bytes|]. exists (USER_BASE + 176), [demo_text; demo_bss].
    split; [apply demo_segments|]. split; [apply demo_ok|]. split; [apply demo_ok|].
    split; [unfold MAX_SEGMENTS; cbn; lia|].
    repeat apply Forall_cons_2; [..|apply Forall_nil_2]; intros i Hi; change (npages _) with 1%nat in Hi;
      replace i with O by lia; by vm_compute. }
  by apply Forall_cons_2, Forall_cons_2, Forall_nil_2.
Qed.

Lemma demo_bootable : bootable demo_vectors demo_end demo_irqs power_on.
Proof.
  assert (Hb : bare cold_kernel).
  { split; [reflexivity..| |cbn; lia]. split; [apply INPUT_new_wf|constructor]. }
  split; [split; [exact Hb|by intros ? ? ?|reflexivity..]|by vm_compute..|by vm_compute; lia].
Qed.

(** Whether the task that runs belongs to [pid], decided. *)
Definition runs_now (k : kernel) (pid : nat) : bool :=
  match PROCESSES k !! pid, tasks (SCHEDULER (ks k)) !! current (SCHEDULER (ks k)) with
  | Some p, Some t =>
      bool_decide (current (SCHEDULER (ks k)) <> O) && bool_decide (alive p) && bool_decide (state t = Runnable) &&
      bool_decide (process t = Some pid) && (ttbr0_el1 (the_mmu k) =? p_ttbr0 p)
  | _, _ => false
  end.

Lemma runs_now_runs k pid : runs_now k pid = true -> exists p, runs k pid p.
Proof.
  unfold runs_now. destruct (PROCESSES k !! pid) as [p|] eqn:Hp; [|done].
  destruct (tasks _ !! _) as [t|] eqn:Ht; [|done].
  rewrite !andb_true_iff, !bool_decide_eq_true, Z.eqb_eq. intros ((((Hc & Ha) & Hr) & Hpr) & Hl).
  exists p. split; [done|]. split; [done|]. split; [done|]. exists t. split; [done|].
  done.
Qed.

Lemma none_alive k : forallb (fun p => negb (bool_decide (alive p))) (PROCESSES k) = true -> no_process k.
Proof.
  intros H pid p Hp%list_elem_of_lookup_2. rewrite forallb_forall in H.
  by apply list_elem_of_In, H, negb_true_iff, bool_decide_eq_false in Hp.
Qed.

(** A program without rights, and [exit(7)]. *)
Definition fault_frame : TrapFrame := mkFrame (replicate 31 0) USER_BASE 0 (USER_STACK_VA + USER_STACK_SIZE).
Definition data_abort : Z := Z.shiftl 0x24 26.
Definition demo_trap (esr : Z) (f : TrapFrame) : M kernel ending :=
  exception_dispatch demo_programs 0x100 0x200 demo_stack 8 esr 0 0 f.
Definition exit_frame : TrapFrame := svc_frame SYS_EXIT 7 0 (replicate 28 0).

(** Two processes, the first of which runs: what the second one is, and that the
    first can read its text and write its stack. *)
Definition demo_view (k : kernel) : bool :=
  runs_now k 0 &&
  match PROCESSES k !! 0%nat, PROCESSES k !! 1%nat with
  | Some p, Some q =>
      bool_decide (alive q) &&
      match mmu_walk (kernel_mem k) (p_ttbr0 p) USER_BASE with Some (_, e) => el0_access e | None => false end &&
      bool_decide (is_Some (el0_store (kernel_mem k) (live_l0 (the_mmu k)) USER_STACK_VA 65))
  | _, _ => false
  end.

(** The running process maps its ring and asks for eight bytes of input to be
    stored at the start of RAM, which is the kernel's. *)
Definition setup_frame : TrapFrame := svc_frame SYS_RING_SETUP 0 0 (replicate 28 0).
Definition hostile_bytes : list (Z * Z) :=
  [(USER_RING_VA + SQ, OP_READ); (USER_RING_VA + SQ + 11, 0x40); (USER_RING_VA + SQ + 16, 8); (USER_STACK_VA, 72); (USER_STACK_VA + 1, 105)].

(** The machine with the library after [setup]. *)
Definition demo_library (k : kernel) : machine := mkMachine k USER_RING_VA STASH_new 1.

(** No completion and no input is there, no read is parked; it has written a word on
    its stack. *)
Definition reader_view (k : kernel) : bool :=
  bool_decide (foreground_pid k = Some O) && bool_decide (contents (INPUT (kcon k)) = []) && bool_decide (rx (uart (kcon k)) = []) &&
  match PROCESSES k !! 0%nat with
  | Some p =>
      forallb is_none (p_pending p) &&
      (read32 (kernel_mem k) (p_ring_pa p + CQ_HEAD) =? 0) && (read32 (kernel_mem k) (p_ring_pa p + CQ_TAIL) =? 0) &&
      (read32 (kernel_mem k) (p_ring_pa p + SQ_HEAD) =? 0) && (read32 (kernel_mem k) (p_ring_pa p + SQ_TAIL) =? 0) &&
      bool_decide (page_at (demo_library k) = Some (p_ring_pa p)) &&
      bool_decide (sees k p USER_STACK_VA = Some 72) && bool_decide (sees k p (USER_STACK_VA + 1) = Some 105)
  | None => false
  end.

Fixpoint stores_then (l : list (Z * Z)) (f : kernel -> bool) (k : kernel) : bool :=
  match l with
  | [] => f k
  | (va, b) :: l' => runs_now k 0 && then_holds (sttrb va b) k (stores_then l' f)
  end.

Definition hostile_view (k : kernel) : bool :=
  runs_now k 0 &&
  match PROCESSES k !! 0%nat with
  | Some p =>
      let a := p_ring_pa p + SQ in
      negb (p_ring_pa p =? 0) && (read64 (kernel_mem k) a =? OP_READ) && (read64 (kernel_mem k) (a + 8) =? RAM_BASE)
  | None => false
  end.

(** The text of echo, on the stack of a process that has no ring yet. *)
Definition echo_bytes : list (Z * Z) := imap (fun i b => (USER_STACK_VA + Z.of_nat i, b)) echo_text.
Definition echo_view (k : kernel) : bool :=
  runs_now k 0 && (4 <=? free_count (fa (ph (the_mmu k)))) &&
  match PROCESSES k !! 0%nat with
  | Some p =>
      (p_ring_pa p =? 0) && forallb (fun i => bool_decide (sees k p (USER_STACK_VA + Z.of_nat i) = echo_text !! i)) (seq 0 (length echo_text))
  | None => false
  end.

(** Boot and a shell; the shell runs and faults, or another is started and the
    first one runs. *)
Abbreviation demo_facts := (
  then_holds demo_kmain power_on (fun b => then_holds (spawn_thread 0x100 demo_stack 0x300) (bk b) (fun _ => true) &&
  then_holds demo_shell (bk b) (fun k1 =>
    then_holds (in_sched yield_now) k1 (fun k => then_holds (demo_trap data_abort fault_frame) k (fun k' =>
      forallb (fun p => negb (bool_decide (alive p))) (PROCESSES k'))) &&
    then_holds demo_shell k1 (fun k2 => then_holds (in_sched yield_now) k2 (fun k3 =>
      demo_view k3 && stores_then echo_bytes echo_view k3 &&
      then_holds (demo_trap (Z.shiftl EC_SVC 26) setup_frame) k3 (stores_then hostile_bytes (fun k => hostile_view k && reader_view k))))))).

Abbreviation demo_steps := (rtc (kstep demo_programs 0x100 0x200 demo_stack false)).

Lemma stores_then_steps l f k :
  stores_then l f k = true -> exists k', demo_steps k k' /\ f k' = true.
Proof.
  revert k. induction l as [|[va b] l IH]; intros k H; cbn [stores_then] in H; [by exists k|].
  apply andb_true_iff in H as [(p & Hr)%runs_now_runs H]. apply then_holds_run in H as ([] & k1 & H1 & H).
  destruct (IH k1 H) as (k' & Hs & Hf). exists k'. split; [|done]. eapply rtc_l; [|exact Hs].
  unfold sttrb in H1. apply bind_run in H1 as (k0 & k2 & [= <- <-] & H1). apply bind_run in H1 as (m & k2 & H2 & [= <-]).
  unfold expectM in H2. destruct (el0_store _ _ _ _) as [m'|] eqn:Es; [|done]. injection H2 as <- <-.
  apply (st_store _ _ _ _ _ _ va b m'); [by exists 0%nat, p|done].
Qed.

Lemma demo_run : exists k0 k1 k2 k3 k4, demo_boots k0 /\ (exists k, spawn_thread 0x100 demo_stack 0x300 k0 = Ret (tt, k)) /\
  (demo_steps k0 k1 /\ no_process k1) /\ demo_steps k0 k2 /\ (demo_steps k2 k3 /\ demo_view k3 = true) /\
  demo_steps k3 k4 /\ hostile_view k4 = true /\ reader_view k4 = true /\ exists k5, demo_steps k3 k5 /\ echo_view k5 = true.
Proof.
  assert (H : demo_facts = true) by (vm_compute; reflexivity).
  apply then_holds_run in H as ([] & b & Hb & H).
  apply andb_true_iff in H as [([] & ks & Hsp & _)%then_holds_run H]. apply then_holds_run in H as ([] & k1 & H1 & H).
  apply andb_true_iff in H as [H Hv]. apply then_holds_run in H as ([] & k & Hy & H).
  apply then_holds_run in H as (e & k' & Hf & H%none_alive).
  apply then_holds_run in Hv as ([] & k2 & H2 & Hv). apply then_holds_run in Hv as ([] & k3 & H3 & Hv).
  apply andb_true_iff in Hv as [Hv Hh]. apply andb_true_iff in Hv as [Hv He]. apply then_holds_run in Hh as (e4 & k4 & H4 & Hh).
  destruct (stores_then_steps _ _ _ Hh) as (k5 & H5 & Hw). apply andb_true_iff in Hw as [Hw1 Hw2].
  apply stores_then_steps in He. assert (Hboot : demo_boots (bk b)) by (exists demo_vectors, demo_end, demo_irqs, power_on, b; split; [apply demo_bootable|by split]).
  pose proof (boots_task _ _ _ _ _ Hboot) as T0. destruct (boots_kinv _ _ _ _ _ Hboot) as (_ & _ & K & A & I0).
  destruct (shell_step K A _ _ _ _ demo_programs_ok _ _ I0 T0 H1) as (S1 & I1 & T1).
  destruct (shell_step K A _ _ _ _ demo_programs_ok _ _ I1 T1 H2) as (S2 & I2 & T2).
  exists (bk b), k', k2, k3, k5. split; [|split; [by exists ks|split; [split; [|done]|split; [|split; [split; [|done]|split; [|exact (conj Hw1 (conj Hw2 He))]]]]]].
  - exact Hboot.
  - eapply rtc_l; [exact S1|]. eapply rtc_l; [exact (yield_step _ _ _ _ _ _ T1 Hy)|]. eapply rtc_once, st_exception. exact Hf.
  - eapply rtc_l; [exact S1|]. exact (rtc_once _ _ S2).
  - exact (rtc_once _ _ (yield_step _ _ _ _ _ _ T2 H3)).
  - eapply rtc_l; [|exact H5]. eapply st_exception. exact H4.
Qed.

(** The state with two processes. *)
Lemma demo_pair : exists k p q n e m', demo_comes_to k /\ runs k 0 p /\ PROCESSES k !! 1%nat = Some q /\ alive q /\
  mmu_walk (kernel_mem k) (p_ttbr0 p) USER_BASE = Some (n, e) /\ el0_access e = true /\
  el0_store (kernel_mem k) (live_l0 (the_mmu k)) USER_STACK_VA 65 = Some m'.
Proof.
  destruct demo_run as (k0 & _ & k2 & k & _ & Hb & _ & _ & Hs2 & [Hs Hv] & _). unfold demo_view in Hv.
  apply andb_true_iff in Hv as [(p & Hr)%runs_now_runs Hv]. pose proof Hr as (_ & Hp & _). rewrite Hp in Hv.
  destruct (PROCESSES k !! 1%nat) as [q|] eqn:Hq; [|done].
  apply andb_true_iff in Hv as [Hv [m' Hm]%bool_decide_eq_true]. apply andb_true_iff in Hv as [Ha%bool_decide_eq_true Hw].
  destruct (mmu_walk _ _ _) as [[n e]|] eqn:E; [|done].
  exists k, p, q, n, e, m'. split_and!; try done. exists k0. split; [done|]. by transitivity k2.
Qed.

(** A kernel of 64 KiB of text and 16 KiB of statics. *)
Definition kernel_sections : sections := mkSections (mkSection 0x10000 4) (mkSection 0 1) (mkSection 0 1) (mkSection 0x4000 8).

Lemma start_boots_witness : exists e',
  _start kernel_sections (kmain_to_sched demo_programs 0x100 0x200 demo_stack demo_vectors (_kernel_end kernel_sections) demo_irqs)
    (mkStub (replicate 31 0) 0 0 false power_on) = Ret (tt, e') /\
  fp e' = true /\ esp e' = 0x400d4000 /\ idle_only (bk (eb e')) /\ listening demo_vectors (eb e').
Proof.
  destruct (start_boots demo_programs 0x100 0x200 demo_stack demo_vectors kernel_sections demo_irqs (mkStub (replicate 31 0) 0 0 false power_on))
    as (e' & Hrun & Hf & Hs & _ & _ & _ & Hi & Hl & _).
  - repeat split; cbn; lia.
  - reflexivity.
  - vm_compute. discriminate.
  - apply demo_bootable.
  - vm_compute. lia.
  - reflexivity.
  - exists e'. split; [exact Hrun|]. split; [exact Hf|]. split; [rewrite Hs; reflexivity|exact (conj Hi Hl)].
Defined.

Lemma kernel_invariant_witness : exists K A k0 k2, demo_boots k0 /\ demo_steps k0 k2 /\ Kinv K A k0 /\ Kinv K A k2.
Proof.
  destruct demo_run as (k0 & _ & k2 & _ & _ & Hb & _ & _ & Hs & _).
  destruct (kernel_invariant demo_programs 0x100 0x200 demo_stack demo_programs_ok k0 Hb) as (K & A & H).
  exists K, A, k0, k2. split; [exact Hb|]. split; [exact Hs|]. split; apply H; [apply rtc_refl|exact Hs].
Defined.


Lemma store_stays_private_witness : exists k q m', demo_comes_to k /\ PROCESSES k !! 1%nat = Some q /\
  el0_store (kernel_mem k) (live_l0 (the_mmu k)) USER_STACK_VA 65 = Some m' /\
  el0_load m' (p_ttbr0 q) USER_STACK_VA = el0_load (kernel_mem k) (p_ttbr0 q) USER_STACK_VA.
Proof.
  destruct demo_pair as (k & p & q & n & e & m' & Hc & Hr & Hq & Hqa & _ & _ & Hs).
  destruct (store_stays_private demo_programs 0x100 0x200 demo_stack demo_programs_ok k 0 p USER_STACK_VA 65 m' Hc Hr Hs)
    as [_ H].
  exists k, q, m'. split_and!; [exact Hc|exact Hq|exact Hs|]. exact (H 1%nat q USER_STACK_VA ltac:(lia) Hq Hqa).
Defined.

Lemma frames_all_return_witness : exists k0 k, demo_boots k0 /\ demo_steps k0 k /\
  free_frame_count (ph (the_mmu k)) = free_frame_count (ph (the_mmu k0)).
Proof.
  destruct demo_run as (k0 & k & _ & _ & _ & Hb & _ & [Hs Hn] & _). exists k0, k. split; [exact Hb|]. split; [exact Hs|].
  exact (frames_all_return demo_programs 0x100 0x200 demo_stack demo_programs_ok k0 k Hb Hs Hn).
Defined.

(** The timer's interrupt while the table is locked, and the UART's. *)
Lemma interrupts_complete_witness : exists k k' k1, demo_comes_to k /\
  handle_irq_locking 10 TIMER_INTID (mkLocked true k) = Ret (Some tt, mkLocked true k') /\
  handle_irq_locking 10 UART_INTID (mkLocked true k) = Ret (None, mkLocked true k1).
Proof.
  assert (Hne : TIMER_INTID <> UART_INTID) by discriminate.
  destruct demo_pair as (k & p & q & n & e & m' & Hc & _). exists k.
  pose proof (interrupts_complete demo_programs 0x100 0x200 demo_stack demo_programs_ok 10 (mkLocked true k) TIMER_INTID Hc) as [H1 H2].
  pose proof (H1 (or_intror Hne)) as (k' & Hr & _). pose proof (H2 eq_refl) as (k1 & Hs & _).
  exists k', k1. exact (conj Hc (conj Hr Hs)).
Defined.

Lemma fault_ends_process_witness : exists k p K A k', demo_comes_to k /\
  demo_trap data_abort fault_frame k = Ret (Retired, k') /\ retired K A k 0 p (-1) k'.
Proof.
  destruct demo_pair as (k & p & q & n & e & m' & Hc & Hr & _). exists k, p.
  destruct (fault_ends_process demo_programs 0x100 0x200 demo_stack demo_programs_ok k 0 p 8 data_abort 0 0 fault_frame
    Hc Hr ltac:(lia) eq_refl ltac:(discriminate)) as (K & A & k' & H). exists K, A, k'. exact (conj Hc H).
Defined.

Lemma exit_ends_process_witness : exists k p K A k', demo_comes_to k /\
  demo_trap (Z.shiftl EC_SVC 26) exit_frame k = Ret (Retired, k') /\ retired K A k 0 p 7 k'.
Proof.
  destruct demo_pair as (k & p & q & n & e & m' & Hc & Hr & _). exists k, p.
  destruct (exit_ends_process demo_programs 0x100 0x200 demo_stack demo_programs_ok k 0 p 8 (Z.shiftl EC_SVC 26) 0 0
    exit_frame 7 Hc Hr eq_refl eq_refl eq_refl eq_refl) as (K & A & k' & H). exists K, A, k'. exact (conj Hc H).
Defined.

Lemma stale_root_unmaps_kernel_witness : exists k k' root s, demo_comes_to k /\ retire (-1) k = Ret (Retired, k') /\
  proc_ttbr0 0 k' = Ret (root, k') /\ activate root (the_mmu k') = Ret (tt, s) /\
  hw_walk (mem_of s) 3 (ttbr0_el1 s) RAM_BASE = None.
Proof.
  destruct demo_pair as (k & p & q & n & e & m' & Hc & Hr & _).
  destruct (comes_to_kinv _ _ _ _ demo_programs_ok k Hc) as (K & A & Hk).
  destruct (run_to _ _ _ _ (retire_wp K A 0 p (-1) k Hk Hr)) as (k' & Hrun & _).
  destruct (stale_root_unmaps_kernel K A k 0 p (-1) Retired k' RAM_BASE Hk Hr Hrun ltac:(unfold RAM_BASE; lia))
    as (root & s & H). exists k, k', root, s. exact (conj Hc (conj Hrun H)).
Defined.

Lemma submission_never_panics_witness : exists k p k', demo_comes_to k /\ runs k 0 p /\
  read64 (kernel_mem k) (p_ring_pa p + SQ) = OP_READ /\ read64 (kernel_mem k) (p_ring_pa p + SQ + 8) = RAM_BASE /\
  process_sqe demo_programs 0x100 0x200 demo_stack 0 (p_ring_pa p + SQ) k = Ret (tt, k').
Proof.
  destruct demo_run as (k0 & _ & k2 & k3 & k & Hb & _ & _ & Hs2 & [Hs3 _] & Hs & Hv & _). unfold hostile_view in Hv.
  apply andb_true_iff in Hv as [(p & Hr)%runs_now_runs Hv]. pose proof Hr as (_ & Hp & _). rewrite Hp in Hv.
  apply andb_true_iff in Hv as [Hv H2%Z.eqb_eq]. apply andb_true_iff in Hv as [H0%negb_true_iff%Z.eqb_neq H1%Z.eqb_eq].
  assert (Hc : demo_comes_to k) by (exists k0; split; [exact Hb|]; transitivity k2; [exact Hs2|]; by transitivity k3).
  destruct (submission_never_panics demo_programs 0x100 0x200 demo_stack demo_programs_ok k 0 p (p_ring_pa p + SQ) Hc Hp H0
    (runs_live k 0 p Hr) ltac:(rewrite H1; discriminate)) as (k' & _ & _ & Hrun & _).
  exists k, p, k'. split_and!; [exact Hc|exact Hr|exact H1|exact H2|exact Hrun].
Defined.

(** The process with its ring, a word on its stack and a silent keyboard. *)
Lemma demo_reader : exists K A k p, demo_comes_to k /\ asks K A 0 p [] 7 k /\
  (foreground_pid k = Some O /\ p_pending p = replicate MAX_PENDING None /\ contents (INPUT (kcon k)) = [] /\ rx (uart (kcon k)) = []) /\
  (sees k p USER_STACK_VA = Some 72 /\ sees k p (USER_STACK_VA + 1) = Some 105) /\ idle_ring K A 0 p (demo_library k).
Proof.
  destruct demo_run as (k0 & _ & k2 & k3 & k & Hb & _ & _ & Hs2 & [Hs3 _] & Hs & Hv & Hw & _). unfold hostile_view in Hv.
  apply andb_true_iff in Hv as [(p & Hr)%runs_now_runs Hv]. pose proof Hr as (_ & Hp & _). unfold reader_view in Hw. rewrite Hp in Hv, Hw.
  apply andb_true_iff in Hv as [Hv _]. apply andb_true_iff in Hv as [H0%negb_true_iff%Z.eqb_neq _].
  apply andb_true_iff in Hw as [Hw Hw2]. apply andb_true_iff in Hw as [Hw Hrx%bool_decide_eq_true].
  apply andb_true_iff in Hw as [Hfg%bool_decide_eq_true Hin%bool_decide_eq_true].
  apply andb_true_iff in Hw2 as [Hw2 S2%bool_decide_eq_true]. apply andb_true_iff in Hw2 as [Hw2 S1%bool_decide_eq_true].
  apply andb_true_iff in Hw2 as [Hw2 Hpg%bool_decide_eq_true]. apply andb_true_iff in Hw2 as [Hw2 Q2%Z.eqb_eq].
  apply andb_true_iff in Hw2 as [Hw2 Q1%Z.eqb_eq]. apply andb_true_iff in Hw2 as [Hw2 C2%Z.eqb_eq].
  apply andb_true_iff in Hw2 as [Hpe C1%Z.eqb_eq].
  assert (Hc : demo_comes_to k) by (exists k0; split; [exact Hb|]; transitivity k2; [exact Hs2|]; by transitivity k3).
  destruct (comes_to_kinv _ _ _ _ demo_programs_ok k Hc) as (K & A & Hk). exists K, A, k, p. split; [exact Hc|].
  pose proof Hk as (T & l & [Hkb _]). pose proof (rf_pending _ _ _ (ki_refs _ _ _ _ _ Hkb 0%nat p Hp)) as Hlen.
  assert (Hm : mem_ok (kernel_mem k)) by (apply (kinv_mem_ok K A); by exists T, l).
  assert (Hcq : cq (kernel_mem k) (p_ring_pa p) [])
    by (split; [exact Hm|by rewrite C1, C2|unfold RING_ENTRIES; cbn; lia|by intros [] e]).
  assert (Hsq : sq (kernel_mem k) (p_ring_pa p) []) by (split; [exact Hm|by rewrite Q1, Q2|by intros [] e]).
  split; [split; [exact Hk|exact Hr|exact H0|exact Hcq|cbn; lia|lia]|]. split.
  2: { split; [by split|]. split; [exact Hk|exact Hr|exact Hpg|exact Hsq|exact Hcq|by repeat constructor|cbn; lia]. }
  split; [exact Hfg|]. split; [|by split]. symmetry. apply replicate_as_elem_of. split; [exact Hlen|].
  intros x Hx. rewrite forallb_forall in Hpe. apply list_elem_of_In, Hpe in Hx. by destruct x.
Qed.

(** Eight bytes of its stack are a buffer of any process. *)
Lemma stack_buffer p o n : 0 <= o -> 0 < n -> o + n <= 8 -> buffer p (USER_STACK_VA + o) n.
Proof.
  assert (Hin : forall i n, 0 <= i -> 0 <= n -> i + n <= 8 -> in_user_range p (USER_STACK_VA + i) n true = true).
  { intros i m Hi Hm Hs. unfold in_user_range, checked_add, USER_STACK_VA, USER_STACK_SIZE, USER_BASE, FRAME_SIZE.
    rewrite (proj2 (Z.ltb_lt _ _)) by zlia. by rewrite (proj2 (Z.leb_le _ _)), (proj2 (Z.leb_le _ _)) by zlia. }
  intros Ho Hn Hs. split; [unfold USER_STACK_VA, USER_BASE; zlia|done|apply Hin; lia| |].
  - intros i Hi. rewrite <-Z.add_assoc. apply Hin; lia.
  - intros i Hi. unfold ring_page, USER_STACK_VA, USER_RING_VA, USER_BASE. zlia.
Qed.

(** The host sends a letter. *)
Definition typed (b : Z) (k : kernel) : kernel :=
  set_con (set_uart (mkPl011 (rx (uart (kcon k)) ++ [b]) (tx (uart (kcon k))) (imsc (uart (kcon k))) (Console.busy (uart (kcon k)))) (kcon k)) k.

Lemma typed_step b k : is_byte b -> kstep demo_programs 0x100 0x200 demo_stack false k (typed b k).
Proof. intros Hb. by apply (st_host _ _ _ _ _ k b (uart (kcon k))). Qed.

Lemma typed_asks K A p q ud b k : asks K A 0 p q ud k -> is_byte b -> asks K A 0 p q ud (typed b k).
Proof.
  intros [H1 H2 H3 H4 H5 H6] Hb. split; try done. apply (kstep_kinv K A demo_programs 0x100 0x200 demo_stack demo_programs_ok k); [done|by apply typed_step].
Qed.

Lemma print_shows_witness : exists K A k p k', asks K A 0 p [] 7 k /\
  exec_sqe demo_programs 0x100 0x200 demo_stack 0 OP_PRINT USER_STACK_VA 2 7 k = Ret (tt, k') /\
  tx (uart (kcon k')) = tx (uart (kcon k)) ++ [72; 105] /\ cq (kernel_mem k') (p_ring_pa p) [(7, 0)].
Proof.
  destruct demo_reader as (K & A & k & p & _ & Ha & _ & [S1 S2] & _).
  assert (Hr : in_user_range p USER_STACK_VA 2 false = true) by reflexivity.
  destruct (print_shows K A demo_programs 0x100 0x200 demo_stack 0 p [] 7 USER_STACK_VA 2 [72; 105] k Ha ltac:(by vm_compute)
    ltac:(lia)) as (k' & Hrun & Ht & Hans).
  { intros _. split; [reflexivity|]. intros [|[|i]] b Hi; [injection Hi as <-; exact S1|injection Hi as <-; exact S2|discriminate Hi]. }
  rewrite Hr in Ht, Hans. exists K, A, k, p, k'. split; [exact Ha|]. split; [exact Hrun|]. split; [exact Ht|exact (as_cq _ _ _ _ _ _ _ _ Hans)].
Defined.

(** "Hi", and its second letter again. *)
Lemma prints_in_order_witness : exists K A k p s', idle_ring K A 0 p (demo_library k) /\
  print_all demo_programs 0x100 0x200 demo_stack 0 [(USER_STACK_VA, 2); (USER_STACK_VA + 1, 1)] (demo_library k) =
    Ret ([Some 0; Some 0], s') /\
  tx (uart (kcon (uk s'))) = tx (uart (kcon k)) ++ [72; 105; 105].
Proof.
  destruct demo_reader as (K & A & k & p & _ & Ha & _ & [S1 S2] & Hid).
  assert (Hoff : forall i, 0 <= i < 2 -> (USER_STACK_VA + i) / 4096 <> ring_page)
    by (intros i Hi; unfold ring_page, USER_STACK_VA, USER_RING_VA, USER_BASE; zlia).
  destruct (prints_in_order K A demo_programs 0x100 0x200 demo_stack 0 p (ak_ring _ _ _ _ _ _ _ Ha) 0
    [(USER_STACK_VA, 2); (USER_STACK_VA + 1, 1)] [[72; 105]; [105]] (demo_library k) Hid) as (s' & Hrun & Hl & _).
  - repeat apply Forall2_cons_2; [..|apply Forall2_nil_2]; cbn [fst snd].
    + split; [by vm_compute|lia|reflexivity|exact Hoff|].
      intros [|[|i]] b _ Hi; [injection Hi as <-; exact S1|injection Hi as <-; exact S2|discriminate Hi].
    + split; [by vm_compute|lia|reflexivity|intros i Hi; rewrite <-Z.add_assoc; apply Hoff; lia|].
      intros [|i] b _ Hi; [injection Hi as <-; exact S2|discriminate Hi].
  - exists K, A, k, p, s'. split; [exact Hid|]. split; [exact Hrun|exact Hl].
Defined.

Lemma echo_completes_witness : exists K A k p f s1 s', newborn K A 0 p (mkMachine k 0 STASH_new 1) /\
  tx (uart (kcon (uk s1))) = tx (uart (kcon k)) ++ crlf echo_text /\
  echo_start demo_programs 0x100 0x200 demo_stack 0 USER_STACK_VA (mkMachine k 0 STASH_new 1) = Ret (Retired, s') /\
  retired K A (uk s1) 0 (with_page USER_RING_VA f p) 0 (uk s').
Proof.
  destruct demo_run as (k0 & _ & k2 & k3 & _ & Hb & _ & _ & Hs2 & [Hs3 _] & _ & _ & _ & k & Hs & Hv). unfold echo_view in Hv.
  apply andb_true_iff in Hv as [Hv Hw]. apply andb_true_iff in Hv as [(p & Hr)%runs_now_runs Hf%Z.leb_le].
  pose proof Hr as (_ & Hp & _). rewrite Hp in Hw. apply andb_true_iff in Hw as [H0%Z.eqb_eq Hsee].
  assert (Hc : demo_comes_to k) by (exists k0; split; [exact Hb|]; transitivity k2; [exact Hs2|]; by transitivity k3).
  destruct (comes_to_kinv _ _ _ _ demo_programs_ok k Hc) as (K & A & Hk).
  assert (Hn : newborn K A 0 p (mkMachine k 0 STASH_new 1)) by (split; [exact Hk|]; split; [exact Hr|by split]).
  destruct (echo_completes K A demo_programs 0x100 0x200 demo_stack 0 p 0 USER_STACK_VA _ Hn Hf ltac:(reflexivity))
    as (f & s1 & s' & _ & Hl & Hrun & Hrt).
  - split; [by vm_compute|by vm_compute|reflexivity|..].
    + intros i Hi. change (Z.of_nat (length echo_text)) with 34 in Hi. unfold ring_page, USER_STACK_VA, USER_RING_VA, USER_BASE. zlia.
    + intros i b _ Hi. rewrite <-Hi. apply (bool_decide_eq_true_1 _), (proj1 (forallb_forall _ _) Hsee), list_elem_of_In, elem_of_seq.
      pose proof (lookup_lt_Some _ _ _ Hi). lia.
  - exists K, A, k, p, f, s1, s'. split; [exact Hn|]. split; [exact Hl|]. split; [exact Hrun|exact Hrt].
Defined.

Lemma read_meets_input_witness : exists K A k p k1 k2, asks K A 0 p [] 7 k /\ rx (uart (kcon k)) = [65; 66] /\
  (exec_sqe demo_programs 0x100 0x200 demo_stack 0 OP_READ USER_STACK_VA 8 7 ;;; receive) k = Ret (tt, k1) /\
  (receive ;;; exec_sqe demo_programs 0x100 0x200 demo_stack 0 OP_READ USER_STACK_VA 8 7) k = Ret (tt, k2) /\
  cq (kernel_mem k1) (p_ring_pa p) [(7, 2)] /\ cq (kernel_mem k2) (p_ring_pa p) [(7, 2)] /\ sees k1 p USER_STACK_VA = Some 65.
Proof.
  destruct demo_reader as (K & A & k & p & _ & Ha & (Hf & Hpe & Hin & Hrx) & _).
  set (k0 := typed 66 (typed 65 k)). assert (Ha0 : asks K A 0 p [] 7 k0) by (apply typed_asks; [apply typed_asks|]; done).
  assert (Hr0 : rx (uart (kcon k0)) = [65; 66]) by (cbn; by rewrite Hrx).
  assert (Ht0 : typed_bytes k0 = [65; 66]) by (unfold typed_bytes; rewrite Hr0; change (INPUT (kcon k0)) with (INPUT (kcon k)); by rewrite Hin).
  assert (Hq : quiet_keyboard 0 p k0) by (split; [exact Hf|exact Hpe|exact Hin|by rewrite Hr0]).
  destruct (read_meets_input K A demo_programs 0x100 0x200 demo_stack 0 p [] 7 USER_STACK_VA 8 k0 Ha0 Hq
    (stack_buffer p 0 8 ltac:(lia) ltac:(lia) ltac:(lia))) as (k1 & k2 & R1 & (D1 & _) & R2 & (D2 & _)). rewrite Ht0 in D1, D2.
  exists K, A, k0, p, k1, k2. split_and!; [exact Ha0|exact Hr0|exact R1|exact R2|exact (as_cq _ _ _ _ _ _ _ _ D1)|exact (as_cq _ _ _ _ _ _ _ _ D2)|].
  exact (as_sees _ _ _ _ _ _ _ _ D1 0%nat 65 eq_refl).
Defined.





(** [kmain] starts its first thread, and a byte arrives before it goes on. *)
Lemma preempted_threads_witness : exists k0 k k' t', demo_boots k0 /\
  pstep demo_programs 0x100 0x200 demo_stack 0 (kmain_rest demo_programs 0x300 0x400 0x500, k0) (t', k) /\
  pstep demo_programs 0x100 0x200 demo_stack 0 (t', k) (t', k') /\ rx (uart (kcon k')) = rx (uart (kcon k)) ++ [65] /\
  demo_comes_to k'.
Proof.
  destruct demo_run as (k0 & _ & _ & _ & _ & Hb & [k Hrun] & _). destruct (boots_kinv _ _ _ _ _ Hb) as ((_ & _ & Hcur) & _).
  set (t := kmain_rest demo_programs 0x300 0x400 0x500). eassert (H1 : pstep demo_programs 0x100 0x200 demo_stack 0 (t, k0) (_, k))
    by (apply ps_thread; [exact Hcur|exact (boots_task _ _ _ _ _ Hb)|exists tt; split; [exact Hrun|reflexivity]]).
  set (k' := set_con (set_uart (mkPl011 (rx (uart (kcon k)) ++ [65]) (tx (uart (kcon k))) (imsc (uart (kcon k)))
    (Console.busy (uart (kcon k)))) (kcon k)) k).
  match type of H1 with pstep _ _ _ _ _ _ (?u, _) =>
    assert (H2 : pstep demo_programs 0x100 0x200 demo_stack 0 (u, k) (u, k')) end.
  { apply ps_others; [apply (st_host _ _ _ _ _ k 65 (uart (kcon k))); [unfold is_byte; lia|reflexivity]|discriminate]. }
  exists k0, k, k'. eexists. split; [exact Hb|]. split; [exact H1|]. split; [exact H2|]. split; [reflexivity|].
  refine (proj1 (preempted_threads demo_programs 0x100 0x200 demo_stack demo_programs_ok Empty_set t _ 0 k0 k' (kt_main _ _ _ _ _)
    _ (rtc_l _ _ _ _ H1 (rtc_once _ _ H2)))).
  exists k0. split; [exact Hb|apply rtc_refl].
Defined.
